(* ===== verification/_CoqProject ===== *)
-Q . S2P
Prelude.v
EventSet.v
ReadinessState.v
Duration.v
LazyCell.v
Awakener.v
Selector.v
ReadinessQueue.v
Registration.v
QueueInv.v
QueueSpec.v
RegistrationSpec.v
HandleSpec.v
QueueProps.v
Mpsc.v
MpscInv.v
MpscSpec.v
MpscProps.v
MpscTheorems.v
NodeSync.v
NodeSyncInv.v
NodeSyncProps.v
NodeSyncTheorems.v
NodeSyncRuns.v
Sys.v
Interfaces.v
Timer.v
DList.v
TimerInv.v
TimerSpec.v
TimerProps.v
TimerTheorems.v
PollReadiness.v
Wakeup.v
Net.v
Connection.v
ConnectionProps.v
PollLock.v
Poll.v
PollProps.v
PollCalls.v
Evented.v
Tcp.v
Socket.v
Layers.v
SocketProps.v
EventedProps.v
EventLoop.v
EventLoopProps.v
RunProps.v
Pool.v
Server.v
ServerProps.v
ServerTheorems.v
ConnSteps.v
Client.v
ClientProps.v
ClientTheorems.v
Handoff.v
HandoffProps.v
HandoffQueue.v
ReplyServer.v
ReplyServerProps.v
ReplyServerPasses.v
ReplyServerDemo.v
RequestClient.v
RequestClientProps.v
Tunnel.v
TunnelProps.v
TunnelDemo.v
