(* ===== verification/Prelude.v ===== *)
(** * Sickle: a verified model of the event library

    Sickle is a library for non-blocking I/O on Linux: a poll over epoll, a
    timer wheel, an event loop that runs closures, and TCP servers and clients
    on top.  This development translates it from the bottom up.  A component
    is one file of definitions with the names of the source, and the files of
    lemmas and theorems that follow it; [Prelude] holds what they share: the
    width of machine words, the results of code that may panic ([exec], whose
    [NoFuel] is no behaviour of the code) and of calls that may fail
    ([io_result]), and state-passing computations ([stm]).

    ** Parts and sources (under [src/src/])

    - [EventSet]: [event_imp.rs], [token.rs], [sys/unix/ready.rs]; the sets
      [Ready], [UnixReady] and [PollOpt], tokens, events and job entries.
    - [ReadinessState]: the packed word of a readiness node in [poll.rs];
      [RS.f] is the method [ReadinessState::f].
    - [Duration]: [lib.rs] and [epoll.rs], durations to milliseconds.
    - [LazyCell]: [lazycell.rs].
    - [Awakener]: [sys/unix/awakener.rs]; its ends are in [Evented] and
      [Socket].  [Selector]: [sys/unix/epoll.rs].
    - [ReadinessQueue], [Registration]: the queue of [poll.rs] and its handles
      as operations on a heap of reference-counted nodes; [QueueInv],
      [QueueSpec], [RegistrationSpec], [HandleSpec] and [QueueProps] are its
      invariant, the effect of each operation, and the theorems.
    - [Mpsc], with [MpscInv], [MpscSpec], [MpscProps] and [MpscTheorems]: the
      queue again, one memory access per step, with any number of producers.
    - [NodeSync], with [NodeSyncInv], [NodeSyncProps], [NodeSyncTheorems] and
      [NodeSyncRuns]: [set_readiness], [update], the drops and the poll again,
      interleaved on one node, one access per step.
    - [PollLock]: the lock of [Poll::poll1], with any number of threads.  [Poll],
      [PollProps]: [Poll::new], [poll], [poll1] on its own, and [poll2].
      [PollCalls]: [poll1] with [poll2] inside, for a free and a held lock.
      [Evented], [EventedProps]: the trait and its implementations.
    - [Timer], with [DList], [TimerInv], [TimerSpec], [TimerProps] and
      [TimerTheorems]: [timer.rs].  [Wakeup]: its thread.  [PollReadiness]:
      timers that are registered with a poll.
    - [Net]: [net/mod.rs].  [Connection], [ConnectionProps]:
      [net/connection.rs].
    - [EventLoop], [EventLoopProps], [RunProps], [Pool]: [net/event_loop.rs].
    - [Sys]: [sys/unix/mod.rs], [io.rs], [dlsym.rs] and [uio.rs].  [Tcp],
      [Socket], [SocketProps]: [net/tcp.rs], [sys/unix/tcp.rs] and [Io], how
      sockets are made and their methods.  [Layers]: a world that holds more
      state above the system, and the calls of the system in it.
    - [Server], [ServerProps], [ServerTheorems]: [net/acceptor.rs] and the
      server of [net/tcp_server.rs].  [ConnSteps]: what an event, a send and a
      close do to a connection of it.  [Client], [ClientProps],
      [ClientTheorems]: [net/connector.rs] and the client.
    - [Handoff], [HandoffProps], [HandoffQueue]: [enqueue_job] for the closures
      of a program, the pass that runs one, or many, and the end of a
      connection, which closures keep alive.
    - The programs of [src/examples/]: [ReplyServer], [ReplyServerProps],
      [ReplyServerPasses], [ReplyServerDemo] are [tcp_server.rs]; [RequestClient],
      [RequestClientProps] are [client.rs]; [Tunnel], [TunnelProps] are
      [tunnel.rs]; the runs of the last two are in [TunnelDemo].

    ** How the parts interact

    A poll is a selector, a readiness queue and a lock; [poll1] takes the lock
    and gives it back, and [poll2] in between waits in the selector,
    for no time when the queue could not be put to sleep, and then takes the
    queue's nodes.  A handle is registered through the class [Evented].  A
    timer uses a registration through [ReadinessOps], which [PollReadiness]
    implements by the queue.  A loop is a poll and a timer; a pass of it runs
    the job of every event.  Jobs are values of a type [J] that [run_job]
    runs on the whole loop and the rest of the world, so that a job may
    register, cancel or send; the server, the client and the programs
    instantiate them by [NetJob], [ClientJob] and [Closure], one inside the
    other, as their worlds are ([Server], [Dialers], then the handlers of a
    program, then the system); their connections are sockets of that world.

    ** What the theorems show

    - The queue under interleaving: first in first out, no assertion fails, no
      wakeup is lost, the nodes that have not left are linked in memory from the
      tail to the head, and the consumer gets the first one whenever no producer
      is half way.  In sequence: no access to a freed node, exact reference
      counts, and what each of [poll], [update] and [set_readiness] does.
    - One node under interleaving: its token slots are free of races, its flag
      owns its one place in the queue, a poll reports the readiness and the
      token of the word it looked at, no readiness is lost, the node is freed
      by its last owner; only its job is not protected ([update_job_lost]).
    - The word: the masks and shifts implement a record of fields.
    - The poll: its lock excludes and never deadlocks; [poll2] reports what the
      kernel and the queue have, and leaves the queue awake.  (What other
      threads do to the queue and the selector while [poll2] runs is in [Mpsc]
      and [NodeSync] for the queue, and not modelled for the selector.)
    - The timer: a poll gives the earliest due timeout, of those that were not
      set for a tick the cursor had reached; setting, cancelling and the wakeup
      word are exact; the thread wakes the poll of a due tick, once the writer
      that scheduled it has unparked it.
    - The loop: each event's job runs once, in order; timeouts run; a job handed
      over is run; [run] stops; a pool has distinct, well-formed loops.
    - Sockets and connections: descriptors are non-blocking and never leaked on
      failure; an option that is set is the one that is read; reads lose no byte;
      the close job runs at most once; a readable event of a served connection
      brings its session every byte, whatever else it says; an acceptor takes
      connections in order until accept would block, when none is left, or
      fails; an accepted socket is served by the session made for it; a client
      turns a connected socket into a connection, and tells its handler of one
      that failed.
    - The programs, end to end: the server answers any number of requests in the
      next pass of its loop, closes the sockets and frees the connections, if
      every socket takes the response in one write; the client sends its
      request, and the tunnel forwards what either end sends, also what came
      before it was connected, as far as one write takes it (the rest is lost,
      [partial_write_loses_bytes]); the tunnel deadlocks when a client goes away
      while it is being answered ([tunnel_deadlocks]).
    - Where the code departs from this, a theorem says so, for instance
      [early_connections_are_dropped], [partial_write_loses_bytes],
      [reregister_misroutes], [timeout_at_cursor_is_missed].

    ** Hypotheses on code that is not here

    The kernel, the C library and the crates used are arguments of the model, a
    class of operations each, with their documented behaviour as a class of
    laws: [PipeLaws], [EpollLaws], [LibcLaws], [NetLaws], [StreamLaws],
    [SocketLaws], [SocketLibLaws], [BacklogLaws], [SlabLaws] (crate [slab]), [BytesLaws] (crate
    [bytes]).  Each has an instance ([CountPipe], [ScriptEpoll], [TableLibc],
    [VecSlab], [ListBytes] and the worlds of the [Demo] modules) in which the
    witnesses run.  [ReadinessLaws] and [EventedLaws] are promises between
    components, proved of the code.  The handlers of servers and clients are
    user code; for [client_connects], [CalmHandler] asks that a callback leaves
    the watched sockets and the connections alone; [session_reads] asks of a
    session that its methods return and do not read its socket themselves.  A
    descriptor that is closed leaves the kernel's epoll ([epoll_forget]), but
    not the map of the selector.  Clocks are arguments ([now], [elapsed]).

    ** Bounds and fuel

    Words are [N] with the wrap-around of the code written out; arithmetic that
    panics on overflow does.  The loops of compare-and-swap run with fuel 2 in
    the sequential model, where the first exchange succeeds; the retries and
    races are the subject of [Mpsc], [NodeSync], [PollLock] and [Wakeup], which
    have no fuel; [poll_pass] of [NodeSync] needs 8 steps, as it says.
    Loops over queues, wheels, sockets and backlogs take a fuel for which
    the theorems give a sufficient value (a length, a count of ticks, of bytes
    or of waiting connections), and state that the result is [Done].

    A mutex that a closure holds while it calls user code is part of the state:
    a connection, a connector, a tunnel and the session of a tunnel are out of
    their stores while locked, and a second lock is [Panic PDeadlock].  The other
    sessions have no state, or callbacks that do not lock; the locks of a server
    and of an acceptor are held by the calls that take them.

    ** Not modelled

    Weak memory orderings (steps are sequentially consistent); the association of
    a node of [new2] with its queue while other threads use the node; calls that
    change the selector while another thread is in [poll2]; [Debug] output
    except that of the flag sets, logging, and the loggers that the programs set
    up; the destructors of selectors, handlers, tunnels and connectors, so that a session of
    a tunnel lives as long as the program.  A connection is dropped where a
    closure that holds it is dropped, and where a connect failed. *)
From stdpp Require Export base numbers option gmap list.

#[export] Set Default Goal Selector "!".

Declare Scope sickle_scope.
Delimit Scope sickle_scope with sickle.
Open Scope N_scope.

Create HintDb sickle.
Create Rewrite HintDb sickle_bits.

(** ** Machine integers

    The crate targets 64-bit Linux: [usize] and [u64] are both 64 bits wide
    and are modelled by [N] below [2^64]. *)

Definition word_bits : N := 64.
Definition usize_max : N := N.ones word_bits.
Definition u64_max : N := N.ones word_bits.
Definition u32_max : N := N.ones 32.

Definition fits64 (x : N) : Prop := x <= u64_max.

(** [!x] on a 64-bit word. *)
Definition not64 (x : N) : N := N.lxor x (N.ones word_bits).

(** [x << k] on a 64-bit word: the bits pushed out are lost. *)
Definition shl64 (x k : N) : N := N.land (N.shiftl x k) (N.ones word_bits).

(** ** Results

    A call either finishes with a value, panics (an index out of range, a
    failed [assert!], [unwrap] or arithmetic overflow of a debug build), or
    runs out of the fuel the model gives to a loop. *)

Inductive panic : Set :=
  | PAssert
  | PIndex
  | POverflow
  | PDivZero
  | PUnwrap
  | PUnreachable
  | PAbort
  (** The access of a freed node: undefined behaviour of the unsafe code. *)
  | PFreed
  (** A thread locks a mutex it holds already, and waits for ever. *)
  | PDeadlock.

Inductive exec (A : Type) : Type :=
  | Done (a : A)
  | Panic (p : panic)
  | NoFuel.
Arguments Done {A} a.
Arguments Panic {A} p.
Arguments NoFuel {A}.

#[export] Instance exec_ret : MRet exec := @Done.
#[export] Instance exec_bind : MBind exec := λ A B f m,
  match m with
  | Done a => f a
  | Panic p => Panic p
  | NoFuel => NoFuel
  end.
#[export] Instance exec_fmap : FMap exec := λ A B f m,
  match m with
  | Done a => Done (f a)
  | Panic p => Panic p
  | NoFuel => NoFuel
  end.

(** Calls that read and write a shared state. *)
Definition stm (S A : Type) : Type := S → exec (A * S).

#[export] Instance stm_ret {S} : MRet (stm S) := λ A a s, Done (a, s).
#[export] Instance stm_bind {S} : MBind (stm S) := λ A B f m s,
  match m s with
  | Done (a, s) => f a s
  | Panic p => Panic p
  | NoFuel => NoFuel
  end.

Definition lift {S A} (m : exec A) : stm S A := λ s,
  match m with
  | Done a => Done (a, s)
  | Panic p => Panic p
  | NoFuel => NoFuel
  end.
Definition gets {S A} (f : S → A) : stm S A := λ s, Done (f s, s).
Definition modify {S} (f : S → S) : stm S unit := λ s, Done (tt, f s).

(** [assert! b] and [debug_assert! b]. *)
Definition assert (b : bool) : exec unit :=
  if b then Done () else Panic PAssert.

(** [Option::unwrap], and indexing that panics out of range. *)
Definition unwrap {A} (p : panic) (o : option A) : exec A :=
  match o with Some a => Done a | None => Panic p end.

(** Unsigned addition, subtraction and division of a debug build. *)
Definition add64 (x y : N) : exec N :=
  if x + y <=? u64_max then Done (x + y) else Panic POverflow.
Definition sub64 (x y : N) : exec N :=
  if y <=? x then Done (x - y) else Panic POverflow.
Definition div64 (x y : N) : exec N :=
  if y =? 0 then Panic PDivZero else Done (x / y).

(** [saturating_add], [saturating_mul] and [checked_mul] on [u64]. *)
Definition sat_add64 (x y : N) : N := N.min (x + y) u64_max.
Definition sat_mul64 (x y : N) : N := N.min (x * y) u64_max.
Definition checked_mul64 (x y : N) : option N :=
  if x * y <=? u64_max then Some (x * y) else None.

(** [x.next_power_of_two()]: the smallest power of two that is at least [x];
    a debug build panics when it does not fit. *)
Definition next_power_of_two (x : N) : exec N :=
  let p := 2 ^ N.log2_up x in
  if p <=? u64_max then Done p else Panic POverflow.

(** ** I/O results *)

Inductive io_error : Set :=
  | Interrupted
  | WouldBlock
  | OtherError (code : N).

#[export] Instance io_error_eq_dec : EqDecision io_error.
Proof. solve_decision. Defined.

Inductive io_result (A : Type) : Type :=
  | IoOk (a : A)
  | IoErr (e : io_error).
Arguments IoOk {A} a.
Arguments IoErr {A} e.

(** ** Tactics *)

(** Equality of words bit by bit: reduce both sides to their bits at one
    position and decide the boolean equation. *)
Ltac bitwise :=
  apply N.bits_inj_iff; intros ?i; autorewrite with sickle_bits;
  repeat match goal with
  | |- context [N.testbit ?a ?i] => destruct (N.testbit a i) eqn:?
  | |- context [(?a <? ?b)%N] => destruct (a <? b)%N eqn:?
  end; try reflexivity.

(** [bool] comparisons on [N] to propositions, everywhere. *)
Ltac nbool :=
  repeat match goal with
  | H : (_ <=? _)%N = true |- _ => apply N.leb_le in H
  | H : (_ <=? _)%N = false |- _ => apply N.leb_gt in H
  | H : (_ <? _)%N = true |- _ => apply N.ltb_lt in H
  | H : (_ <? _)%N = false |- _ => apply N.ltb_ge in H
  | H : (_ =? _)%N = true |- _ => apply N.eqb_eq in H
  | H : (_ =? _)%N = false |- _ => apply N.eqb_neq in H
  end.

(** ** The shape of computations *)

Lemma bind_Done {A B} (m : exec A) (f : A → exec B) b :
  m ≫= f = Done b ↔ ∃ a, m = Done a ∧ f a = Done b.
Proof. destruct m; cbn; naive_solver. Qed.

(** A step of a stateful call that is known to succeed. *)
Lemma stm_step {S A B} (m : stm S A) (f : A → stm S B) s a s' :
  m s = Done (a, s') → (m ≫= f) s = f a s'.
Proof. intros E. unfold mbind, stm_bind. by rewrite E. Qed.

(** [step by t] runs the first call of a stateful computation, whose result [t]
    proves. *)
Tactic Notation "step" "by" tactic3(t) := erewrite stm_step by (t; done); cbv beta iota.

Lemma assert_Done b u : assert b = Done u ↔ b = true.
Proof. destruct b, u; cbn; naive_solver. Qed.

Lemma unwrap_Done {A} p (o : option A) a : unwrap p o = Done a ↔ o = Some a.
Proof. destruct o; cbn; naive_solver. Qed.

Lemma add64_ok x y : x + y <= u64_max → add64 x y = Done (x + y).
Proof. intros H. unfold add64. by apply N.leb_le in H as ->. Qed.

Lemma add64_Done x y z : add64 x y = Done z ↔ z = x + y ∧ x + y <= u64_max.
Proof.
  unfold add64. destruct (_ <=? _) eqn:E; nbool; split; intros H; simplify_eq; auto;
    destruct H; subst; [done|lia].
Qed.

Lemma div64_ok x y : y ≠ 0 → div64 x y = Done (x / y).
Proof. intros H. unfold div64. by apply N.eqb_neq in H as ->. Qed.

(** ** Bits of 64-bit words *)

Lemma ones_testbit n i : N.testbit (N.ones n) i = (i <? n).
Proof.
  destruct (i <? n) eqn:E; nbool.
  - by apply N.ones_spec_low.
  - by apply N.ones_spec_high.
Qed.

Lemma fits64_testbit x i : fits64 x → word_bits <= i → N.testbit x i = false.
Proof.
  intros Hx Hi. apply N.bits_above_log2.
  destruct (decide (x = 0)) as [->|Hne]; [cbn; unfold word_bits in *; lia|].
  unfold fits64, u64_max, word_bits in *. rewrite N.ones_equiv in Hx.
  apply N.log2_lt_pow2; [lia|].
  assert (2 ^ 64 <= 2 ^ i) by (apply N.pow_le_mono_r; lia). lia.
Qed.

Lemma testbit_fits64 x : (∀ i, word_bits <= i → N.testbit x i = false) → fits64 x.
Proof.
  intros H. unfold fits64, u64_max.
  assert (x = N.land x (N.ones word_bits)) as ->.
  { apply N.bits_inj_iff. intros i. rewrite N.land_spec, ones_testbit.
    destruct (i <? word_bits) eqn:E; nbool; [by rewrite andb_true_r|].
    rewrite andb_false_r. by apply H. }
  rewrite N.land_ones, N.ones_equiv.
  pose proof (N.mod_lt x (2 ^ word_bits)). lia.
Qed.

Lemma not64_testbit x i :
  N.testbit (not64 x) i = xorb (N.testbit x i) (i <? word_bits).
Proof. unfold not64. by rewrite N.lxor_spec, ones_testbit. Qed.

Lemma land_ones_l x n : N.land (N.ones n) x = x mod 2 ^ n.
Proof. by rewrite N.land_comm, N.land_ones. Qed.

Lemma ones_succ n : N.ones n + 1 = 2 ^ n.
Proof. rewrite N.ones_equiv. pose proof (N.pow_nonzero 2 n). lia. Qed.

(** ** Lists indexed by machine integers *)

Definition nth64 {A} (l : list A) (i : N) : option A := l !! N.to_nat i.
Definition set64 {A} (l : list A) (i : N) (a : A) : list A :=
  <[N.to_nat i := a]> l.

Lemma nth64_set64_eq {A} (l : list A) i a :
  i < N.of_nat (length l) → nth64 (set64 l i a) i = Some a.
Proof. intros H. apply list_lookup_insert_eq. lia. Qed.

Lemma nth64_set64_ne {A} (l : list A) i j a :
  i ≠ j → nth64 (set64 l i a) j = nth64 l j.
Proof. intros H. apply list_lookup_insert_ne. lia. Qed.

Lemma length_set64 {A} (l : list A) i a : length (set64 l i a) = length l.
Proof. apply length_insert. Qed.

Lemma nth64_lt {A} (l : list A) i :
  i < N.of_nat (length l) → ∃ a, nth64 l i = Some a.
Proof. intros H. apply lookup_lt_is_Some. lia. Qed.

Lemma nth64_Some_lt {A} (l : list A) i a :
  nth64 l i = Some a → i < N.of_nat (length l).
Proof. intros H%lookup_lt_Some. lia. Qed.

#[export] Hint Rewrite @length_set64 ones_testbit not64_testbit
  N.land_spec N.lor_spec N.lxor_spec N.ldiff_spec N.bits_0 : sickle_bits.
#[export] Hint Resolve nth64_Some_lt : sickle.

(** ** Counting *)

(** How many elements satisfy a predicate. *)
Definition count {A} (f : A → bool) (ls : list A) : N :=
  N.of_nat (length (filter (λ l, f l = true) ls)).

Definition bit (b : bool) : N := if b then 1 else 0.

Lemma count_insert {A} (f : A → bool) ls i l l' :
  ls !! i = Some l → count f (<[i := l']> ls) + bit (f l) = count f ls + bit (f l').
Proof.
  unfold count, bit. revert i. induction ls as [|a ls IH]; intros [|i] Hi; simplify_eq/=.
  - rewrite !filter_cons. repeat case_decide; destruct (f l), (f l'); try done; cbn; lia.
  - specialize (IH i Hi). rewrite !filter_cons. case_decide; cbn; lia.
Qed.

Lemma count_le {A} (f : A → bool) ls : count f ls <= N.of_nat (length ls).
Proof. unfold count. pose proof (length_filter (λ l, f l = true) ls). lia. Qed.

Lemma count_0 {A} (f : A → bool) ls i l : count f ls = 0 → ls !! i = Some l → f l = false.
Proof.
  unfold count. intros H Hi. destruct (f l) eqn:Ef; [|done].
  assert (l ∈ filter (λ l, f l = true) ls) as Hin.
  { apply list_elem_of_filter. split; [done|by eapply list_elem_of_lookup_2]. }
  destruct (filter _ ls); [by apply not_elem_of_nil in Hin|cbn in H; lia].
Qed.

Lemma count_pos {A} (f : A → bool) ls i l : ls !! i = Some l → f l = true → 1 <= count f ls.
Proof.
  intros Hi Hf. destruct (decide (count f ls = 0)) as [H|H]; [|lia].
  pose proof (count_0 _ _ _ _ H Hi). congruence.
Qed.
