(* ===== verification/EventSet.v ===== *)
(** * Event sets, tokens and events

    The flag sets of [src/src/event_imp.rs] ([Ready], [PollOpt]) and
    [src/src/sys/unix/ready.rs] ([UnixReady]), the tokens of
    [src/src/token.rs], and the [Event] and [JobEntry] records.  A flag set is
    a one-field struct over a [usize]; its operators are the bit operations
    the [ops] impls perform. *)
From Stdlib Require Import String.
From S2P Require Import Prelude.

(** ** Tokens ([token.rs]) *)

Record Token := mkToken { token_val : N }.

Definition token_from_usize (val : N) : Token := mkToken val.
Definition token_into_usize (val : Token) : N := token_val val.

#[export] Instance Token_eq_dec : EqDecision Token.
Proof. solve_decision. Defined.

(** ** [Ready] *)

Definition READABLE : N := 1.
Definition WRITABLE : N := 2.
Definition ERROR : N := 4.
Definition HUP : N := 8.

Record Ready := mkReady { ready_0 : N }.

#[export] Instance Ready_eq_dec : EqDecision Ready.
Proof. solve_decision. Defined.

Module UnixReadyConsts.
Definition AIO : N := 0.
Definition LIO : N := 40.
Definition PRI : N := 72.
End UnixReadyConsts.

Definition READY_ALL : N :=
  N.lor (N.lor (N.lor (N.lor ERROR HUP) UnixReadyConsts.AIO)
    UnixReadyConsts.LIO) UnixReadyConsts.PRI.

(** The [Debug] implementations: the names of the flags contained, separated. *)
Definition fmt_step {F} (contains : F → bool) (acc : bool * string)
    (f : F * string) : bool * string :=
  let '(one, out) := acc in
  if contains f.1 then
    let out := if one then String.append out " | " else out in
    (true, String.append out f.2)
  else (one, out).

Definition fmt_flags {F} (contains : F → bool) (flags : list (F * string)) : string :=
  let '(one, out) := foldl (fmt_step contains) (false, EmptyString) flags in
  if one then out else String.append out "(empty)".

Module Ready.
Definition empty : Ready := mkReady 0.
Definition none : Ready := empty.
Definition readable : Ready := mkReady READABLE.
Definition writable : Ready := mkReady WRITABLE.
Definition error : Ready := mkReady ERROR.
Definition hup : Ready := mkReady HUP.
Definition all : Ready := mkReady (N.lor (N.lor READABLE WRITABLE) READY_ALL).

Definition bitor (self other : Ready) : Ready :=
  mkReady (N.lor (ready_0 self) (ready_0 other)).
Definition bitxor (self other : Ready) : Ready :=
  mkReady (N.lxor (ready_0 self) (ready_0 other)).
Definition bitand (self other : Ready) : Ready :=
  mkReady (N.land (ready_0 self) (ready_0 other)).
Definition sub (self other : Ready) : Ready :=
  mkReady (N.land (ready_0 self) (not64 (ready_0 other))).
Definition not (self : Ready) : Ready := mkReady (not64 (ready_0 self)).

Definition is_empty (self : Ready) : bool := bool_decide (self = empty).
Definition is_none (self : Ready) : bool := is_empty self.
Definition contains (self other : Ready) : bool :=
  bool_decide (bitand self other = other).
Definition is_readable (self : Ready) : bool := contains self readable.
Definition is_writable (self : Ready) : bool := contains self writable.
Definition is_error (self : Ready) : bool := contains self (mkReady ERROR).
Definition is_hup (self : Ready) : bool := contains self (mkReady HUP).

Definition insert (self other : Ready) : Ready :=
  mkReady (N.lor (ready_0 self) (ready_0 other)).
Definition remove (self other : Ready) : Ready :=
  mkReady (N.land (ready_0 self) (not64 (ready_0 other))).
Definition bits (self : Ready) : N := ready_0 self.

(** [impl fmt::Debug for Ready]: the names of the flags it contains. *)
Definition flags : list (Ready * string) :=
  [(readable, "Readable"%string); (writable, "Writable"%string);
   (mkReady ERROR, "Error"%string); (mkReady HUP, "HUP"%string)].

Definition fmt (self : Ready) : string := fmt_flags (contains self) flags.

(** The assigning operators. *)
Definition bitor_assign (self other : Ready) : Ready :=
  mkReady (N.lor (ready_0 self) (ready_0 other)).
Definition bitxor_assign (self other : Ready) : Ready :=
  mkReady (N.lxor (ready_0 self) (ready_0 other)).
Definition bitand_assign (self other : Ready) : Ready :=
  mkReady (N.land (ready_0 self) (ready_0 other)).
Definition sub_assign (self other : Ready) : Ready :=
  mkReady (N.land (ready_0 self) (not64 (ready_0 other))).

Definition from_usize (val : N) : Ready := mkReady val.
Definition as_usize (self : Ready) : N := ready_0 self.
End Ready.

Definition ready_as_usize (events : Ready) : N := ready_0 events.
Definition ready_from_usize (events : N) : Ready := mkReady events.

(** ** [UnixReady] *)

Record UnixReady := mkUnixReady { unix_ready_0 : Ready }.

Module UnixReady.
Import UnixReadyConsts.
Definition aio : UnixReady := mkUnixReady (ready_from_usize AIO).
Definition hup : UnixReady := mkUnixReady (ready_from_usize HUP).
Definition error : UnixReady := mkUnixReady (ready_from_usize ERROR).
Definition priority : UnixReady := mkUnixReady (ready_from_usize PRI).
Definition from_ready (src : Ready) : UnixReady := mkUnixReady src.
Definition into_ready (src : UnixReady) : Ready := unix_ready_0 src.
(** [Deref] makes [self.contains] the method of the inner [Ready]. *)
Definition is_priority (self : UnixReady) : bool :=
  Ready.contains (unix_ready_0 self) (ready_from_usize PRI).
Definition is_error (self : UnixReady) : bool :=
  Ready.contains (unix_ready_0 self) (ready_from_usize ERROR).
End UnixReady.

(** ** [PollOpt] *)

Record PollOpt := mkPollOpt { opt_0 : N }.

#[export] Instance PollOpt_eq_dec : EqDecision PollOpt.
Proof. solve_decision. Defined.

Module PollOpt.
Definition empty : PollOpt := mkPollOpt 0.
Definition edge : PollOpt := mkPollOpt 1.
Definition level : PollOpt := mkPollOpt 2.
Definition oneshot : PollOpt := mkPollOpt 4.
Definition urgent : PollOpt := mkPollOpt 8.

Definition bitor (self other : PollOpt) : PollOpt :=
  mkPollOpt (N.lor (opt_0 self) (opt_0 other)).
Definition bitxor (self other : PollOpt) : PollOpt :=
  mkPollOpt (N.lxor (opt_0 self) (opt_0 other)).
Definition bitand (self other : PollOpt) : PollOpt :=
  mkPollOpt (N.land (opt_0 self) (opt_0 other)).
Definition sub (self other : PollOpt) : PollOpt :=
  mkPollOpt (N.land (opt_0 self) (not64 (opt_0 other))).
Definition not (self : PollOpt) : PollOpt := mkPollOpt (not64 (opt_0 self)).

Definition all : PollOpt := bitor (bitor edge level) oneshot.

Definition contains (self other : PollOpt) : bool :=
  bool_decide (bitand self other = other).
Definition is_edge (self : PollOpt) : bool := contains self edge.
Definition is_level (self : PollOpt) : bool := contains self level.
Definition is_oneshot (self : PollOpt) : bool := contains self oneshot.
Definition is_urgent (self : PollOpt) : bool := contains self urgent.
Definition bits (self : PollOpt) : N := opt_0 self.
Definition insert (self other : PollOpt) : PollOpt :=
  mkPollOpt (N.lor (opt_0 self) (opt_0 other)).
Definition remove (self other : PollOpt) : PollOpt :=
  mkPollOpt (N.land (opt_0 self) (not64 (opt_0 other))).

(** [impl fmt::Debug for PollOpt]; [urgent] has no name there. *)
Definition flags : list (PollOpt * string) :=
  [(edge, "Edge-Triggered"%string); (level, "Level-Triggered"%string);
   (oneshot, "OneShot"%string)].
Definition fmt (self : PollOpt) : string := fmt_flags (contains self) flags.
End PollOpt.

Definition opt_as_usize (opt : PollOpt) : N := opt_0 opt.
Definition opt_from_usize (opt : N) : PollOpt := mkPollOpt opt.

(** ** Token entries, events and job entries *)

Inductive TokenType : Set :=
  | SocketEvent
  | NotifyEvent
  | TimersEvent
  | JobsEvent
  | TokenEvent
  | AcceptEvent
  | OtherEvent.

#[export] Instance TokenType_eq_dec : EqDecision TokenType.
Proof. solve_decision. Defined.

Record TokenEntry := mkTokenEntry { ttype : TokenType; token : Token }.

#[export] Instance TokenEntry_eq_dec : EqDecision TokenEntry.
Proof. solve_decision. Defined.

Record Event := mkEvent { event_kind : Ready; event_token : TokenEntry }.

Definition Event_new (readiness : Ready) (token : TokenEntry) : Event :=
  mkEvent readiness token.
Definition Event_readiness (self : Event) : Ready := event_kind self.
Definition Event_kind (self : Event) : Ready := event_kind self.
Definition Event_token (self : Event) : TokenEntry := event_token self.

(** A [Job] is a shared closure; the model keeps its identity in a type [J]. *)
Record JobEntry (J : Type) := mkJobEntry {
  token_entry : TokenEntry;
  job : J;
  ready : Ready;
}.
Arguments mkJobEntry {J} _ _ _.
Arguments token_entry {J} _.
Arguments job {J} _.
Arguments ready {J} _.

(** ** Laws of the flag sets *)

Lemma Ready_ext (a b : Ready) : ready_0 a = ready_0 b → a = b.
Proof. destruct a, b; cbn; congruence. Qed.

Lemma Ready_eq_iff (a b : Ready) : a = b ↔ ready_0 a = ready_0 b.
Proof. split; [by intros ->|apply Ready_ext]. Qed.

Lemma is_empty_true r : Ready.is_empty r = true ↔ ready_0 r = 0.
Proof. unfold Ready.is_empty. by rewrite bool_decide_eq_true, Ready_eq_iff. Qed.

Lemma is_empty_false r : Ready.is_empty r = false ↔ ready_0 r ≠ 0.
Proof. rewrite <- is_empty_true. by destruct (Ready.is_empty r). Qed.

(** Containment is inclusion of the sets of bits. *)
Lemma contains_bits (self other : Ready) :
  Ready.contains self other = true ↔
  ∀ i, N.testbit (ready_0 other) i = true → N.testbit (ready_0 self) i = true.
Proof.
  unfold Ready.contains, Ready.bitand. rewrite bool_decide_eq_true, Ready_eq_iff.
  cbn [ready_0]. rewrite <- N.bits_inj_iff. unfold N.eqf.
  apply forall_proper; intros i. rewrite N.land_spec.
  destruct (N.testbit _ i), (N.testbit (ready_0 other) i); cbn; naive_solver.
Qed.


(** [insert] is the join of the containment order. *)
Lemma insert_join (self other x : Ready) :
  Ready.contains x (Ready.insert self other) = true ↔
  Ready.contains x self = true ∧ Ready.contains x other = true.
Proof.
  rewrite !contains_bits. unfold Ready.insert; cbn [ready_0].
  setoid_rewrite N.lor_spec. setoid_rewrite orb_true_iff. naive_solver.
Qed.

Lemma remove_bits (self other : Ready) i :
  fits64 (ready_0 self) →
  N.testbit (ready_0 (Ready.remove self other)) i =
  N.testbit (ready_0 self) i && negb (N.testbit (ready_0 other) i).
Proof.
  intros Hs. unfold Ready.remove; cbn [ready_0].
  rewrite N.land_spec, not64_testbit. destruct (i <? word_bits) eqn:E; nbool.
  - by rewrite xorb_true_r.
  - by rewrite (fits64_testbit _ i) by done.
Qed.

(** [remove] is the relative complement. *)
Lemma remove_complement (self other x : Ready) :
  fits64 (ready_0 self) →
  Ready.contains (Ready.remove self other) x = true ↔
  Ready.contains self x = true ∧ Ready.is_empty (Ready.bitand x other) = true.
Proof.
  intros Hs. rewrite !contains_bits, is_empty_true. cbn [Ready.bitand ready_0].
  setoid_rewrite remove_bits; [|done]. setoid_rewrite andb_true_iff.
  setoid_rewrite negb_true_iff. rewrite <- N.bits_inj_iff. unfold N.eqf.
  setoid_rewrite N.land_spec. setoid_rewrite N.bits_0. split.
  - intros H. split; [naive_solver|]. intros i.
    destruct (N.testbit (ready_0 x) i) eqn:E; [|done]. by destruct (H i E) as [_ ->].
  - intros [H1 H2] i E. split; [auto|]. specialize (H2 i). by rewrite E in H2.
Qed.

(** The [ops::Sub] impl is [remove]. *)
Lemma sub_remove (self other : Ready) : Ready.sub self other = Ready.remove self other.
Proof. reflexivity. Qed.

(** The flag sets are sets under containment: [insert] is the join,
    [remove] and the subtraction operator are the relative complement on 64-bit
    words, [bitand] is the meet, and every flag the crate defines is in
    [Ready::all()]. *)
Theorem ready_set_algebra (self other x : Ready) :
  fits64 (ready_0 self) →
  (Ready.contains x (Ready.insert self other) = true ↔
     Ready.contains x self = true ∧ Ready.contains x other = true)
  ∧ (Ready.contains (Ready.bitand self other) x = true ↔
     Ready.contains self x = true ∧ Ready.contains other x = true)
  ∧ (Ready.contains (Ready.remove self other) x = true ↔
     Ready.contains self x = true ∧ Ready.is_empty (Ready.bitand x other) = true)
  ∧ Ready.sub self other = Ready.remove self other
  ∧ Forall (λ f, Ready.contains Ready.all f = true)
      [Ready.readable; Ready.writable; Ready.error; Ready.hup;
       UnixReady.into_ready UnixReady.aio; UnixReady.into_ready UnixReady.priority].
Proof.
  intros Hs. split; [apply insert_join|]. split.
  { rewrite !contains_bits. cbn [Ready.bitand ready_0]. setoid_rewrite N.land_spec.
    setoid_rewrite andb_true_iff. naive_solver. }
  split; [by apply remove_complement|]. split; [done|repeat constructor].
Qed.

Lemma ready_set_algebra_witness :
  fits64 (ready_0 (mkReady 7))
  ∧ Ready.contains (Ready.remove (mkReady 7) Ready.writable) (mkReady 5) = true.
Proof.
  assert (fits64 (ready_0 (mkReady 7))) as H by (apply N.leb_le; by vm_compute).
  split; [exact H|].
  apply (proj1 (proj2 (proj2 (ready_set_algebra (mkReady 7) Ready.writable (mkReady 5) H)))).
  by vm_compute.
Defined.

(** The bits of [PRI] include the bit of [HUP]. *)
Lemma priority_contains_hup (r : Ready) :
  UnixReady.is_priority (UnixReady.from_ready r) = true → Ready.is_hup r = true.
Proof.
  unfold UnixReady.is_priority, Ready.is_hup. rewrite !contains_bits.
  intros H i Hi. apply H. change (N.testbit HUP i = true) in Hi.
  change (N.testbit (N.lor HUP 64) i = true). by rewrite N.lor_spec, Hi.
Qed.

Lemma effective_bits (a b : Ready) :
  Ready.is_empty (Ready.bitand a b) = false ↔
  ∃ i, N.testbit (ready_0 a) i = true ∧ N.testbit (ready_0 b) i = true.
Proof.
  rewrite is_empty_false. cbn [Ready.bitand ready_0]. split.
  - intros H. exists (N.log2 (N.land (ready_0 a) (ready_0 b))).
    rewrite <- andb_true_iff, <- N.land_spec. by apply N.bit_log2.
  - intros (i & H1 & H2) H. apply (f_equal (λ x, N.testbit x i)) in H.
    by rewrite N.land_spec, H1, H2, N.bits_0 in H.
Qed.
