(* ===== verification/ReadinessState.v ===== *)
(** * The packed readiness word

    [ReadinessState] and [AtomicState] of [src/src/poll.rs]: one [usize] that
    holds the readiness, the interest and the options of a node (four bits
    each), the read and write positions of the token slots (two bits each) and
    the queued and dropped flags. *)
From S2P Require Import Prelude EventSet.

Definition READINESS_SHIFT : N := 0.
Definition INTEREST_SHIFT : N := 4.
Definition POLL_OPT_SHIFT : N := 8.
Definition TOKEN_RD_SHIFT : N := 12.
Definition TOKEN_WR_SHIFT : N := 14.
Definition QUEUED_SHIFT : N := 16.
Definition DROPPED_SHIFT : N := 17.

Definition MASK_2 : N := 4 - 1.
Definition MASK_4 : N := 16 - 1.
Definition QUEUED_MASK : N := shl64 1 QUEUED_SHIFT.
Definition DROPPED_MASK : N := shl64 1 DROPPED_SHIFT.
(** [isize::MAX as usize] *)
Definition MAX_REFCOUNT : N := N.ones 63.

Record ReadinessState := mkRS { rs_0 : N }.

#[export] Instance ReadinessState_eq_dec : EqDecision ReadinessState.
Proof. solve_decision. Defined.

Module RS.
Definition new (interest : Ready) (opt : PollOpt) : exec ReadinessState :=
  let interest := ready_as_usize interest in
  let opt := opt_as_usize opt in
  assert (interest <=? MASK_4) ≫= λ _,
  assert (opt <=? MASK_4) ≫= λ _,
  let val := shl64 interest INTEREST_SHIFT in
  let val := N.lor val (shl64 opt POLL_OPT_SHIFT) in
  Done (mkRS val).

Definition get (self : ReadinessState) (mask shift : N) : N :=
  N.land (N.shiftr (rs_0 self) shift) mask.
Definition set (self : ReadinessState) (val mask shift : N) : ReadinessState :=
  mkRS (N.lor (N.land (rs_0 self) (not64 (shl64 mask shift))) (shl64 val shift)).

Definition readiness (self : ReadinessState) : Ready :=
  ready_from_usize (get self MASK_4 READINESS_SHIFT).
Definition interest (self : ReadinessState) : Ready :=
  ready_from_usize (get self MASK_4 INTEREST_SHIFT).
Definition poll_opt (self : ReadinessState) : PollOpt :=
  opt_from_usize (get self MASK_4 POLL_OPT_SHIFT).
Definition effective_readiness (self : ReadinessState) : Ready :=
  Ready.bitand (readiness self) (interest self).

Definition set_readiness (self : ReadinessState) (v : Ready) : ReadinessState :=
  set self (ready_as_usize v) MASK_4 READINESS_SHIFT.
Definition set_interest (self : ReadinessState) (v : Ready) : ReadinessState :=
  set self (ready_as_usize v) MASK_4 INTEREST_SHIFT.
Definition set_poll_opt (self : ReadinessState) (v : PollOpt) : ReadinessState :=
  set self (opt_as_usize v) MASK_4 POLL_OPT_SHIFT.
Definition disarm (self : ReadinessState) : ReadinessState :=
  set_interest self Ready.empty.

Definition is_queued (self : ReadinessState) : bool :=
  N.land (rs_0 self) QUEUED_MASK =? QUEUED_MASK.
Definition is_dropped (self : ReadinessState) : bool :=
  N.land (rs_0 self) DROPPED_MASK =? DROPPED_MASK.
Definition set_queued (self : ReadinessState) : exec ReadinessState :=
  assert (negb (is_dropped self)) ≫= λ _,
  Done (mkRS (N.lor (rs_0 self) QUEUED_MASK)).
Definition set_dequeued (self : ReadinessState) : exec ReadinessState :=
  assert (is_queued self) ≫= λ _,
  Done (mkRS (N.land (rs_0 self) (not64 QUEUED_MASK))).

Definition token_read_pos (self : ReadinessState) : N :=
  get self MASK_2 TOKEN_RD_SHIFT.
Definition token_write_pos (self : ReadinessState) : N :=
  get self MASK_2 TOKEN_WR_SHIFT.
Definition set_token_write_pos (self : ReadinessState) (val : N) : ReadinessState :=
  set self val MASK_2 TOKEN_WR_SHIFT.
Definition update_token_read_pos (self : ReadinessState) : ReadinessState :=
  let val := token_write_pos self in
  set self val MASK_2 TOKEN_RD_SHIFT.

Definition next_token_pos (self : ReadinessState) : exec N :=
  let rd := token_read_pos self in
  let wr := token_write_pos self in
  match wr with
  | 0 => match rd with
         | 1 => Done 2 | 2 => Done 1 | 0 => Done 1
         | _ => Panic PUnreachable
         end
  | 1 => match rd with
         | 0 => Done 2 | 2 => Done 0 | 1 => Done 2
         | _ => Panic PUnreachable
         end
  | 2 => match rd with
         | 0 => Done 1 | 1 => Done 0 | 2 => Done 0
         | _ => Panic PUnreachable
         end
  | _ => Panic PUnreachable
  end.
End RS.

(** [AtomicState]: the operations on the shared word.  Each is one atomic
    access; an operation takes the current word and returns its result
    with the word after it. *)
Module AtomicState.
Definition new (interest : Ready) (opt : PollOpt) : exec ReadinessState :=
  RS.new interest opt.

Definition load (inner : ReadinessState) : ReadinessState := inner.

Definition compare_and_swap (inner current new : ReadinessState)
    : ReadinessState * ReadinessState :=
  if bool_decide (inner = current) then (inner, new) else (inner, inner).

Definition flag_as_dropped (inner : ReadinessState)
    : exec (bool * ReadinessState) :=
  let prev := inner in
  let inner := mkRS (N.lor (rs_0 inner) (N.lor DROPPED_MASK QUEUED_MASK)) in
  assert (negb (RS.is_dropped prev)) ≫= λ _,
  Done (negb (RS.is_queued prev), inner).
End AtomicState.

(** ** Bits of the word *)

Lemma shl64_testbit x k i :
  N.testbit (shl64 x k) i =
  (k <=? i) && (i <? word_bits) && N.testbit x (i - k).
Proof.
  unfold shl64. rewrite N.land_spec, ones_testbit.
  destruct (k <=? i) eqn:E; nbool; cbn.
  - rewrite N.shiftl_spec_high' by done. apply andb_comm.
  - by rewrite N.shiftl_spec_low by done.
Qed.

Lemma get_testbit s w k i :
  N.testbit (RS.get s (N.ones w) k) i = N.testbit (rs_0 s) (i + k) && (i <? w).
Proof. unfold RS.get. by rewrite N.land_spec, N.shiftr_spec', ones_testbit. Qed.

Lemma set_testbit s v w k i :
  fits64 (rs_0 s) →
  N.testbit (rs_0 (RS.set s v (N.ones w) k)) i =
  N.testbit (rs_0 s) i && negb ((k <=? i) && (i - k <? w))
  || (k <=? i) && (i <? word_bits) && N.testbit v (i - k).
Proof.
  intros Hs. unfold RS.set; cbn [rs_0].
  rewrite N.lor_spec, N.land_spec, not64_testbit, !shl64_testbit, ones_testbit.
  f_equal. destruct (i <? word_bits) eqn:E; nbool.
  - by rewrite xorb_true_r, andb_true_r.
  - by rewrite (fits64_testbit _ i) by done.
Qed.

Lemma small_testbit v w i : v < 2 ^ w → w <= i → N.testbit v i = false.
Proof.
  intros Hv Hi. destruct (decide (v = 0)) as [->|Hne]; [apply N.bits_0|].
  apply N.bits_above_log2, N.log2_lt_pow2; [lia|].
  assert (2 ^ w <= 2 ^ i) by (apply N.pow_le_mono_r; lia). lia.
Qed.

Lemma get_small s w k : RS.get s (N.ones w) k < 2 ^ w.
Proof.
  unfold RS.get. rewrite N.land_ones. apply N.mod_lt, N.pow_nonzero. lia.
Qed.

#[local] Ltac split_leb :=
  repeat match goal with
  | |- context [(?a <=? ?b)%N] => destruct (a <=? b)%N eqn:?
  | |- context [(?a <? ?b)%N] => destruct (a <? b)%N eqn:?
  end; nbool.

(** A field reads back what was stored in it. *)
Lemma get_set_same s v w k :
  fits64 (rs_0 s) → v < 2 ^ w → k + w <= word_bits →
  RS.get (RS.set s v (N.ones w) k) (N.ones w) k = v.
Proof.
  intros Hs Hv Hk. apply N.bits_inj_iff; intros i.
  rewrite get_testbit, set_testbit by done. rewrite N.add_sub.
  split_leb; try lia; cbn; rewrite ?andb_false_r, ?andb_true_r; cbn;
    try done; by rewrite (small_testbit v w) by done.
Qed.

(** Storing into a field leaves every disjoint field alone. *)
Lemma get_set_other s v w k w' k' :
  fits64 (rs_0 s) → v < 2 ^ w → k' + w' <= k ∨ k + w <= k' →
  RS.get (RS.set s v (N.ones w) k) (N.ones w') k' = RS.get s (N.ones w') k'.
Proof.
  intros Hs Hv Hk. apply N.bits_inj_iff; intros i.
  rewrite !get_testbit, set_testbit by done.
  destruct (i <? w') eqn:Ew; nbool; [|by rewrite !andb_false_r].
  rewrite !andb_true_r. split_leb; try lia; cbn;
    rewrite ?andb_true_r, ?orb_false_r; try done;
    by rewrite (small_testbit v w) by lia; rewrite orb_false_r.
Qed.

Lemma set_fits64 s v w k :
  fits64 (rs_0 s) → fits64 (rs_0 (RS.set s v (N.ones w) k)).
Proof.
  intros Hs. apply testbit_fits64; intros i Hi.
  rewrite set_testbit, (fits64_testbit _ i) by done.
  apply N.ltb_ge in Hi as ->. by rewrite andb_false_r.
Qed.

(** A flag is one bit of the word, a field of width one. *)
Lemma flag_testbit x n : (N.land x (2 ^ n) =? 2 ^ n) = N.testbit x n.
Proof.
  destruct (N.testbit x n) eqn:E.
  - apply N.eqb_eq, N.bits_inj_iff; intros i. rewrite N.land_spec, N.pow2_bits_eqb.
    destruct (n =? i) eqn:Ei; nbool; subst; [by rewrite E|by rewrite andb_false_r].
  - apply N.eqb_neq; intros H. apply (f_equal (λ y, N.testbit y n)) in H.
    by rewrite N.land_spec, E, N.pow2_bits_true in H.
Qed.

Lemma is_queued_testbit s : RS.is_queued s = N.testbit (rs_0 s) QUEUED_SHIFT.
Proof. apply (flag_testbit _ QUEUED_SHIFT). Qed.
Lemma is_dropped_testbit s : RS.is_dropped s = N.testbit (rs_0 s) DROPPED_SHIFT.
Proof. apply (flag_testbit _ DROPPED_SHIFT). Qed.

(** ** The word as a record

    [fields] reads the word as the record the comment of the source draws;
    every operation of [ReadinessState] is the update of one component. *)
Record Fields := mkFields {
  f_readiness : N;
  f_interest : N;
  f_opt : N;
  f_rd : N;
  f_wr : N;
  f_queued : bool;
  f_dropped : bool;
}.

Definition fields (s : ReadinessState) : Fields :=
  {| f_readiness := ready_as_usize (RS.readiness s);
     f_interest := ready_as_usize (RS.interest s);
     f_opt := opt_as_usize (RS.poll_opt s);
     f_rd := RS.token_read_pos s;
     f_wr := RS.token_write_pos s;
     f_queued := RS.is_queued s;
     f_dropped := RS.is_dropped s |}.

Definition with_readiness v f :=
  mkFields v (f_interest f) (f_opt f) (f_rd f) (f_wr f) (f_queued f) (f_dropped f).
Definition with_interest v f :=
  mkFields (f_readiness f) v (f_opt f) (f_rd f) (f_wr f) (f_queued f) (f_dropped f).
Definition with_opt v f :=
  mkFields (f_readiness f) (f_interest f) v (f_rd f) (f_wr f) (f_queued f) (f_dropped f).
Definition with_rd v f :=
  mkFields (f_readiness f) (f_interest f) (f_opt f) v (f_wr f) (f_queued f) (f_dropped f).
Definition with_wr v f :=
  mkFields (f_readiness f) (f_interest f) (f_opt f) (f_rd f) v (f_queued f) (f_dropped f).
Definition with_queued b f :=
  mkFields (f_readiness f) (f_interest f) (f_opt f) (f_rd f) (f_wr f) b (f_dropped f).
Definition with_dropped b f :=
  mkFields (f_readiness f) (f_interest f) (f_opt f) (f_rd f) (f_wr f) (f_queued f) b.

(** The words the crate builds: the bits above the dropped flag are clear and
    both token positions name one of the three slots. *)
Record wf_word (s : ReadinessState) : Prop := {
  wf_word_fits : rs_0 s < 2 ^ 18;
  wf_word_rd : RS.token_read_pos s <= 2;
  wf_word_wr : RS.token_write_pos s <= 2;
}.

Lemma lt18_fits64 x : x < 2 ^ 18 → fits64 x.
Proof. intros H. unfold fits64, u64_max. change (N.ones word_bits) with (2 ^ 64 - 1). lia. Qed.
Lemma wf_word_fits64 s : wf_word s → fits64 (rs_0 s).
Proof. intros [H _ _]. by apply lt18_fits64. Qed.
#[export] Hint Resolve lt18_fits64 wf_word_fits64 set_fits64 : sickle.

Lemma fields_ext (f g : Fields) :
  f_readiness f = f_readiness g → f_interest f = f_interest g →
  f_opt f = f_opt g → f_rd f = f_rd g → f_wr f = f_wr g →
  f_queued f = f_queued g → f_dropped f = f_dropped g → f = g.
Proof. destruct f, g; cbn; congruence. Qed.

Lemma flag_set_other s v w k n :
  fits64 (rs_0 s) → v < 2 ^ w → n < k ∨ k + w <= n →
  N.testbit (rs_0 (RS.set s v (N.ones w) k)) n = N.testbit (rs_0 s) n.
Proof.
  intros Hs Hv Hn. rewrite set_testbit by done.
  split_leb; try lia; cbn; rewrite ?andb_true_r, ?orb_false_r; try done.
  rewrite (small_testbit v w) by lia. by rewrite orb_false_r.
Qed.

(** A store into a field, seen through [fields]: the other components are
    read from disjoint fields. *)
#[local] Ltac side := first [done | by vm_compute | by left; vm_compute | by right; vm_compute].
#[local] Ltac store_field :=
  intros Hs Hv; apply fields_ext; cbn [fields f_readiness f_interest f_opt f_rd
    f_wr f_queued f_dropped with_readiness with_interest with_opt with_rd with_wr
    ready_as_usize opt_as_usize ready_0 opt_0 RS.readiness RS.interest RS.poll_opt
    ready_from_usize opt_from_usize];
  rewrite ?is_queued_testbit, ?is_dropped_testbit;
  unfold RS.set_readiness, RS.set_interest, RS.set_poll_opt,
    RS.set_token_write_pos, RS.token_read_pos, RS.token_write_pos;
  change MASK_4 with (N.ones 4); change MASK_2 with (N.ones 2);
  first [ rewrite get_set_same by side; reflexivity
        | rewrite get_set_other by side; reflexivity
        | rewrite flag_set_other by side; reflexivity ].

Lemma set_readiness_fields s v :
  fits64 (rs_0 s) → ready_0 v < 2 ^ 4 →
  fields (RS.set_readiness s v) = with_readiness (ready_0 v) (fields s).
Proof. store_field. Qed.

Lemma set_interest_fields s v :
  fits64 (rs_0 s) → ready_0 v < 2 ^ 4 →
  fields (RS.set_interest s v) = with_interest (ready_0 v) (fields s).
Proof. store_field. Qed.

Lemma set_poll_opt_fields s v :
  fits64 (rs_0 s) → opt_0 v < 2 ^ 4 →
  fields (RS.set_poll_opt s v) = with_opt (opt_0 v) (fields s).
Proof. store_field. Qed.

Lemma set_token_write_pos_fields s v :
  fits64 (rs_0 s) → v < 2 ^ 2 →
  fields (RS.set_token_write_pos s v) = with_wr v (fields s).
Proof. store_field. Qed.

Lemma set_rd_fields s v :
  fits64 (rs_0 s) → v < 2 ^ 2 →
  fields (RS.set s v MASK_2 TOKEN_RD_SHIFT) = with_rd v (fields s).
Proof. store_field. Qed.

Lemma update_token_read_pos_fields s :
  fits64 (rs_0 s) →
  fields (RS.update_token_read_pos s) = with_rd (RS.token_write_pos s) (fields s).
Proof. intros Hs. apply set_rd_fields; [done|]. apply (get_small s 2). Qed.

(** The flag operations: one bit is set or cleared. *)
Lemma get_lor_other s m w k :
  (∀ i, i < w → N.testbit m (i + k) = false) →
  RS.get (mkRS (N.lor (rs_0 s) m)) (N.ones w) k = RS.get s (N.ones w) k.
Proof.
  intros Hm. apply N.bits_inj_iff; intros i. rewrite !get_testbit; cbn [rs_0].
  rewrite N.lor_spec. destruct (i <? w) eqn:E; nbool; [|by rewrite !andb_false_r].
  by rewrite Hm, orb_false_r.
Qed.

Lemma get_clear_other s m w k :
  fits64 (rs_0 s) → (∀ i, i < w → N.testbit m (i + k) = false) →
  RS.get (mkRS (N.land (rs_0 s) (not64 m))) (N.ones w) k = RS.get s (N.ones w) k.
Proof.
  intros Hs Hm. apply N.bits_inj_iff; intros i. rewrite !get_testbit; cbn [rs_0].
  rewrite N.land_spec, not64_testbit.
  destruct (i <? w) eqn:E; nbool; [|by rewrite !andb_false_r].
  rewrite Hm by done. destruct (i + k <? word_bits) eqn:E'; nbool; cbn.
  - by rewrite andb_true_r.
  - by rewrite (fits64_testbit _ (i + k)) by done.
Qed.

Lemma pow2_low n w k : w + k <= n → ∀ i, i < w → N.testbit (2 ^ n) (i + k) = false.
Proof. intros Hn i Hi. rewrite N.pow2_bits_eqb. apply N.eqb_neq. lia. Qed.

Lemma flags_low w k : w + k <= 16 →
  ∀ i, i < w → N.testbit (N.lor DROPPED_MASK QUEUED_MASK) (i + k) = false.
Proof.
  intros Hn i Hi. rewrite N.lor_spec.
  change DROPPED_MASK with (2 ^ 17). change QUEUED_MASK with (2 ^ 16).
  by rewrite !(pow2_low _ w k) by lia.
Qed.

Lemma queued_low w k : w + k <= 16 →
  ∀ i, i < w → N.testbit QUEUED_MASK (i + k) = false.
Proof. exact (pow2_low 16 w k). Qed.

#[local] Ltac low_side :=
  lazymatch goal with
  | |- fits64 _ => assumption
  | |- context [DROPPED_MASK] => apply flags_low; by vm_compute
  | |- _ => apply queued_low; by vm_compute
  end.
#[local] Ltac store_flag :=
  apply fields_ext; cbn [fields f_readiness f_interest f_opt f_rd
    f_wr f_queued f_dropped with_queued with_dropped
    ready_as_usize opt_as_usize ready_0 opt_0 RS.readiness RS.interest RS.poll_opt
    ready_from_usize opt_from_usize];
  rewrite ?is_queued_testbit, ?is_dropped_testbit; cbn [rs_0];
  unfold RS.token_read_pos, RS.token_write_pos;
  change MASK_4 with (N.ones 4); change MASK_2 with (N.ones 2);
  rewrite ?get_lor_other, ?get_clear_other by low_side;
  rewrite ?N.lor_spec, ?N.land_spec, ?not64_testbit; try reflexivity;
  change QUEUED_MASK with (2 ^ QUEUED_SHIFT);
  change DROPPED_MASK with (2 ^ DROPPED_SHIFT);
  rewrite ?N.lor_spec, !N.pow2_bits_eqb; cbn;
  rewrite ?orb_true_r, ?orb_false_r, ?andb_false_r, ?andb_true_r; try reflexivity.

Lemma set_queued_fields s :
  RS.is_dropped s = false →
  ∃ s', RS.set_queued s = Done s' ∧ fields s' = with_queued true (fields s) ∧
        rs_0 s' = N.lor (rs_0 s) QUEUED_MASK.
Proof.
  intros Hd. unfold RS.set_queued. rewrite Hd. cbn. eexists; split; [done|].
  split; [|done]. store_flag.
Qed.

Lemma set_dequeued_fields s :
  fits64 (rs_0 s) → RS.is_queued s = true →
  ∃ s', RS.set_dequeued s = Done s' ∧ fields s' = with_queued false (fields s) ∧
        rs_0 s' = N.land (rs_0 s) (not64 QUEUED_MASK).
Proof.
  intros Hs Hq. unfold RS.set_dequeued. rewrite Hq. cbn. eexists; split; [done|].
  split; [|done]. store_flag.
Qed.

Lemma flag_as_dropped_fields s :
  RS.is_dropped s = false →
  ∃ s', AtomicState.flag_as_dropped s = Done (negb (RS.is_queued s), s') ∧
        fields s' = with_dropped true (with_queued true (fields s)) ∧
        rs_0 s' = N.lor (rs_0 s) (N.lor DROPPED_MASK QUEUED_MASK).
Proof.
  intros Hd. unfold AtomicState.flag_as_dropped. rewrite Hd. cbn.
  eexists; split; [done|]. split; [|done]. store_flag.
Qed.

(** Two words the crate builds are equal when their records are. *)
Lemma fields_inj s s' :
  rs_0 s < 2 ^ 18 → rs_0 s' < 2 ^ 18 → fields s = fields s' → s = s'.
Proof.
  intros Hs Hs' E. destruct s as [x], s' as [y]; cbn in *. f_equal.
  pose proof (f_equal f_readiness E) as E0; pose proof (f_equal f_interest E) as E1.
  pose proof (f_equal f_opt E) as E2; pose proof (f_equal f_rd E) as E3.
  pose proof (f_equal f_wr E) as E4; pose proof (f_equal f_queued E) as E5.
  pose proof (f_equal f_dropped E) as E6. clear E.
  cbn in E5, E6. rewrite !is_queued_testbit in E5. rewrite !is_dropped_testbit in E6.
  assert (∀ w k, RS.get (mkRS x) (N.ones w) k = RS.get (mkRS y) (N.ones w) k →
            ∀ i, k <= i → i < k + w → N.testbit x i = N.testbit y i) as Hf.
  { intros w k Hg i Hk Hi. apply (f_equal (λ z, N.testbit z (i - k))) in Hg.
    rewrite !get_testbit in Hg; cbn in Hg. replace (i - k + k) with i in Hg by lia.
    assert ((i - k <? w) = true) as Hlt by (apply N.ltb_lt; lia).
    by rewrite Hlt, !andb_true_r in Hg. }
  apply N.bits_inj_iff; intros i.
  destruct (decide (i < 4)); [by apply (Hf 4 0 E0); lia|].
  destruct (decide (i < 8)); [by apply (Hf 4 4 E1); lia|].
  destruct (decide (i < 12)); [by apply (Hf 4 8 E2); lia|].
  destruct (decide (i < 14)); [by apply (Hf 2 12 E3); lia|].
  destruct (decide (i < 16)); [by apply (Hf 2 14 E4); lia|].
  destruct (decide (i = 16)) as [->|]; [exact E5|].
  destruct (decide (i = 17)) as [->|]; [exact E6|].
  by rewrite !(small_testbit _ 18) by lia.
Qed.

(** ** Well-formed words are closed under the operations *)

Lemma testbit_lt_pow2 x n : (∀ i, n <= i → N.testbit x i = false) → x < 2 ^ n.
Proof.
  intros H. assert (x = x mod 2 ^ n) as ->.
  { apply N.bits_inj_iff; intros i. destruct (decide (i < n)).
    - by rewrite N.mod_pow2_bits_low.
    - by rewrite N.mod_pow2_bits_high, H by lia. }
  apply N.mod_lt, N.pow_nonzero. lia.
Qed.

Lemma set_lt18 s v w k :
  rs_0 s < 2 ^ 18 → v < 2 ^ w → k + w <= 18 → rs_0 (RS.set s v (N.ones w) k) < 2 ^ 18.
Proof.
  intros Hs Hv Hk. apply testbit_lt_pow2; intros i Hi.
  rewrite set_testbit by auto with sickle.
  rewrite (small_testbit (rs_0 s) 18) by done.
  by rewrite (small_testbit v w), andb_false_r by lia.
Qed.

(** Well-formedness only depends on the size of the word and on its record. *)
Lemma wf_word_of_fields s f :
  fields s = f → rs_0 s < 2 ^ 18 → f_rd f <= 2 → f_wr f <= 2 → wf_word s.
Proof. intros <- Hlt Hr Hw. by split. Qed.

Lemma wf_set_readiness s v :
  wf_word s → ready_0 v < 2 ^ 4 → wf_word (RS.set_readiness s v).
Proof.
  intros Hwf Hv. pose proof Hwf as [Hs Hr Hw].
  eapply wf_word_of_fields; [apply set_readiness_fields; auto with sickle| |done|done].
  by apply (set_lt18 _ _ 4).
Qed.

Lemma wf_set_interest s v :
  wf_word s → ready_0 v < 2 ^ 4 → wf_word (RS.set_interest s v).
Proof.
  intros Hwf Hv. pose proof Hwf as [Hs Hr Hw].
  eapply wf_word_of_fields; [apply set_interest_fields; auto with sickle| |done|done].
  by apply (set_lt18 _ _ 4).
Qed.

Lemma wf_set_poll_opt s v :
  wf_word s → opt_0 v < 2 ^ 4 → wf_word (RS.set_poll_opt s v).
Proof.
  intros Hwf Hv. pose proof Hwf as [Hs Hr Hw].
  eapply wf_word_of_fields; [apply set_poll_opt_fields; auto with sickle| |done|done].
  by apply (set_lt18 _ _ 4).
Qed.

Lemma wf_set_token_write_pos s v :
  wf_word s → v <= 2 → wf_word (RS.set_token_write_pos s v).
Proof.
  intros Hwf Hv. pose proof Hwf as [Hs Hr Hw].
  assert (v < 2 ^ 2) by (change (2 ^ 2) with 4; lia).
  eapply wf_word_of_fields; [apply set_token_write_pos_fields; auto with sickle| |done|done].
  by apply (set_lt18 _ _ 2).
Qed.

Lemma wf_update_token_read_pos s : wf_word s → wf_word (RS.update_token_read_pos s).
Proof.
  intros Hwf. pose proof Hwf as [Hs Hr Hw].
  eapply wf_word_of_fields;
    [apply update_token_read_pos_fields; auto with sickle| |done|done].
  apply (set_lt18 _ _ 2); [done|apply (get_small s 2)|done].
Qed.

Lemma lor_lt_pow2 x y n : x < 2 ^ n → y < 2 ^ n → N.lor x y < 2 ^ n.
Proof.
  intros Hx Hy. apply testbit_lt_pow2; intros i Hi.
  by rewrite N.lor_spec, !(small_testbit _ n) by done.
Qed.

Lemma wf_set_queued s s' : wf_word s → RS.set_queued s = Done s' → wf_word s'.
Proof.
  intros [Hs Hr Hw] H. destruct (RS.is_dropped s) eqn:Hd.
  - unfold RS.set_queued in H. by rewrite Hd in H.
  - destruct (set_queued_fields s Hd) as (s1 & E & Ef & E0).
    rewrite E in H. simplify_eq.
    eapply wf_word_of_fields; [exact Ef| |done|done]. rewrite E0. by apply lor_lt_pow2.
Qed.

Lemma wf_set_dequeued s s' : wf_word s → RS.set_dequeued s = Done s' → wf_word s'.
Proof.
  intros Hwf H. pose proof Hwf as [Hs Hr Hw]. destruct (RS.is_queued s) eqn:Hd.
  - destruct (set_dequeued_fields s) as (s1 & E & Ef & E0); [auto with sickle|done|].
    rewrite E in H. simplify_eq. eapply wf_word_of_fields; [exact Ef| |done|done]. rewrite E0.
    apply testbit_lt_pow2; intros i Hi. by rewrite N.land_spec, (small_testbit _ 18).
  - unfold RS.set_dequeued in H. by rewrite Hd in H.
Qed.

Lemma wf_flag_as_dropped s b s' :
  wf_word s → AtomicState.flag_as_dropped s = Done (b, s') → wf_word s'.
Proof.
  intros [Hs Hr Hw] H. destruct (RS.is_dropped s) eqn:Hd.
  - unfold AtomicState.flag_as_dropped in H. by rewrite Hd in H.
  - destruct (flag_as_dropped_fields s Hd) as (s1 & E & Ef & E0).
    rewrite E in H. simplify_eq.
    eapply wf_word_of_fields; [exact Ef| |done|done]. rewrite E0. by apply lor_lt_pow2.
Qed.

Lemma new_fields interest opt :
  ready_0 interest <= MASK_4 → opt_0 opt <= MASK_4 →
  ∃ s, RS.new interest opt = Done s ∧ wf_word s ∧
       fields s = mkFields 0 (ready_0 interest) (opt_0 opt) 0 0 false false.
Proof.
  intros Hi Ho. unfold RS.new, ready_as_usize, opt_as_usize.
  pose proof Hi as ->%N.leb_le. pose proof Ho as ->%N.leb_le. cbn [mbind exec_bind assert].
  eexists; split; [done|].
  destruct interest as [i], opt as [o]; cbn [ready_0 opt_0] in *.
  assert (i ∈ N.of_nat <$> seq 0 16) as Hi'.
  { apply list_elem_of_fmap. exists (N.to_nat i). unfold MASK_4 in Hi.
    split; [lia|]. apply elem_of_seq. lia. }
  assert (o ∈ N.of_nat <$> seq 0 16) as Ho'.
  { apply list_elem_of_fmap. exists (N.to_nat o). unfold MASK_4 in Ho.
    split; [lia|]. apply elem_of_seq. lia. }
  clear Hi Ho. cbn in Hi', Ho'. set_unfold.
  repeat match goal with H : _ ∨ _ |- _ => destruct H as [->|H] end; try (exfalso; exact Hi'); try (exfalso; exact Ho');
    (split; [split; vm_compute; first [reflexivity | discriminate]|reflexivity]).
Qed.

(** The three operations with an assertion, on every word. *)
Lemma set_queued_spec s :
  wf_word s →
  if f_dropped (fields s) then RS.set_queued s = Panic PAssert
  else ∃ s', RS.set_queued s = Done s' ∧ fields s' = with_queued true (fields s) ∧ wf_word s'.
Proof.
  intros Hwf. cbn [f_dropped fields]. destruct (RS.is_dropped s) eqn:Hd.
  - unfold RS.set_queued. by rewrite Hd.
  - destruct (set_queued_fields s Hd) as (s' & E & Ef & _). exists s'. eauto using wf_set_queued.
Qed.

Lemma set_dequeued_spec s :
  wf_word s →
  if f_queued (fields s)
  then ∃ s', RS.set_dequeued s = Done s' ∧ fields s' = with_queued false (fields s) ∧ wf_word s'
  else RS.set_dequeued s = Panic PAssert.
Proof.
  intros Hwf. cbn [f_queued fields]. destruct (RS.is_queued s) eqn:Hq.
  - destruct (set_dequeued_fields s) as (s' & E & Ef & _); [auto with sickle|done|].
    exists s'. eauto using wf_set_dequeued.
  - unfold RS.set_dequeued. by rewrite Hq.
Qed.

Lemma flag_as_dropped_spec s :
  wf_word s →
  if f_dropped (fields s) then AtomicState.flag_as_dropped s = Panic PAssert
  else ∃ s', AtomicState.flag_as_dropped s = Done (negb (f_queued (fields s)), s') ∧
    fields s' = with_dropped true (with_queued true (fields s)) ∧ wf_word s'.
Proof.
  intros Hwf. cbn [f_dropped fields]. destruct (RS.is_dropped s) eqn:Hd.
  - unfold AtomicState.flag_as_dropped. by rewrite Hd.
  - destruct (flag_as_dropped_fields s Hd) as (s' & E & Ef & _). exists s'. eauto using wf_flag_as_dropped.
Qed.

(** Triple buffering of tokens: on a well-formed word [next_token_pos]
    finds a slot that is neither the one a poller reads nor the one the last
    update wrote. *)
Lemma next_token_pos_fresh s :
  wf_word s →
  ∃ p, RS.next_token_pos s = Done p ∧ p <= 2 ∧
       p ≠ RS.token_read_pos s ∧ p ≠ RS.token_write_pos s.
Proof.
  intros [_ Hr Hw]. unfold RS.next_token_pos.
  generalize dependent (RS.token_read_pos s). generalize dependent (RS.token_write_pos s).
  intros wr Hw rd Hr.
  assert (wr = 0 ∨ wr = 1 ∨ wr = 2) as [->|[->| ->]] by lia;
    assert (rd = 0 ∨ rd = 1 ∨ rd = 2) as [->|[->| ->]] by lia;
    eexists; (split; [reflexivity|lia]).
Qed.

(** ** Properties *)

(** C32 The packed word implements the record: on a well-formed word and
    arguments that fit their fields, each setter updates exactly its own
    component and leaves a well-formed word; the queued flag is set, and
    cleared, exactly when its assertion holds, and the drop sets both flags and
    returns whether the node was out of the queue; the next token position is
    one of the three slots, and neither the one being read nor the one last
    written. *)
Theorem word_refines_record s r o p :
  wf_word s → ready_0 r <= MASK_4 → opt_0 o <= MASK_4 → p <= 2 →
  (fields (RS.set_readiness s r) = with_readiness (ready_0 r) (fields s) ∧
   wf_word (RS.set_readiness s r)) ∧
  (fields (RS.set_interest s r) = with_interest (ready_0 r) (fields s) ∧
   wf_word (RS.set_interest s r)) ∧
  (fields (RS.set_poll_opt s o) = with_opt (opt_0 o) (fields s) ∧
   wf_word (RS.set_poll_opt s o)) ∧
  (fields (RS.set_token_write_pos s p) = with_wr p (fields s) ∧
   wf_word (RS.set_token_write_pos s p)) ∧
  (fields (RS.update_token_read_pos s) = with_rd (RS.token_write_pos s) (fields s) ∧
   wf_word (RS.update_token_read_pos s)) ∧
  (fields (RS.disarm s) = with_interest 0 (fields s) ∧ wf_word (RS.disarm s)) ∧
  (if f_dropped (fields s) then RS.set_queued s = Panic PAssert
   else ∃ s', RS.set_queued s = Done s' ∧ fields s' = with_queued true (fields s) ∧ wf_word s') ∧
  (if f_queued (fields s)
   then ∃ s', RS.set_dequeued s = Done s' ∧ fields s' = with_queued false (fields s) ∧ wf_word s'
   else RS.set_dequeued s = Panic PAssert) ∧
  (if f_dropped (fields s) then AtomicState.flag_as_dropped s = Panic PAssert
   else ∃ s', AtomicState.flag_as_dropped s = Done (negb (f_queued (fields s)), s') ∧
     fields s' = with_dropped true (with_queued true (fields s)) ∧ wf_word s') ∧
  ∃ q, RS.next_token_pos s = Done q ∧ q <= 2 ∧ q ≠ f_rd (fields s) ∧ q ≠ f_wr (fields s).
Proof.
  intros Hwf Hr Ho Hp.
  assert (ready_0 r < 2 ^ 4) by (change (2 ^ 4) with (MASK_4 + 1); lia).
  assert (opt_0 o < 2 ^ 4) by (change (2 ^ 4) with (MASK_4 + 1); lia).
  assert (p < 2 ^ 2) by (change (2 ^ 2) with 4; lia).
  split; [by auto using set_readiness_fields, wf_set_readiness with sickle|].
  split; [by auto using set_interest_fields, wf_set_interest with sickle|].
  split; [by auto using set_poll_opt_fields, wf_set_poll_opt with sickle|].
  split; [by auto using set_token_write_pos_fields, wf_set_token_write_pos with sickle|].
  split; [by auto using update_token_read_pos_fields, wf_update_token_read_pos with sickle|].
  split; [split; [apply set_interest_fields; [auto with sickle|by vm_compute]|by apply wf_set_interest]|].
  split; [by apply set_queued_spec|]. split; [by apply set_dequeued_spec|].
  split; [by apply flag_as_dropped_spec|by apply next_token_pos_fresh].
Qed.

Lemma word_refines_record_witness :
  ready_0 Ready.readable <= MASK_4 ∧
  fields (RS.set_readiness (mkRS 0) Ready.readable) =
    mkFields 1 0 0 0 0 false false.
Proof.
  split; [by vm_compute|].
  assert (wf_word (mkRS 0)) as Hwf by (split; vm_compute; (reflexivity || discriminate)).
  destruct (word_refines_record (mkRS 0) Ready.readable PollOpt.edge 1 Hwf)
    as [[E _] _]; [vm_compute; discriminate..|]. exact E.
Defined.

(** [set] does not mask the value it stores: setting the readiness to
    [UnixReady::priority()], a value wider than the four-bit field, turns on
    the error bit of the neighbouring interest field, whatever the word was. *)
Theorem set_readiness_priority_leaks s :
  fits64 (rs_0 s) →
  Ready.is_error (RS.interest
    (RS.set_readiness s (UnixReady.into_ready UnixReady.priority))) = true.
Proof.
  intros Hs. unfold Ready.is_error. apply contains_bits. intros i Hi.
  change (N.testbit (2 ^ 2) i = true) in Hi. rewrite N.pow2_bits_eqb in Hi. nbool; subst.
  unfold RS.interest, ready_from_usize, RS.set_readiness; cbn [ready_0].
  change MASK_4 with (N.ones 4). rewrite get_testbit, set_testbit by done.
  by rewrite orb_true_r.
Qed.

Lemma set_readiness_priority_leaks_witness :
  RS.interest (mkRS 0) = Ready.empty ∧
  Ready.is_error (RS.interest
    (RS.set_readiness (mkRS 0) (UnixReady.into_ready UnixReady.priority))) = true.
Proof.
  split; [reflexivity|]. apply set_readiness_priority_leaks. vm_compute. discriminate.
Defined.
