(* ===== verification/Duration.v ===== *)
(** * Durations and milliseconds

    [std::time::Duration] as the pair the standard library keeps, the
    operations the crate uses on it, and the two copies of [millis]
    ([src/src/lib.rs], module [convert], and [src/src/sys/unix/epoll.rs]). *)
From S2P Require Import Prelude.

Definition NANOS_PER_SEC : N := 1000000000.
Definition NANOS_PER_MILLI : N := 1000000.
Definition MILLIS_PER_SEC : N := 1000.

Record Duration := mkDuration { as_secs : N; subsec_nanos : N }.

#[export] Instance Duration_eq_dec : EqDecision Duration.
Proof. solve_decision. Defined.

(** The invariant the standard library keeps. *)
Definition wf_duration (d : Duration) : Prop :=
  as_secs d <= u64_max ∧ subsec_nanos d < NANOS_PER_SEC.

(** The length of time a duration stands for. *)
Definition nanos (d : Duration) : N := as_secs d * NANOS_PER_SEC + subsec_nanos d.

Definition from_millis (ms : N) : Duration :=
  mkDuration (ms / MILLIS_PER_SEC) ((ms mod MILLIS_PER_SEC) * NANOS_PER_MILLI).

(** [Duration + Duration] panics when the seconds overflow. *)
Definition duration_add (a b : Duration) : exec Duration :=
  let ns := subsec_nanos a + subsec_nanos b in
  let carry := ns / NANOS_PER_SEC in
  let secs := as_secs a + as_secs b + carry in
  if secs <=? u64_max then Done (mkDuration secs (ns mod NANOS_PER_SEC))
  else Panic POverflow.

(** [Duration - Duration] panics when the result would be negative. *)
Definition duration_sub (a b : Duration) : exec Duration :=
  if nanos b <=? nanos a then
    let d := nanos a - nanos b in
    Done (mkDuration (d / NANOS_PER_SEC) (d mod NANOS_PER_SEC))
  else Panic POverflow.

(** [a >= b], the derived lexicographic order. *)
Definition duration_geb (a b : Duration) : bool :=
  (as_secs b <? as_secs a)
  || (as_secs a =? as_secs b) && (subsec_nanos b <=? subsec_nanos a).

Definition add32 (x y : N) : exec N :=
  if x + y <=? u32_max then Done (x + y) else Panic POverflow.

(** [convert::millis] of [lib.rs]. *)
Definition millis (duration : Duration) : exec N :=
  add32 (subsec_nanos duration) NANOS_PER_MILLI ≫= λ x,
  sub64 x 1 ≫= λ x,
  let millis := x / NANOS_PER_MILLI in
  Done (sat_add64 (sat_mul64 (as_secs duration) MILLIS_PER_SEC) millis).

(** [millis] of [epoll.rs]. *)
Definition epoll_millis (duration : Duration) : exec N :=
  add32 (subsec_nanos duration) NANOS_PER_MILLI ≫= λ x,
  sub64 x 1 ≫= λ x,
  let millis := x / NANOS_PER_MILLI in
  Done (sat_add64 (sat_mul64 (as_secs duration) MILLIS_PER_SEC) millis).

Lemma wf_from_millis ms : ms <= u64_max → wf_duration (from_millis ms).
Proof.
  intros H. unfold wf_duration, from_millis; cbn [as_secs subsec_nanos]. split.
  - transitivity ms; [|done]. apply N.Div0.div_le_upper_bound. unfold MILLIS_PER_SEC. lia.
  - assert (ms mod MILLIS_PER_SEC < MILLIS_PER_SEC) by (apply N.mod_lt; done).
    unfold NANOS_PER_SEC, NANOS_PER_MILLI, MILLIS_PER_SEC in *. lia.
Qed.

Lemma duration_geb_nanos a b :
  wf_duration a → wf_duration b → duration_geb a b = (nanos b <=? nanos a).
Proof.
  intros [_ Ha] [_ Hb]. unfold duration_geb, nanos in *. unfold NANOS_PER_SEC in *.
  destruct (as_secs b <? as_secs a) eqn:E1; nbool; cbn.
  - symmetry. apply N.leb_le. lia.
  - destruct (as_secs a =? as_secs b) eqn:E2; nbool; cbn.
    + rewrite E2. destruct (_ <=? _) eqn:E3; nbool; symmetry;
        [apply N.leb_le|apply N.leb_gt]; lia.
    + symmetry. apply N.leb_gt. lia.
Qed.

Lemma duration_add_nanos a b c :
  wf_duration a → wf_duration b → duration_add a b = Done c →
  wf_duration c ∧ nanos c = nanos a + nanos b.
Proof.
  intros [_ Ha] [_ Hb]. unfold duration_add.
  destruct (_ <=? _) eqn:E; [|done]. nbool. intros [= <-].
  unfold wf_duration, nanos; cbn [as_secs subsec_nanos].
  pose proof (N.div_mod (subsec_nanos a + subsec_nanos b) NANOS_PER_SEC ltac:(done)).
  pose proof (N.mod_lt (subsec_nanos a + subsec_nanos b) NANOS_PER_SEC ltac:(done)).
  unfold NANOS_PER_SEC in *. repeat split; lia.
Qed.

(** Rounding up to milliseconds commutes with the whole seconds. *)
Lemma ceil_millis secs ns :
  (secs * NANOS_PER_SEC + ns + NANOS_PER_MILLI - 1) / NANOS_PER_MILLI =
  secs * MILLIS_PER_SEC + (ns + NANOS_PER_MILLI - 1) / NANOS_PER_MILLI.
Proof.
  rewrite <- N.div_add_l by done. f_equal.
  unfold NANOS_PER_SEC, NANOS_PER_MILLI, MILLIS_PER_SEC. lia.
Qed.

Lemma millis_value d :
  wf_duration d →
  millis d = Done (N.min ((nanos d + NANOS_PER_MILLI - 1) / NANOS_PER_MILLI) u64_max).
Proof.
  intros [Hs Hn]. unfold millis, add32, nanos. rewrite ceil_millis.
  assert (subsec_nanos d + NANOS_PER_MILLI <= u32_max) as ->%N.leb_le.
  { change u32_max with 4294967295.
    unfold NANOS_PER_SEC, NANOS_PER_MILLI in *. lia. }
  cbn [mbind exec_bind]. unfold sub64.
  assert (1 <= subsec_nanos d + NANOS_PER_MILLI) as ->%N.leb_le.
  { unfold NANOS_PER_MILLI. lia. }
  cbn [mbind exec_bind]. f_equal. unfold sat_add64, sat_mul64.
  generalize (as_secs d * MILLIS_PER_SEC), u64_max. intros a b.
  generalize ((subsec_nanos d + NANOS_PER_MILLI - 1) / NANOS_PER_MILLI). lia.
Qed.

Lemma millis_Done d : wf_duration d → ∃ ms, millis d = Done ms ∧ ms <= u64_max.
Proof. intros H. rewrite (millis_value d H). eexists; split; [done|lia]. Qed.

Lemma nanos_from_millis ms : nanos (from_millis ms) = ms * NANOS_PER_MILLI.
Proof.
  unfold nanos, from_millis; cbn [as_secs subsec_nanos].
  pose proof (N.div_mod ms MILLIS_PER_SEC ltac:(done)).
  change NANOS_PER_SEC with (MILLIS_PER_SEC * NANOS_PER_MILLI). nia.
Qed.

Lemma millis_from_millis ms : ms <= u64_max → millis (from_millis ms) = Done ms.
Proof.
  intros H. rewrite (millis_value _ (wf_from_millis _ H)), nanos_from_millis. f_equal.
  replace (ms * NANOS_PER_MILLI + NANOS_PER_MILLI - 1)
    with (NANOS_PER_MILLI - 1 + ms * NANOS_PER_MILLI) by (unfold NANOS_PER_MILLI; lia).
  rewrite N.div_add by done. rewrite N.div_small by done. lia.
Qed.

(** C40 [millis] never panics on a well-formed duration and is the length of
    time rounded up to whole milliseconds, saturated at [u64::MAX]; it inverts
    [Duration::from_millis], and the copy the selector uses agrees with it. *)
Theorem millis_ceil d :
  wf_duration d →
  millis d = Done (N.min ((nanos d + NANOS_PER_MILLI - 1) / NANOS_PER_MILLI) u64_max)
  ∧ epoll_millis d = millis d
  ∧ ∀ ms, ms <= u64_max → millis (from_millis ms) = Done ms.
Proof.
  intros H. split; [by apply millis_value|]. split; [done|apply millis_from_millis].
Qed.

Lemma millis_ceil_witness :
  wf_duration (mkDuration 2 1) ∧ millis (mkDuration 2 1) = Done 2001.
Proof.
  assert (wf_duration (mkDuration 2 1)) as H by (split; vm_compute; (reflexivity || discriminate)).
  split; [exact H|]. destruct (millis_ceil _ H) as [E _]. rewrite E. reflexivity.
Defined.
