(* ===== verification/LazyCell.v ===== *)
(** * The lazily filled cell

    [LazyCell<T>] of [src/src/lazycell.rs]: an [UnsafeCell<Option<T>>] whose
    contents are written once through a shared reference.  A method takes the
    contents of the cell and returns its result with the contents after it.
    A closure argument runs in the middle of a method and may itself use the
    cell, so it is a function of the contents too. *)
From S2P Require Import Prelude.

Section LazyCell.
Context {T E : Type}.
Implicit Types (c : option T) (value : T).

Definition lazy_new : option T := None.

(** [Ok(())] is [None], [Err(value)] gives the value back. *)
Definition fill c value : option T * option T :=
  match c with
  | Some _ => (Some value, c)
  | None => (None, Some value)
  end.

Definition replace c value : option T * option T := (c, Some value).
Definition borrow c : option T := c.
Definition filled c : bool := bool_decide (is_Some (borrow c)).
Definition borrow_mut c : option T := c.
Definition into_inner c : option T := c.
Definition lazy_get c : option T := c.

Definition borrow_with c (f : option T → T * option T) : exec (T * option T) :=
  match borrow c with
  | Some value => Done (value, c)
  | None =>
      let '(value, c) := f c in
      let '(r, c) := fill c value in
      match r with
      | Some _ => Panic PAssert
      | None => unwrap PUnwrap (borrow c) ≫= λ v, Done (v, c)
      end
  end.

Definition borrow_mut_with c (f : option T → T * option T) : exec (T * option T) :=
  (if negb (filled c) then
     let '(value, c) := f c in
     let '(r, c) := fill c value in
     match r with Some _ => Panic PAssert | None => Done c end
   else Done c) ≫= λ c,
  unwrap PUnwrap (borrow_mut c) ≫= λ v, Done (v, c).

(** [Result<&T, E>] is [E + T]. *)
Definition try_borrow_with c (f : option T → (E + T) * option T)
    : exec ((E + T) * option T) :=
  match borrow c with
  | Some value => Done (inr value, c)
  | None =>
      let '(res, c) := f c in
      match res with
      | inl e => Done (inl e, c)
      | inr value =>
          let '(r, c) := fill c value in
          match r with
          | Some _ => Panic PAssert
          | None => unwrap PUnwrap (borrow c) ≫= λ v, Done (inr v, c)
          end
      end
  end.

Definition try_borrow_mut_with c (f : option T → (E + T) * option T)
    : exec ((E + T) * option T) :=
  if filled c then unwrap PUnwrap (borrow_mut c) ≫= λ v, Done (inr v, c)
  else
    let '(res, c) := f c in
    match res with
    | inl e => Done (inl e, c)
    | inr value =>
        let '(r, c) := fill c value in
        match r with
        | Some _ => Panic PAssert
        | None => unwrap PUnwrap (borrow_mut c) ≫= λ v, Done (inr v, c)
        end
    end.

(** The cell is written once: a filled cell gives its value to every
    borrower, never runs an initialiser, refuses [fill] and keeps its value;
    an empty cell runs the initialiser and panics exactly when the
    initialiser filled the cell behind its back. *)
Theorem lazycell_write_once c f g :
  match c with
  | Some v =>
      (∀ w, fill c w = (Some w, Some v)) ∧
      borrow_with c f = Done (v, Some v) ∧
      borrow_mut_with c f = Done (v, Some v) ∧
      try_borrow_with c g = Done (inr v, Some v) ∧
      try_borrow_mut_with c g = Done (inr v, Some v)
  | None =>
      (∀ w, fill c w = (None, Some w)) ∧
      borrow_with c f = borrow_mut_with c f ∧
      borrow_with c f =
        match (f None).2 with
        | None => Done ((f None).1, Some (f None).1)
        | Some _ => Panic PAssert
        end ∧
      try_borrow_with c g = try_borrow_mut_with c g ∧
      try_borrow_with c g =
        match g None with
        | (inl e, c') => Done (inl e, c')
        | (inr v, None) => Done (inr v, Some v)
        | (inr _, Some _) => Panic PAssert
        end
  end.
Proof.
  unfold borrow_with, borrow_mut_with, try_borrow_with, try_borrow_mut_with,
    borrow, borrow_mut, filled.
  destruct c as [v|]; cbn; [done|].
  destruct (f None) as [? [|]]; destruct (g None) as [[|] [|]]; cbn; done.
Qed.
End LazyCell.
