(* ===== verification/Awakener.v ===== *)
(** * The awakener

    [src/src/sys/unix/awakener.rs]: a pipe whose reader is registered with the
    selector, so that writing a byte interrupts a poll.  The pipe itself is
    the kernel's: [PipeOps] is what the code calls of it, [PipeLaws] what
    pipe(7) promises of a non-blocking pipe with both ends open. *)
From Stdlib Require Import Strings.Byte.
From S2P Require Import Prelude.

Class PipeOps (P : Type) := {
  (** [write] on the writing end: the number of bytes written. *)
  pipe_write : P → list byte → io_result N * P;
  (** [read] into a buffer of the given size: the number of bytes read. *)
  pipe_read : P → N → io_result N * P;
}.

Class PipeLaws (P : Type) `{PipeOps P} := {
  (** The bytes in the pipe; the reader is ready when there is one. *)
  pipe_len : P → N;
  pipe_write_len : ∀ p bs,
    bs ≠ [] →
    match pipe_write p bs with
    | (IoOk n, p') => 0 < n ∧ pipe_len p' = pipe_len p + n
    | (IoErr WouldBlock, p') => p' = p ∧ 0 < pipe_len p
    | (IoErr _, p') => p' = p
    end;
  pipe_read_len : ∀ p n,
    0 < n →
    match pipe_read p n with
    | (IoOk k, p') => 0 < k ∧ pipe_len p' + k = pipe_len p
    | (IoErr WouldBlock, p') => p' = p ∧ pipe_len p = 0
    | (IoErr _, p') => p' = p
    end;
}.

(** A bounded counter of bytes. *)
Module CountPipe.
Definition capacity : N := 65536.

#[global] Instance ops : PipeOps N := {|
  pipe_write := λ p bs,
    if p <? capacity
    then let n := N.min (N.of_nat (length bs)) (capacity - p) in (IoOk n, p + n)
    else (IoErr WouldBlock, p);
  pipe_read := λ p n,
    if p =? 0 then (IoErr WouldBlock, p)
    else let k := N.min n p in (IoOk k, p - k);
|}.

#[global] Instance laws : PipeLaws N.
Proof.
  refine {| pipe_len := λ p, p |}.
  - intros p bs Hbs. cbn. destruct (p <? capacity) eqn:E; nbool.
    + split; [|done]. destruct bs; [done|]. cbn [length]. lia.
    + split; [done|]. unfold capacity in E. lia.
  - intros p n Hn. cbn. destruct (p =? 0) eqn:E; nbool; [done|lia].
Defined.
End CountPipe.

Section Awakener.
Context {P : Type} {PO : PipeOps P} {PL : PipeLaws P}.
Implicit Types p : P.

(** [wakeup]: a full pipe already wakes the poller. *)
Definition wakeup p : io_result unit * P :=
  match pipe_write p [x01] with
  | (IoOk _, p) => (IoOk (), p)
  | (IoErr WouldBlock, p) => (IoOk (), p)
  | (IoErr e, p) => (IoErr e, p)
  end.

(** [cleanup]: read 128 bytes at a time until a read returns none. *)
Fixpoint cleanup (fuel : nat) p : exec P :=
  match fuel with
  | O => NoFuel
  | S fuel =>
      match pipe_read p 128 with
      | (IoOk i, p) => if 0 <? i then cleanup fuel p else Done p
      | (IoErr _, p) => Done p
      end
  end.

Lemma wakeup_ready p r p' :
  wakeup p = (r, p') →
  match r with
  | IoOk _ => 0 < pipe_len p' ∧ pipe_len p <= pipe_len p'
  | IoErr e => e ≠ WouldBlock ∧ p' = p
  end.
Proof.
  unfold wakeup. pose proof (pipe_write_len p [x01]) as Hw.
  destruct (pipe_write p [x01]) as [[n|[| |]] p1]; specialize (Hw ltac:(done)); cbn in Hw;
    intros [= <- <-]; [lia|done| |done].
  destruct Hw as [-> ?]. lia.
Qed.

Lemma cleanup_drains p fuel :
  (N.to_nat (pipe_len p) < fuel)%nat →
  ∃ p', cleanup fuel p = Done p' ∧ pipe_len p' <= pipe_len p ∧
    (pipe_len p' = 0 ∨ ∃ e, pipe_read p' 128 = (IoErr e, p') ∧ e ≠ WouldBlock).
Proof.
  revert p. induction fuel as [|fuel IH]; intros p Hfuel; [lia|]. cbn [cleanup].
  pose proof (pipe_read_len p 128) as Hr.
  destruct (pipe_read p 128) as [[k|e] p'] eqn:E; specialize (Hr ltac:(done)); cbn in Hr.
  - destruct Hr as [Hk Hl]. rewrite (proj2 (N.ltb_lt _ _)) by done.
    destruct (IH p') as (p2 & E2 & Hle & H2); [lia|]. exists p2. split; [done|]. split; [lia|done].
  - exists p'. split; [done|].
    assert (p' = p) as -> by (by destruct e; destruct_and?). split; [done|].
    destruct e; [right; eauto|left; by destruct Hr|right; eauto..].
Qed.

(** A successful [wakeup] leaves the reader ready even when the pipe is
    full, a failed one changes nothing; [cleanup] finishes within one read
    per byte and leaves the reader not ready, unless a read failed. *)
Theorem wakeup_cleanup p fuel :
  (N.to_nat (pipe_len p) < fuel)%nat →
  match wakeup p with
  | (IoOk _, p') => 0 < pipe_len p' ∧ pipe_len p <= pipe_len p'
  | (IoErr e, p') => e ≠ WouldBlock ∧ p' = p
  end ∧
  ∃ p', cleanup fuel p = Done p' ∧
    (pipe_len p' = 0 ∨ ∃ e, pipe_read p' 128 = (IoErr e, p') ∧ e ≠ WouldBlock).
Proof.
  intros Hfuel. split.
  - destruct (wakeup p) as [r p'] eqn:E. by apply wakeup_ready in E.
  - destruct (cleanup_drains p fuel Hfuel) as (p' & E & _ & H). by exists p'.
Qed.
End Awakener.

Lemma wakeup_cleanup_witness :
  match wakeup 65536 with
  | (IoOk _, p') => 0 < pipe_len p' ∧ pipe_len 65536 <= pipe_len p'
  | (IoErr e, p') => e ≠ WouldBlock ∧ p' = 65536
  end ∧
  ∃ p', cleanup (N.to_nat 65537) 65536 = Done p' ∧
    (pipe_len p' = 0 ∨ ∃ e, pipe_read p' 128 = (IoErr e, p') ∧ e ≠ WouldBlock).
Proof. apply wakeup_cleanup. cbn [pipe_len CountPipe.laws]. lia. Defined.
