(* ===== verification/Selector.v ===== *)
(** * The selector

    [src/src/sys/unix/epoll.rs]: the epoll instance and the map from file
    descriptors to job entries it keeps beside it, with the buffer of events
    of a poll.  The kernel's epoll is [EpollOps], with the behaviour epoll_ctl(2)
    and epoll_wait(2) document in [EpollLaws]. *)
From S2P Require Import Prelude EventSet Duration.

(** ** C integers

    A [RawFd] is an [i32] and is kept as a [Z]; the epoll data word is [u64]. *)

Definition i32_range (x : Z) : Prop := (-2 ^ 31 <= x < 2 ^ 31)%Z.
(** [x as u64] of an [i32]: sign extension. *)
Definition i32_as_u64 (x : Z) : N := Z.to_N (x mod 2 ^ 64).
(** [x as usize as i32]: the low 32 bits. *)
Definition u64_as_i32 (x : N) : Z :=
  let r := (Z.of_N x mod 2 ^ 32)%Z in
  if (r <? 2 ^ 31)%Z then r else (r - 2 ^ 32)%Z.

Lemma u64_as_i32_of_i32 x : i32_range x → u64_as_i32 (i32_as_u64 x) = x.
Proof.
  intros [Hlo Hhi]. unfold u64_as_i32, i32_as_u64.
  assert (0 <= x mod 2 ^ 64)%Z by (apply Z.mod_pos_bound; lia).
  rewrite Z2N.id by done. rewrite Z.mod_mod_divide by (by exists (2 ^ 32)%Z).
  destruct (decide (0 <= x)%Z) as [Hx|Hx].
  - rewrite Z.mod_small by lia. by rewrite (proj2 (Z.ltb_lt _ _)).
  - replace (x mod 2 ^ 32)%Z with (x + 2 ^ 32)%Z.
    + rewrite (proj2 (Z.ltb_ge _ _)) by lia. lia.
    + apply (Z.mod_unique_pos _ _ (-1)); lia.
Qed.

Definition I32_MAX : N := N.ones 31.

(** The constants of [sys/epoll.h]. *)
Definition EPOLLIN : N := 1.
Definition EPOLLPRI : N := 2.
Definition EPOLLOUT : N := 4.
Definition EPOLLERR : N := 8.
Definition EPOLLHUP : N := 16.
Definition EPOLLONESHOT : N := 2 ^ 30.
Definition EPOLLET : N := 2 ^ 31.
Definition not32 (x : N) : N := N.lxor x (N.ones 32).

Record epoll_event := mkEpollEvent { ep_events : N; ep_u64 : N }.

(** ** The kernel *)

Inductive ctl_op : Set := EPOLL_CTL_ADD | EPOLL_CTL_MOD | EPOLL_CTL_DEL.

Class EpollOps (K : Type) := {
  epoll_ctl : K → ctl_op → Z → epoll_event → io_result unit * K;
  (** [epoll_wait] with the room of the buffer and the timeout in ms. *)
  epoll_wait : K → N → Z → io_result (list epoll_event) * K;
  (** what close(2) of a descriptor does to the instance *)
  epoll_forget : K → Z → K;
}.

(** The interest list maps a descriptor to the data word given for it; a
    failed call changes nothing; a reported event carries the data word of a
    descriptor of the interest list.  A closed descriptor leaves the list,
    unless a duplicate of it is open. *)
Class EpollLaws (K : Type) `{EpollOps K} := {
  ep_data : K → gmap Z N;
  ctl_add : ∀ k fd ev,
    match epoll_ctl k EPOLL_CTL_ADD fd ev with
    | (IoOk _, k') => i32_range fd ∧ ep_data k !! fd = None ∧
                      ep_data k' = <[fd := ep_u64 ev]> (ep_data k)
    | (IoErr _, k') => ep_data k' = ep_data k
    end;
  ctl_mod : ∀ k fd ev,
    match epoll_ctl k EPOLL_CTL_MOD fd ev with
    | (IoOk _, k') => is_Some (ep_data k !! fd) ∧
                      ep_data k' = <[fd := ep_u64 ev]> (ep_data k)
    | (IoErr _, k') => ep_data k' = ep_data k
    end;
  ctl_del : ∀ k fd ev,
    match epoll_ctl k EPOLL_CTL_DEL fd ev with
    | (IoOk _, k') => is_Some (ep_data k !! fd) ∧ ep_data k' = delete fd (ep_data k)
    | (IoErr _, k') => ep_data k' = ep_data k
    end;
  wait_data : ∀ k room timeout,
    match epoll_wait k room timeout with
    | (IoOk evs, k') => ep_data k' = ep_data k ∧ N.of_nat (length evs) <= room ∧
        Forall (λ ev, ∃ fd, ep_data k !! fd = Some (ep_u64 ev)) evs
    | (IoErr _, k') => ep_data k' = ep_data k
    end;
  forget_data : ∀ k fd,
    ep_data (epoll_forget k fd) = delete fd (ep_data k) ∨
    ep_data (epoll_forget k fd) = ep_data k;
}.

(** An epoll whose ready descriptors are given in advance, one batch per wait. *)
Module ScriptEpoll.
Record t := mk { data : gmap Z N; batches : list (list (Z * N)) }.

Definition reported (m : gmap Z N) (p : Z * N) : option epoll_event :=
  mkEpollEvent p.2 <$> m !! p.1.

#[global] Instance ops : EpollOps t := {|
  epoll_ctl := λ k op fd ev,
    match op, data k !! fd with
    | EPOLL_CTL_ADD, None =>
        if bool_decide (-2 ^ 31 <= fd < 2 ^ 31)%Z
        then (IoOk (), mk (<[fd := ep_u64 ev]> (data k)) (batches k))
        else (IoErr (OtherError 9), k)
    | EPOLL_CTL_ADD, Some _ => (IoErr (OtherError 17), k)
    | EPOLL_CTL_MOD, Some _ => (IoOk (), mk (<[fd := ep_u64 ev]> (data k)) (batches k))
    | EPOLL_CTL_DEL, Some _ => (IoOk (), mk (delete fd (data k)) (batches k))
    | _, None => (IoErr (OtherError 2), k)
    end;
  epoll_wait := λ k room timeout,
    match batches k with
    | [] => (IoOk [], k)
    | b :: bs => (IoOk (take (N.to_nat room) (omap (reported (data k)) b)), mk (data k) bs)
    end;
  epoll_forget := λ k fd, mk (delete fd (data k)) (batches k);
|}.

#[global] Instance laws : EpollLaws t.
Proof.
  refine {| ep_data := data |}.
  - intros k fd ev. cbn. destruct (data k !! fd) eqn:E; [done|].
    case_bool_decide; [|done]. by split.
  - intros k fd ev. cbn. destruct (data k !! fd) eqn:E; [|done]. by eauto.
  - intros k fd ev. cbn. destruct (data k !! fd) eqn:E; [|done]. by eauto.
  - intros k room timeout. cbn. destruct (batches k) as [|b bs]; [by split_and!; cbn; [|lia|]|].
    split; [done|]. split; [rewrite length_take; lia|].
    apply Forall_take, Forall_forall. intros ev (p & _ & Ep)%list_elem_of_omap.
    unfold reported in Ep. destruct (data k !! p.1) eqn:E; [|done].
    injection Ep as <-. by exists p.1.
  - intros k fd. by left.
Defined.
End ScriptEpoll.

(** ** Translation of readiness *)

Definition ioevent_to_epoll (interest : Ready) (opts : PollOpt) : N :=
  let kind := 0 in
  let kind := if Ready.is_readable interest then N.lor kind EPOLLIN else kind in
  let kind := if Ready.is_writable interest then N.lor kind EPOLLOUT else kind in
  let kind := if UnixReady.is_priority (UnixReady.from_ready interest)
              then N.lor kind EPOLLPRI else kind in
  let kind := if PollOpt.is_edge opts then N.lor kind EPOLLET else kind in
  let kind := if PollOpt.is_level opts then N.land kind (not32 EPOLLET) else kind in
  let kind := if PollOpt.is_oneshot opts then N.lor kind EPOLLONESHOT else kind in
  kind.

Definition has (epoll flag : N) : bool := negb (N.land epoll flag =? 0).

(** The body of [Events::get_ready]. *)
Definition ready_of_epoll (epoll : N) : Ready :=
  let kind := Ready.empty in
  let kind := if has epoll EPOLLIN then Ready.bitor kind Ready.readable else kind in
  let kind := if has epoll EPOLLOUT then Ready.bitor kind Ready.writable else kind in
  let kind := if has epoll EPOLLPRI
              then Ready.bitor (Ready.bitor kind Ready.readable)
                     (UnixReady.into_ready UnixReady.priority) else kind in
  let kind := if has epoll EPOLLERR
              then Ready.bitor kind (UnixReady.into_ready UnixReady.error) else kind in
  let kind := if has epoll EPOLLHUP
              then Ready.bitor kind (UnixReady.into_ready UnixReady.hup) else kind in
  kind.

(** ** The buffer of events

    The two vectors with their capacities; [grow] is the capacity the standard
    library gives a full vector that is pushed to. *)
Section Selector.
Context {J : Type} (grow : N → N).
Context {K : Type} {KO : EpollOps K} {KL : EpollLaws K}.

Record Events := mkEvents {
  ev_events : list epoll_event;
  ev_events_cap : N;
  ev_entries : list (JobEntry J);
  ev_entries_cap : N;
}.

Definition Events_with_capacity (u : N) : Events := mkEvents [] u [] u.
Definition Events_len (e : Events) : N := N.of_nat (length (ev_entries e)).
Definition Events_capacity (e : Events) : N := ev_entries_cap e.
Definition Events_is_empty (e : Events) : bool := Events_len e =? 0.
Definition Events_get_ready (e : Events) (idx : N) : option Ready :=
  (λ ev, ready_of_epoll (ep_events ev)) <$> nth64 (ev_events e) idx.
(** [get_mut] lends the entry; the caller writes it back with [set_entry]. *)
Definition Events_get_mut (e : Events) (idx : N) : option (JobEntry J) :=
  nth64 (ev_entries e) idx.
Definition Events_clear (e : Events) : Events :=
  mkEvents [] (ev_events_cap e) [] (ev_entries_cap e).

Definition push_cap {A} (l : list A) (cap : N) : N :=
  if N.of_nat (length l) <? cap then cap else grow cap.

Definition push_event (e : Events) (event : Event) (job : J) : Events :=
  mkEvents
    (ev_events e ++ [mkEpollEvent
       (ioevent_to_epoll (Event_readiness event) PollOpt.empty)
       (token_val (token (event_token event)))])
    (push_cap (ev_events e) (ev_events_cap e))
    (ev_entries e ++ [mkJobEntry (event_token event) job Ready.empty])
    (push_cap (ev_entries e) (ev_entries_cap e)).

(** ** The selector *)

Record Selector := mkSelector {
  sel_id : N;
  sel_epfd : Z;
  sel_map : gmap Z (JobEntry J);
  (** the kernel's instance behind [epfd] *)
  sel_kernel : K;
}.

Definition with_map (s : Selector) m : Selector :=
  mkSelector (sel_id s) (sel_epfd s) m (sel_kernel s).
Definition with_kernel (s : Selector) k : Selector :=
  mkSelector (sel_id s) (sel_epfd s) (sel_map s) k.

(** [Selector::new]: [epoll_create1] is looked up with [dlsym], with
    [epoll_create] as the fall-back; the identifiers count from 1. *)
Definition Selector_new (next_id : N) (create1 : option (io_result (Z * K)))
    (create : io_result (Z * K)) : exec (io_result Selector * N) :=
  match (match create1 with Some r => r | None => create end) with
  | IoErr e => Done (IoErr e, next_id)
  | IoOk (epfd, k) =>
      let next := (next_id + 1) mod 2 ^ word_bits in
      add64 next_id 1 ≫= λ id, Done (IoOk (mkSelector id epfd ∅ k), next)
  end.

(** The loop of [select] over the events [epoll_wait] reported: [notify] is
    the index of the last notification seen. *)
Fixpoint select_loop (evs : list epoll_event) (i : N) (m : gmap Z (JobEntry J))
    (entries : list (JobEntry J)) (notify : option N)
    : gmap Z (JobEntry J) * list (JobEntry J) * option N :=
  match evs with
  | [] => (m, entries, notify)
  | ev :: evs =>
      let fd := u64_as_i32 (ep_u64 ev) in
      match m !! fd with
      | Some job_entry =>
          if bool_decide (ttype (token_entry job_entry) = NotifyEvent)
          then select_loop evs (i + 1) m entries (Some i)
          else
            let job_entry := mkJobEntry (token_entry job_entry) (job job_entry)
                               (ready_of_epoll (ep_events ev)) in
            select_loop evs (i + 1) (<[fd := job_entry]> m)
              (entries ++ [job_entry]) notify
      | None => select_loop evs (i + 1) m entries notify
      end
  end.

Definition select_timeout (timeout : option Duration) : exec Z :=
  match timeout with
  | Some to => epoll_millis to ≫= λ ms, Done (Z.of_N (N.min ms I32_MAX))
  | None => Done (-1)%Z
  end.

(** The entries pushed past the capacity grow the vector. *)
Definition entries_cap (entries : list (JobEntry J)) (cap : N) : N :=
  if N.of_nat (length entries) <=? cap then cap else grow cap.

Definition select (s : Selector) (evts : Events) (timeout : option Duration)
    : exec (io_result bool * Selector * Events) :=
  select_timeout timeout ≫= λ timeout_ms,
  let evts := Events_clear evts in
  match epoll_wait (sel_kernel s) (ev_events_cap evts) timeout_ms with
  | (IoErr e, k) => Done (IoErr e, with_kernel s k, evts)
  | (IoOk evs, k) =>
      let '(m, entries, notify) := select_loop evs 0 (sel_map s) [] None in
      let s := with_map (with_kernel s k) m in
      let cap := entries_cap entries (ev_entries_cap evts) in
      match notify with
      | Some i => Done (IoOk true, s,
          mkEvents (delete (N.to_nat i) evs) (ev_events_cap evts) entries cap)
      | None => Done (IoOk false, s, mkEvents evs (ev_events_cap evts) entries cap)
      end
  end.

Definition register (s : Selector) (fd : Z) (tok : TokenEntry) (interests : Ready)
    (opts : PollOpt) (jb : J) : io_result unit * Selector :=
  let info := mkEpollEvent (ioevent_to_epoll interests opts) (i32_as_u64 fd) in
  let s := with_map s (<[fd := mkJobEntry tok jb Ready.empty]> (sel_map s)) in
  let '(r, k) := epoll_ctl (sel_kernel s) EPOLL_CTL_ADD fd info in
  (r, with_kernel s k).

Definition reregister (s : Selector) (fd : Z) (tok : TokenEntry) (interests : Ready)
    (opts : PollOpt) : io_result unit * Selector :=
  let t := token tok in
  let info := mkEpollEvent (ioevent_to_epoll interests opts) (token_val t) in
  let '(r, k) := epoll_ctl (sel_kernel s) EPOLL_CTL_MOD fd info in
  (r, with_kernel s k).

(** The trailing [debug!] of [deregister] unwraps the removed entry when the
    record is enabled ([verbose]). *)
Definition deregister (verbose : bool) (s : Selector) (fd : Z)
    : exec (io_result unit * Selector) :=
  let info := mkEpollEvent 0 0 in
  let '(r, k) := epoll_ctl (sel_kernel s) EPOLL_CTL_DEL fd info in
  let s := with_kernel s k in
  match r with
  | IoErr e => Done (IoErr e, s)
  | IoOk _ =>
      let v := sel_map s !! fd in
      let s := with_map s (delete fd (sel_map s)) in
      (if verbose then unwrap PUnwrap v ≫= λ _, Done () else Done ()) ≫= λ _,
      Done (IoOk (), s)
  end.

(** [Evented for EventedFd] and for [Io] forward to the selector. *)
Definition EventedFd_register := register.
Definition EventedFd_reregister := reregister.
Definition EventedFd_deregister := deregister.

(** ** Dispatching the events of a poll *)

(** The entry an event is reported as: that of the descriptor in its data
    word, with the readiness of the event; none for a notification. *)
Definition dispatch (m : gmap Z (JobEntry J)) (ev : epoll_event) : option (JobEntry J) :=
  match m !! u64_as_i32 (ep_u64 ev) with
  | Some e => if bool_decide (ttype (token_entry e) = NotifyEvent) then None
              else Some (mkJobEntry (token_entry e) (job e) (ready_of_epoll (ep_events ev)))
  | None => None
  end.
Definition is_notify (m : gmap Z (JobEntry J)) (ev : epoll_event) : bool :=
  match m !! u64_as_i32 (ep_u64 ev) with
  | Some e => bool_decide (ttype (token_entry e) = NotifyEvent)
  | None => false
  end.

(** What a registration is about: everything but the last readiness. *)
Definition registration (e : JobEntry J) : TokenEntry * J := (token_entry e, job e).
Definition registrations (m : gmap Z (JobEntry J)) : gmap Z (TokenEntry * J) :=
  registration <$> m.

Lemma registrations_lookup m m' x :
  registrations m = registrations m' → registration <$> m !! x = registration <$> m' !! x.
Proof. unfold registrations. intros E. by rewrite <- !lookup_fmap, E. Qed.

Lemma dispatch_registrations m m' ev :
  registrations m = registrations m' →
  dispatch m ev = dispatch m' ev ∧ is_notify m ev = is_notify m' ev.
Proof.
  intros E%(registrations_lookup _ _ (u64_as_i32 (ep_u64 ev))). unfold dispatch, is_notify.
  destruct (m !! _) as [[]|], (m' !! _) as [[]|]; try done. cbn in E. injection E as -> ->. done.
Qed.

Lemma dispatch_all m m' evs :
  registrations m = registrations m' →
  omap (dispatch m) evs = omap (dispatch m') evs ∧
  existsb (is_notify m) evs = existsb (is_notify m') evs.
Proof.
  intros E. induction evs as [|ev evs [IH1 IH2]]; [done|].
  destruct (dispatch_registrations m m' ev E) as [E1 E2].
  cbn [omap list_omap existsb]. by rewrite E1, E2, IH1, IH2.
Qed.

Lemma registrations_insert m x e e' :
  m !! x = Some e → registration e' = registration e →
  registrations (<[x := e']> m) = registrations m.
Proof.
  intros E Er. unfold registrations. rewrite fmap_insert, Er. apply insert_id.
  by rewrite lookup_fmap, E.
Qed.

Lemma select_loop_spec evs i m entries notify :
  ∃ m' notify', select_loop evs i m entries notify =
      (m', entries ++ omap (dispatch m) evs, notify') ∧
    registrations m' = registrations m ∧
    (is_Some notify' ↔ is_Some notify ∨ existsb (is_notify m) evs = true).
Proof.
  revert i m entries notify. induction evs as [|ev evs IH]; intros i m entries notify.
  { exists m, notify. cbn. rewrite app_nil_r. split_and!; [done..|naive_solver]. }
  cbn [select_loop omap list_omap existsb]. unfold dispatch at 1, is_notify at 1.
  destruct (m !! u64_as_i32 (ep_u64 ev)) as [e|] eqn:E; [|by apply IH].
  case_bool_decide as Et.
  - destruct (IH (i + 1) m entries (Some i)) as (m' & n' & -> & Hm & Hn).
    exists m', n'. split_and!; [done..|]. rewrite Hn. split; [by right|eauto].
  - set (e' := mkJobEntry _ _ _).
    pose proof (registrations_insert m _ e e' E eq_refl) as Hreg.
    destruct (IH (i + 1) (<[u64_as_i32 (ep_u64 ev) := e']> m) (entries ++ [e']) notify)
      as (m' & n' & -> & Hm & Hn).
    destruct (dispatch_all _ _ evs Hreg) as [E1 E2]. rewrite E1, E2 in *.
    exists m', n'. rewrite <- (app_assoc entries). split_and!; [done|congruence|done].
Qed.

(** ** Coherence of the selector and the kernel *)

(** Every descriptor of the interest list has an entry, and its data word is
    the descriptor. *)
Definition coherent (s : Selector) : Prop :=
  ∀ fd u, ep_data (sel_kernel s) !! fd = Some u →
    i32_range fd ∧ u = i32_as_u64 fd ∧ is_Some (sel_map s !! fd).

Definition select_result (s : Selector) (evs : list epoll_event) (b : bool)
    (s' : Selector) (evts' : Events) : Prop :=
  ev_entries evts' = omap (dispatch (sel_map s)) evs ∧
  b = existsb (is_notify (sel_map s)) evs ∧
  registrations (sel_map s') = registrations (sel_map s) ∧
  sel_id s' = sel_id s ∧ sel_epfd s' = sel_epfd s.

Lemma select_ok s evts timeout timeout_ms evs k :
  select_timeout timeout = Done timeout_ms →
  epoll_wait (sel_kernel s) (ev_events_cap evts) timeout_ms = (IoOk evs, k) →
  ∃ b s' evts', select s evts timeout = Done (IoOk b, s', evts') ∧
    select_result s evs b s' evts' ∧ sel_kernel s' = k.
Proof.
  intros Et Ew. unfold select. rewrite Et. cbn [mbind exec_bind ev_events_cap Events_clear].
  rewrite Ew. destruct (select_loop_spec evs 0 (sel_map s) [] None) as (m' & n' & -> & Hm & Hn).
  destruct n' as [i|]; eexists _, _, _; (split; [reflexivity|]); split; try done;
    split_and!; try done; cbn [with_map with_kernel sel_map].
  - destruct Hn as [Hn _]. destruct (Hn (mk_is_Some _ _ eq_refl)) as [[? ?]|Hb]; [done|].
    by rewrite Hb.
  - destruct (existsb _ _); [|done]. destruct Hn as [_ Hn].
    by destruct (Hn (or_intror eq_refl)).
Qed.

Lemma coherent_registered s s' :
  coherent s → ep_data (sel_kernel s') = ep_data (sel_kernel s) →
  registrations (sel_map s') = registrations (sel_map s) → coherent s'.
Proof.
  intros Hc Ek Em fd u E. rewrite Ek in E. destruct (Hc fd u E) as (? & ? & [e He]).
  split_and!; try done. apply (registrations_lookup _ _ fd) in Em. rewrite He in Em.
  destruct (sel_map s' !! fd); [eauto|done].
Qed.

(** Over a coherent selector a poll reports every event of the kernel,
    in order: a notification through the boolean, any other event through the
    entry of its own descriptor with the token and the job it was registered
    with and the readiness of the event; the registrations stay as they are
    and the selector coherent. *)
Theorem select_dispatch s evts timeout timeout_ms evs k :
  coherent s → select_timeout timeout = Done timeout_ms →
  epoll_wait (sel_kernel s) (ev_events_cap evts) timeout_ms = (IoOk evs, k) →
  ∃ b s' evts', select s evts timeout = Done (IoOk b, s', evts') ∧
    select_result s evs b s' evts' ∧ coherent s' ∧
    Forall (λ ev, ∃ fd e, ep_data (sel_kernel s) !! fd = Some (ep_u64 ev) ∧
      u64_as_i32 (ep_u64 ev) = fd ∧ sel_map s !! fd = Some e ∧
      (is_notify (sel_map s) ev = false →
       dispatch (sel_map s) ev =
         Some (mkJobEntry (token_entry e) (job e) (ready_of_epoll (ep_events ev))))) evs.
Proof.
  intros Hc Et Ew. destruct (select_ok s evts timeout timeout_ms evs k Et Ew)
    as (b & s' & evts' & E & Hr & Ek).
  pose proof (wait_data (sel_kernel s) (ev_events_cap evts) timeout_ms) as Hw.
  rewrite Ew in Hw. destruct Hw as (Ed & _ & Hevs).
  exists b, s', evts'. split; [done|]. split; [done|]. split.
  - eapply (coherent_registered s); [done|by rewrite Ek|by destruct Hr as (_ & _ & ? & _)].
  - eapply Forall_impl; [exact Hevs|]. intros ev [fd Efd].
    destruct (Hc _ _ Efd) as (Hr32 & Eu & [e He]). exists fd, e.
    assert (u64_as_i32 (ep_u64 ev) = fd) as Ei by (rewrite Eu; by apply u64_as_i32_of_i32).
    split_and!; try done. unfold is_notify, dispatch. rewrite Ei, He. by case_bool_decide.
Qed.

Lemma fd_register_ok s fd tok interests opts jb :
  coherent s →
  let '(r, s') := register s fd tok interests opts jb in
  coherent s' ∧ sel_id s' = sel_id s ∧
  sel_map s' = <[fd := mkJobEntry tok jb Ready.empty]> (sel_map s) ∧
  match r with
  | IoOk _ => ep_data (sel_kernel s) !! fd = None ∧
      ep_data (sel_kernel s') = <[fd := i32_as_u64 fd]> (ep_data (sel_kernel s)) ∧
      i32_range fd
  | IoErr _ => ep_data (sel_kernel s') = ep_data (sel_kernel s)
  end.
Proof.
  intros Hc. unfold register.
  set (info := mkEpollEvent (ioevent_to_epoll interests opts) (i32_as_u64 fd)).
  pose proof (ctl_add (sel_kernel s) fd info) as Ha.
  cbn [with_map sel_kernel]. destruct (epoll_ctl _ _ _ _) as [[[]|e] k'].
  - destruct Ha as (Hr & Hn & Ed). split; [|by split_and!]. intros x u E.
    cbn [with_kernel sel_kernel sel_map with_map] in *. rewrite Ed in E.
    destruct (decide (x = fd)) as [->|Hne].
    + rewrite lookup_insert_eq in E. rewrite lookup_insert_eq. injection E as <-. by split_and!.
    + rewrite lookup_insert_ne in E by done. rewrite lookup_insert_ne by done. by apply Hc.
  - split; [|done]. intros x u E. cbn [with_kernel sel_kernel sel_map with_map] in *.
    rewrite Ha in E. destruct (Hc x u E) as (? & ? & ?). split_and!; try done.
    destruct (decide (x = fd)) as [->|Hne];
      [rewrite lookup_insert_eq|rewrite lookup_insert_ne by done]; by eauto.
Qed.

(** [register] keeps the selector coherent whether it succeeds or not,
    but stores the new entry before it asks the kernel: a failed registration
    leaves that entry behind, replacing the one of a descriptor that was
    registered already. *)
Theorem register_spec s fd tok interests opts jb :
  coherent s →
  let '(r, s') := register s fd tok interests opts jb in
  coherent s' ∧
  sel_map s' = <[fd := mkJobEntry tok jb Ready.empty]> (sel_map s) ∧
  match r with
  | IoOk _ => ep_data (sel_kernel s) !! fd = None ∧
      ep_data (sel_kernel s') = <[fd := i32_as_u64 fd]> (ep_data (sel_kernel s))
  | IoErr _ => ep_data (sel_kernel s') = ep_data (sel_kernel s)
  end.
Proof.
  intros Hc. pose proof (fd_register_ok s fd tok interests opts jb Hc) as H.
  destruct (register s fd tok interests opts jb) as [[[]|e] s'].
  - destruct H as (? & _ & ? & ? & ? & _). by split_and!.
  - destruct H as (? & _ & ? & ?). by split_and!.
Qed.

Lemma fd_deregister_ok verbose s fd :
  coherent s →
  ∃ r s', deregister verbose s fd = Done (r, s') ∧ coherent s' ∧ sel_id s' = sel_id s ∧
    match r with
    | IoOk _ => is_Some (ep_data (sel_kernel s) !! fd) ∧
        ep_data (sel_kernel s') = delete fd (ep_data (sel_kernel s)) ∧
        sel_map s' = delete fd (sel_map s)
    | IoErr _ => ep_data (sel_kernel s') = ep_data (sel_kernel s) ∧ sel_map s' = sel_map s
    end.
Proof.
  intros Hc. unfold deregister.
  pose proof (ctl_del (sel_kernel s) fd (mkEpollEvent 0 0)) as Hd.
  destruct (epoll_ctl _ _ _ _) as [[[]|e] k'] eqn:Ek.
  - destruct Hd as ([u Eu] & Ed). destruct (Hc fd u Eu) as (_ & _ & [en Een]).
    cbn [with_kernel sel_map]. rewrite Een.
    eexists _, _. split; [by destruct verbose|]. split; [|by split_and!].
    intros x v E. cbn [with_map sel_kernel sel_map with_kernel] in *. rewrite Ed in E.
    apply lookup_delete_Some in E as [Hne E]. rewrite lookup_delete_ne by done. by apply Hc.
  - eexists _, _. split; [done|]. split; [|done].
    intros x v E. cbn [with_kernel sel_kernel sel_map] in *. rewrite Hd in E. by apply Hc.
Qed.

(** [deregister] after a successful [register] of a new descriptor
    restores the map and the interest list, and never panics on a coherent
    selector; a failed [deregister] changes nothing. *)
Theorem deregister_spec verbose s fd :
  coherent s →
  ∃ r s', deregister verbose s fd = Done (r, s') ∧ coherent s' ∧
    match r with
    | IoOk _ => is_Some (ep_data (sel_kernel s) !! fd) ∧
        ep_data (sel_kernel s') = delete fd (ep_data (sel_kernel s)) ∧
        sel_map s' = delete fd (sel_map s) ∧
        ∀ s0 tok interests opts jb, sel_map s0 !! fd = None → coherent s0 →
          register s0 fd tok interests opts jb = (IoOk (), s) →
          sel_map s' = sel_map s0 ∧ ep_data (sel_kernel s') = ep_data (sel_kernel s0)
    | IoErr _ => ep_data (sel_kernel s') = ep_data (sel_kernel s) ∧ sel_map s' = sel_map s
    end.
Proof.
  intros Hc. destruct (fd_deregister_ok verbose s fd Hc) as (r & s' & E & Hc' & _ & Hr).
  exists r, s'. split; [done|]. split; [done|]. destruct r as [[]|e]; [|done].
  destruct Hr as (Hs & Ed & Em). split; [done|]. split; [done|]. split; [done|].
  intros s0 tok interests opts jb Hn Hc0 E0.
  pose proof (fd_register_ok s0 fd tok interests opts jb Hc0) as Ha. rewrite E0 in Ha.
  destruct Ha as (_ & _ & Em0 & Hn0 & Ek0 & _). rewrite Ed, Em, Em0, Ek0.
  by rewrite !delete_insert_id.
Qed.

(** [reregister] stores the token, not the descriptor, in the data word
    of the kernel: the events of the descriptor are then looked up under the
    token, so a poll drops every one of them when no descriptor has the number
    of the token, and otherwise reports them as events of that descriptor. *)
Theorem reregister_misroutes s fd tok interests opts s' evts timeout timeout_ms evs k :
  coherent s → reregister s fd tok interests opts = (IoOk (), s') →
  select_timeout timeout = Done timeout_ms →
  epoll_wait (sel_kernel s') (ev_events_cap evts) timeout_ms = (IoOk evs, k) →
  Forall (λ ev, ep_data (sel_kernel s') !! fd = Some (ep_u64 ev)) evs →
  ∃ b s'' evts', select s' evts timeout = Done (IoOk b, s'', evts') ∧
    match sel_map s !! u64_as_i32 (token_val (token tok)) with
    | None => ev_entries evts' = [] ∧ b = false
    | Some e => Forall (λ e', registration e' = registration e) (ev_entries evts')
    end.
Proof.
  intros Hc E Et Ew Hevs. destruct (select_ok s' evts timeout timeout_ms evs k Et Ew)
    as (b & s'' & evts' & Es & (Een & Eb & _) & _).
  exists b, s'', evts'. split; [done|]. unfold reregister in E.
  pose proof (ctl_mod (sel_kernel s) fd
    (mkEpollEvent (ioevent_to_epoll interests opts) (token_val (token tok)))) as Hm.
  destruct (epoll_ctl _ _ _ _) as [[[]|e] k']; [|done]. injection E as <-.
  destruct Hm as [_ Ed]. cbn [with_kernel sel_kernel sel_map] in *.
  rewrite Ed, lookup_insert_eq in Hevs. cbn [ep_u64] in Hevs. rewrite Een, Eb. clear Een Eb Ew Es.
  destruct (sel_map s !! _) as [e|] eqn:Em.
  - induction Hevs as [|ev evs Eev Hevs IH]; [constructor|]. injection Eev as Eev.
    cbn [omap list_omap]. unfold dispatch at 1. rewrite <- Eev, Em.
    case_bool_decide; [done|]. by constructor.
  - induction Hevs as [|ev evs Eev Hevs [IH1 IH2]]; [done|]. injection Eev as Eev.
    cbn [omap list_omap existsb]. unfold dispatch at 1, is_notify at 1.
    by rewrite <- Eev, Em.
Qed.
End Selector.

(** ** The translation of flags *)

Lemma has_lor x y f : has (N.lor x y) f = has x f || has y f.
Proof.
  unfold has. rewrite N.land_comm, N.land_lor_distr_r.
  destruct (N.land x f =? 0) eqn:E1, (N.land y f =? 0) eqn:E2; nbool; cbn;
    rewrite N.land_comm in E1, E2.
  - by rewrite E1, E2.
  - rewrite E1, N.lor_0_l. by apply N.eqb_neq in E2 as ->.
  - rewrite E2, N.lor_0_r. by apply N.eqb_neq in E1 as ->.
  - destruct (N.lor _ _ =? 0) eqn:E; nbool; [|done]. by apply N.lor_eq_0_l in E.
Qed.

(** The event word of an interest has the input, output and urgent flags of
    the interest, is edge triggered exactly for the edge option without the
    level option, and one-shot for that option; read back, it is readable or
    writable for the same interests (urgent data also makes it readable). *)
Theorem epoll_translation interest opts :
  let w := ioevent_to_epoll interest opts in
  let pri := UnixReady.is_priority (UnixReady.from_ready interest) in
  has w EPOLLIN = Ready.is_readable interest ∧
  has w EPOLLOUT = Ready.is_writable interest ∧
  has w EPOLLPRI = pri ∧
  has w EPOLLET = PollOpt.is_edge opts && negb (PollOpt.is_level opts) ∧
  has w EPOLLONESHOT = PollOpt.is_oneshot opts ∧
  Ready.is_readable (ready_of_epoll w) = Ready.is_readable interest || pri ∧
  Ready.is_writable (ready_of_epoll w) = Ready.is_writable interest ∧
  Ready.is_error (ready_of_epoll w) = false.
Proof.
  unfold ioevent_to_epoll.
  destruct (Ready.is_readable interest), (Ready.is_writable interest),
    (UnixReady.is_priority (UnixReady.from_ready interest)),
    (PollOpt.is_edge opts), (PollOpt.is_level opts), (PollOpt.is_oneshot opts);
    vm_compute; repeat split.
Qed.

(** Urgent data is reported as a hang-up: the reported readiness has the
    hang-up flag whenever the event has [EPOLLHUP] or [EPOLLPRI]. *)
Theorem urgent_event_is_hup w :
  Ready.is_hup (ready_of_epoll w) = has w EPOLLHUP || has w EPOLLPRI ∧
  Ready.is_readable (ready_of_epoll w) = has w EPOLLIN || has w EPOLLPRI ∧
  Ready.is_writable (ready_of_epoll w) = has w EPOLLOUT ∧
  Ready.is_error (ready_of_epoll w) = has w EPOLLERR.
Proof.
  unfold ready_of_epoll.
  destruct (has w EPOLLIN), (has w EPOLLOUT), (has w EPOLLPRI), (has w EPOLLERR),
    (has w EPOLLHUP); vm_compute; repeat split.
Qed.

(** ** Instances of the theorems *)

Module SelectorDemo.
Abbreviation Sel := (Selector (J:=nat) (K:=ScriptEpoll.t)).
Definition sock (n : N) : TokenEntry := mkTokenEntry SocketEvent (mkToken n).

(** The descriptors 5 (the notification) and 7 (a socket with token 1) are
    registered; the next wait reports both, 7 readable. *)
Definition kernel (u : N) : ScriptEpoll.t :=
  ScriptEpoll.mk (<[7%Z := u]> {[5%Z := 5]}) [[(7%Z, EPOLLIN); (5%Z, EPOLLIN)]].
Definition sel : Sel :=
  mkSelector 1 3 (<[7%Z := mkJobEntry (sock 1) 70%nat Ready.empty]>
    {[5%Z := mkJobEntry (mkTokenEntry NotifyEvent (mkToken 0)) 50%nat Ready.empty]}) (kernel 7).
Definition buffer : Events (J:=nat) := Events_with_capacity 16.
Definition grow (n : N) : N := 2 * n.

Lemma sel_coherent : coherent sel.
Proof.
  intros fd u. cbn. rewrite lookup_insert_Some, lookup_singleton_Some.
  intros [[<- <-]|[Hne [<- <-]]]; (split; [by vm_compute|]); split; try done; by vm_compute.
Qed.

(** Descriptor 7 alone. *)
Definition sel_7 : Sel :=
  mkSelector 1 3 (sel_map sel) (ScriptEpoll.mk {[7%Z := 7]} [[(7%Z, EPOLLIN)]]).

Lemma sel_7_coherent : coherent sel_7.
Proof.
  intros fd u. cbn. rewrite lookup_singleton_Some. intros [<- <-].
  split; [by vm_compute|]. split; [done|]. eexists. by vm_compute.
Qed.
End SelectorDemo.
Import SelectorDemo.

Lemma select_dispatch_witness :
  ∃ b s' evts',
    select grow sel buffer None = Done (IoOk b, s', evts') ∧
    select_result sel [mkEpollEvent 1 7; mkEpollEvent 1 5] b s' evts' ∧ coherent s' ∧
    Forall (λ ev, ∃ fd e, ep_data (sel_kernel sel) !! fd = Some (ep_u64 ev) ∧
      u64_as_i32 (ep_u64 ev) = fd ∧ sel_map sel !! fd = Some e ∧
      (is_notify (sel_map sel) ev = false →
       dispatch (sel_map sel) ev =
         Some (mkJobEntry (token_entry e) (job e) (ready_of_epoll (ep_events ev)))))
      [mkEpollEvent 1 7; mkEpollEvent 1 5].
Proof.
  eapply (select_dispatch grow sel buffer None (-1)); [apply sel_coherent|done|by vm_compute].
Defined.

Lemma register_spec_witness :
  let '(r, s') := register sel 7 (sock 9) Ready.readable PollOpt.edge 71%nat in
  coherent s' ∧
  sel_map s' = <[7%Z := mkJobEntry (sock 9) 71%nat Ready.empty]> (sel_map sel) ∧
  match r with
  | IoOk _ => ep_data (sel_kernel sel) !! 7%Z = None ∧
      ep_data (sel_kernel s') = <[7%Z := i32_as_u64 7]> (ep_data (sel_kernel sel))
  | IoErr _ => ep_data (sel_kernel s') = ep_data (sel_kernel sel)
  end.
Proof. apply register_spec, sel_coherent. Defined.

Lemma deregister_spec_witness :
  ∃ r s', deregister true sel 7 = Done (r, s') ∧ coherent s' ∧
    match r with
    | IoOk _ => is_Some (ep_data (sel_kernel sel) !! 7%Z) ∧
        ep_data (sel_kernel s') = delete 7%Z (ep_data (sel_kernel sel)) ∧
        sel_map s' = delete 7%Z (sel_map sel) ∧
        ∀ s0 tok interests opts jb, sel_map s0 !! 7%Z = None → coherent s0 →
          register s0 7 tok interests opts jb = (IoOk (), sel) →
          sel_map s' = sel_map s0 ∧ ep_data (sel_kernel s') = ep_data (sel_kernel s0)
    | IoErr _ => ep_data (sel_kernel s') = ep_data (sel_kernel sel) ∧ sel_map s' = sel_map sel
    end.
Proof. apply deregister_spec, sel_coherent. Defined.

(** Reregistering descriptor 7 under its own token 1 loses its events. *)
Lemma reregister_misroutes_witness :
  ∃ s', reregister sel_7 7 (sock 1) Ready.readable PollOpt.edge = (IoOk (), s') ∧
  ∃ b s'' evts', select grow s' buffer None = Done (IoOk b, s'', evts') ∧
    ev_entries evts' = [] ∧ b = false.
Proof.
  eexists. split; [reflexivity|].
  eapply (reregister_misroutes grow sel_7 7 (sock 1) Ready.readable PollOpt.edge _ buffer None (-1));
    [apply sel_7_coherent|reflexivity|reflexivity|reflexivity|by repeat constructor].
Defined.
