(* ===== verification/ReadinessQueue.v ===== *)
(** * The readiness queue

    [ReadinessNode], [ReadinessQueueInner] and [ReadinessQueue] of
    [src/src/poll.rs]: an intrusive queue of reference-counted nodes, linked
    through [next_readiness] from the tail the poller reads to the head the
    producers swap, with three marker nodes.  The nodes live in a store of
    addresses, an access of a freed one is [Panic PFreed]; a call reads and
    writes the store, one atomic access at a time. *)
From S2P Require Import Prelude EventSet ReadinessState Awakener Duration Selector.

Definition ptr := N.
(** An [Arc<ReadinessQueueInner>], by its address. *)
Definition qid := N.

(** [fetch_add(1)] and [fetch_sub(1)] of an [AtomicUsize] wrap. *)
Definition fetch_add1 (x : N) : N := (x + 1) mod 2 ^ word_bits.
Definition fetch_sub1 (x : N) : N := (x + (2 ^ word_bits - 1)) mod 2 ^ word_bits.

Definition null_token : TokenEntry := mkTokenEntry TokenEvent (mkToken 0).

Inductive Dequeue : Set :=
  | Data (p : ptr)
  | Empty
  | Inconsistent.

Section ReadinessQueue.
Context {J : Type} (null_job : J) (grow : N → N).
Context {P : Type} {PO : PipeOps P}.

Record ReadinessNode := mkNode {
  n_state : ReadinessState;
  n_token_0 : TokenEntry;
  n_token_1 : TokenEntry;
  n_token_2 : TokenEntry;
  n_next_readiness : option ptr;
  n_update_lock : bool;
  n_readiness_queue : option qid;
  n_ref_count : N;
  n_job : J;
}.

Definition with_state s n := mkNode s (n_token_0 n) (n_token_1 n) (n_token_2 n)
  (n_next_readiness n) (n_update_lock n) (n_readiness_queue n) (n_ref_count n) (n_job n).
Definition with_token (pos : N) t n : exec ReadinessNode :=
  match pos with
  | 0 => Done (mkNode (n_state n) t (n_token_1 n) (n_token_2 n)
      (n_next_readiness n) (n_update_lock n) (n_readiness_queue n) (n_ref_count n) (n_job n))
  | 1 => Done (mkNode (n_state n) (n_token_0 n) t (n_token_2 n)
      (n_next_readiness n) (n_update_lock n) (n_readiness_queue n) (n_ref_count n) (n_job n))
  | 2 => Done (mkNode (n_state n) (n_token_0 n) (n_token_1 n) t
      (n_next_readiness n) (n_update_lock n) (n_readiness_queue n) (n_ref_count n) (n_job n))
  | _ => Panic PUnreachable
  end.
Definition with_next v n := mkNode (n_state n) (n_token_0 n) (n_token_1 n) (n_token_2 n)
  v (n_update_lock n) (n_readiness_queue n) (n_ref_count n) (n_job n).
Definition with_lock v n := mkNode (n_state n) (n_token_0 n) (n_token_1 n) (n_token_2 n)
  (n_next_readiness n) v (n_readiness_queue n) (n_ref_count n) (n_job n).
Definition with_queue v n := mkNode (n_state n) (n_token_0 n) (n_token_1 n) (n_token_2 n)
  (n_next_readiness n) (n_update_lock n) v (n_ref_count n) (n_job n).
Definition with_ref v n := mkNode (n_state n) (n_token_0 n) (n_token_1 n) (n_token_2 n)
  (n_next_readiness n) (n_update_lock n) (n_readiness_queue n) v (n_job n).
Definition with_job v n := mkNode (n_state n) (n_token_0 n) (n_token_1 n) (n_token_2 n)
  (n_next_readiness n) (n_update_lock n) (n_readiness_queue n) (n_ref_count n) v.

Record ReadinessQueueInner := mkQueue {
  q_awakener : P;
  q_head_readiness : ptr;
  q_tail_readiness : ptr;
  q_end_marker : ptr;
  q_sleep_marker : ptr;
  q_closed_marker : ptr;
  (** the strong count of the [Arc] around the record *)
  q_strong : N;
}.

Definition with_awakener v x := mkQueue v (q_head_readiness x) (q_tail_readiness x)
  (q_end_marker x) (q_sleep_marker x) (q_closed_marker x) (q_strong x).
Definition with_head v x := mkQueue (q_awakener x) v (q_tail_readiness x)
  (q_end_marker x) (q_sleep_marker x) (q_closed_marker x) (q_strong x).
Definition with_tail v x := mkQueue (q_awakener x) (q_head_readiness x) v
  (q_end_marker x) (q_sleep_marker x) (q_closed_marker x) (q_strong x).
Definition with_strong v x := mkQueue (q_awakener x) (q_head_readiness x) (q_tail_readiness x)
  (q_end_marker x) (q_sleep_marker x) (q_closed_marker x) v.

Record World := mkWorld {
  w_nodes : gmap ptr ReadinessNode;
  w_queues : gmap qid ReadinessQueueInner;
}.

#[local] Abbreviation M := (stm World).

(** ** Memory *)

Definition node_at (p : ptr) : M ReadinessNode := λ w,
  match w_nodes w !! p with
  | Some n => Done (n, w)
  | None => Panic PFreed
  end.
Definition set_node (p : ptr) (n : ReadinessNode) : M unit := λ w,
  Done (tt, mkWorld (<[p := n]> (w_nodes w)) (w_queues w)).
Definition free_node (p : ptr) : M unit := λ w,
  Done (tt, mkWorld (delete p (w_nodes w)) (w_queues w)).
Definition queue_at (q : qid) : M ReadinessQueueInner := λ w,
  match w_queues w !! q with
  | Some x => Done (x, w)
  | None => Panic PFreed
  end.
Definition set_queue (q : qid) (x : ReadinessQueueInner) : M unit := λ w,
  Done (tt, mkWorld (w_nodes w) (<[q := x]> (w_queues w))).
Definition free_queue (q : qid) : M unit := λ w,
  Done (tt, mkWorld (w_nodes w) (delete q (w_queues w))).

(** The atomic accesses of the fields. *)
Definition store_next (p : ptr) (v : option ptr) : M unit :=
  node_at p ≫= λ n, set_node p (with_next v n).
Definition load_next (p : ptr) : M (option ptr) :=
  node_at p ≫= λ n, mret (n_next_readiness n).
Definition load_state (p : ptr) : M ReadinessState :=
  node_at p ≫= λ n, mret (AtomicState.load (n_state n)).
Definition cas_state (p : ptr) (current new : ReadinessState) : M ReadinessState :=
  node_at p ≫= λ n,
  let '(r, s) := AtomicState.compare_and_swap (n_state n) current new in
  set_node p (with_state s n) ≫= λ _, mret r.
Definition load_head (q : qid) : M ptr :=
  queue_at q ≫= λ x, mret (q_head_readiness x).
Definition load_tail (q : qid) : M ptr :=
  queue_at q ≫= λ x, mret (q_tail_readiness x).
Definition store_tail (q : qid) (p : ptr) : M unit :=
  queue_at q ≫= λ x, set_queue q (with_tail p x).
(** [compare_exchange] on the head: [inl] the old value, or [inr] the actual. *)
Definition cas_head (q : qid) (current new : ptr) : M (ptr + ptr) :=
  queue_at q ≫= λ x,
  if q_head_readiness x =? current
  then set_queue q (with_head new x) ≫= λ _, mret (inl current)
  else mret (inr (q_head_readiness x)).

Definition massert (b : bool) : M unit := lift (assert b).
Definition is_null {A} (o : option A) : bool := bool_decide (o = None).

(** ** Nodes *)

Definition ReadinessNode_new (queue : option qid) (tok : TokenEntry) (interest : Ready)
    (opt : PollOpt) (ref_count : N) : exec ReadinessNode :=
  AtomicState.new interest opt ≫= λ s,
  Done (mkNode s tok null_token null_token None false queue ref_count null_job).

Definition ReadinessNode_marker : exec ReadinessNode :=
  AtomicState.new Ready.empty PollOpt.empty ≫= λ s,
  Done (mkNode s null_token null_token null_token None false None 0 null_job).

(** The function [token]. *)
Definition node_token (n : ReadinessNode) (pos : N) : exec TokenEntry :=
  match pos with
  | 0 => Done (n_token_0 n)
  | 1 => Done (n_token_1 n)
  | 2 => Done (n_token_2 n)
  | _ => Panic PUnreachable
  end.

(** Dropping an [Arc<ReadinessQueueInner>]; the last one frees the markers. *)
Definition arc_clone (q : qid) : M unit :=
  queue_at q ≫= λ x, set_queue q (with_strong (fetch_add1 (q_strong x)) x).
Definition arc_drop (q : qid) : M unit :=
  queue_at q ≫= λ x,
  if q_strong x =? 1 then
    free_node (q_end_marker x) ≫= λ _,
    free_node (q_sleep_marker x) ≫= λ _,
    free_node (q_closed_marker x) ≫= λ _,
    free_queue q
  else set_queue q (with_strong (fetch_sub1 (q_strong x)) x).

Definition release_node (p : ptr) : M unit :=
  node_at p ≫= λ n,
  set_node p (with_ref (fetch_sub1 (n_ref_count n)) n) ≫= λ _,
  if negb (n_ref_count n =? 1) then mret tt
  else
    node_at p ≫= λ node,
    free_node p ≫= λ _,
    match n_readiness_queue node with
    | None => mret tt
    | Some queue => arc_drop queue
    end.

(** ** The queue *)

Definition queue_wakeup (q : qid) : M (io_result unit) :=
  queue_at q ≫= λ x,
  let '(r, a) := wakeup (q_awakener x) in
  set_queue q (with_awakener a x) ≫= λ _, mret r.

(** The loop of [enqueue_node]: [Some prev] once the head is swapped, [None]
    when the queue is closed. *)
Fixpoint enqueue_loop (fuel : nat) (q : qid) (node_ptr prev : ptr) : M (option ptr) :=
  match fuel with
  | O => λ _, NoFuel
  | S fuel =>
      queue_at q ≫= λ x,
      if prev =? q_closed_marker x then
        massert (negb (node_ptr =? q_closed_marker x)) ≫= λ _,
        massert (negb (node_ptr =? q_sleep_marker x)) ≫= λ _,
        (if negb (node_ptr =? q_end_marker x) then
           node_at node_ptr ≫= λ node,
           massert (2 <=? n_ref_count node) ≫= λ _,
           release_node node_ptr
         else mret tt) ≫= λ _,
        mret None
      else
        cas_head q prev node_ptr ≫= λ res,
        match res with
        | inl _ => mret (Some prev)
        | inr val => enqueue_loop fuel q node_ptr val
        end
  end.

Definition enqueue_node (q : qid) (node_ptr : ptr) : M bool :=
  store_next node_ptr None ≫= λ _,
  load_head q ≫= λ prev,
  enqueue_loop 2 q node_ptr prev ≫= λ o,
  match o with
  | None => mret false
  | Some prev =>
      load_next prev ≫= λ next,
      massert (is_null next) ≫= λ _,
      store_next prev (Some node_ptr) ≫= λ _,
      queue_at q ≫= λ x,
      mret (prev =? q_sleep_marker x)
  end.

Definition enqueue_node_with_wakeup (q : qid) (p : ptr) : M (io_result unit) :=
  enqueue_node q p ≫= λ b : bool,
  if b then queue_wakeup q else mret (IoOk ()).

(** [ReadinessNode::enqueue_with_wakeup]. *)
Definition enqueue_with_wakeup (p : ptr) : M (io_result unit) :=
  node_at p ≫= λ n,
  match n_readiness_queue n with
  | None => mret (IoOk ())
  | Some queue => enqueue_node_with_wakeup queue p
  end.

Definition clear_sleep_marker (q : qid) : M unit :=
  queue_at q ≫= λ x,
  let e_marker := q_end_marker x in
  let s_marker := q_sleep_marker x in
  let tail := q_tail_readiness x in
  if negb (tail =? s_marker) then mret tt
  else
    store_next e_marker None ≫= λ _,
    cas_head q s_marker e_marker ≫= λ res,
    match res with
    | inl val => massert (negb (val =? e_marker)) ≫= λ _, store_tail q e_marker
    | inr val => massert (negb (val =? e_marker))
    end.

(** The part of [dequeue_node] after the markers are skipped. *)
Definition dequeue_data (q : qid) (until : option ptr) (tail : ptr) (next : option ptr)
    : M Dequeue :=
  if bool_decide (Some tail = until) then mret Empty
  else
    match next with
    | Some next => store_tail q next ≫= λ _, mret (Data tail)
    | None =>
        load_head q ≫= λ head,
        if negb (head =? tail) then mret Inconsistent
        else
          queue_at q ≫= λ x,
          enqueue_node q (q_end_marker x) ≫= λ _,
          load_next tail ≫= λ next,
          match next with
          | Some next => store_tail q next ≫= λ _, mret (Data tail)
          | None => mret Inconsistent
          end
    end.

Definition dequeue_node (q : qid) (until : option ptr) : M Dequeue :=
  load_tail q ≫= λ tail,
  load_next tail ≫= λ next,
  queue_at q ≫= λ x,
  if (tail =? q_end_marker x) || (tail =? q_sleep_marker x) || (tail =? q_closed_marker x)
  then
    match next with
    | None => clear_sleep_marker q ≫= λ _, mret Empty
    | Some next =>
        store_tail q next ≫= λ _,
        load_next next ≫= λ next',
        dequeue_data q until next next'
    end
  else dequeue_data q until tail next.

(** ** Polling the queue *)

(** The inner loop of [poll]: [None] when the node was dropped, else the word
    that was stored and the readiness to report. *)
Fixpoint poll_state_loop (fuel : nat) (p : ptr) (state : ReadinessState)
    : M (option (ReadinessState * Ready)) :=
  match fuel with
  | O => λ _, NoFuel
  | S fuel =>
      let next := state in
      massert (RS.is_queued state) ≫= λ _,
      if RS.is_dropped state then release_node p ≫= λ _, mret None
      else
        let readiness := RS.effective_readiness state in
        let opt := RS.poll_opt state in
        lift (if PollOpt.is_edge opt then
                RS.set_dequeued next ≫= λ next,
                Done (if PollOpt.is_oneshot opt && negb (Ready.is_empty readiness)
                      then RS.disarm next else next)
              else if Ready.is_empty readiness then RS.set_dequeued next
              else Done next) ≫= λ next,
        let next := RS.update_token_read_pos next in
        if bool_decide (state = next) then mret (Some (next, readiness))
        else
          cas_state p state next ≫= λ actual,
          if bool_decide (actual = state) then mret (Some (next, readiness))
          else poll_state_loop fuel p actual
  end.

(** The outer loop; [until] is the first node put back in the queue. *)
Fixpoint queue_poll_loop (fuel : nat) (q : qid) (until : option ptr) (dst : Events (J:=J))
    : M (Events (J:=J)) :=
  match fuel with
  | O => λ _, NoFuel
  | S fuel =>
      if Events_len dst <? Events_capacity dst then
        dequeue_node q until ≫= λ d,
        match d with
        | Empty | Inconsistent => mret dst
        | Data p =>
            load_state p ≫= λ state,
            poll_state_loop 2 p state ≫= λ r,
            match r with
            | None => queue_poll_loop fuel q until dst
            | Some (next, readiness) =>
                (if RS.is_queued next then
                   let until := if is_null until then Some p else until in
                   enqueue_node q p ≫= λ _, mret until
                 else mret until) ≫= λ until,
                (if negb (Ready.is_empty readiness) then
                   node_at p ≫= λ node,
                   lift (node_token node (RS.token_read_pos next)) ≫= λ tok,
                   let dst := push_event grow dst (Event_new readiness tok) (n_job node) in
                   set_node p (with_job null_job node) ≫= λ _, mret dst
                 else mret dst) ≫= λ dst,
                queue_poll_loop fuel q until dst
            end
        end
      else mret dst
  end.

Definition queue_poll (fuel : nat) (q : qid) (dst : Events (J:=J)) : M (Events (J:=J)) :=
  (if Events_len dst =? Events_capacity dst then clear_sleep_marker q else mret tt) ≫= λ _,
  queue_poll_loop fuel q None dst.

Definition prepare_for_sleep (q : qid) : M bool :=
  queue_at q ≫= λ x,
  let emarker := q_end_marker x in
  let smarker := q_sleep_marker x in
  let tail := q_tail_readiness x in
  if tail =? smarker then load_head q ≫= λ head, mret (head =? smarker)
  else if negb (tail =? emarker) then mret false
  else
    store_next smarker None ≫= λ _,
    cas_head q emarker smarker ≫= λ res,
    match res with
    | inl val =>
        massert (negb (val =? smarker)) ≫= λ _,
        load_tail q ≫= λ tail,
        massert (tail =? emarker) ≫= λ _,
        load_next emarker ≫= λ next,
        massert (is_null next) ≫= λ _,
        store_tail q smarker ≫= λ _, mret true
    | inr val => massert (negb (val =? smarker)) ≫= λ _, mret false
    end.

(** ** Creation and destruction *)

(** [ReadinessQueue::new] with the addresses its boxes get. *)
Definition ReadinessQueue_new (awakener : io_result P) (q : qid)
    (end_marker sleep_marker closed_marker : ptr) : M (io_result qid) :=
  lift ReadinessNode_marker ≫= λ m,
  set_node end_marker m ≫= λ _,
  set_node sleep_marker m ≫= λ _,
  set_node closed_marker m ≫= λ _,
  match awakener with
  | IoErr e =>
      free_node end_marker ≫= λ _,
      free_node sleep_marker ≫= λ _,
      free_node closed_marker ≫= λ _, mret (IoErr e)
  | IoOk a =>
      set_queue q (mkQueue a end_marker end_marker end_marker sleep_marker closed_marker 1)
      ≫= λ _, mret (IoOk q)
  end.

Fixpoint queue_drop_loop (fuel : nat) (q : qid) : M unit :=
  match fuel with
  | O => λ _, NoFuel
  | S fuel =>
      dequeue_node q None ≫= λ d,
      match d with
      | Empty => mret tt
      | Inconsistent => queue_drop_loop fuel q
      | Data p =>
          load_state p ≫= λ state,
          massert (RS.is_queued state) ≫= λ _,
          release_node p ≫= λ _,
          queue_drop_loop fuel q
      end
  end.

(** [Drop for ReadinessQueue], then the drop of its [Arc]. *)
Definition queue_drop (fuel : nat) (q : qid) : M unit :=
  queue_at q ≫= λ x,
  enqueue_node q (q_closed_marker x) ≫= λ _,
  queue_drop_loop fuel q ≫= λ _,
  arc_drop q.
End ReadinessQueue.
