(* ===== verification/Registration.v ===== *)
(** * Registrations

    [RegistrationInner], [Registration] and [SetReadiness] of
    [src/src/poll.rs]: the handles on a node of the readiness queue.  A handle
    is the address of its node. *)
From S2P Require Import Prelude EventSet ReadinessState Awakener Duration Selector ReadinessQueue.

Section Registration.
Context {J : Type} (null_job : J).
Context {P : Type} {PO : PipeOps P}.
#[local] Abbreviation M := (stm (World (J:=J) (P:=P))).

(** [RegistrationInner::readiness]. *)
Definition readiness (p : ptr) : M Ready :=
  load_state p ≫= λ s, mret (RS.readiness s).

(** The loop of [set_readiness]: [None] when the node is dropped, else the
    word that was replaced and the one that replaced it. *)
Fixpoint set_readiness_loop (fuel : nat) (p : ptr) (ready : Ready) (state : ReadinessState)
    : M (option (ReadinessState * ReadinessState)) :=
  match fuel with
  | O => λ _, NoFuel
  | S fuel =>
      let next := state in
      if RS.is_dropped state then mret None
      else
        let next := RS.set_readiness next ready in
        lift (if negb (Ready.is_empty (RS.effective_readiness next))
              then RS.set_queued next else Done next) ≫= λ next,
        cas_state p state next ≫= λ actual,
        if bool_decide (state = actual) then mret (Some (state, next))
        else set_readiness_loop fuel p ready actual
  end.

Definition set_readiness (p : ptr) (ready : Ready) : M (io_result unit) :=
  load_state p ≫= λ state,
  set_readiness_loop 2 p ready state ≫= λ r,
  match r with
  | None => mret (IoOk ())
  | Some (state, next) =>
      if negb (RS.is_queued state) && RS.is_queued next
      then enqueue_with_wakeup p
      else mret (IoOk ())
  end.

(** The first part of [update]: associate the node with the queue of the
    poll, or find it associated. *)
Definition associate (p : ptr) (other : qid) : M (io_result unit) :=
  node_at p ≫= λ n,
  match n_readiness_queue n with
  | None =>
      (** the [compare_exchange] of a null pointer *)
      node_at p ≫= λ n,
      match n_readiness_queue n with
      | None =>
          set_node p (with_queue (Some other) n) ≫= λ _,
          node_at p ≫= λ n,
          set_node p (with_ref (fetch_add1 (n_ref_count n)) n) ≫= λ _,
          arc_clone other ≫= λ _, mret (IoOk ())
      | Some actual =>
          mret (if actual =? other then IoOk () else IoErr (OtherError 0))
      end
  | Some queue => mret (if queue =? other then IoOk () else IoErr (OtherError 0))
  end.

(** The compare-and-swap loop of [update]. *)
Fixpoint update_loop (fuel : nat) (p : ptr) (curr_token_pos next_token_pos : N)
    (interest : Ready) (opt : PollOpt) (state : ReadinessState)
    : M (ReadinessState * ReadinessState) :=
  match fuel with
  | O => λ _, NoFuel
  | S fuel =>
      let next := state in
      massert (negb (RS.is_dropped state)) ≫= λ _,
      let next := RS.set_token_write_pos next next_token_pos in
      let next := RS.set_interest next interest in
      let next := RS.set_poll_opt next opt in
      lift (if negb (Ready.is_empty (RS.effective_readiness next))
            then RS.set_queued next else Done next) ≫= λ next,
      cas_state p state next ≫= λ actual,
      if bool_decide (actual = state) then mret (state, next)
      else
        massert (curr_token_pos =? RS.token_write_pos actual) ≫= λ _,
        update_loop fuel p curr_token_pos next_token_pos interest opt actual
  end.

Definition update (p : ptr) (other : qid) (tok : TokenEntry) (interest : Ready)
    (opt : PollOpt) (job : J) : M (io_result unit) :=
  associate p other ≫= λ r,
  match r with
  | IoErr e => mret (IoErr e)
  | IoOk _ =>
      node_at p ≫= λ n,
      if n_update_lock n then mret (IoOk ())
      else
        set_node p (with_lock true n) ≫= λ _,
        load_state p ≫= λ state,
        let curr_token_pos := RS.token_write_pos state in
        node_at p ≫= λ n,
        lift (node_token n curr_token_pos) ≫= λ curr_token,
        (if bool_decide (tok ≠ curr_token) then
           lift (RS.next_token_pos state) ≫= λ next_token_pos,
           node_at p ≫= λ n,
           lift (with_token next_token_pos tok n) ≫= λ n,
           set_node p n ≫= λ _, mret next_token_pos
         else mret curr_token_pos) ≫= λ next_token_pos,
        update_loop 2 p curr_token_pos next_token_pos interest opt state ≫= λ '(state, next),
        node_at p ≫= λ n,
        set_node p (with_lock false n) ≫= λ _,
        if negb (RS.is_queued state) && RS.is_queued next then
          node_at p ≫= λ n,
          set_node p (with_job job n) ≫= λ _,
          enqueue_node_with_wakeup other p
        else mret (IoOk ())
  end.

(** [Clone for RegistrationInner], [Drop for RegistrationInner]. *)
Definition inner_clone (p : ptr) : M ptr :=
  node_at p ≫= λ n,
  set_node p (with_ref (fetch_add1 (n_ref_count n)) n) ≫= λ _,
  if negb (N.land (n_ref_count n) (not64 MAX_REFCOUNT) =? 0)
  then lift (Panic PAbort)
  else mret p.
Definition inner_drop (p : ptr) : M unit := release_node p.

(** [Registration::new2] and [Registration::new]: the two handles name the
    node at the address the box gets. *)
Definition new2 (p : ptr) : M (ptr * ptr) :=
  lift (ReadinessNode_new null_job None null_token Ready.empty PollOpt.empty 2) ≫= λ n,
  set_node p n ≫= λ _, mret (p, p).

Definition new (q : qid) (p : ptr) (tok : TokenEntry) (interest : Ready) (opt : PollOpt)
    : M (ptr * ptr) :=
  arc_clone q ≫= λ _,
  lift (ReadinessNode_new null_job (Some q) tok interest opt 3) ≫= λ n,
  set_node p n ≫= λ _, mret (p, p).

Definition deregister (p : ptr) (poll : qid) : M (io_result unit) :=
  update p poll null_token Ready.empty PollOpt.empty null_job.

(** [Evented for Registration]. *)
Definition evented_register (p : ptr) (poll : qid) (tok : TokenEntry) (interest : Ready)
    (opts : PollOpt) (job : J) : M (io_result unit) := update p poll tok interest opts job.
Definition evented_reregister (p : ptr) (poll : qid) (tok : TokenEntry) (interest : Ready)
    (opts : PollOpt) : M (io_result unit) := update p poll tok interest opts null_job.
Definition evented_deregister (p : ptr) (poll : qid) : M (io_result unit) :=
  update p poll null_token Ready.empty PollOpt.empty null_job.

(** [Drop for Registration], then the drop of its handle. *)
Definition registration_drop (p : ptr) : M unit :=
  node_at p ≫= λ n,
  lift (AtomicState.flag_as_dropped (n_state n)) ≫= λ '(b, s),
  set_node p (with_state s n) ≫= λ _,
  (if b : bool then enqueue_with_wakeup p ≫= λ _, mret tt else mret tt) ≫= λ _,
  inner_drop p.

(** A [SetReadiness] is only its handle. *)
Definition set_readiness_clone (p : ptr) : M ptr := inner_clone p.
Definition set_readiness_drop (p : ptr) : M unit := inner_drop p.
End Registration.
