(* ===== verification/QueueInv.v ===== *)
(** * The readiness queue: its linked list

    [linked] says that the nodes from the tail to the head of a queue are a
    given list of addresses; [contents] is the store with the links erased.
    The lemmas give the effect of the queue operations on both. *)
From S2P Require Import Prelude EventSet ReadinessState Awakener Duration Selector ReadinessQueue.

(** The marker the data nodes of a queue are behind. *)
Inductive stub : Set := SNone | SEnd | SSleep.

#[export] Instance stub_eq_dec : EqDecision stub.
Proof. solve_decision. Defined.

Section QueueInv.
Context {J : Type} {P : Type} {PO : PipeOps P}.
#[local] Abbreviation Node := (ReadinessNode (J:=J)).
#[local] Abbreviation W := (World (J:=J) (P:=P)).
Implicit Types (w : W) (q : qid) (p : ptr) (l d : list ptr) (m : gmap ptr Node) (n : Node).

(** ** The store with the links erased *)

Definition strip n : Node := with_next None n.
Definition contents w : gmap ptr Node := strip <$> w_nodes w.

Lemma contents_lookup w p : contents w !! p = strip <$> w_nodes w !! p.
Proof. apply lookup_fmap. Qed.

Lemma contents_node w p n : contents w !! p = Some n → ∃ n', w_nodes w !! p = Some n' ∧ strip n' = n.
Proof. rewrite contents_lookup. intros (n' & -> & ?)%fmap_Some. eauto. Qed.

Lemma contents_relink w p n v :
  w_nodes w !! p = Some n →
  strip <$> <[p := with_next v n]> (w_nodes w) = contents w.
Proof.
  intros E. rewrite fmap_insert. apply insert_id. by rewrite contents_lookup, E.
Qed.

(** ** The list from the tail to the head *)

Fixpoint chain m l : Prop :=
  match l with
  | [] => True
  | p :: l' => (∃ n, m !! p = Some n ∧ n_next_readiness n = head l') ∧ chain m l'
  end.

Lemma chain_live m l p : chain m l → p ∈ l → is_Some (m !! p).
Proof.
  induction l as [|x l IH]; cbn; [by intros _ ?%not_elem_of_nil|].
  intros [(n & E & _) Hc] [->|Hp]%elem_of_cons; eauto.
Qed.

Lemma chain_ext m m' l :
  (∀ p, p ∈ l → n_next_readiness <$> m' !! p = n_next_readiness <$> m !! p) →
  chain m l → chain m' l.
Proof.
  induction l as [|x l IH]; cbn; [done|]. intros Hm [(n & E & Hn) Hc]. split.
  - assert (n_next_readiness <$> m' !! x = n_next_readiness <$> m !! x) as Ex by (apply Hm; set_solver).
    rewrite E in Ex. destruct (m' !! x) as [n'|]; [|done]. cbn in Ex. injection Ex as Ex.
    exists n'. split; [done|congruence].
  - apply IH; [|done]. intros p Hp. apply Hm. set_solver.
Qed.

Lemma chain_insert_ne m l p n : p ∉ l → chain m l → chain (<[p := n]> m) l.
Proof.
  intros Hp. apply chain_ext. intros x Hx. rewrite lookup_insert_ne; [done|]. by intros ->.
Qed.

Lemma chain_insert_same m l p n n' :
  m !! p = Some n → n_next_readiness n' = n_next_readiness n → chain m l → chain (<[p := n']> m) l.
Proof.
  intros E En. apply chain_ext. intros x Hx. destruct (decide (x = p)) as [->|Hne].
  - rewrite lookup_insert_eq, E. cbn. by rewrite En.
  - by rewrite lookup_insert_ne by done.
Qed.

Lemma chain_last m l z : chain m l → last l = Some z → ∃ n, m !! z = Some n ∧ n_next_readiness n = None.
Proof.
  induction l as [|x l IH]; [done|]. intros [(n & E & Hn) Hc] Hl.
  destruct l as [|y l]; [injection Hl as <-; eauto|]. by apply IH.
Qed.

Lemma chain_snoc m l z nz p np :
  chain m l → last l = Some z → NoDup l → p ∉ l → m !! z = Some nz →
  m !! p = Some np → n_next_readiness np = None →
  chain (<[z := with_next (Some p) nz]> m) (l ++ [p]).
Proof.
  intros Hc Hl Hnd Hp Ez Ep Enp. induction l as [|x l IH]; [done|].
  apply NoDup_cons in Hnd as [Hx Hnd]. destruct Hc as [(n & E & Hn) Hc].
  apply not_elem_of_cons in Hp as [Hpx Hp]. destruct l as [|y l].
  - injection Hl as ->. assert (n = nz) as -> by congruence. cbn.
    split; [rewrite lookup_insert_eq; eauto|]. split; [|done].
    rewrite lookup_insert_ne by done. eauto.
  - assert (x ≠ z) as Hxz.
    { intros ->. apply Hx. apply last_Some_elem_of. by rewrite <- Hl. }
    split; [|by apply IH]. exists n. by rewrite lookup_insert_ne by done.
Qed.

Record linked w q (x : ReadinessQueueInner (P:=P)) l : Prop := {
  lk_queue : w_queues w !! q = Some x;
  lk_chain : chain (w_nodes w) l;
  lk_tail : head l = Some (q_tail_readiness x);
  lk_head : last l = Some (q_head_readiness x);
  lk_nodup : NoDup l;
}.

Lemma linked_live w q x l p : linked w q x l → p ∈ l → is_Some (w_nodes w !! p).
Proof. intros [_ Hc _ _ _]. by apply chain_live. Qed.

Lemma linked_head_in w q x l : linked w q x l → q_head_readiness x ∈ l.
Proof. intros [_ _ _ Hh _]. by apply last_Some_elem_of. Qed.

(** ** Atomic accesses *)

Lemma node_at_Done w p n : w_nodes w !! p = Some n → node_at p w = Done (n, w).
Proof. intros E. unfold node_at. by rewrite E. Qed.

Lemma queue_at_Done w q x : w_queues w !! q = Some x → queue_at q w = Done (x, w).
Proof. intros E. unfold queue_at. by rewrite E. Qed.

Lemma store_next_Done w p n v :
  w_nodes w !! p = Some n →
  store_next p v w = Done (tt, mkWorld (<[p := with_next v n]> (w_nodes w)) (w_queues w)).
Proof. intros E. unfold store_next. by step by apply node_at_Done. Qed.

Lemma load_next_Done w p n :
  w_nodes w !! p = Some n → load_next p w = Done (n_next_readiness n, w).
Proof. intros E. unfold load_next. by step by apply node_at_Done. Qed.

Lemma load_head_Done w q x : w_queues w !! q = Some x → load_head q w = Done (q_head_readiness x, w).
Proof. intros E. unfold load_head. by step by apply queue_at_Done. Qed.

Lemma load_tail_Done w q x : w_queues w !! q = Some x → load_tail q w = Done (q_tail_readiness x, w).
Proof. intros E. unfold load_tail. by step by apply queue_at_Done. Qed.

Lemma store_tail_Done w q x p :
  w_queues w !! q = Some x →
  store_tail q p w = Done (tt, mkWorld (w_nodes w) (<[q := with_tail p x]> (w_queues w))).
Proof. intros E. unfold store_tail. by step by apply queue_at_Done. Qed.

Lemma cas_head_ok w q x new :
  w_queues w !! q = Some x →
  cas_head q (q_head_readiness x) new w =
    Done (inl (q_head_readiness x), mkWorld (w_nodes w) (<[q := with_head new x]> (w_queues w))).
Proof.
  intros E. unfold cas_head. step by apply queue_at_Done.
  by rewrite N.eqb_refl.
Qed.

Lemma cas_head_no w q x old new :
  w_queues w !! q = Some x → q_head_readiness x ≠ old →
  cas_head q old new w = Done (inr (q_head_readiness x), w).
Proof.
  intros E Hne. unfold cas_head. step by apply queue_at_Done.
  by apply N.eqb_neq in Hne as ->.
Qed.

Lemma massert_true b w : b = true → massert b w = Done (tt, w).
Proof. by intros ->. Qed.

(** ** [enqueue_node] *)

(** A node that is not in an open queue is appended at its head. *)
Lemma enqueue_linked w q x l p :
  linked w q x l → p ∉ l → is_Some (w_nodes w !! p) →
  q_head_readiness x ≠ q_closed_marker x →
  ∃ w', enqueue_node q p w = Done (q_head_readiness x =? q_sleep_marker x, w') ∧
    linked w' q (with_head p x) (l ++ [p]) ∧ contents w' = contents w ∧
    w_queues w' = <[q := with_head p x]> (w_queues w).
Proof.
  intros [Hq Hc Ht Hh Hnd] Hp [n Ep] Hopen. set (z := q_head_readiness x) in *.
  destruct (chain_last _ _ _ Hc Hh) as (nz & Ez & Enz).
  assert (z ∈ l) as Hz by by apply last_Some_elem_of.
  assert (z ≠ p) as Hzp by by intros ->.
  unfold enqueue_node. step by apply store_next_Done.
  set (w1 := mkWorld _ _). step by (apply load_head_Done; exact Hq).
  fold z. cbn [enqueue_loop].
  assert (enqueue_loop 2 q p z w1 = Done (Some z, mkWorld (w_nodes w1) (<[q := with_head p x]> (w_queues w1))))
    as Eloop.
  { cbn [enqueue_loop]. step by (apply queue_at_Done; exact Hq).
    apply N.eqb_neq in Hopen as ->. step by (apply cas_head_ok; exact Hq). done. }
  step by exact Eloop. clear Eloop.
  set (w2 := mkWorld (w_nodes w1) _).
  assert (w_nodes w2 !! z = Some nz) as Ez2 by (cbn; by rewrite lookup_insert_ne by done).
  step by apply load_next_Done.
  step by (apply massert_true; by rewrite Enz).
  step by apply store_next_Done.
  step by (apply queue_at_Done; cbn; by rewrite lookup_insert_eq).
  eexists. split; [reflexivity|].
  split; [split; cbn [w_nodes w_queues w1 w2]|split].
  - by rewrite lookup_insert_eq.
  - eapply chain_snoc; [by apply chain_insert_ne|exact Hh|done|done|done|by apply lookup_insert_eq|done].
  - by destruct l.
  - by rewrite last_snoc.
  - apply NoDup_app. split; [done|]. split; [set_solver|apply NoDup_singleton].
  - transitivity (contents w2); [by apply (contents_relink w2)|by apply (contents_relink w)].
  - done.
Qed.

(** ** The shape of an open queue between two calls

    The data nodes, behind the end marker, the sleep marker, or (when there
    is at least one) no marker. *)

Definition stub_list (x : ReadinessQueueInner (P:=P)) (st : stub) : list ptr :=
  match st with
  | SNone => []
  | SEnd => [q_end_marker x]
  | SSleep => [q_sleep_marker x]
  end.
Definition markers (x : ReadinessQueueInner (P:=P)) : list ptr :=
  [q_end_marker x; q_sleep_marker x; q_closed_marker x].

(** Only the ends of the queue differ. *)
Definition moved (x x' : ReadinessQueueInner (P:=P)) : Prop :=
  q_awakener x' = q_awakener x ∧ markers x' = markers x ∧ q_strong x' = q_strong x.

Record queue_ok w q x st d : Prop := {
  qo_linked : linked w q x (stub_list x st ++ d);
  qo_distinct : NoDup (markers x);
  qo_live : ∀ p, p ∈ markers x → is_Some (w_nodes w !! p);
  qo_data : ∀ p, p ∈ d → p ∉ markers x;
}.

(** A call that moves the ends of [q] and links nodes, nothing else. *)
Record relinked w w' q x x' : Prop := {
  rl_moved : moved x x';
  rl_contents : contents w' = contents w;
  rl_queues : w_queues w' = <[q := x']> (w_queues w);
}.

Lemma contents_live w w' p : contents w' = contents w → is_Some (w_nodes w !! p) → is_Some (w_nodes w' !! p).
Proof.
  intros E [n Ep]. assert (contents w' !! p = Some (strip n)) as Ep'
    by (by rewrite E, contents_lookup, Ep).
  apply contents_node in Ep' as (n' & -> & _). eauto.
Qed.

Lemma stub_list_moved x x' st : moved x x' → stub_list x' st = stub_list x st.
Proof. intros (_ & [= ? ? ?] & _). destruct st; cbn; congruence. Qed.

Lemma queue_ok_intro w w' q x x' st d st' d' :
  queue_ok w q x st d → relinked w w' q x x' →
  linked w' q x' (stub_list x st' ++ d') → (∀ p, p ∈ d' → p ∉ markers x) →
  queue_ok w' q x' st' d'.
Proof.
  intros [_ Hm Hl _] [Hmv Hc _] Hlk Hd. pose proof Hmv as (_ & Em & _). split.
  - by rewrite (stub_list_moved x x').
  - by rewrite Em.
  - intros p. rewrite Em. intros Hp. eapply contents_live; eauto.
  - intros p Hp. rewrite Em. auto.
Qed.

Lemma stub_markers x st p : p ∈ stub_list x st → p ∈ markers x.
Proof. destruct st; cbn; set_solver. Qed.

Lemma stub_not_data w q x st d p :
  queue_ok w q x st d → p ∈ markers x → p ∉ stub_list x st → p ∉ stub_list x st ++ d.
Proof. intros Hq Hp Hs [?|Hd]%elem_of_app; [done|]. by apply (qo_data _ _ _ _ _ Hq) in Hd. Qed.

Lemma markers_distinct w q x st d :
  queue_ok w q x st d →
  q_end_marker x ≠ q_sleep_marker x ∧ q_end_marker x ≠ q_closed_marker x ∧
  q_sleep_marker x ≠ q_closed_marker x.
Proof. intros [_ Hm _ _]. unfold markers in Hm. rewrite !NoDup_cons in Hm. set_solver. Qed.

(** The head is a data node, or the stub of an empty queue. *)
Lemma head_cases w q x st d :
  queue_ok w q x st d →
  match last d with
  | Some h => q_head_readiness x = h ∧ h ∉ markers x
  | None => d = [] ∧ stub_list x st = [q_head_readiness x]
  end.
Proof.
  intros Hq. pose proof (lk_head _ _ _ _ (qo_linked _ _ _ _ _ Hq)) as Hh.
  rewrite last_app in Hh. destruct (last d) as [h|] eqn:El.
  - injection Hh as ->. split; [done|]. eapply qo_data; [done|]. by apply last_Some_elem_of.
  - split; [by apply last_None|]. destruct st; cbn in *; congruence.
Qed.

Lemma head_not_closed w q x st d : queue_ok w q x st d → q_head_readiness x ≠ q_closed_marker x.
Proof.
  intros Hq. pose proof (head_cases _ _ _ _ _ Hq) as Hh.
  destruct (markers_distinct _ _ _ _ _ Hq) as (? & ? & ?). destruct (last d).
  - destruct Hh as [-> Hm]. intros ->. apply Hm. unfold markers. set_solver.
  - destruct Hh as [_ Hh]. destruct st; cbn in Hh; congruence.
Qed.

Lemma head_is_sleep w q x st d :
  queue_ok w q x st d →
  (q_head_readiness x =? q_sleep_marker x) = bool_decide (st = SSleep ∧ d = []).
Proof.
  intros Hq. pose proof (head_cases _ _ _ _ _ Hq) as Hh.
  destruct (markers_distinct _ _ _ _ _ Hq) as (? & ? & ?).
  destruct (N.eqb_spec (q_head_readiness x) (q_sleep_marker x)) as [E|E]; symmetry.
  - apply bool_decide_eq_true_2. destruct (last d) as [h|] eqn:El.
    + destruct Hh as [Eh Hm]. exfalso. apply Hm. rewrite <- Eh, E. unfold markers. set_solver.
    + destruct Hh as [-> Hh]. destruct st; cbn in Hh; [done|congruence|done].
  - apply bool_decide_eq_false_2. intros [-> ->]. destruct Hh as [_ [= Hh]]. congruence.
Qed.

(** Appending a data node reports whether the poller was asleep. *)
Lemma enqueue_data w q x st d p :
  queue_ok w q x st d → p ∉ d → p ∉ markers x → is_Some (w_nodes w !! p) →
  ∃ w' x', enqueue_node q p w = Done (bool_decide (st = SSleep ∧ d = []), w') ∧
    queue_ok w' q x' st (d ++ [p]) ∧ relinked w w' q x x'.
Proof.
  intros Hq Hpd Hpm Hp.
  destruct (enqueue_linked w q x (stub_list x st ++ d) p) as (w' & E & Hl & Ec & Ew).
  - apply (qo_linked _ _ _ _ _ Hq).
  - intros [?%stub_markers|?]%elem_of_app; done.
  - done.
  - by eapply head_not_closed.
  - rewrite (head_is_sleep _ _ _ _ _ Hq) in E.
    assert (relinked w w' q x (with_head p x)) as Hr by by split.
    exists w', (with_head p x). split; [done|]. split; [|done].
    eapply queue_ok_intro; [done..| |].
    + by rewrite app_assoc.
    + intros y [Hy| ->%list_elem_of_singleton]%elem_of_app; [|done]. by apply (qo_data _ _ _ _ _ Hq).
Qed.

(** ** [clear_sleep_marker] and [prepare_for_sleep] *)

(** A stub of an empty queue is replaced by another marker. *)
Lemma swap_stub w q x p n :
  linked w q x [q_head_readiness x] → w_nodes w !! p = Some n →
  let w1 := mkWorld (<[p := with_next None n]> (w_nodes w)) (w_queues w) in
  let x' := with_tail p (with_head p x) in
  linked (mkWorld (w_nodes w1) (<[q := x']> (w_queues w))) q x' [p] ∧
  contents w1 = contents w.
Proof.
  intros [Hq _ _ _ _] Ep w1 x'. split; [|by apply contents_relink]. split; cbn.
  - by rewrite lookup_insert_eq.
  - split; [|done]. rewrite lookup_insert_eq. eauto.
  - done.
  - done.
  - apply NoDup_singleton.
Qed.

Lemma relink_marker w q x st d p n :
  queue_ok w q x st d → p ∈ markers x → p ∉ stub_list x st → w_nodes w !! p = Some n →
  let w1 := mkWorld (<[p := with_next None n]> (w_nodes w)) (w_queues w) in
  queue_ok w1 q x st d ∧ relinked w w1 q x x.
Proof.
  intros Hq Hp Hs Ep w1. pose proof (qo_linked _ _ _ _ _ Hq) as Hl.
  assert (relinked w w1 q x x) as Hr.
  { split; [done|by apply contents_relink|]. cbn. rewrite insert_id; [done|apply (lk_queue _ _ _ _ Hl)]. }
  split; [|done]. eapply queue_ok_intro; [exact Hq|exact Hr| |apply (qo_data _ _ _ _ _ Hq)].
  destruct Hl as [? Hc ? ? ?]. split; try done. cbn. apply chain_insert_ne; [|done].
  by eapply stub_not_data.
Qed.

(** The tail is the stub, or the first data node. *)
Lemma tail_cases w q x st d :
  queue_ok w q x st d →
  (q_tail_readiness x =? q_end_marker x) = bool_decide (st = SEnd) ∧
  (q_tail_readiness x =? q_sleep_marker x) = bool_decide (st = SSleep) ∧
  (q_tail_readiness x =? q_closed_marker x) = false ∧
  (st = SNone → head d = Some (q_tail_readiness x)).
Proof.
  intros Hq. destruct (markers_distinct _ _ _ _ _ Hq) as (He & Hc & Hs).
  pose proof (lk_tail _ _ _ _ (qo_linked _ _ _ _ _ Hq)) as Ht.
  destruct st; cbn in Ht.
  - destruct d as [|y d]; [done|]. injection Ht as ->.
    assert (q_tail_readiness x ∉ markers x) as Hm by (apply (qo_data _ _ _ _ _ Hq); set_solver).
    unfold markers in Hm. rewrite !(proj2 (N.eqb_neq _ _)) by set_solver. done.
  - injection Ht as <-. rewrite N.eqb_refl, !(proj2 (N.eqb_neq _ _)) by done. done.
  - injection Ht as <-. rewrite N.eqb_refl, !(proj2 (N.eqb_neq _ _)) by done. done.
Qed.

Lemma swap_stub_ok w q x st p n :
  queue_ok w q x st [] → w_nodes w !! p = Some n →
  let x' := with_tail p (with_head p x) in
  let w' := mkWorld (<[p := with_next None n]> (w_nodes w)) (<[q := x']> (w_queues w)) in
  relinked w w' q x x' ∧ ∀ st', stub_list x st' = [p] → queue_ok w' q x' st' [].
Proof.
  intros Hq Ep x' w'. pose proof (qo_linked _ _ _ _ _ Hq) as Hl.
  pose proof (head_cases _ _ _ _ _ Hq) as [_ Eh]. rewrite app_nil_r, Eh in Hl.
  destruct (swap_stub w q x p n Hl Ep) as [Hl' Hc].
  assert (relinked w w' q x x') as Hr by (split; [done|exact Hc|done]).
  split; [done|]. intros st' Es. eapply queue_ok_intro; [done|done| |by intros ? ?%not_elem_of_nil].
  rewrite Es. exact Hl'.
Qed.

Lemma relinked_refl w q x st d : queue_ok w q x st d → relinked w w q x x.
Proof.
  intros Hq. split; [done|done|]. rewrite insert_id; [done|].
  apply (lk_queue _ _ _ _ (qo_linked _ _ _ _ _ Hq)).
Qed.

(** An empty queue that was asleep is awake afterwards. *)
Lemma clear_sleep_marker_spec w q x st d :
  queue_ok w q x st d →
  ∃ w' x', clear_sleep_marker q w = Done (tt, w') ∧
    queue_ok w' q x' (if bool_decide (st = SSleep ∧ d = []) then SEnd else st) d ∧
    relinked w w' q x x'.
Proof.
  intros Hq. pose proof (lk_queue _ _ _ _ (qo_linked _ _ _ _ _ Hq)) as Hx.
  destruct (tail_cases _ _ _ _ _ Hq) as (_ & Es & _).
  destruct (markers_distinct _ _ _ _ _ Hq) as (He & _ & _).
  unfold clear_sleep_marker. step by apply queue_at_Done. rewrite Es.
  destruct (decide (st = SSleep)) as [->|Hst].
  2:{ rewrite bool_decide_eq_false_2 by done. rewrite bool_decide_eq_false_2 by naive_solver.
      cbn. exists w, x. split; [done|]. split; [done|]. by eapply relinked_refl. }
  rewrite bool_decide_eq_true_2 by done. cbn [negb].
  destruct (qo_live _ _ _ _ _ Hq (q_end_marker x)) as [n Ep]; [unfold markers; set_solver|].
  step by apply store_next_Done. set (w1 := mkWorld _ _).
  pose proof (head_is_sleep _ _ _ _ _ Hq) as Hh.
  destruct (decide (d = [])) as [->|Hd].
  - rewrite bool_decide_eq_true_2 in Hh |- * by done. apply N.eqb_eq in Hh.
    assert (cas_head q (q_sleep_marker x) (q_end_marker x) w1 = Done (inl (q_head_readiness x),
      mkWorld (w_nodes w1) (<[q := with_head (q_end_marker x) x]> (w_queues w1)))) as E
      by (rewrite <- Hh; by apply cas_head_ok).
    step by exact E. rewrite Hh.
    step by (apply massert_true; by rewrite (proj2 (N.eqb_neq _ _))).
    rewrite (store_tail_Done _ q (with_head (q_end_marker x) x)) by (cbn; by rewrite lookup_insert_eq).
    cbn [w_queues w1 w_nodes]. rewrite insert_insert_eq.
    destruct (swap_stub_ok w q x SSleep (q_end_marker x) n Hq Ep) as [Hr Hok].
    eexists _, _. split; [reflexivity|]. split; [by apply Hok|done].
  - rewrite (bool_decide_eq_false_2 (_ ∧ _)) in Hh |- * by naive_solver. apply N.eqb_neq in Hh.
    step by apply (cas_head_no w1 q x).
    destruct (relink_marker w q x SSleep d (q_end_marker x) n) as [Hok Hr];
      [done|unfold markers; set_solver|cbn; set_solver|done|].
    exists w1, x. split; [|by split]. apply massert_true.
    rewrite (proj2 (N.eqb_neq _ _)); [done|].
    pose proof (head_cases _ _ _ _ _ Hq) as Hc. destruct (last d) eqn:El.
    + destruct Hc as [-> Hm]. intros ->. apply Hm. unfold markers. set_solver.
    + by apply last_None in El.
Qed.

(** The queue goes to sleep exactly when it is empty. *)
Lemma prepare_for_sleep_ok w q x st d :
  queue_ok w q x st d →
  ∃ w' x' st', prepare_for_sleep q w = Done (bool_decide (d = []), w') ∧
    queue_ok w' q x' st' d ∧ relinked w w' q x x' ∧ (d = [] → st' = SSleep).
Proof.
  intros Hq. pose proof (lk_queue _ _ _ _ (qo_linked _ _ _ _ _ Hq)) as Hx.
  destruct (tail_cases _ _ _ _ _ Hq) as (Ee & Es & _ & Hn).
  destruct (markers_distinct _ _ _ _ _ Hq) as (He & _ & _).
  pose proof (head_cases _ _ _ _ _ Hq) as Hh. pose proof (head_is_sleep _ _ _ _ _ Hq) as Hhs.
  unfold prepare_for_sleep. step by apply queue_at_Done. rewrite Ee, Es.
  destruct st; cbn [negb].
  - rewrite !bool_decide_eq_false_2 by (try done; intros ->; by specialize (Hn eq_refl)).
    exists w, x, SNone. split; [done|]. split; [done|]. split; [by eapply relinked_refl|].
    intros ->. by specialize (Hn eq_refl).
  - rewrite bool_decide_eq_false_2 by done. rewrite bool_decide_eq_true_2 by done. cbn [negb].
    destruct (qo_live _ _ _ _ _ Hq (q_sleep_marker x)) as [n Ep]; [unfold markers; set_solver|].
    step by apply store_next_Done. set (w1 := mkWorld _ _).
    destruct (decide (d = [])) as [->|Hd].
    + destruct Hh as [_ [= Hh]]. rewrite bool_decide_eq_true_2 by done.
      assert (cas_head q (q_end_marker x) (q_sleep_marker x) w1 = Done (inl (q_end_marker x),
        mkWorld (w_nodes w1) (<[q := with_head (q_sleep_marker x) x]> (w_queues w1)))) as E
        by (rewrite Hh; by apply cas_head_ok).
      step by exact E. clear E. set (w2 := mkWorld _ (<[q := _]> _)).
      assert (w_queues w2 !! q = Some (with_head (q_sleep_marker x) x)) as Hx2
        by (cbn; by rewrite lookup_insert_eq).
      step by (apply massert_true; by rewrite (proj2 (N.eqb_neq _ _))).
      step by apply load_tail_Done. cbn [q_tail_readiness with_head].
      step by (apply massert_true; by rewrite Ee).
      pose proof (qo_linked _ _ _ _ _ Hq) as [_ [(ne & Ene & Enn) _] _ _ _].
      assert (w_nodes w2 !! q_end_marker x = Some ne) as Ene2
        by (cbn; by rewrite lookup_insert_ne by done).
      step by apply load_next_Done.
      step by (apply massert_true; by rewrite Enn).
      step by by apply store_tail_Done. cbn [w_queues w1 w2 w_nodes]. rewrite insert_insert_eq.
      destruct (swap_stub_ok w q x SEnd (q_sleep_marker x) n Hq Ep) as [Hr Hok].
      eexists _, _, SSleep. split; [reflexivity|]. split; [by apply Hok|done].
    + rewrite (bool_decide_eq_false_2 (d = [])) by done.
      assert (q_head_readiness x ∉ markers x) as Hm.
      { destruct (last d) eqn:El; [by destruct Hh as [-> ?]|by apply last_None in El]. }
      unfold markers in Hm.
      step by (apply (cas_head_no w1 q x); [done|set_solver]).
      step by (apply massert_true; rewrite (proj2 (N.eqb_neq _ _)); [done|set_solver]).
      destruct (relink_marker w q x SEnd d (q_sleep_marker x) n) as [Hok Hr];
        [done|unfold markers; set_solver|cbn; set_solver|done|].
      exists w1, x, SEnd. split; [done|]. by split_and!.
  - rewrite bool_decide_eq_true_2 by done. step by apply load_head_Done. rewrite Hhs.
    exists w, x, SSleep. split.
    + unfold mret, stm_ret. do 2 f_equal. apply bool_decide_ext. naive_solver.
    + split; [done|]. split; [by eapply relinked_refl|done].
Qed.

(** ** [dequeue_node] *)

Lemma relinked_trans w w1 w2 q x x1 x2 :
  relinked w w1 q x x1 → relinked w1 w2 q x1 x2 → relinked w w2 q x x2.
Proof.
  intros [(? & ? & ?) ? E1] [(? & ? & ?) ? E2]. split; [|congruence|].
  - split_and!; congruence.
  - by rewrite E2, E1, insert_insert_eq.
Qed.

(** Dropping the stub, or the first data node, by moving the tail. *)
Lemma advance_tail w q x st d y l :
  queue_ok w q x st d → stub_list x st ++ d = q_tail_readiness x :: y :: l →
  let w' := mkWorld (w_nodes w) (<[q := with_tail y x]> (w_queues w)) in
  linked w' q (with_tail y x) (y :: l) ∧ relinked w w' q x (with_tail y x).
Proof.
  intros Hq El w'. destruct (qo_linked _ _ _ _ _ Hq) as [Hx Hc _ Hh Hnd]. rewrite El in *.
  split; [|by split]. destruct Hc as [_ Hc]. apply NoDup_cons in Hnd as [_ Hnd].
  split; try done. cbn. by rewrite lookup_insert_eq.
Qed.

(** The node at the tail, when it is a data node. *)
Lemma dequeue_data_spec w q x p d until :
  queue_ok w q x SNone (p :: d) →
  ∃ w' x', dequeue_data q until p (head d) w =
      Done (if decide (until = Some p) then Empty else Data p, w') ∧
    relinked w w' q x x' ∧
    if decide (until = Some p) then queue_ok w' q x' SNone (p :: d)
    else queue_ok w' q x' (match d with [] => SEnd | _ => SNone end) d.
Proof.
  intros Hq. pose proof (lk_queue _ _ _ _ (qo_linked _ _ _ _ _ Hq)) as Hx.
  pose proof (lk_tail _ _ _ _ (qo_linked _ _ _ _ _ Hq)) as Ht. cbn in Ht. injection Ht as Ht.
  unfold dequeue_data. destruct (decide (until = Some p)) as [->|Hu].
  { rewrite bool_decide_eq_true_2 by done. exists w, x. split; [done|].
    split; [by eapply relinked_refl|done]. }
  rewrite bool_decide_eq_false_2 by congruence. destruct d as [|y d]; cbn [head].
  - step by apply load_head_Done.
    pose proof (head_cases _ _ _ _ _ Hq) as [Eh Hm]. cbn in Eh. rewrite Eh, N.eqb_refl. cbn [negb].
    step by apply queue_at_Done.
    destruct (enqueue_linked w q x [p] (q_end_marker x)) as (w1 & E & Hl & Ec & Ew).
    { apply (qo_linked _ _ _ _ _ Hq). }
    { eapply (stub_not_data w q x SNone [p]); [done|unfold markers; set_solver|cbn; set_solver]. }
    { apply (qo_live _ _ _ _ _ Hq). unfold markers. set_solver. }
    { by eapply head_not_closed. }
    step by exact E. set (x1 := with_head (q_end_marker x) x) in *.
    assert (relinked w w1 q x x1) as Hr1 by by split.
    assert (∃ n1, w_nodes w1 !! p = Some n1 ∧ n_next_readiness n1 = Some (q_end_marker x)) as (n1 & En1 & Enx).
    { destruct (lk_chain _ _ _ _ Hl) as [? _]. done. }
    step by apply load_next_Done. rewrite Enx.
    pose proof (lk_queue _ _ _ _ Hl) as Hx1. step by apply store_tail_Done.
    set (x2 := with_tail (q_end_marker x) x1).
    set (w2 := mkWorld (w_nodes w1) (<[q := x2]> (w_queues w1))).
    assert (relinked w1 w2 q x1 x2) as Hr2 by by split.
    assert (relinked w w2 q x x2) as Hr by by eapply relinked_trans.
    exists w2, x2. split; [done|]. split; [done|].
    eapply queue_ok_intro; [exact Hq|exact Hr| |by intros ? ?%not_elem_of_nil]. cbn.
    destruct Hl as [_ [_ Hc] _ _ _]. split; try done.
    + cbn. by rewrite lookup_insert_eq.
    + apply NoDup_singleton.
  - step by apply store_tail_Done.
    destruct (advance_tail w q x SNone (p :: y :: d) y d Hq) as [Hl Hr]; [by rewrite <- Ht|].
    eexists _, _. split; [reflexivity|]. split; [exact Hr|].
    eapply queue_ok_intro; [exact Hq|exact Hr|exact Hl|].
    intros z Hz. apply (qo_data _ _ _ _ _ Hq). set_solver.
Qed.

(** The first data node leaves the queue, unless it is [until]; the queue is
    never found inconsistent. *)
Lemma dequeue_spec w q x st d until :
  queue_ok w q x st d →
  ∃ r w' x' st' d', dequeue_node q until w = Done (r, w') ∧
    queue_ok w' q x' st' d' ∧ relinked w w' q x x' ∧
    match d with
    | [] => r = Empty ∧ d' = [] ∧ st' = SEnd
    | p :: d0 => if decide (until = Some p) then r = Empty ∧ d' = d ∧ st' = SNone
                 else r = Data p ∧ d' = d0 ∧ st' ≠ SSleep
    end.
Proof.
  intros Hq. pose proof (qo_linked _ _ _ _ _ Hq) as Hl. pose proof (lk_queue _ _ _ _ Hl) as Hx.
  destruct (tail_cases _ _ _ _ _ Hq) as (Ee & Es & Ec & Hn).
  unfold dequeue_node. step by apply load_tail_Done.
  destruct (stub_list x st ++ d) as [|y l] eqn:El; [by pose proof (lk_tail _ _ _ _ Hl)|].
  pose proof (lk_tail _ _ _ _ Hl) as Ht. injection Ht as Ht.
  destruct (lk_chain _ _ _ _ Hl) as [(n & En & Enx) _]. rewrite Ht in En.
  step by apply load_next_Done. step by apply queue_at_Done. rewrite Ee, Es, Ec, Enx.
  destruct (decide (st = SNone)) as [->|Hst].
  - rewrite !bool_decide_eq_false_2 by done. cbn [orb].
    cbn in El. subst d. rewrite Ht in Hq |- *.
    destruct (dequeue_data_spec w q x _ l until Hq) as (w' & x' & E & Hr & Hq').
    rewrite E. destruct (decide _); eexists _, w', x', _, _; split_and!; eauto; by destruct l.
  - assert (stub_list x st = [y] ∧ d = l) as [Est ->] 
      by (destruct st; [done|..]; cbn in El; by injection El as <- <-).
    replace (bool_decide (st = SEnd) || bool_decide (st = SSleep) || false) with true
      by (by destruct st).
    destruct l as [|z l]; cbn [head].
    + destruct (clear_sleep_marker_spec _ _ _ _ _ Hq) as (w' & x' & E & Hq' & Hr).
      step by exact E. eexists Empty, w', x', _, []. split; [done|]. split; [exact Hq'|].
      split_and!; try done. by destruct st.
    + rewrite Ht in *. destruct (advance_tail w q x st (z :: l) z l Hq) as [Hl1 Hr1]; [by rewrite Est|].
      step by apply store_tail_Done. set (w1 := mkWorld _ _) in *. set (x1 := with_tail z x) in *.
      assert (queue_ok w1 q x1 SNone (z :: l)) as Hq1.
      { eapply queue_ok_intro; [exact Hq|exact Hr1|exact Hl1|apply (qo_data _ _ _ _ _ Hq)]. }
      destruct (lk_chain _ _ _ _ Hl1) as [(nz & Enz & Enzx) _].
      step by apply load_next_Done. rewrite Enzx.
      destruct (dequeue_data_spec w1 q x1 z l until Hq1) as (w' & x' & E & Hr & Hq').
      rewrite E. pose proof (relinked_trans _ _ _ _ _ _ _ Hr1 Hr).
      destruct (decide _); eexists _, w', x', _, _; split_and!; eauto; by destruct l.
Qed.
End QueueInv.
