(* ===== verification/QueueSpec.v ===== *)
(** * The readiness queue: reference counts and readiness words

    [inv] ties the data nodes of a queue to the words and the reference counts
    of all nodes: a live node is in the queue exactly when its queued flag is
    set, and is counted once for each handle and once by the queue until a
    poll releases it. *)
From S2P Require Import Prelude EventSet ReadinessState Awakener Duration Selector.
From S2P Require Import ReadinessQueue QueueInv.

Section QueueSpec.
Context {J : Type} (null_job : J) (grow : N → N) {P : Type} {PO : PipeOps P}.
#[local] Abbreviation Node := (ReadinessNode (J:=J)).
#[local] Abbreviation W := (World (J:=J) (P:=P)).
#[local] Abbreviation Q := (ReadinessQueueInner (P:=P)).
Implicit Types (w : W) (q : qid) (p : ptr) (l d : list ptr) (n : Node) (x : Q).
Implicit Types (C : gmap ptr Node) (refs : ptr → N).

(** ** The invariant *)

Definition queued n : bool := RS.is_queued (n_state n).
Definition dropped n : bool := RS.is_dropped (n_state n).

(** [here]: the node is in the queue [q]; [r]: the number of its handles. *)
Record node_ok q (here : bool) (r : N) n : Prop := {
  no_word : wf_word (n_state n);
  no_lock : n_update_lock n = false;
  no_refs : r <= 2 ^ 63;
  no_free : n_readiness_queue n = None →
    here = false ∧ 0 < r ∧ n_ref_count n = r ∧ RS.interest (n_state n) = Ready.empty ∧
    (queued n = true → dropped n = true);
  no_owned : n_readiness_queue n = Some q →
    n_ref_count n = r + (if dropped n && negb here then 0 else 1) ∧
    0 < n_ref_count n ∧
    (if dropped n then queued n = true else 0 < r ∧ queued n = here);
}.

Definition held q : ptr * Node → Prop := λ pn, n_readiness_queue pn.2 = Some q.
#[global] Instance held_dec q : ∀ pn, Decision (held q pn).
Proof. intros pn. unfold held. apply _. Defined.

Record inv w q x (st : stub) d refs : Prop := {
  iv_queue : queue_ok w q x st d;
  iv_markers : ∀ p n, contents w !! p = Some n → p ∈ markers x → n_readiness_queue n = None;
  iv_nodes : ∀ p n, contents w !! p = Some n → p ∉ markers x →
    node_ok q (bool_decide (p ∈ d)) (refs p) n;
  iv_data : ∀ p, p ∈ d → ∃ n, contents w !! p = Some n ∧ n_readiness_queue n = Some q;
  iv_handles : ∀ p, 0 < refs p → p ∉ markers x ∧ is_Some (contents w !! p);
  iv_strong : q_strong x = 1 + N.of_nat (size (filter (held q) (contents w)));
  iv_bound : q_strong x < 2 ^ 64;
}.

(** ** Stores into one node *)

Lemma contents_set w p n' Qs :
  contents (P:=P) (mkWorld (<[p := n']> (w_nodes w)) Qs) = <[p := strip n']> (contents w).
Proof. apply fmap_insert. Qed.

Lemma contents_delete w p Qs :
  contents (P:=P) (mkWorld (delete p (w_nodes w)) Qs) = delete p (contents w).
Proof. apply fmap_delete. Qed.

Lemma queue_ok_set w q x st d p n n' :
  queue_ok w q x st d → w_nodes w !! p = Some n → n_next_readiness n' = n_next_readiness n →
  queue_ok (mkWorld (<[p := n']> (w_nodes w)) (w_queues w)) q x st d.
Proof.
  intros [[Hx Hc Ht Hh Hnd] Hm Hl Hd] Ep En. split; try done.
  - split; try done. by eapply chain_insert_same.
  - intros y Hy. cbn. destruct (decide (y = p)) as [->|]; [rewrite lookup_insert_eq; eauto|].
    rewrite lookup_insert_ne by done. by apply Hl.
Qed.

Lemma queue_ok_free w q x st d p :
  queue_ok w q x st d → p ∉ d → p ∉ markers x →
  queue_ok (mkWorld (delete p (w_nodes w)) (w_queues w)) q x st d.
Proof.
  intros [[Hx Hc Ht Hh Hnd] Hm Hl Hd] Hpd Hpm. split; try done.
  - split; try done. eapply chain_ext; [|exact Hc]. intros y Hy. cbn.
    rewrite lookup_delete_ne; [done|]. intros ->.
    by apply elem_of_app in Hy as [?%stub_markers|?].
  - intros y Hy. cbn. rewrite lookup_delete_ne; [by apply Hl|]. by intros ->.
Qed.

Lemma queue_ok_strong w q x st d v :
  queue_ok w q x st d →
  queue_ok (mkWorld (w_nodes w) (<[q := with_strong v x]> (w_queues w))) q (with_strong v x) st d.
Proof.
  intros [[Hx Hc Ht Hh Hnd] Hm Hl Hd]. split; try done. split; try done.
  cbn. by rewrite lookup_insert_eq.
Qed.

Lemma size_held_delete q C p n :
  C !! p = Some n →
  size (filter (held q) C) =
    ((if decide (n_readiness_queue n = Some q) then 1 else 0) +
     size (filter (held q) (delete p C)))%nat.
Proof.
  intros E. rewrite <- (insert_delete_id C p n E) at 1. destruct (decide _) as [Hh|Hh].
  - rewrite map_filter_insert_True by done. apply map_size_insert_None.
    apply map_lookup_filter_None_2. left. apply lookup_delete_eq.
  - rewrite map_filter_insert_False by done. by rewrite delete_delete_eq.
Qed.

Lemma size_held_insert q C p n n' :
  C !! p = Some n → n_readiness_queue n' = n_readiness_queue n →
  size (filter (held q) (<[p := n']> C)) = size (filter (held q) C).
Proof.
  intros E En. rewrite (size_held_delete q C p n E).
  rewrite (size_held_delete q (<[p := n']> C) p n') by apply lookup_insert_eq.
  by rewrite delete_insert_eq, En.
Qed.

(** Only one node, and its membership in the queue, changes. *)
Lemma inv_update w q x st d refs w' x' st' d' refs' p n n' :
  inv w q x st d refs → queue_ok w' q x' st' d' →
  markers x' = markers x → q_strong x' = q_strong x →
  contents w !! p = Some n → contents w' = <[p := n']> (contents w) → p ∉ markers x →
  n_readiness_queue n' = n_readiness_queue n →
  (∀ y, y ≠ p → (y ∈ d' ↔ y ∈ d) ∧ refs' y = refs y) →
  node_ok q (bool_decide (p ∈ d')) (refs' p) n' →
  (p ∈ d' → n_readiness_queue n = Some q) →
  inv w' q x' st' d' refs'.
Proof.
  intros [Hq Hm Hn Hd Hh Hs Hb] Hq' Em Es Ep Ec Hp En Hoth Hok Hdp.
  split; rewrite ?Em, ?Es, ?Ec; try done.
  - intros y ny. destruct (decide (y = p)) as [->|Hne]; [done|].
    rewrite lookup_insert_ne by done. apply Hm.
  - intros y ny. destruct (decide (y = p)) as [->|Hne].
    + rewrite lookup_insert_eq. by intros [= <-] _.
    + rewrite lookup_insert_ne by done. intros E Hy. destruct (Hoth y Hne) as [Hyd ->].
      rewrite (bool_decide_ext _ _ Hyd). by apply Hn.
  - intros y Hy. destruct (decide (y = p)) as [->|Hne].
    + rewrite lookup_insert_eq. exists n'. rewrite En. auto.
    + rewrite lookup_insert_ne by done. apply Hd. by apply Hoth.
  - intros y Hy. destruct (decide (y = p)) as [->|Hne].
    + rewrite lookup_insert_eq. eauto.
    + rewrite lookup_insert_ne by done. apply Hh. by rewrite <- (proj2 (Hoth y Hne)).
  - by rewrite (size_held_insert _ _ _ n).
Qed.

(** A node with no handle that has left the queue is freed. *)
Lemma inv_free w q x st d refs w' x' st' d' refs' p n :
  inv w q x st d refs → queue_ok w' q x' st' d' →
  markers x' = markers x →
  q_strong x' = q_strong x - (if decide (n_readiness_queue n = Some q) then 1 else 0) →
  contents w !! p = Some n → contents w' = delete p (contents w) →
  (∀ y, y ≠ p → (y ∈ d' ↔ y ∈ d) ∧ refs' y = refs y) → p ∉ d' → refs' p = 0 →
  inv w' q x' st' d' refs'.
Proof.
  intros [Hq Hm Hn Hd Hh Hs Hb] Hq' Em Es Ep Ec Hoth Hpd Hr.
  split; rewrite ?Em, ?Ec; try done.
  - intros y ny [_ E]%lookup_delete_Some. by apply Hm.
  - intros y ny [Hne E]%lookup_delete_Some Hy. destruct (Hoth y) as [Hyd ->]; [done|].
    rewrite (bool_decide_ext _ _ Hyd). by apply Hn.
  - intros y Hy. destruct (decide (y = p)) as [->|Hne]; [done|].
    rewrite lookup_delete_ne by done. apply Hd. by apply Hoth.
  - intros y Hy. destruct (decide (y = p)) as [->|Hne]; [lia|].
    rewrite lookup_delete_ne by done. apply Hh. by rewrite <- (proj2 (Hoth y Hne)).
  - rewrite (size_held_delete q _ p n Ep) in Hs. rewrite Es, Hs. destruct (decide _); lia.
  - rewrite Es. lia.
Qed.

(** ** [release_node] *)

Lemma fetch_sub1_pos r : 0 < r → r <= 2 ^ 64 → fetch_sub1 r = r - 1.
Proof.
  intros H0 H1. unfold fetch_sub1. change word_bits with 64.
  replace (r + (2 ^ 64 - 1)) with (r - 1 + 1 * 2 ^ 64) by lia.
  rewrite N.Div0.mod_add. apply N.mod_small. lia.
Qed.

Lemma fetch_add1_small r : r < 2 ^ 64 - 1 → fetch_add1 r = r + 1.
Proof. intros H. unfold fetch_add1. change word_bits with 64. apply N.mod_small. lia. Qed.

Definition released (C : gmap ptr Node) p n : gmap ptr Node :=
  if n_ref_count n =? 1 then delete p C else <[p := with_ref (n_ref_count n - 1) n]> C.

Lemma released_ne (C : gmap ptr Node) p n y : y ≠ p → released C p n !! y = C !! y.
Proof.
  intros H. unfold released. destruct (_ =? 1); [by rewrite lookup_delete_ne|by rewrite lookup_insert_ne].
Qed.

Lemma release_node_ok w q x st d p n0 :
  queue_ok w q x st d → w_nodes w !! p = Some n0 →
  n_readiness_queue n0 = None ∨ n_readiness_queue n0 = Some q →
  0 < n_ref_count n0 → n_ref_count n0 <= 2 ^ 64 →
  (n_ref_count n0 = 1 → p ∉ d ∧ p ∉ markers x ∧ (n_readiness_queue n0 = Some q → 1 < q_strong x)) → q_strong x < 2 ^ 64 →
  ∃ w' x', release_node p w = Done (tt, w') ∧ queue_ok w' q x' st d ∧
    contents w' = released (contents w) p (strip n0) ∧ markers x' = markers x ∧
    q_awakener x' = q_awakener x ∧ w_queues w' = <[q := x']> (w_queues w) ∧
    q_strong x' = q_strong x -
      (if (n_ref_count n0 =? 1) && bool_decide (n_readiness_queue n0 = Some q) then 1 else 0).
Proof.
  intros Hq Ep Hnq Hpos Hle Hlast Hbound.
  pose proof (lk_queue _ _ _ _ (qo_linked _ _ _ _ _ Hq)) as Hx.
  unfold release_node. step by apply node_at_Done. step by reflexivity.
  rewrite fetch_sub1_pos by done. set (n1 := with_ref (n_ref_count n0 - 1) n0).
  pose proof (queue_ok_set w q x st d p n0 n1 Hq Ep eq_refl) as Hq1.
  unfold released. cbn [n_ref_count strip with_next].
  destruct (n_ref_count n0 =? 1) eqn:E1; nbool; cbn [negb andb].
  - destruct (Hlast E1) as (Hpd & Hpm & Hst).
    step by (apply node_at_Done; cbn; by apply lookup_insert_eq). step by reflexivity.
    cbn [w_nodes w_queues]. rewrite delete_insert_eq. cbn [n1 with_ref n_readiness_queue].
    pose proof (queue_ok_free w q x st d p Hq Hpd Hpm) as Hq2.
    destruct Hnq as [E|E]; rewrite E in *.
    + eexists _, x. split; [reflexivity|]. split; [exact Hq2|].
      split; [apply contents_delete|]. cbn. rewrite N.sub_0_r.
      by rewrite insert_id.
    + rewrite bool_decide_eq_true_2 by done. unfold arc_drop. step by apply queue_at_Done.
      specialize (Hst eq_refl). rewrite (proj2 (N.eqb_neq _ _)) by lia. unfold set_queue. cbn [w_nodes w_queues].
      rewrite fetch_sub1_pos by lia. eexists _, (with_strong (q_strong x - 1) x).
      split; [reflexivity|]. split; [exact (queue_ok_strong _ q x st d _ Hq2)|].
      split; [apply contents_delete|]. by cbn.
  - eexists _, x. split; [reflexivity|]. split; [exact Hq1|].
    split; [apply contents_set|]. cbn. rewrite N.sub_0_r. by rewrite insert_id.
Qed.

(** ** Polling one node *)

Definition dequeued (s : ReadinessState) : ReadinessState :=
  mkRS (N.land (rs_0 s) (not64 QUEUED_MASK)).

(** The word a poll stores into a live node. *)
Definition unqueued (s : ReadinessState) : ReadinessState :=
  let r := RS.effective_readiness s in
  let o := RS.poll_opt s in
  if PollOpt.is_edge o then
    if PollOpt.is_oneshot o && negb (Ready.is_empty r)
    then RS.disarm (dequeued s) else dequeued s
  else if Ready.is_empty r then dequeued s else s.
Definition polled (s : ReadinessState) : ReadinessState :=
  RS.update_token_read_pos (unqueued s).

(** A level-triggered node that is ready stays in the queue. *)
Definition stays n : bool :=
  negb (PollOpt.is_edge (RS.poll_opt (n_state n))) &&
  negb (Ready.is_empty (RS.effective_readiness (n_state n))).

Lemma set_dequeued_Done s :
  RS.is_queued s = true → RS.set_dequeued s = Done (dequeued s).
Proof. intros E. unfold RS.set_dequeued. by rewrite E. Qed.

Lemma dequeued_fields s :
  wf_word s → RS.is_queued s = true →
  wf_word (dequeued s) ∧ fields (dequeued s) = with_queued false (fields s).
Proof.
  intros Hwf Hs. pose proof (set_dequeued_Done s Hs) as E.
  split; [by eapply wf_set_dequeued|].
  destruct (set_dequeued_fields s) as (s' & E' & Ef & _); [auto with sickle|done|].
  rewrite E in E'. by injection E' as <-.
Qed.

(** A poll moves the read position of the token to the write position, keeps
    the readiness and the options, disarms a one-shot edge-triggered node that
    is ready, and clears the queued flag unless the node stays. *)
Lemma polled_spec s :
  wf_word s → RS.is_queued s = true → RS.is_dropped s = false →
  let r := RS.effective_readiness s in
  let o := RS.poll_opt s in
  wf_word (polled s) ∧
  fields (polled s) = mkFields (f_readiness (fields s))
    (if PollOpt.is_edge o && PollOpt.is_oneshot o && negb (Ready.is_empty r)
     then 0 else f_interest (fields s))
    (f_opt (fields s)) (f_wr (fields s)) (f_wr (fields s))
    (negb (PollOpt.is_edge o) && negb (Ready.is_empty r)) false.
Proof.
  intros Hwf Hqd Hdr r o. destruct (dequeued_fields s Hwf Hqd) as [Hwfd Efd].
  unfold polled. set (s1 := unqueued s).
  assert (wf_word s1 ∧ fields s1 = mkFields (f_readiness (fields s))
    (if PollOpt.is_edge o && PollOpt.is_oneshot o && negb (Ready.is_empty r)
     then 0 else f_interest (fields s))
    (f_opt (fields s)) (f_rd (fields s)) (f_wr (fields s))
    (negb (PollOpt.is_edge o) && negb (Ready.is_empty r)) false) as [Hwf1 Ef1].
  { unfold s1, unqueued. fold r o.
    assert (fields (dequeued s) = mkFields (f_readiness (fields s)) (f_interest (fields s))
      (f_opt (fields s)) (f_rd (fields s)) (f_wr (fields s)) false false) as Efd'
      by (rewrite Efd; unfold with_queued; cbn; by rewrite Hdr).
    destruct (PollOpt.is_edge o), (PollOpt.is_oneshot o), (Ready.is_empty r); cbn [andb negb];
      try (split; [exact Hwfd|exact Efd']); try (split; [exact Hwf|]; unfold fields at 1; rewrite Hqd, Hdr; reflexivity).
    split; [by apply wf_set_interest|]. unfold RS.disarm.
    rewrite set_interest_fields; [by rewrite Efd'|by auto with sickle|done]. }
  split; [by apply wf_update_token_read_pos|].
  rewrite update_token_read_pos_fields by auto with sickle.
  assert (RS.token_write_pos s1 = f_wr (fields s)) as -> by (by apply (f_equal f_wr) in Ef1).
  by rewrite Ef1.
Qed.

Lemma polled_queued s :
  wf_word s → RS.is_queued s = true → RS.is_dropped s = false →
  RS.is_queued (polled s) =
    negb (PollOpt.is_edge (RS.poll_opt s)) && negb (Ready.is_empty (RS.effective_readiness s)) ∧
  RS.is_dropped (polled s) = false ∧ RS.token_read_pos (polled s) = RS.token_write_pos s.
Proof.
  intros H1 H2 H3. destruct (polled_spec s H1 H2 H3) as [_ E].
  split; [by apply (f_equal f_queued) in E|].
  split; [by apply (f_equal f_dropped) in E|by apply (f_equal f_rd) in E].
Qed.

Lemma node_eta n : with_state (n_state n) n = n.
Proof. by destruct n. Qed.

Lemma cas_state_ok w p n s :
  w_nodes w !! p = Some n →
  cas_state p (n_state n) s w =
    Done (n_state n, mkWorld (<[p := with_state s n]> (w_nodes w)) (w_queues w)).
Proof.
  intros E. unfold cas_state. step by apply node_at_Done.
  unfold AtomicState.compare_and_swap. by rewrite bool_decide_eq_true_2.
Qed.

Lemma poll_state_loop_ok w p n :
  w_nodes w !! p = Some n → RS.is_queued (n_state n) = true → RS.is_dropped (n_state n) = false →
  poll_state_loop 2 p (n_state n) w =
    Done (Some (polled (n_state n), RS.effective_readiness (n_state n)),
          mkWorld (<[p := with_state (polled (n_state n)) n]> (w_nodes w)) (w_queues w)).
Proof.
  intros Ep Hqd Hdr. cbn [poll_state_loop]. step by apply massert_true. rewrite Hdr.
  set (s := n_state n). set (r := RS.effective_readiness s). set (o := RS.poll_opt s).
  assert (lift (if PollOpt.is_edge o then
      RS.set_dequeued s ≫= λ next,
      Done (if PollOpt.is_oneshot o && negb (Ready.is_empty r) then RS.disarm next else next)
    else if Ready.is_empty r then RS.set_dequeued s else Done s) w = Done (unqueued s, w)) as E.
  { rewrite !(set_dequeued_Done s) by done. unfold unqueued. fold r o.
    by destruct (PollOpt.is_edge o), (Ready.is_empty r). }
  step by exact E. clear E.
  fold (polled s). destruct (decide (s = polled s)) as [E|E].
  - rewrite bool_decide_eq_true_2 by done. rewrite <- E. unfold s. rewrite node_eta, insert_id by done.
    by destruct w.
  - rewrite bool_decide_eq_false_2 by done. step by apply cas_state_ok.
    rewrite bool_decide_eq_true_2 by done. done.
Qed.

(** ** One iteration of a poll *)

(** What a poll reports of a live node, and the node it leaves. *)
Definition report n : option (Event * J) :=
  let r := RS.effective_readiness (n_state n) in
  if Ready.is_empty r then None
  else match node_token n (RS.token_write_pos (n_state n)) with
       | Done tok => Some (Event_new r tok, n_job n)
       | _ => None
       end.
Definition after_poll n : Node :=
  let n' := with_state (polled (n_state n)) n in
  if Ready.is_empty (RS.effective_readiness (n_state n)) then n' else with_job null_job n'.

(** The effect of polling the node at [p] on the store and on the buffer. *)
Definition poll_node C p : gmap ptr Node :=
  match C !! p with
  | Some n => if dropped n then released C p n else <[p := after_poll n]> C
  | None => C
  end.
Definition reported C p : option (Event * J) :=
  match C !! p with Some n => if dropped n then None else report n | None => None end.
Definition still C p : bool :=
  match C !! p with Some n => negb (dropped n) && stays n | None => false end.
Definition push_report (dst : Events (J:=J)) (o : option (Event * J)) : Events (J:=J) :=
  match o with Some (e, j) => push_event grow dst e j | None => dst end.

Lemma requeue_step {A} w q x st d p (b : bool) (u u' : A) :
  queue_ok w q x st d → p ∉ d → p ∉ markers x → is_Some (w_nodes w !! p) →
  ∃ w' x', (if b then enqueue_node q p ≫= λ _, mret u' else mret u) w =
      Done (if b then u' else u, w') ∧
    queue_ok w' q x' st (d ++ if b then [p] else []) ∧ relinked w w' q x x'.
Proof.
  intros Hq Hd Hm Hl. destruct b.
  - destruct (enqueue_data w q x st d p Hq Hd Hm Hl) as (w' & x' & E & Hq' & Hr).
    step by exact E. eauto.
  - exists w, x. rewrite app_nil_r. split; [done|]. split; [done|]. by eapply relinked_refl.
Qed.

Lemma node_token_ok n pos : pos <= 2 → ∃ tok, node_token n pos = Done tok.
Proof.
  intros H. assert (pos = 0 ∨ pos = 1 ∨ pos = 2) as [->|[->| ->]] by lia; by eexists.
Qed.

Lemma node_token_strip n pos : node_token (strip n) pos = node_token n pos.
Proof. by destruct n. Qed.

(** [n] is the node before the poll, [m] the one with the new word. *)
Lemma report_step w q x st d p n m dst pos :
  queue_ok w q x st d → w_nodes w !! p = Some m →
  strip m = with_state (polled (n_state n)) n → wf_word (n_state n) →
  pos = RS.token_write_pos (n_state n) →
  ∃ w', (if negb (Ready.is_empty (RS.effective_readiness (n_state n))) then
       node_at p ≫= λ node,
       lift (node_token node pos) ≫= λ tok,
       let dst := push_event grow dst
         (Event_new (RS.effective_readiness (n_state n)) tok) (n_job node) in
       set_node p (with_job null_job node) ≫= λ _, mret dst
     else mret dst) w = Done (push_report dst (report n), w') ∧
    queue_ok w' q x st d ∧ w_queues w' = w_queues w ∧
    contents w' = <[p := after_poll n]> (contents w).
Proof.
  intros Hq Em Es Hwf ->. unfold report, after_poll.
  destruct (Ready.is_empty _) eqn:Ee; cbn [negb].
  - exists w. split; [done|]. split; [done|]. split; [done|].
    rewrite insert_id; [done|]. by rewrite contents_lookup, Em, <- Es.
  - destruct (node_token_ok n (RS.token_write_pos (n_state n))) as [tok Et];
      [apply (wf_word_wr _ Hwf)|].
    assert (node_token m (RS.token_write_pos (n_state n)) = Done tok) as Etm.
    { rewrite <- (node_token_strip m), Es. by destruct n. }
    step by by apply node_at_Done. rewrite Et, Etm. step by reflexivity. step by reflexivity.
    assert (n_job m = n_job n) as -> by (by apply (f_equal n_job) in Es).
    eexists. split; [reflexivity|].
    split; [by eapply queue_ok_set|]. split; [done|]. rewrite contents_set. f_equal.
    rewrite <- Es. by destruct m.
Qed.

Lemma inv_head w q x st p d refs :
  inv w q x st (p :: d) refs →
  ∃ n, contents w !! p = Some n ∧ n_readiness_queue n = Some q ∧ p ∉ d ∧ p ∉ markers x ∧
    node_ok q true (refs p) n ∧ queued n = true.
Proof.
  intros Hi. destruct (iv_data _ _ _ _ _ _ Hi p) as (n & En & Enq); [set_solver|].
  assert (p ∉ markers x) as Hpm by (apply (qo_data _ _ _ _ _ (iv_queue _ _ _ _ _ _ Hi)); set_solver).
  pose proof (iv_nodes _ _ _ _ _ _ Hi p n En Hpm) as Hok.
  rewrite bool_decide_eq_true_2 in Hok by set_solver.
  exists n. split_and!; try done.
  - pose proof (lk_nodup _ _ _ _ (qo_linked _ _ _ _ _ (iv_queue _ _ _ _ _ _ Hi))) as Hnd.
    apply NoDup_app in Hnd as (_ & _ & Hnd). by apply NoDup_cons in Hnd as [? _].
  - destruct (no_owned _ _ _ _ Hok Enq) as (_ & _ & Hs). by destruct (dropped n); [|destruct Hs].
Qed.

Lemma after_poll_fields n :
  n_state (after_poll n) = polled (n_state n) ∧ n_readiness_queue (after_poll n) = n_readiness_queue n ∧
  n_ref_count (after_poll n) = n_ref_count n ∧ n_update_lock (after_poll n) = n_update_lock n.
Proof. unfold after_poll. by destruct (Ready.is_empty _). Qed.

Lemma queue_data_nodup w q x st d : queue_ok w q x st d → NoDup d.
Proof. intros [[_ _ _ _ Hnd] _ _ _]. by apply NoDup_app in Hnd as (_ & _ & ?). Qed.

Lemma inv_after_poll w q x st p d refs w' x' st' n :
  inv w q x st (p :: d) refs → contents w !! p = Some n → dropped n = false →
  queue_ok w' q x' st' (d ++ if stays n then [p] else []) →
  markers x' = markers x → q_strong x' = q_strong x →
  contents w' = <[p := after_poll n]> (contents w) →
  inv w' q x' st' (d ++ if stays n then [p] else []) refs.
Proof.
  intros Hi En Hdr Hq' Em Es Ec.
  destruct (inv_head _ _ _ _ _ _ _ Hi) as (n' & En' & Enq & Hpd & Hpm & Hok & Hqd).
  assert (n' = n) as -> by congruence. clear En'.
  destruct (after_poll_fields n) as (Eas & Eaq & Ear & Eal). pose proof Hok as [Hwf Hlk Hr _ Ho].
  destruct (polled_queued (n_state n) Hwf Hqd Hdr) as (Epq & Epd & _).
  destruct (polled_spec (n_state n) Hwf Hqd Hdr) as [Hwfp _].
  assert (bool_decide (p ∈ d ++ if stays n then [p] else []) = stays n) as Eb.
  { destruct (stays n); [apply bool_decide_eq_true_2|apply bool_decide_eq_false_2]; set_solver. }
  eapply (inv_update w q x st (p :: d) refs); try done.
  - intros y Hy. split; [|done]. rewrite elem_of_app, elem_of_cons. destruct (stays n); set_solver.
  - rewrite Eb. destruct (Ho Enq) as (Erc & Hpos & Hst). split; try done.
    + by rewrite Eas.
    + by rewrite Eal.
    + by rewrite Eaq, Enq.
    + intros _. unfold dropped, queued in *. rewrite Eas, Ear, Epd. rewrite Hdr in Erc, Hst.
      split; [done|]. split; [done|]. split; [by destruct Hst|exact Epq].
Qed.

Lemma inv_after_release w q x st p d refs w' x' st' n :
  inv w q x st (p :: d) refs → contents w !! p = Some n → dropped n = true →
  queue_ok w' q x' st' d → markers x' = markers x →
  q_strong x' = q_strong x - (if n_ref_count n =? 1 then 1 else 0) →
  contents w' = released (contents w) p n →
  inv w' q x' st' d refs.
Proof.
  intros Hi En Hdr Hq' Em Es Ec.
  destruct (inv_head _ _ _ _ _ _ _ Hi) as (n' & En' & Enq & Hpd & Hpm & Hok & Hqd).
  assert (n' = n) as -> by congruence. clear En'. pose proof Hok as [Hwf Hlk Hr _ Ho].
  destruct (Ho Enq) as (Erc & Hpos & _). rewrite Hdr in Erc. cbn in Erc.
  unfold released in Ec. destruct (n_ref_count n =? 1) eqn:E1; nbool.
  - eapply (inv_free w q x st (p :: d) refs); try done.
    + by rewrite decide_True.
    + intros y Hy. set_solver.
    + lia.
  - rewrite N.sub_0_r in Es. eapply (inv_update w q x st (p :: d) refs); try done.
    + intros y Hy. set_solver.
    + rewrite bool_decide_eq_false_2 by done. split; try done.
      * by cbn; rewrite Enq.
      * intros _. unfold dropped, queued in *. cbn. rewrite Hdr. cbn. split; [lia|]. split; [lia|done].
Qed.

(** What the loop does with the node [p] that it took from the queue, whose word
    is [s]. *)
Definition poll_data (fuel : nat) (q : qid) (until : option ptr) (dst : Events (J:=J)) p s
    : stm (World (J:=J) (P:=P)) (Events (J:=J)) :=
  poll_state_loop 2 p s ≫= λ r,
  match r with
  | None => queue_poll_loop null_job grow fuel q until dst
  | Some (next, readiness) =>
      (if RS.is_queued next then
         let until := if is_null until then Some p else until in
         enqueue_node q p ≫= λ _, mret until
       else mret until) ≫= λ until,
      (if negb (Ready.is_empty readiness) then
         node_at p ≫= λ node,
         lift (node_token node (RS.token_read_pos next)) ≫= λ tok,
         let dst := push_event grow dst (Event_new readiness tok) (n_job node) in
         set_node p (with_job null_job node) ≫= λ _, mret dst
       else mret dst) ≫= λ dst,
      queue_poll_loop null_job grow fuel q until dst
  end.

Lemma poll_loop_data fuel w q until dst p w1 m :
  Events_len dst < Events_capacity dst → dequeue_node q until w = Done (Data p, w1) →
  w_nodes w1 !! p = Some m →
  queue_poll_loop null_job grow (S fuel) q until dst w = poll_data fuel q until dst p (n_state m) w1.
Proof.
  intros Hroom E1 Em. cbn [queue_poll_loop]. rewrite (proj2 (N.ltb_lt _ _)) by done.
  step by exact E1. unfold load_state. erewrite stm_step.
  2:{ step by by apply node_at_Done. reflexivity. }
  done.
Qed.

(** The queue and the stores after the node [p] was taken from the head of the
    queue, and [n] is what the store holds at it. *)
Record taken w q x st p d refs w1 x1 st1 n (m : ReadinessNode (J:=J)) : Prop := {
  tk_inv : inv w q x st (p :: d) refs;
  tk_node : contents w !! p = Some n;
  tk_queue : queue_ok w1 q x1 st1 d;
  tk_relinked : relinked w w1 q x x1;
  tk_raw : w_nodes w1 !! p = Some m;
  tk_strip : strip m = n;
}.

(** A dropped node is released. *)
Lemma poll_dropped w q x st p d refs w1 x1 st1 n m :
  taken w q x st p d refs w1 x1 st1 n m → dropped n = true →
  ∃ w2 x2, (∀ fuel until dst, poll_data fuel q until dst p (n_state m) w1 =
      queue_poll_loop null_job grow fuel q until dst w2) ∧
    inv w2 q x2 st1 d refs ∧ contents w2 = released (contents w) p n ∧
    markers x2 = markers x ∧ q_awakener x2 = q_awakener x ∧ w_queues w2 = <[q := x2]> (w_queues w).
Proof.
  intros [Hi En Hq1 [(Ea1 & Em1 & Es1) Ec1 Ew1] Emn Est] Hdr.
  destruct (inv_head _ _ _ _ _ _ _ Hi) as (n' & En' & Enq & Hpd & Hpm & Hok & Hqd).
  rewrite En in En'. injection En' as <-.
  destruct (no_owned _ _ _ _ Hok Enq) as (Erc & Hpos & _).
  assert (n_ref_count m = n_ref_count n) as Emr by (by rewrite <- Est).
  assert (n_readiness_queue m = Some q) as Emq by (by rewrite <- Enq, <- Est).
  pose proof (size_held_delete q _ p n En) as Hsz. rewrite decide_True in Hsz by done.
  pose proof (iv_strong _ _ _ _ _ _ Hi) as Hst. pose proof (iv_bound _ _ _ _ _ _ Hi) as Hb.
  pose proof (no_refs _ _ _ _ Hok) as Hrl.
  assert (n_ref_count n <= 2 ^ 64) as Hrb by (rewrite Hdr in Erc; cbn [andb negb] in Erc; lia).
  destruct (release_node_ok w1 q x1 st1 d p m) as (w2 & x2 & E2 & Hq2 & Ec2 & Em2 & Ea2 & Ew2 & Es2);
    [done|done|by right|by rewrite Emr|by rewrite Emr| |by rewrite Es1|].
  { intros _. rewrite Em1, Es1. split; [done|]. split; [done|]. intros _. lia. }
  rewrite Emr, (bool_decide_eq_true_2 _ Emq), andb_true_r, Es1 in Es2.
  exists w2, x2. split; [|split; [|split_and!]].
  - intros fuel until dst. assert (n_state m = n_state n) as -> by (by rewrite <- Est).
    unfold poll_data. erewrite stm_step.
    2:{ cbn [poll_state_loop]. step by by apply massert_true.
        unfold dropped in Hdr. rewrite Hdr. step by exact E2. reflexivity. }
    done.
  - eapply inv_after_release; [done..|by rewrite Em2|exact Es2|by rewrite Ec2, Ec1, Est].
  - by rewrite Ec2, Ec1, Est.
  - by rewrite Em2.
  - by rewrite Ea2.
  - by rewrite Ew2, Ew1, insert_insert_eq.
Qed.

(** A live node is reported, and comes back when it stays. *)
Lemma poll_live w q x st p d refs w1 x1 st1 n m until dst :
  taken w q x st p d refs w1 x1 st1 n m → dropped n = false →
  ∃ w' x', (∀ fuel, poll_data fuel q until dst p (n_state m) w1 =
      queue_poll_loop null_job grow fuel q (if stays n then (if is_null until then Some p else until) else until)
        (push_report dst (report n)) w') ∧
    inv w' q x' st1 (d ++ if stays n then [p] else []) refs ∧
    contents w' = <[p := after_poll n]> (contents w) ∧
    markers x' = markers x ∧ q_awakener x' = q_awakener x ∧ w_queues w' = <[q := x']> (w_queues w).
Proof.
  intros [Hi En Hq1 [(Ea1 & Em1 & Es1) Ec1 Ew1] Emn Est] Hdr.
  destruct (inv_head _ _ _ _ _ _ _ Hi) as (n' & En' & Enq & Hpd & Hpm & Hok & Hqd).
  rewrite En in En'. injection En' as <-. pose proof (no_word _ _ _ _ Hok) as Hwf.
  destruct (polled_queued (n_state n) Hwf Hqd Hdr) as (Epq & _ & Erd).
  assert (n_state m = n_state n) as Ems by (by rewrite <- Est).
  set (w2 := mkWorld (<[p := with_state (polled (n_state n)) m]> (w_nodes w1)) (w_queues w1)).
  assert (poll_state_loop 2 p (n_state n) w1 =
    Done (Some (polled (n_state n), RS.effective_readiness (n_state n)), w2)) as Eps.
  { unfold w2. rewrite <- Ems. apply poll_state_loop_ok; [done|by rewrite Ems..]. }
  assert (queue_ok w2 q x1 st1 d) as Hq2 by by eapply queue_ok_set.
  destruct (requeue_step w2 q x1 st1 d p (stays n) until (if is_null until then Some p else until))
    as (w3 & x3 & E3 & Hq3 & [(Ea3 & Em3 & Es3) Ec3 Ew3]);
    [done|done|by rewrite Em1|cbn; rewrite lookup_insert_eq; eauto|].
  assert (contents w3 = <[p := with_state (polled (n_state n)) n]> (contents w)) as Ec3'.
  { rewrite Ec3. unfold w2. rewrite contents_set, Ec1. f_equal.
    exact (f_equal (with_state (polled (n_state n))) Est). }
  assert (contents w3 !! p = Some (with_state (polled (n_state n)) n)) as Ep3
    by (by rewrite Ec3', lookup_insert_eq).
  apply contents_node in Ep3 as (m3 & Em3n & Est3).
  destruct (report_step w3 q x3 st1 _ p n m3 dst _ Hq3 Em3n Est3 Hwf Erd) as (w4 & E4 & Hq4 & Ew4 & Ec4).
  rewrite Ec3', insert_insert_eq in Ec4.
  exists w4, x3. split; [|split; [|split; [exact Ec4|split_and!]]].
  - intros fuel. unfold poll_data. rewrite Ems. step by exact Eps.
    unfold stays in *. rewrite Epq. step by exact E3. by step by exact E4.
  - eapply inv_after_poll; [done..|by rewrite Em3|by rewrite Es3|exact Ec4].
  - by rewrite Em3.
  - by rewrite Ea3.
  - by rewrite Ew4, Ew3; cbn; rewrite Ew1, insert_insert_eq.
Qed.

(** One node leaves the queue, is reported, and comes back when it stays; the
    poller is not asleep then. *)
Lemma poll_one w q x st p d refs until dst :
  inv w q x st (p :: d) refs → until ≠ Some p → Events_len dst < Events_capacity dst →
  ∃ w' x' st', let C := contents w in
    let until' := if still C p then (if is_null until then Some p else until) else until in
    (∀ fuel, queue_poll_loop null_job grow (S fuel) q until dst w =
       queue_poll_loop null_job grow fuel q until' (push_report dst (reported C p)) w') ∧
    inv w' q x' st' (d ++ if still C p then [p] else []) refs ∧ st' ≠ SSleep ∧
    contents w' = poll_node C p ∧ markers x' = markers x ∧ q_awakener x' = q_awakener x ∧
    w_queues w' = <[q := x']> (w_queues w).
Proof.
  intros Hi Hu Hroom. pose proof (iv_queue _ _ _ _ _ _ Hi) as Hq.
  destruct (inv_head _ _ _ _ _ _ _ Hi) as (n & En & _).
  destruct (dequeue_spec w q x st (p :: d) until Hq) as (r & w1 & x1 & st1 & d1 & E1 & Hq1 & Hr1 & Hr).
  rewrite decide_False in Hr by done. destruct Hr as (-> & -> & Hst1).
  assert (contents w1 !! p = Some n) as En1 by (by destruct Hr1 as [_ -> _]).
  apply contents_node in En1 as (m & Emn & Est).
  assert (taken w q x st p d refs w1 x1 st1 n m) as Ht by done.
  unfold poll_node, reported, still. rewrite En. destruct (dropped n) eqn:Hdr; cbn [negb andb].
  - destruct (poll_dropped _ _ _ _ _ _ _ _ _ _ _ _ Ht Hdr) as (w2 & x2 & E2 & Hi2 & Ec2 & Hm2 & Ha2 & Hw2).
    exists w2, x2, st1. rewrite app_nil_r. split; [|by split_and!].
    intros fuel. by rewrite (poll_loop_data fuel w q until dst p w1 m Hroom E1 Emn).
  - destruct (poll_live _ _ _ _ _ _ _ _ _ _ _ _ until dst Ht Hdr) as (w2 & x2 & E2 & Hi2 & Ec2 & Hm2 & Ha2 & Hw2).
    exists w2, x2, st1. split; [|by split_and!].
    intros fuel. by rewrite (poll_loop_data fuel w q until dst p w1 m Hroom E1 Emn).
Qed.
End QueueSpec.
