(* ===== verification/RegistrationSpec.v ===== *)
(** * Registrations: the effect of a handle on the queue

    Each operation of a handle as an update of the word of its node, followed
    by the insertion of the node in the queue when the update set its queued
    flag. *)
From S2P Require Import Prelude EventSet ReadinessState Awakener Duration Selector.
From S2P Require Import ReadinessQueue Registration QueueInv QueueSpec.

Section RegistrationSpec.
Context {J : Type} (null_job : J) {P : Type} {PO : PipeOps P}.
#[local] Abbreviation Node := (ReadinessNode (J:=J)).
#[local] Abbreviation W := (World (J:=J) (P:=P)).
#[local] Abbreviation Q := (ReadinessQueueInner (P:=P)).
Implicit Types (w : W) (q : qid) (p : ptr) (l d : list ptr) (n : Node) (x : Q).
Implicit Types (C : gmap ptr Node) (refs : ptr → N).

Lemma inv_relinked w q x st d refs w' x' st' :
  inv w q x st d refs → queue_ok w' q x' st' d → relinked w w' q x x' → inv w' q x' st' d refs.
Proof.
  intros [_ H1 H2 H3 H4 H5 H6] Hq' [(Ea & Em & Es) Ec Ew].
  split; rewrite ?Em, ?Es, ?Ec; done.
Qed.

(** ** Waking the poller *)

(** The poller is asleep on an empty queue. *)
Definition asleep (st : stub) d : bool := bool_decide (st = SSleep ∧ d = []).
Lemma not_asleep st d : st ≠ SSleep → asleep st d = false.
Proof. intros Hst. apply bool_decide_eq_false_2. by intros []. Qed.

(** The awakener is written to exactly when [b]. *)
Definition woken (b : bool) (a : P) (r : io_result unit) (a' : P) : Prop :=
  if b then wakeup a = (r, a') else r = IoOk () ∧ a' = a.

Lemma enqueue_node_with_wakeup_ok w q x st d p :
  queue_ok w q x st d → p ∉ d → p ∉ markers x → is_Some (w_nodes w !! p) →
  ∃ r w' x', enqueue_node_with_wakeup q p w = Done (r, w') ∧
    queue_ok w' q x' st (d ++ [p]) ∧ contents w' = contents w ∧
    markers x' = markers x ∧ q_strong x' = q_strong x ∧
    w_queues w' = <[q := x']> (w_queues w) ∧
    woken (asleep st d) (q_awakener x) r (q_awakener x').
Proof.
  intros Hq Hd Hm Hp.
  destruct (enqueue_data w q x st d p Hq Hd Hm Hp) as (w1 & x1 & E & Hq1 & [(Ea & Em & Es) Ec Ew]).
  unfold enqueue_node_with_wakeup. step by exact E. fold (asleep st d).
  destruct (asleep st d); cbn [woken].
  - pose proof (lk_queue _ _ _ _ (qo_linked _ _ _ _ _ Hq1)) as Hx1.
    unfold queue_wakeup. step by by apply queue_at_Done.
    destruct (wakeup (q_awakener x1)) as [r a] eqn:Ew1. step by reflexivity.
    eexists r, _, (with_awakener a x1). split; [reflexivity|].
    split; [|cbn; rewrite <- Ea; split_and!; try done; by rewrite Ew, insert_insert_eq].
    destruct Hq1 as [[Hx Hc Ht Hh Hnd] Hmk Hl Hdt]. split; try done. split; try done.
    cbn. by rewrite lookup_insert_eq.
  - exists (IoOk ()), w1, x1. by split_and!.
Qed.

(** ** A compare-and-swap that may queue the node *)

Definition enqueued (s : ReadinessState) : ReadinessState :=
  mkRS (N.lor (rs_0 s) QUEUED_MASK).
(** Set the queued flag when the effective readiness is not empty. *)
Definition notified (s : ReadinessState) : ReadinessState :=
  if Ready.is_empty (RS.effective_readiness s) then s else enqueued s.

Lemma notified_spec s :
  wf_word s → RS.is_dropped s = false →
  (if negb (Ready.is_empty (RS.effective_readiness s)) then RS.set_queued s else Done s) =
    Done (notified s) ∧
  wf_word (notified s) ∧
  fields (notified s) =
    with_queued (RS.is_queued s || negb (Ready.is_empty (RS.effective_readiness s))) (fields s).
Proof.
  intros Hwf Hd. unfold notified. destruct (Ready.is_empty _); cbn [negb].
  - split; [done|]. split; [done|]. rewrite orb_false_r. by unfold with_queued, fields.
  - destruct (set_queued_fields s Hd) as (s' & E & Ef & E0).
    assert (s' = enqueued s) as -> by (unfold RS.set_queued in E; rewrite Hd in E; by injection E).
    rewrite orb_true_r. split; [done|]. split; [by eapply wf_set_queued|done].
Qed.

(** The word of a live node becomes [s] and the node joins the queue if the
    queued flag was not set before. *)
Definition joins n (s : ReadinessState) : bool := negb (queued n) && RS.is_queued s.

Lemma inv_joined w q x st d refs w' x' p n n' s :
  inv w q x st d refs → contents w !! p = Some n → p ∉ markers x → dropped n = false →
  wf_word s → RS.is_dropped s = false →
  RS.is_queued s = queued n || negb (Ready.is_empty (RS.effective_readiness s)) →
  (n_readiness_queue n = None → RS.interest s = Ready.empty) →
  n_readiness_queue n = None ∨ n_readiness_queue n = Some q →
  queue_ok w' q x' st (if joins n s then d ++ [p] else d) →
  markers x' = markers x → q_strong x' = q_strong x →
  contents w' = <[p := n']> (contents w) → n_state n' = s →
  n_readiness_queue n' = n_readiness_queue n → n_ref_count n' = n_ref_count n →
  n_update_lock n' = n_update_lock n →
  inv w' q x' st (if joins n s then d ++ [p] else d) refs.
Proof.
  intros Hi En Hm Hdr Hwf Hsd Hsq Hfree Hnq Hq' Em Es Ec' En1 En2 En3 En4.
  pose proof (iv_nodes _ _ _ _ _ _ Hi p n En Hm) as Hok.
  assert (n_readiness_queue n = None → joins n s = false ∧ RS.is_queued s = false) as Hnone.
  { intros E. destruct (no_free _ _ _ _ Hok E) as (_ & _ & _ & _ & Hqd).
    unfold joins. rewrite Hsq. unfold RS.effective_readiness. rewrite (Hfree E).
    assert (Ready.bitand (RS.readiness s) Ready.empty = Ready.empty) as ->
      by (apply Ready_ext; cbn; apply N.land_0_r).
    destruct (queued n) eqn:Eq; [by specialize (Hqd eq_refl); rewrite Hdr in Hqd|done]. }
  assert (∀ y, y ∈ (if joins n s then d ++ [p] else d) ↔ y ∈ d ∨ y = p ∧ joins n s = true) as Hin.
  { intros y. destruct (joins n s); set_solver. }
  eapply (inv_update w q x st d refs); try done.
  - intros y Hy. split; [|done]. rewrite Hin. naive_solver.
  - destruct Hok as [Hw Hl Hr Hf Ho]. split; rewrite ?En1, ?En2, ?En4; try done.
    + intros E. destruct (Hf E) as (Hh & ? & ? & ? & ?). destruct (Hnone E) as [Ej Esq].
      rewrite Ej. rewrite En3. unfold queued. rewrite En1, Esq. by split_and!; auto.
    + intros E. destruct (Ho E) as (Erc & Hpos & Hst). unfold dropped, queued in *.
      rewrite En1, En3, Hsd. rewrite Hdr in Erc, Hst. destruct Hst as [Hrp Hqh].
      split; [done|]. split; [done|]. split; [done|]. unfold joins, queued. rewrite Hqh.
      case_bool_decide as Hpd; cbn [negb andb].
      * rewrite bool_decide_eq_true_2 by done. by rewrite Hsq, Hqh.
      * destruct (RS.is_queued s); symmetry;
          [apply bool_decide_eq_true_2|apply bool_decide_eq_false_2]; set_solver.
  - intros [Hpd|[_ Hj]]%Hin.
    + destruct (iv_data _ _ _ _ _ _ Hi p Hpd) as (n1 & E1 & ?). by simplify_eq.
    + destruct Hnq as [E|]; [|done]. destruct (Hnone E). congruence.
Qed.

(** The node after a change of its fields, not of its link. *)
Lemma set_node_ok w q x st d p m n' :
  queue_ok w q x st d → w_nodes w !! p = Some m → n_next_readiness n' = n_next_readiness m →
  let w' := mkWorld (<[p := n']> (w_nodes w)) (w_queues w) in
  set_node p n' w = Done (tt, w') ∧ queue_ok w' q x st d ∧
  contents w' = <[p := strip n']> (contents w) ∧ w_nodes w' !! p = Some n'.
Proof.
  intros Hq Em En w'. split; [done|]. split; [by eapply queue_ok_set|].
  split; [apply contents_set|]. cbn. apply lookup_insert_eq.
Qed.

(** The last step of an operation: the node joins the queue if it must. *)
Lemma join_step w q x st d p (b : bool) :
  queue_ok w q x st d → (b = true → p ∉ d) → p ∉ markers x → is_Some (w_nodes w !! p) →
  ∃ r w' x', (if b then enqueue_node_with_wakeup q p else mret (IoOk ())) w = Done (r, w') ∧
    queue_ok w' q x' st (if b then d ++ [p] else d) ∧ contents w' = contents w ∧
    markers x' = markers x ∧ q_strong x' = q_strong x ∧
    w_queues w' = <[q := x']> (w_queues w) ∧
    woken (b && asleep st d) (q_awakener x) r (q_awakener x').
Proof.
  intros Hq Hd Hm Hp. destruct b.
  - destruct (enqueue_node_with_wakeup_ok w q x st d p Hq (Hd eq_refl) Hm Hp)
      as (r & w' & x' & E & ?). eauto.
  - exists (IoOk ()), w, x. split; [done|]. split; [done|]. split_and!; try done.
    symmetry. apply insert_id. apply (lk_queue _ _ _ _ (qo_linked _ _ _ _ _ Hq)).
Qed.

Lemma joins_not_in w q x st d refs p n s :
  inv w q x st d refs → contents w !! p = Some n → p ∉ markers x → dropped n = false →
  joins n s = true → p ∉ d.
Proof.
  intros Hi En Hm Hdr Hj Hd.
  destruct (iv_data _ _ _ _ _ _ Hi p Hd) as (n1 & E1 & Eq). simplify_eq.
  pose proof (iv_nodes _ _ _ _ _ _ Hi p n En Hm) as Hok.
  destruct (no_owned _ _ _ _ Hok Eq) as (_ & _ & Hst). rewrite Hdr in Hst.
  destruct Hst as [_ Hqd]. rewrite bool_decide_eq_true_2 in Hqd by done.
  unfold joins in Hj. by rewrite Hqd in Hj.
Qed.

(** ** [set_readiness] *)

Lemma effective_readiness_land s :
  Ready.is_empty (RS.effective_readiness s) = (N.land (f_readiness (fields s)) (f_interest (fields s)) =? 0).
Proof.
  destruct (Ready.is_empty _) eqn:E; symmetry.
  - apply is_empty_true in E. by apply N.eqb_eq.
  - apply is_empty_false in E. by apply N.eqb_neq.
Qed.

Lemma effective_fields s s' :
  f_readiness (fields s') = f_readiness (fields s) → f_interest (fields s') = f_interest (fields s) →
  Ready.is_empty (RS.effective_readiness s') = Ready.is_empty (RS.effective_readiness s).
Proof. intros E1 E2. by rewrite !effective_readiness_land, E1, E2. Qed.

(** The word [set_readiness] stores. *)
Definition readied (s : ReadinessState) (r : Ready) : ReadinessState :=
  notified (RS.set_readiness s r).

Lemma readied_spec s r :
  wf_word s → ready_0 r < 2 ^ 4 → RS.is_dropped s = false →
  wf_word (readied s r) ∧
  fields (readied s r) = with_queued (RS.is_queued s || negb (Ready.is_empty (RS.effective_readiness (readied s r))))
    (with_readiness (ready_0 r) (fields s)).
Proof.
  intros Hwf Hr Hd. unfold readied. set (s1 := RS.set_readiness s r).
  assert (wf_word s1) as Hwf1 by by apply wf_set_readiness.
  assert (fields s1 = with_readiness (ready_0 r) (fields s)) as Ef1
    by (apply set_readiness_fields; [auto with sickle|done]).
  assert (RS.is_dropped s1 = false) as Hd1 by (apply (f_equal f_dropped) in Ef1; cbn in Ef1; congruence).
  assert (RS.is_queued s1 = RS.is_queued s) as Eq1 by (by apply (f_equal f_queued) in Ef1).
  destruct (notified_spec s1 Hwf1 Hd1) as (_ & Hwf2 & Ef2). split; [done|].
  rewrite (effective_fields s1) by (by rewrite Ef2). by rewrite Ef2, Eq1, Ef1.
Qed.

Lemma set_readiness_loop_ok w p m r :
  w_nodes w !! p = Some m → RS.is_dropped (n_state m) = false →
  wf_word (n_state m) → ready_0 r < 2 ^ 4 →
  set_readiness_loop 2 p r (n_state m) w =
    Done (Some (n_state m, readied (n_state m) r),
          mkWorld (<[p := with_state (readied (n_state m) r) m]> (w_nodes w)) (w_queues w)).
Proof.
  intros Em Hd Hwf Hr. cbn [set_readiness_loop]. rewrite Hd.
  set (s1 := RS.set_readiness (n_state m) r).
  assert (fields s1 = with_readiness (ready_0 r) (fields (n_state m))) as Ef1
    by (apply set_readiness_fields; [auto with sickle|done]).
  assert (RS.is_dropped s1 = false) as Hd1 by (apply (f_equal f_dropped) in Ef1; cbn in Ef1; congruence).
  destruct (notified_spec s1) as (En & _); [by apply wf_set_readiness|done|].
  step by (unfold lift; rewrite En). step by by apply cas_state_ok.
  by rewrite bool_decide_eq_true_2.
Qed.

Lemma set_readiness_ok w q x st d refs p n r :
  inv w q x st d refs → contents w !! p = Some n → p ∉ markers x → dropped n = false →
  n_readiness_queue n = None ∨ n_readiness_queue n = Some q → ready_0 r < 2 ^ 4 →
  let s := readied (n_state n) r in
  ∃ res w' x', set_readiness p r w = Done (res, w') ∧
    inv w' q x' st (if joins n s then d ++ [p] else d) refs ∧
    contents w' = <[p := with_state s n]> (contents w) ∧
    markers x' = markers x ∧ w_queues w' = <[q := x']> (w_queues w) ∧
    woken (joins n s && asleep st d) (q_awakener x) res (q_awakener x').
Proof.
  intros Hi En Hm Hdr Hnq Hr s. pose proof (iv_queue _ _ _ _ _ _ Hi) as Hq.
  pose proof (iv_nodes _ _ _ _ _ _ Hi p n En Hm) as Hok. pose proof (no_word _ _ _ _ Hok) as Hwf.
  destruct (contents_node _ _ _ En) as (m & Em & Est).
  assert (n_state m = n_state n) as Ems by (by rewrite <- Est).
  destruct (readied_spec (n_state n) r Hwf Hr Hdr) as [Hwfs Efs]. fold s in Hwfs, Efs.
  set (w1 := mkWorld (<[p := with_state s m]> (w_nodes w)) (w_queues w)).
  destruct (set_node_ok w q x st d p m (with_state s m) Hq Em eq_refl) as (_ & Hq1 & Ec1 & Em1).
  fold w1 in Hq1, Ec1, Em1.
  assert (strip (with_state s m) = with_state s n) as Esn by (exact (f_equal (with_state s) Est)).
  rewrite Esn in Ec1.
  destruct (join_step w1 q x st d p (joins n s) Hq1) as (res & w2 & x2 & E2 & Hq2 & Ec2 & Em2 & Es2 & Ew2 & Hw2);
    [by intros Hj; eapply joins_not_in|done|eauto|].
  assert (RS.is_queued s = queued n || negb (Ready.is_empty (RS.effective_readiness s))) as Eqs
    by (by apply (f_equal f_queued) in Efs).
  assert (RS.is_dropped s = false) as Eds by (apply (f_equal f_dropped) in Efs; cbn in Efs; unfold dropped in Hdr; congruence).
  assert (n_readiness_queue n = None → RS.interest s = Ready.empty) as Hfree.
  { intros E. destruct (no_free _ _ _ _ Hok E) as (_ & _ & _ & Ein & _).
    apply (f_equal f_interest) in Efs. cbn in Efs. apply Ready_ext.
    rewrite <- Ein. exact Efs. }
  assert (inv w2 q x2 st (if joins n s then d ++ [p] else d) refs) as Hi2.
  { eapply (inv_joined w q x st d refs w2 x2 p n (with_state s n) s); try done; congruence. }
  exists res, w2, x2. split; [|split; [done|split; [congruence|]]].
  - unfold set_readiness, load_state. erewrite stm_step.
    2:{ step by by apply node_at_Done. reflexivity. }
    unfold AtomicState.load.
    step by (apply set_readiness_loop_ok; [done|by rewrite Ems..|done]).
    rewrite Ems. fold s w1. unfold joins, queued in E2.
    destruct (negb (RS.is_queued (n_state n)) && RS.is_queued s) eqn:Ej; [|done].
    assert (n_readiness_queue m = Some q) as Emq.
    { destruct Hnq as [E|E]; [|by rewrite <- E, <- Est]. exfalso.
      specialize (Hfree E). destruct (no_free _ _ _ _ Hok E) as (_ & _ & _ & _ & Hqd).
      unfold queued in *. destruct (RS.is_queued (n_state n)) eqn:Eq0; [done|].
      cbn in Ej. rewrite Ej in Eqs. cbn in Eqs. symmetry in Eqs. apply negb_true_iff in Eqs.
      rewrite effective_readiness_land in Eqs. cbn [fields f_interest] in Eqs. rewrite Hfree in Eqs.
      by rewrite N.land_0_r in Eqs. }
    unfold enqueue_with_wakeup. step by by apply node_at_Done. cbn. by rewrite Emq.
  - split; [done|]. split; [|done]. by rewrite Ew2.
Qed.

(** ** Association with a queue *)

Definition associated q n : Node :=
  with_ref (n_ref_count n + 1) (with_queue (Some q) n).

(** The queue takes a reference on the node, the node one on the queue. *)
Lemma inv_associated w q x st d refs p n w' x' :
  inv w q x st d refs → contents w !! p = Some n → p ∉ markers x → dropped n = false →
  n_readiness_queue n = None → queue_ok w' q x' st d →
  markers x' = markers x → q_strong x' = q_strong x + 1 → q_strong x + 1 < 2 ^ 64 →
  contents w' = <[p := associated q n]> (contents w) →
  inv w' q x' st d refs.
Proof.
  intros [Hq Hmk Hn Hd Hh Hs Hb] En Hm Hdr Enq Hq' Em Es Hov Ec.
  pose proof (Hn p n En Hm) as Hok. destruct Hok as [Hw Hl Hr Hf Ho].
  destruct (Hf Enq) as (Hhere & Hpos & Erc & _ & Hqd).
  split; rewrite ?Em, ?Es, ?Ec; try done.
  - intros y ny. destruct (decide (y = p)) as [->|Hne]; [done|].
    rewrite lookup_insert_ne by done. apply Hmk.
  - intros y ny. destruct (decide (y = p)) as [->|Hne].
    + rewrite lookup_insert_eq. intros [= <-] _. split; try done.
      intros _. unfold dropped, queued in *.
      cbn [associated with_ref with_queue n_state n_ref_count]. rewrite Hdr. cbn [andb].
      split; [lia|]. split; [lia|]. split; [done|]. rewrite Hhere. destruct (RS.is_queued (n_state n)); [|done].
      by specialize (Hqd eq_refl); rewrite Hdr in Hqd.
    + rewrite lookup_insert_ne by done. apply Hn.
  - intros y Hy. destruct (Hd y Hy) as (ny & Ey & Eq). destruct (decide (y = p)) as [->|Hne].
    + rewrite lookup_insert_eq. by eexists.
    + rewrite lookup_insert_ne by done. eauto.
  - intros y Hy. destruct (Hh y Hy) as [? Hl']. split; [done|].
    destruct (decide (y = p)) as [->|Hne]; [rewrite lookup_insert_eq; eauto|].
    by rewrite lookup_insert_ne by done.
  - rewrite Hs. rewrite (size_held_delete q _ p n En).
    rewrite (size_held_delete q (<[p := associated q n]> _) p (associated q n)) by apply lookup_insert_eq.
    rewrite delete_insert_eq. rewrite decide_False by (rewrite Enq; done).
    rewrite decide_True by done. lia.
Qed.

Lemma associate_ok w q x st d refs p n :
  inv w q x st d refs → contents w !! p = Some n → p ∉ markers x → dropped n = false →
  (n_readiness_queue n = None → q_strong x + 1 < 2 ^ 64) →
  match n_readiness_queue n with
  | Some q' => associate p q w = Done (if q' =? q then IoOk () else IoErr (OtherError 0), w)
  | None => ∃ w' x', associate p q w = Done (IoOk (), w') ∧ inv w' q x' st d refs ∧
      contents w' = <[p := associated q n]> (contents w) ∧ markers x' = markers x ∧
      q_awakener x' = q_awakener x ∧ w_queues w' = <[q := x']> (w_queues w)
  end.
Proof.
  intros Hi En Hm Hdr Hov. pose proof (iv_queue _ _ _ _ _ _ Hi) as Hq.
  destruct (contents_node _ _ _ En) as (m & Em & Est).
  pose proof (iv_nodes _ _ _ _ _ _ Hi p n En Hm) as Hok.
  assert (n_readiness_queue m = n_readiness_queue n) as Emq by (by rewrite <- Est).
  unfold associate. destruct (n_readiness_queue n) as [q'|] eqn:Enq.
  - step by by apply node_at_Done. by rewrite Emq.
  - destruct (no_free _ _ _ _ Hok Enq) as (_ & _ & Erc & _).
    pose proof (no_refs _ _ _ _ Hok) as Hrl.
    assert (n_ref_count m = n_ref_count n) as Emr by (by rewrite <- Est).
    set (m' := with_ref (n_ref_count m + 1) (with_queue (Some q) m)).
    destruct (set_node_ok w q x st d p m m' Hq Em eq_refl) as (_ & Hq1 & Ec1 & _).
    pose proof (lk_queue _ _ _ _ (qo_linked _ _ _ _ _ Hq)) as Hx.
    pose proof (queue_ok_strong _ q x st d (q_strong x + 1) Hq1) as Hq2.
    eexists _, (with_strong (q_strong x + 1) x). split.
    + step by by apply node_at_Done. rewrite Emq. step by by apply node_at_Done. rewrite Emq.
      step by reflexivity. step by (apply node_at_Done; cbn; apply lookup_insert_eq).
      step by reflexivity. cbn [w_nodes w_queues]. rewrite insert_insert_eq.
      rewrite fetch_add1_small by (cbn; rewrite Emr, Erc; lia).
      unfold arc_clone. erewrite stm_step.
      2:{ step by (apply queue_at_Done; exact Hx). rewrite fetch_add1_small by (specialize (Hov eq_refl); lia). reflexivity. }
      reflexivity.
    + assert (contents (mkWorld (<[p:=m']> (w_nodes w)) (<[q:=with_strong (q_strong x + 1) x]> (w_queues w)))
        = <[p := associated q n]> (contents w)) as Ec.
      { rewrite contents_set. f_equal. unfold associated. rewrite <- Emr.
        exact (f_equal (λ z, with_ref (n_ref_count m + 1) (with_queue (Some q) z)) Est). }
      split; [|by split_and!].
      eapply (inv_associated w q x st d refs p n); try done. specialize (Hov eq_refl). lia.
Qed.

(** ** [update] *)

(** The word [update] stores. *)
Definition updated (s : ReadinessState) (pos : N) (interest : Ready) (opt : PollOpt) : ReadinessState :=
  notified (RS.set_poll_opt (RS.set_interest (RS.set_token_write_pos s pos) interest) opt).

Lemma updated_spec s pos interest opt :
  wf_word s → RS.is_dropped s = false → pos <= 2 → ready_0 interest < 2 ^ 4 → opt_0 opt < 2 ^ 4 →
  let s1 := RS.set_poll_opt (RS.set_interest (RS.set_token_write_pos s pos) interest) opt in
  let s' := updated s pos interest opt in
  (if negb (Ready.is_empty (RS.effective_readiness s1)) then RS.set_queued s1 else Done s1) = Done s' ∧
  wf_word s' ∧
  fields s' = with_queued (RS.is_queued s || negb (Ready.is_empty (RS.effective_readiness s')))
    (with_opt (opt_0 opt) (with_interest (ready_0 interest) (with_wr pos (fields s)))).
Proof.
  intros Hwf Hd Hp Hi Ho s1 s'. assert (pos < 2 ^ 2) by (change (2 ^ 2) with 4; lia).
  assert (wf_word (RS.set_token_write_pos s pos)) as Hwf0 by by apply wf_set_token_write_pos.
  assert (wf_word (RS.set_interest (RS.set_token_write_pos s pos) interest)) as Hwf1
    by by apply wf_set_interest.
  assert (wf_word s1) as Hwf2 by by apply wf_set_poll_opt.
  assert (fields s1 = with_opt (opt_0 opt) (with_interest (ready_0 interest) (with_wr pos (fields s)))) as Ef.
  { unfold s1. rewrite set_poll_opt_fields, set_interest_fields, set_token_write_pos_fields; auto with sickle. }
  assert (RS.is_dropped s1 = false) as Hd1 by (apply (f_equal f_dropped) in Ef; cbn in Ef; congruence).
  assert (RS.is_queued s1 = RS.is_queued s) as Eq1 by (by apply (f_equal f_queued) in Ef).
  destruct (notified_spec s1 Hwf2 Hd1) as (En & Hwf3 & Ef3).
  change (notified s1) with s' in Ef3.
  split; [exact En|]. split; [exact Hwf3|].
  rewrite (effective_fields s1 s') by (by rewrite Ef3). by rewrite Ef3, Eq1, Ef.
Qed.

Record same_but_tokens (m m' : Node) : Prop := {
  sbt_state : n_state m' = n_state m;
  sbt_next : n_next_readiness m' = n_next_readiness m;
  sbt_lock : n_update_lock m' = n_update_lock m;
  sbt_queue : n_readiness_queue m' = n_readiness_queue m;
  sbt_ref : n_ref_count m' = n_ref_count m;
  sbt_job : n_job m' = n_job m;
}.

Lemma with_token_ok pos tok m :
  pos <= 2 → ∃ m', with_token pos tok m = Done m' ∧ same_but_tokens m m' ∧
    node_token m' pos = Done tok ∧ ∀ pos', pos' ≠ pos → node_token m' pos' = node_token m pos'.
Proof.
  intros H. assert (pos = 0 ∨ pos = 1 ∨ pos = 2) as [->|[->| ->]] by lia;
    (eexists; split; [reflexivity|]; split; [by destruct m|]; split; [done|]);
    intros pos' Hne; destruct pos' as [|[| [] |]]; done.
Qed.

(** The new token goes to a slot that neither a poller reads nor the last
    update wrote, unless it is the token written last. *)
Lemma token_step {A} w p m tok (k : N → stm W A) :
  w_nodes w !! p = Some m → wf_word (n_state m) →
  ∃ pos m', pos <= 2 ∧ same_but_tokens m m' ∧ node_token m' pos = Done tok ∧
    node_token m' (RS.token_read_pos (n_state m)) = node_token m (RS.token_read_pos (n_state m)) ∧
    (node_at p ≫= λ n,
     lift (node_token n (RS.token_write_pos (n_state m))) ≫= λ curr_token,
     (if bool_decide (tok ≠ curr_token) then
        lift (RS.next_token_pos (n_state m)) ≫= λ next_token_pos,
        node_at p ≫= λ n,
        lift (with_token next_token_pos tok n) ≫= λ n,
        set_node p n ≫= λ _, mret next_token_pos
      else mret (RS.token_write_pos (n_state m))) ≫= k) w =
    k pos (mkWorld (<[p := m']> (w_nodes w)) (w_queues w)).
Proof.
  intros Em Hwf. destruct (node_token_ok m (RS.token_write_pos (n_state m))) as [curr Ec];
    [apply (wf_word_wr _ Hwf)|].
  destruct (decide (tok = curr)) as [->|Hne].
  - exists (RS.token_write_pos (n_state m)), m. split; [apply (wf_word_wr _ Hwf)|].
    split_and!; try done. step by by apply node_at_Done. step by (unfold lift; rewrite Ec).
    rewrite bool_decide_eq_false_2 by naive_solver. step by reflexivity.
    rewrite insert_id by done. by destruct w.
  - destruct (next_token_pos_fresh _ Hwf) as (pos & Ep & Hp & Hrd & Hwr).
    destruct (with_token_ok pos tok m Hp) as (m' & Et & Hs & Hnew & Hold).
    exists pos, m'. split_and!; try done; [by apply Hold|].
    step by by apply node_at_Done. step by (unfold lift; rewrite Ec).
    rewrite bool_decide_eq_true_2 by done. erewrite stm_step.
    2:{ step by (unfold lift; rewrite Ep). step by by apply node_at_Done.
        step by (unfold lift; rewrite Et). reflexivity. }
    done.
Qed.

Lemma update_loop_ok w p m pos interest opt cur :
  w_nodes w !! p = Some m → wf_word (n_state m) → RS.is_dropped (n_state m) = false → pos <= 2 →
  ready_0 interest < 2 ^ 4 → opt_0 opt < 2 ^ 4 →
  update_loop 2 p cur pos interest opt (n_state m) w =
    Done ((n_state m, updated (n_state m) pos interest opt),
      mkWorld (<[p := with_state (updated (n_state m) pos interest opt) m]> (w_nodes w)) (w_queues w)).
Proof.
  intros Em Hwf Hd Hp Hi Ho.
  destruct (updated_spec _ _ _ _ Hwf Hd Hp Hi Ho) as (En & _).
  cbn [update_loop]. step by (apply massert_true; by rewrite Hd).
  step by (unfold lift; rewrite En). step by by apply cas_state_ok.
  by rewrite bool_decide_eq_true_2.
Qed.

(** The node after an update: the new registration, with the token a poller
    is reading left in place. *)
Record update_node n tok interest opt job n' : Prop := {
  un_readiness : RS.readiness (n_state n') = RS.readiness (n_state n);
  un_interest : RS.interest (n_state n') = interest;
  un_opt : RS.poll_opt (n_state n') = opt;
  un_token : node_token n' (RS.token_write_pos (n_state n')) = Done tok;
  un_reading : RS.token_read_pos (n_state n') = RS.token_read_pos (n_state n) ∧
    node_token n' (RS.token_read_pos (n_state n')) = node_token n (RS.token_read_pos (n_state n));
  un_queued : queued n' = queued n || negb (Ready.is_empty (RS.effective_readiness (n_state n')));
  un_job : n_job n' = if joins n (n_state n') then job else n_job n;
  un_dropped : dropped n' = dropped n;
}.

Lemma lock_of_ok w q x st d refs p n :
  inv w q x st d refs → contents w !! p = Some n → p ∉ markers x → n_update_lock n = false.
Proof. intros Hi En Hm. apply (no_lock _ _ _ _ (iv_nodes _ _ _ _ _ _ Hi p n En Hm)). Qed.

(** What [update] writes while it holds the lock. *)
Lemma publish_step {A} w p m tok interest opt (k : ReadinessState → ReadinessState → stm W A) :
  w_nodes w !! p = Some m → wf_word (n_state m) → RS.is_dropped (n_state m) = false →
  ready_0 interest < 2 ^ 4 → opt_0 opt < 2 ^ 4 →
  ∃ pos m', let s' := updated (n_state m) pos interest opt in
    pos <= 2 ∧ n_state m' = s' ∧ node_token m' pos = Done tok ∧
    node_token m' (RS.token_read_pos (n_state m)) = node_token m (RS.token_read_pos (n_state m)) ∧
    n_next_readiness m' = n_next_readiness m ∧ n_readiness_queue m' = n_readiness_queue m ∧
    n_ref_count m' = n_ref_count m ∧ n_job m' = n_job m ∧ n_update_lock m' = false ∧
    (set_node p (with_lock true m) ≫= λ _,
     load_state p ≫= λ state,
     let curr_token_pos := RS.token_write_pos state in
     node_at p ≫= λ n,
     lift (node_token n curr_token_pos) ≫= λ curr_token,
     (if bool_decide (tok ≠ curr_token) then
        lift (RS.next_token_pos state) ≫= λ next_token_pos,
        node_at p ≫= λ n,
        lift (with_token next_token_pos tok n) ≫= λ n,
        set_node p n ≫= λ _, mret next_token_pos
      else mret curr_token_pos) ≫= λ next_token_pos,
     update_loop 2 p curr_token_pos next_token_pos interest opt state ≫= λ '(state, next),
     node_at p ≫= λ n,
     set_node p (with_lock false n) ≫= λ _, k state next) w =
    k (n_state m) s' (mkWorld (<[p := m']> (w_nodes w)) (w_queues w)).
Proof.
  intros Em Hwf Hd Hint Hopt. set (m1 := with_lock true m). set (w1 := mkWorld (<[p := m1]> (w_nodes w)) (w_queues w)).
  assert (w_nodes w1 !! p = Some m1) as Em1 by (cbn; apply lookup_insert_eq).
  set (k1 := λ next_token_pos, update_loop 2 p (RS.token_write_pos (n_state m)) next_token_pos interest opt (n_state m)
    ≫= λ '(state, next), node_at p ≫= λ n, set_node p (with_lock false n) ≫= λ _, k state next).
  destruct (token_step w1 p m1 tok k1 Em1 Hwf) as (pos & m2 & Hpos & [Es2 En2 El2 Eq2 Er2 Ej2] & Htok & Hrd & E1).
  set (w2 := mkWorld (<[p := m2]> (w_nodes w1)) (w_queues w1)) in *.
  set (s' := updated (n_state m) pos interest opt).
  assert (w_nodes w2 !! p = Some m2) as Em2 by (cbn; apply lookup_insert_eq).
  pose proof (update_loop_ok w2 p m2 pos interest opt (RS.token_write_pos (n_state m)) Em2) as El.
  rewrite Es2 in El. specialize (El Hwf Hd Hpos Hint Hopt). cbn [m1 with_lock n_state] in El. fold s' in El.
  exists pos, (with_lock false (with_state s' m2)). cbv zeta. split; [done|]. split; [done|]. split; [exact Htok|].
  split; [exact Hrd|]. split_and!; try done.
  step by reflexivity. erewrite stm_step.
  2:{ unfold load_state. step by by apply node_at_Done. reflexivity. }
  change (AtomicState.load (n_state m1)) with (n_state m). refine (eq_trans E1 _). unfold k1.
  rewrite (stm_step _ _ _ _ _ El). erewrite stm_step by (apply node_at_Done; cbn; apply lookup_insert_eq).
  step by reflexivity. cbn. by rewrite !insert_insert_eq.
Qed.

(** What [update] does when it has released the lock: the job, and the queue. *)
Lemma join_job_step w q x st d p m (b : bool) job :
  queue_ok w q x st d → w_nodes w !! p = Some m → (b = true → p ∉ d) → p ∉ markers x →
  ∃ r w' x', (if b then
      node_at p ≫= λ n,
      set_node p (with_job job n) ≫= λ _,
      enqueue_node_with_wakeup q p
    else mret (IoOk ())) w = Done (r, w') ∧
    queue_ok w' q x' st (if b then d ++ [p] else d) ∧
    contents w' = <[p := strip (if b then with_job job m else m)]> (contents w) ∧
    markers x' = markers x ∧ q_strong x' = q_strong x ∧ w_queues w' = <[q := x']> (w_queues w) ∧
    woken (b && asleep st d) (q_awakener x) r (q_awakener x').
Proof.
  intros Hq Em Hd Hm. set (m' := if b then with_job job m else m).
  destruct (set_node_ok w q x st d p m m' Hq Em) as (E & Hq1 & Ec1 & Em1); [by unfold m'; destruct b|].
  set (w1 := mkWorld (<[p := m']> (w_nodes w)) (w_queues w)) in *.
  destruct (join_step w1 q x st d p b Hq1) as (r & w' & x' & E' & Hq' & Ec' & H); [done|done|eauto|].
  exists r, w', x'. rewrite Ec' , Ec1. split; [|by split].
  destruct b.
  - step by by apply node_at_Done. step by exact E. exact E'.
  - unfold w1, m' in E'. rewrite insert_id in E' by exact Em. by destruct w.
Qed.

(** The node that was written, with its job. *)
Lemma written_node n m' tok interest opt job pos :
  wf_word (n_state n) → dropped n = false → pos <= 2 → ready_0 interest < 2 ^ 4 → opt_0 opt < 2 ^ 4 →
  n_state m' = updated (n_state n) pos interest opt → node_token m' pos = Done tok →
  node_token m' (RS.token_read_pos (n_state n)) = node_token n (RS.token_read_pos (n_state n)) →
  n_job m' = (if joins n (n_state m') then job else n_job n) → update_node n tok interest opt job m'.
Proof.
  intros Hwf Hd Hpos Hint Hopt Es Htok Hrd Hj.
  destruct (updated_spec (n_state n) pos interest opt Hwf Hd Hpos Hint Hopt) as (_ & _ & Ef). rewrite <- Es in Ef.
  split; [..|done|].
  - apply Ready_ext. exact (f_equal f_readiness Ef).
  - apply Ready_ext. exact (f_equal f_interest Ef).
  - apply (f_equal f_opt) in Ef. destruct opt as [o]. exact (f_equal mkPollOpt Ef).
  - apply (f_equal f_wr) in Ef. cbn in Ef. by rewrite Ef.
  - apply (f_equal f_rd) in Ef. cbn in Ef. by rewrite Ef.
  - exact (f_equal f_queued Ef).
  - exact (f_equal f_dropped Ef).
Qed.

Lemma update_core w q x st d refs p n tok interest opt job :
  inv w q x st d refs → contents w !! p = Some n → p ∉ markers x → dropped n = false →
  n_readiness_queue n = Some q → ready_0 interest < 2 ^ 4 → opt_0 opt < 2 ^ 4 →
  associate p q w = Done (IoOk (), w) →
  ∃ n' res w' x', update p q tok interest opt job w = Done (res, w') ∧
    update_node n tok interest opt job n' ∧
    n_readiness_queue n' = n_readiness_queue n ∧ n_ref_count n' = n_ref_count n ∧
    contents w' = <[p := n']> (contents w) ∧
    inv w' q x' st (if joins n (n_state n') then d ++ [p] else d) refs ∧
    markers x' = markers x ∧ w_queues w' = <[q := x']> (w_queues w) ∧
    woken (joins n (n_state n') && asleep st d) (q_awakener x) res (q_awakener x').
Proof.
  intros Hi En Hm Hdr Hnq Hint Hopt Ea. pose proof (iv_queue _ _ _ _ _ _ Hi) as Hq.
  pose proof (iv_nodes _ _ _ _ _ _ Hi p n En Hm) as Hok.
  pose proof (no_word _ _ _ _ Hok) as Hwf. pose proof (no_lock _ _ _ _ Hok) as Hlk.
  destruct (contents_node _ _ _ En) as (m & Em & Est).
  assert (n_state m = n_state n) as Ems by (by rewrite <- Est).
  destruct (publish_step w p m tok interest opt (λ state next,
      if negb (RS.is_queued state) && RS.is_queued next then
        node_at p ≫= λ n, set_node p (with_job job n) ≫= λ _, enqueue_node_with_wakeup q p
      else mret (IoOk ())) Em) as (pos & m4 & Hpos & Es4 & Htok & Hrd & En4 & Eq4 & Er4 & Ej4 & El4 & E1);
    [by rewrite Ems|by rewrite Ems|done|done|].
  set (s' := updated (n_state m) pos interest opt) in *.
  destruct (set_node_ok w q x st d p m m4 Hq Em En4) as (_ & Hq4 & Ec4 & Em4).
  destruct (updated_spec (n_state m) pos interest opt) as (_ & Hwf' & Ef); [by rewrite Ems|by rewrite Ems|done..|].
  fold s' in Hwf', Ef.
  assert (joins n s' = negb (RS.is_queued (n_state m)) && RS.is_queued s') as Ejn
    by (unfold joins, queued; by rewrite Ems).
  destruct (join_job_step _ q x st d p m4 (joins n s') job Hq4 Em4)
    as (res & w6 & x6 & E6 & Hq6 & Ec6 & Emk6 & Est6 & Ew6 & Hw6);
    [by intros Hj; eapply joins_not_in|done|].
  set (m5 := strip (if joins n s' then with_job job m4 else m4)) in *. rewrite Ec4, insert_insert_eq in Ec6.
  assert (n_state m5 = s') as F1 by (rewrite <- Es4; unfold m5; by destruct (joins n s')).
  assert (n_readiness_queue m5 = n_readiness_queue n ∧ n_ref_count m5 = n_ref_count n ∧ n_update_lock m5 = n_update_lock n)
    as (F2 & F3 & F4).
  { unfold m5. rewrite Hlk, <- Est. destruct (joins (strip m) s'); cbn; by rewrite ?Eq4, ?Er4. }
  exists m5, res, w6, x6. rewrite F1. split_and!; try done.
  - unfold update. step by exact Ea. step by by apply node_at_Done.
    assert (n_update_lock m = false) as -> by (by rewrite <- Hlk, <- Est).
    refine (eq_trans E1 _). by rewrite <- Ejn.
  - apply (written_node n m5 tok interest opt job pos); rewrite ?F1, <- ?Ems; try done.
    + by rewrite Ems.
    + unfold m5. by destruct (joins n s').
    + assert (∀ k, node_token m5 k = node_token m4 k) as -> by (intros k; unfold m5; by destruct (joins n s')).
      rewrite Hrd, <- Est. by destruct m.
    + unfold m5. destruct (joins n s'); [done|]. cbn. by rewrite Ej4, <- Est.
  - eapply (inv_joined w q x st d refs w6 x6 p n m5 s'); try done.
    + by apply (f_equal f_dropped) in Ef; cbn in Ef; rewrite Ef, Ems.
    + by apply (f_equal f_queued) in Ef; cbn in Ef; rewrite Ef, Ems.
    + by rewrite Hnq.
    + by right.
Qed.
End RegistrationSpec.
