(* ===== verification/HandleSpec.v ===== *)
(** * Handles: creation, cloning and dropping

    The reference counts of the nodes through the life of their handles. *)
From S2P Require Import Prelude EventSet ReadinessState Awakener Duration Selector.
From S2P Require Import ReadinessQueue Registration QueueInv QueueSpec RegistrationSpec.

Section HandleSpec.
Context {J : Type} (null_job : J) {P : Type} {PO : PipeOps P}.
#[local] Abbreviation Node := (ReadinessNode (J:=J)).
#[local] Abbreviation W := (World (J:=J) (P:=P)).
#[local] Abbreviation Q := (ReadinessQueueInner (P:=P)).
Implicit Types (w : W) (q : qid) (p : ptr) (l d : list ptr) (n : Node) (x : Q).
Implicit Types (C : gmap ptr Node) (refs : ptr → N).

Definition set_refs refs p (r : N) : ptr → N := λ y, if decide (y = p) then r else refs y.

Lemma set_refs_eq refs p r : set_refs refs p r p = r.
Proof. unfold set_refs. by rewrite decide_True. Qed.
Lemma set_refs_ne refs p r y : y ≠ p → set_refs refs p r y = refs y.
Proof. intros H. unfold set_refs. by rewrite decide_False. Qed.

(** ** Releasing a handle *)

Lemma release_handle_ok w q x st d refs p n :
  inv w q x st d refs → contents w !! p = Some n → p ∉ markers x → 0 < refs p →
  dropped n = true ∨ 1 < refs p →
  n_readiness_queue n = None ∨ n_readiness_queue n = Some q →
  ∃ w' x', release_node p w = Done (tt, w') ∧ inv w' q x' st d (set_refs refs p (refs p - 1)) ∧
    contents w' = released (contents w) p n ∧ markers x' = markers x ∧
    q_awakener x' = q_awakener x ∧ w_queues w' = <[q := x']> (w_queues w).
Proof.
  intros Hi En Hm Hr Hdr Hnq. pose proof (iv_queue _ _ _ _ _ _ Hi) as Hq.
  pose proof (iv_nodes _ _ _ _ _ _ Hi p n En Hm) as Hok.
  destruct (contents_node _ _ _ En) as (m & Em & Est).
  assert (n_ref_count m = n_ref_count n) as Emr by (by rewrite <- Est).
  assert (n_readiness_queue m = n_readiness_queue n) as Emq by (by rewrite <- Est).
  pose proof Hok as [Hw Hl Hrl Hf Ho].
  assert (n_ref_count n = refs p ∧ (p ∈ d → False) ∨
          n_readiness_queue n = Some q ∧ n_ref_count n = refs p + 1) as Hrc.
  { destruct Hnq as [E|E].
    - destruct (Hf E) as (Hh & _ & ? & _). left. split; [done|]. intros Hd.
      by rewrite bool_decide_eq_true_2 in Hh.
    - destruct (Ho E) as (Erc & _). destruct (dropped n && _) eqn:Eb; [left|right].
      + split; [lia|]. intros Hd. rewrite bool_decide_eq_true_2 in Eb by done.
        by rewrite andb_false_r in Eb.
      + split; [done|lia]. }
  assert (n_readiness_queue n = Some q → 1 < q_strong x) as Hst.
  { intros E. rewrite (iv_strong _ _ _ _ _ _ Hi), (size_held_delete q _ p n En).
    rewrite decide_True by done. lia. }
  destruct (release_node_ok w q x st d p m) as (w' & x' & E & Hq' & Ec & Emk & Ea & Ew & Es);
    [done|done|by rewrite Emq|rewrite Emr; lia|rewrite Emr; lia| |apply (iv_bound _ _ _ _ _ _ Hi)|].
  { rewrite Emr, Emq. intros E1. split_and!; [|done|done]. intros Hd.
    destruct Hrc as [[_ Hrc]|[Hrc ?]]; [by apply Hrc|lia]. }
  rewrite Emr, Emq in Es. rewrite Est in Ec.
  exists w', x'. split; [done|]. split; [|by split_and!].
  unfold released in Ec. destruct (n_ref_count n =? 1) eqn:E1; nbool; cbn [andb] in Es.
  - destruct Hrc as [[Hrc Hd]|[_ Hrc]]; [|lia].
    eapply (inv_free w q x st d refs); try done.
    + by rewrite Es; repeat case_decide; case_bool_decide.
    + intros y Hy. by rewrite set_refs_ne.
    + rewrite set_refs_eq. lia.
  - rewrite N.sub_0_r in Es. eapply (inv_update w q x st d refs); try done.
    + intros y Hy. by rewrite set_refs_ne.
    + rewrite set_refs_eq. split; try done; [lia| |].
      * intros Enq. destruct (Hf Enq) as (? & ? & ? & ? & ?). cbn.
        split; [done|]. split; [lia|]. split; [lia|done].
      * intros Enq. destruct (Ho Enq) as (Erc & Hpos & Hst'). unfold dropped, queued in *. cbn.
        split; [destruct (_ && _); lia|]. split; [lia|]. destruct (RS.is_dropped (n_state n)); [done|].
        split; [by destruct Hdr; [|lia]|by destruct Hst'].
    + intros Hd. by destruct (iv_data _ _ _ _ _ _ Hi p Hd) as (n1 & ? & ?); simplify_eq.
Qed.

(** ** Cloning *)

Lemma inner_clone_ok w q x st d refs p n :
  inv w q x st d refs → contents w !! p = Some n → p ∉ markers x → 0 < refs p →
  n_ref_count n <= MAX_REFCOUNT →
  n_readiness_queue n = None ∨ n_readiness_queue n = Some q →
  ∃ w', inner_clone p w = Done (p, w') ∧ inv w' q x st d (set_refs refs p (refs p + 1)) ∧
    contents w' = <[p := with_ref (n_ref_count n + 1) n]> (contents w) ∧ w_queues w' = w_queues w.
Proof.
  intros Hi En Hm Hr Hmax Hnq. pose proof (iv_queue _ _ _ _ _ _ Hi) as Hq.
  pose proof (iv_nodes _ _ _ _ _ _ Hi p n En Hm) as Hok.
  destruct (contents_node _ _ _ En) as (m & Em & Est).
  assert (n_ref_count m = n_ref_count n) as Emr by (by rewrite <- Est).
  assert (MAX_REFCOUNT = 2 ^ 63 - 1) as Emax by done.
  set (m' := with_ref (n_ref_count n + 1) m).
  destruct (set_node_ok w q x st d p m m' Hq Em eq_refl) as (E & Hq' & Ec & _).
  assert (strip m' = with_ref (n_ref_count n + 1) n) as Em'
    by exact (f_equal (with_ref (n_ref_count n + 1)) Est).
  rewrite Em' in Ec. eexists. split; [|split; [|split; [exact Ec|done]]].
  - unfold inner_clone. step by by apply node_at_Done.
    rewrite Emr, fetch_add1_small by lia. step by exact E.
    assert (N.land (n_ref_count n) (not64 MAX_REFCOUNT) = 0) as ->; [|done].
    apply N.bits_inj_iff. intros i. rewrite N.land_spec, not64_testbit, N.bits_0.
    change MAX_REFCOUNT with (N.ones 63). rewrite ones_testbit. change word_bits with 64.
    destruct (i <? 63) eqn:Ei; nbool.
    + by rewrite (proj2 (N.ltb_lt _ _)), xorb_nilpotent, andb_false_r by lia.
    + rewrite (small_testbit _ 63); [done| |done]. lia.
  - destruct Hok as [Hw Hl Hrl Hf Ho].
    assert (refs p <= n_ref_count n) as Hle.
    { destruct Hnq as [E1|E1]; [destruct (Hf E1) as (_ & _ & ? & _); lia|].
      destruct (Ho E1) as (? & _). lia. }
    eapply (inv_update w q x st d refs); try done.
    + intros y Hy. by rewrite set_refs_ne.
    + rewrite set_refs_eq. split; try done; [lia| |].
      * intros Enq. destruct (Hf Enq) as (? & ? & ? & ? & ?). cbn.
        split; [done|]. split; [lia|]. split; [lia|done].
      * intros Enq. destruct (Ho Enq) as (Erc & Hpos & Hst'). unfold dropped, queued in *. cbn.
        split; [destruct (_ && _); lia|]. split; [lia|]. destruct (RS.is_dropped (n_state n)); [done|].
        destruct Hst'. split; [lia|done].
    + intros Hd. by destruct (iv_data _ _ _ _ _ _ Hi p Hd) as (n1 & ? & ?); simplify_eq.
Qed.

(** ** Dropping a registration *)

Definition flagged (s : ReadinessState) : ReadinessState :=
  mkRS (N.lor (rs_0 s) (N.lor DROPPED_MASK QUEUED_MASK)).

Lemma flagged_spec s :
  wf_word s → RS.is_dropped s = false →
  AtomicState.flag_as_dropped s = Done (negb (RS.is_queued s), flagged s) ∧ wf_word (flagged s) ∧
  fields (flagged s) = with_dropped true (with_queued true (fields s)).
Proof.
  intros Hwf Hd. destruct (flag_as_dropped_fields s Hd) as (s' & E & Ef & E0).
  assert (s' = flagged s) as ->.
  { unfold AtomicState.flag_as_dropped in E. rewrite Hd in E. by injection E. }
  split; [done|]. split; [by eapply wf_flag_as_dropped|done].
Qed.

(** The queue a dropped node is put in, once more if it was not in it. *)
Definition drop_queue n d p : list ptr :=
  if negb (queued n) && bool_decide (is_Some (n_readiness_queue n)) then d ++ [p] else d.

Lemma inv_flagged w q x st d refs w' x' p n :
  inv w q x st d refs → contents w !! p = Some n → p ∉ markers x → dropped n = false →
  n_readiness_queue n = None ∨ n_readiness_queue n = Some q →
  queue_ok w' q x' st (drop_queue n d p) → markers x' = markers x → q_strong x' = q_strong x →
  contents w' = <[p := with_state (flagged (n_state n)) n]> (contents w) →
  inv w' q x' st (drop_queue n d p) refs.
Proof.
  intros Hi En Hm Hdr Hnq Hq' Emk Es Ec.
  pose proof (iv_nodes _ _ _ _ _ _ Hi p n En Hm) as Hok. pose proof Hok as [Hw Hl Hrl Hf Ho].
  destruct (flagged_spec (n_state n) Hw Hdr) as (_ & Hwf & Ef).
  assert (RS.is_dropped (flagged (n_state n)) = true ∧ RS.is_queued (flagged (n_state n)) = true ∧
    RS.interest (flagged (n_state n)) = RS.interest (n_state n)) as (F1 & F2 & F3).
  { split; [by apply (f_equal f_dropped) in Ef|]. split; [by apply (f_equal f_queued) in Ef|].
    apply Ready_ext. by apply (f_equal f_interest) in Ef. }
  assert (∀ y, y ∈ drop_queue n d p ↔ y ∈ d ∨ y = p ∧ queued n = false ∧ is_Some (n_readiness_queue n)) as Hin.
  { intros y. unfold drop_queue. destruct (queued n); cbn [negb andb]; [intuition congruence|].
    destruct (decide (is_Some (n_readiness_queue n))) as [Hs|Hs];
      [rewrite bool_decide_eq_true_2, elem_of_app, list_elem_of_singleton by done|
       rewrite bool_decide_eq_false_2 by done].
    - split; [intros [?|?]; [by left|by right]|intros [?|(? & _ & _)]; [by left|by right]].
    - split; [by left|intros [?|(_ & _ & ?)]; [done|contradiction]]. }
  eapply (inv_update w q x st d refs); try done.
  - intros y Hy. split; [|done]. rewrite Hin. tauto.
  - split; [exact Hwf|exact Hl|exact Hrl| |].
    + intros Enq. destruct (Hf Enq) as (Hh & ? & ? & ? & _). unfold queued, dropped. cbn.
      rewrite F1, F3. split; [|done]. apply bool_decide_eq_false_2. rewrite Hin.
      intros [Hd|(_ & _ & [? ?])]; [by rewrite bool_decide_eq_true_2 in Hh|].
      cbn in Enq. congruence.
    + intros Enq. destruct (Ho Enq) as (Erc & Hpos & Hst). unfold queued, dropped in *. cbn.
      rewrite F1, F2. rewrite Hdr in Erc, Hst. destruct Hst as [_ Hqh].
      split; [|done]. rewrite bool_decide_eq_true_2; [done|]. rewrite Hin.
      cbn in Enq. destruct (RS.is_queued (n_state n)); [left|right].
      * symmetry in Hqh. by apply bool_decide_eq_true in Hqh.
      * split; [done|]. rewrite Enq. split; [done|eauto].
  - intros [Hd|(_ & _ & Hs)]%Hin.
    + by destruct (iv_data _ _ _ _ _ _ Hi p Hd) as (n1 & ? & ?); simplify_eq.
    + destruct Hnq as [E|]; [|done]. rewrite E in Hs. by destruct Hs.
Qed.

Lemma drop_not_in w q x st d refs p n :
  inv w q x st d refs → contents w !! p = Some n → p ∉ markers x → dropped n = false →
  queued n = false → p ∉ d.
Proof.
  intros Hi En Hm Hdr Hqd Hd. destruct (iv_data _ _ _ _ _ _ Hi p Hd) as (n1 & E1 & Eq). simplify_eq.
  pose proof (iv_nodes _ _ _ _ _ _ Hi p n En Hm) as Hok.
  destruct (no_owned _ _ _ _ Hok Eq) as (_ & _ & Hst). rewrite Hdr in Hst.
  destruct Hst as [_ Hq]. rewrite bool_decide_eq_true_2 in Hq by done. congruence.
Qed.

Lemma registration_drop_ok w q x st d refs p n :
  inv w q x st d refs → contents w !! p = Some n → p ∉ markers x → 0 < refs p → dropped n = false →
  n_readiness_queue n = None ∨ n_readiness_queue n = Some q →
  ∃ w' x' r, registration_drop p w = Done (tt, w') ∧
    inv w' q x' st (drop_queue n d p) (set_refs refs p (refs p - 1)) ∧
    contents w' = released (<[p := with_state (flagged (n_state n)) n]> (contents w)) p
                    (with_state (flagged (n_state n)) n) ∧
    markers x' = markers x ∧ w_queues w' = <[q := x']> (w_queues w) ∧
    woken (negb (queued n) && bool_decide (is_Some (n_readiness_queue n)) && asleep st d)
      (q_awakener x) r (q_awakener x').
Proof.
  intros Hi En Hm Hr Hdr Hnq. pose proof (iv_queue _ _ _ _ _ _ Hi) as Hq.
  destruct (contents_node _ _ _ En) as (m & Em & Est).
  assert (n_state m = n_state n ∧ n_readiness_queue m = n_readiness_queue n) as [Ems Emq] by (by rewrite <- Est).
  pose proof (iv_nodes _ _ _ _ _ _ Hi p n En Hm) as Hok.
  destruct (flagged_spec (n_state n) (no_word _ _ _ _ Hok) Hdr) as (E & _).
  set (s := flagged (n_state n)) in *. set (m1 := with_state s m).
  destruct (set_node_ok w q x st d p m m1 Hq Em eq_refl) as (E1 & Hq1 & Ec1 & Em1).
  set (w1 := mkWorld _ _) in E1, Hq1, Ec1, Em1.
  assert (strip m1 = with_state s n) as Em1' by exact (f_equal (with_state s) Est). rewrite Em1' in Ec1.
  set (b := negb (queued n) && bool_decide (is_Some (n_readiness_queue n))).
  destruct (join_step w1 q x st d p b Hq1) as (r & w2 & x2 & E2 & Hq2 & Ec2 & Emk2 & Es2 & Ew2 & Hw2);
    [|done|eauto|].
  { unfold b. intros [Hb _]%andb_true_iff. eapply drop_not_in; [done..|]. by destruct (queued n). }
  assert (inv w2 q x2 st (drop_queue n d p) refs) as Hi2.
  { eapply (inv_flagged w q x st d refs w2 x2 p n); try done. by rewrite Ec2, Ec1. }
  assert (contents w2 = <[p := with_state s n]> (contents w)) as Ec by (by rewrite Ec2, Ec1).
  destruct (release_handle_ok w2 q x2 st _ refs p (with_state s n) Hi2)
    as (w3 & x3 & E3 & Hi3 & Ec3 & Emk3 & Ea3 & Ew3);
    [by rewrite Ec, lookup_insert_eq|by rewrite Emk2|done| |done|].
  { left. unfold dropped. destruct (flagged_spec (n_state n) (no_word _ _ _ _ Hok) Hdr) as (_ & _ & Ef).
    by apply (f_equal f_dropped) in Ef. }
  exists w3, x3, r. split; [|split; [done|split; [by rewrite Ec3, Ec|split; [congruence|split]]]].
  - unfold registration_drop. step by by apply node_at_Done.
    step by (unfold lift; rewrite Ems, E). step by exact E1. erewrite stm_step; [exact E3|].
    unfold queued in b. destruct (negb (RS.is_queued (n_state n))) eqn:Eb; cbn [andb] in b.
    + unfold enqueue_with_wakeup. destruct Hnq as [En0|En0]; unfold b in E2; rewrite En0 in E2.
      * rewrite bool_decide_eq_false_2 in E2 by (by intros [? ?]). injection E2 as <- <-.
        erewrite stm_step; [reflexivity|]. step by by apply node_at_Done. cbn. by rewrite Emq, En0.
      * rewrite bool_decide_eq_true_2 in E2 by eauto. erewrite stm_step; [reflexivity|].
        step by by apply node_at_Done. cbn. rewrite Emq, En0. exact E2.
    + unfold b in E2. by injection E2 as <- <-.
  - by rewrite Ew3, Ew2, insert_insert_eq.
  - by rewrite Ea3.
Qed.

(** ** Creation *)

Lemma fresh_refs w q x st d refs p :
  inv w q x st d refs → contents w !! p = None → refs p = 0 ∧ p ∉ markers x ∧ p ∉ d.
Proof.
  intros Hi En. split_and!.
  - destruct (decide (refs p = 0)) as [|Hne]; [done|].
    destruct (iv_handles _ _ _ _ _ _ Hi p) as [_ [n E]]; [lia|]. congruence.
  - intros Hm. destruct (qo_live _ _ _ _ _ (iv_queue _ _ _ _ _ _ Hi) p Hm) as [n E].
    by rewrite contents_lookup, E in En.
  - intros Hd. destruct (iv_data _ _ _ _ _ _ Hi p Hd) as (n & E & _). congruence.
Qed.

Lemma inv_alloc w q x st d refs w' x' p n r :
  inv w q x st d refs → contents w !! p = None → queue_ok w' q x' st d →
  markers x' = markers x →
  q_strong x' = q_strong x + (if decide (n_readiness_queue n = Some q) then 1 else 0) →
  q_strong x' < 2 ^ 64 → contents w' = <[p := n]> (contents w) → node_ok q false r n →
  inv w' q x' st d (set_refs refs p r).
Proof.
  intros Hi En Hq' Em Es Hb' Ec Hok. destruct (fresh_refs _ _ _ _ _ _ _ Hi En) as (Hr & Hpm & Hpd).
  destruct Hi as [Hq Hmk Hn Hd Hh Hs Hb].
  split; rewrite ?Em, ?Ec; try done.
  - intros y ny [[-> <-]|[Hne E]]%lookup_insert_Some Hy; [done|]. by apply (Hmk y).
  - intros y ny [[-> <-]|[Hne E]]%lookup_insert_Some Hy.
    + by rewrite set_refs_eq, bool_decide_eq_false_2 by done.
    + rewrite set_refs_ne by done. by apply Hn.
  - intros y Hy. rewrite lookup_insert_ne by (by intros ->). by apply Hd.
  - intros y Hy. destruct (decide (y = p)) as [->|Hne]; [rewrite lookup_insert_eq; eauto|].
    rewrite set_refs_ne in Hy by done. rewrite lookup_insert_ne by done. by apply Hh.
  - rewrite (size_held_delete q (<[p := n]> _) p n) by apply lookup_insert_eq.
    rewrite delete_insert_id by done. rewrite Es, Hs. destruct (decide _); lia.
Qed.

Lemma queue_ok_alloc w q x st d p n :
  queue_ok w q x st d → contents w !! p = None →
  queue_ok (mkWorld (<[p := n]> (w_nodes w)) (w_queues w)) q x st d.
Proof.
  intros Hq En. assert (p ∉ stub_list x st ++ d) as Hp.
  { intros Hp. destruct (linked_live _ _ _ _ _ (qo_linked _ _ _ _ _ Hq) Hp) as [m E].
    by rewrite contents_lookup, E in En. }
  destruct Hq as [[Hx Hc Ht Hh Hnd] Hm Hl Hd]. split; try done.
  - split; try done. by apply chain_insert_ne.
  - intros y Hy. cbn. destruct (decide (y = p)) as [->|]; [rewrite lookup_insert_eq; eauto|].
    rewrite lookup_insert_ne by done. by apply Hl.
Qed.

Lemma new_node_ok q s tok :
  wf_word s → RS.is_queued s = false → RS.is_dropped s = false →
  node_ok q false 2 (mkNode (J:=J) s tok null_token null_token None false (Some q) 3 null_job).
Proof.
  intros Hwf Hqd Hdr. split; try done. intros _. unfold dropped, queued. cbn. rewrite Hdr, Hqd. done.
Qed.

Lemma new_ok w q x st d refs p tok interest opt :
  inv w q x st d refs → contents w !! p = None → q_strong x + 1 < 2 ^ 64 →
  ready_0 interest <= 15 → opt_0 opt <= 15 →
  ∃ n w' x', new null_job q p tok interest opt w = Done ((p, p), w') ∧
    inv w' q x' st d (set_refs refs p 2) ∧ contents w' = <[p := n]> (contents w) ∧
    markers x' = markers x ∧ q_awakener x' = q_awakener x ∧ w_queues w' = <[q := x']> (w_queues w) ∧
    n_readiness_queue n = Some q ∧ dropped n = false ∧ queued n = false.
Proof.
  intros Hi En Hb Hint Hopt. pose proof (iv_queue _ _ _ _ _ _ Hi) as Hq.
  destruct (new_fields interest opt Hint Hopt) as (s & Es & Hwf & Ef).
  assert (RS.is_queued s = false ∧ RS.is_dropped s = false) as [Hqd Hdr]
    by (split; [by apply (f_equal f_queued) in Ef|by apply (f_equal f_dropped) in Ef]).
  set (n := mkNode s tok null_token null_token None false (Some q) 3 null_job).
  pose proof (queue_ok_alloc w q x st d p n Hq En) as Hq1.
  pose proof (queue_ok_strong _ q x st d (q_strong x + 1) Hq1) as Hq2.
  pose proof (lk_queue _ _ _ _ (qo_linked _ _ _ _ _ Hq)) as Hx.
  exists n, (mkWorld (<[p := n]> (w_nodes w)) (<[q := with_strong (q_strong x + 1) x]> (w_queues w))),
    (with_strong (q_strong x + 1) x).
  split; [|split; [|split_and!]]; try done.
  - unfold new. erewrite stm_step.
    2:{ unfold arc_clone. step by by apply queue_at_Done. rewrite fetch_add1_small by lia. reflexivity. }
    step by (unfold lift, ReadinessNode_new, AtomicState.new; rewrite Es). reflexivity.
  - eapply (inv_alloc w q x st d refs); [done|done|exact Hq2|done| |cbn; lia|apply contents_set|by apply new_node_ok].
    cbn. by rewrite decide_True.
  - apply contents_set.
Qed.

Lemma new2_ok w q x st d refs p :
  inv w q x st d refs → contents w !! p = None →
  ∃ n w', new2 null_job p w = Done ((p, p), w') ∧
    inv w' q x st d (set_refs refs p 2) ∧ contents w' = <[p := n]> (contents w) ∧
    w_queues w' = w_queues w ∧
    n_readiness_queue n = None ∧ dropped n = false ∧ queued n = false ∧ n_state n = mkRS 0.
Proof.
  intros Hi En. pose proof (iv_queue _ _ _ _ _ _ Hi) as Hq.
  set (n := mkNode (mkRS 0) null_token null_token null_token None false None 2 null_job).
  pose proof (queue_ok_alloc w q x st d p n Hq En) as Hq1.
  eexists n, _. split; [reflexivity|]. split; [|split; [apply contents_set|done]].
  eapply (inv_alloc w q x st d refs); [done|done|exact Hq1|done| |apply (iv_bound _ _ _ _ _ _ Hi)|apply contents_set|].
  - by rewrite decide_False, N.add_0_r.
  - by split; cbn.
Qed.

(** The queue of a new poll, in an empty store. *)
Lemma queue_new_ok (a : P) q e s c :
  e ≠ s → e ≠ c → s ≠ c →
  ∃ w x, ReadinessQueue_new null_job (IoOk a) q e s c (mkWorld ∅ ∅) = Done (IoOk q, w) ∧
    inv w q x SEnd [] (λ _, 0) ∧ q_awakener x = a ∧ markers x = [e; s; c] ∧
    w_queues w = {[q := x]} ∧ (size (w_nodes w) <= 3)%nat.
Proof.
  intros Hes Hec Hsc. set (m := mkNode (mkRS 0) null_token null_token null_token None false None 0 null_job).
  set (x := mkQueue a e e e s c 1).
  set (w := mkWorld (<[c := m]> (<[s := m]> {[e := m]})) {[q := x]}).
  assert (∀ p n, contents w !! p = Some n → n = m ∧ p ∈ markers x) as Hcont.
  { intros p n. rewrite contents_lookup. cbn. intros (n' & E & ->)%fmap_Some.
    apply lookup_insert_Some in E as [[<- <-]|[_ E]]; [split; [done|unfold markers; set_solver]|].
    apply lookup_insert_Some in E as [[<- <-]|[_ E]]; [split; [done|unfold markers; set_solver]|].
    apply lookup_singleton_Some in E as [<- <-]. split; [done|unfold markers; set_solver]. }
  exists w, x. split; [done|]. split; [|split; [done|split; [done|split; [done|]]]].
  2:{ unfold w. cbn [w_nodes]. rewrite !map_size_insert, map_size_singleton.
      repeat (case_match; cbn); lia. }
  split; try done.
  - split.
    + split; cbn; try done.
      * apply lookup_singleton_eq.
      * split; [|done]. exists m. rewrite !lookup_insert_ne by done. by rewrite lookup_singleton_eq.
      * apply NoDup_singleton.
    + unfold markers. cbn. rewrite !NoDup_cons. split_and!; [set_solver..|apply NoDup_nil_2].
    + intros p. unfold markers. cbn. rewrite !elem_of_cons. intros [->|[->|[->|?%not_elem_of_nil]]]; [| | |done].
      * rewrite !lookup_insert_ne, lookup_singleton_eq by done. eauto.
      * rewrite lookup_insert_ne, lookup_insert_eq by done. eauto.
      * rewrite lookup_insert_eq. eauto.
    + by intros p ?%not_elem_of_nil.
  - intros p n [-> _]%Hcont. done.
  - intros p n [_ Hm]%Hcont. done.
  - by intros p ?%not_elem_of_nil.
  - assert (filter (held q) (contents w) = ∅) as ->; [|done].
    apply map_empty_filter_2. intros p n [-> _]%Hcont. done.
Qed.
End HandleSpec.
