(* ===== verification/QueueProps.v ===== *)
(** * The readiness queue: properties

    What the poll, the registrations and the set-readiness handles promise to
    each other through the queue. *)
From S2P Require Import Prelude EventSet ReadinessState Awakener Duration Selector.
From S2P Require Import ReadinessQueue Registration QueueInv QueueSpec RegistrationSpec HandleSpec.

Section QueueProps.
Context {J : Type} (null_job : J) (grow : N → N) {P : Type} {PO : PipeOps P} {PL : PipeLaws P}.
#[local] Abbreviation Node := (ReadinessNode (J:=J)).
#[local] Abbreviation W := (World (J:=J) (P:=P)).
#[local] Abbreviation Q := (ReadinessQueueInner (P:=P)).
Implicit Types (w : W) (q : qid) (p : ptr) (l d req : list ptr) (n : Node) (x : Q).
Implicit Types (C : gmap ptr Node) (refs : ptr → N).

(** ** Polling *)

Lemma poll_node_ne C p y : y ≠ p → poll_node null_job C p !! y = C !! y.
Proof.
  intros Hne. unfold poll_node, released. destruct (C !! p) as [n|]; [|done].
  destruct (dropped n); [destruct (_ =? _)|]; by rewrite ?lookup_delete_ne, ?lookup_insert_ne.
Qed.

(** The store after the nodes [l] were polled. *)
Definition polled_store C l (C' : gmap ptr Node) : Prop :=
  ∀ y, C' !! y = if decide (y ∈ l) then poll_node null_job C y !! y else C !! y.

Lemma polled_store_cons C p l C' :
  p ∉ l → polled_store (poll_node null_job C p) l C' → polled_store C (p :: l) C'.
Proof.
  intros Hp Hs y. rewrite (Hs y). destruct (decide (y ∈ l)) as [Hy|Hy].
  - rewrite decide_True by set_solver. assert (y ≠ p) as Hne by by intros ->.
    unfold poll_node at 1 3. rewrite poll_node_ne by done.
    destruct (C !! y) as [n|]; [|by rewrite poll_node_ne].
    unfold released. destruct (dropped n); [destruct (_ =? _)|];
      by rewrite ?lookup_delete_eq, ?lookup_insert_eq.
  - destruct (decide (y = p)) as [->|Hne].
    + by rewrite decide_True by set_solver.
    + rewrite decide_False by set_solver. by apply poll_node_ne.
Qed.

(** The entry a report becomes in the buffer. *)
Definition report_entry (r : Event * J) : JobEntry J :=
  mkJobEntry (event_token r.1) r.2 Ready.empty.

(** The event it becomes: the readiness as epoll flags, and the token. *)
Definition report_event (r : Event * J) : epoll_event :=
  mkEpollEvent (ioevent_to_epoll (Event_readiness r.1) PollOpt.empty)
    (token_val (token (event_token r.1))).

(** [dst'] is [dst] with the reports [rs] behind. *)
Definition buffered dst (rs : list (Event * J)) dst' : Prop :=
  ev_entries dst' = ev_entries dst ++ (report_entry <$> rs) ∧
  ev_events dst' = ev_events dst ++ (report_event <$> rs).

Lemma buffered_app dst rs dst1 rs' dst' :
  buffered dst rs dst1 → buffered dst1 rs' dst' → buffered dst (rs ++ rs') dst'.
Proof.
  intros [E1 E2] [E3 E4]. unfold buffered. rewrite E3, E4, E1, E2, !fmap_app.
  split; symmetry; apply app_assoc.
Qed.

Lemma push_report_buffered dst o :
  Events_len dst < Events_capacity dst →
  buffered dst (match o with Some r => [r] | None => [] end) (push_report grow dst o) ∧
  Events_capacity (push_report grow dst o) = Events_capacity dst ∧
  Events_len (push_report grow dst o) <= Events_capacity dst.
Proof.
  intros Hroom. destruct o as [[e j]|]; cbn [push_report]; (split; [split|]); try done;
    [|cbn; by rewrite app_nil_r..|split; [done|lia]].
  unfold Events_capacity, Events_len, push_event in *; cbn. unfold push_cap.
  rewrite (proj2 (N.ltb_lt _ _)) by done. rewrite length_app. cbn. split; [done|lia].
Qed.

Lemma is_null_head {A} (l : list A) a (b : bool) :
  (if b then (if is_null (head l) then Some a else head l) else head l) =
  head (l ++ if b then [a] else []).
Proof. destruct b, l; cbn; rewrite ?app_nil_r; done. Qed.

Lemma still_ext C C' p : C !! p = C' !! p → still C p = still C' p.
Proof. unfold still. by intros ->. Qed.
Lemma reported_ext C C' p : C !! p = C' !! p → reported C p = reported C' p.
Proof. unfold reported. by intros ->. Qed.

Lemma polled_ext C C' l :
  (∀ y, y ∈ l → C !! y = C' !! y) →
  filter (still C) l = filter (still C') l ∧ omap (reported C) l = omap (reported C') l.
Proof.
  induction l as [|y l IH]; intros Hl; [done|].
  destruct IH as [E1 E2]; [intros z Hz; apply Hl; set_solver|].
  assert (C !! y = C' !! y) as Ey by (apply Hl; set_solver).
  rewrite !filter_cons, E1. cbn [omap list_omap].
  by rewrite (still_ext C C' y Ey), (reported_ext C C' y Ey), E2.
Qed.

(** What the loop comes to: the nodes polled are a prefix of the queue, and the
    whole of it unless the buffer is full. *)
Definition loop_polled w q x d req refs dst (o : exec (Events (J:=J) * W)) : Prop :=
  ∃ dst' w' x' st' polled rest, d = polled ++ rest ∧ o = Done (dst', w') ∧
    inv w' q x' st' (rest ++ req ++ filter (still (contents w)) polled) refs ∧
    asleep st' (rest ++ req ++ filter (still (contents w)) polled) = false ∧
    buffered dst (omap (reported (contents w)) polled) dst' ∧
    Events_capacity dst' = Events_capacity dst ∧
    polled_store (contents w) polled (contents w') ∧
    Events_len dst' <= Events_capacity dst ∧
    (rest = [] ∨ Events_len dst' = Events_capacity dst) ∧
    markers x' = markers x ∧ q_awakener x' = q_awakener x ∧
    w_queues w' = <[q := x']> (w_queues w).

Lemma loop_full fuel w q x st d req refs dst :
  inv w q x st (d ++ req) refs → Events_len dst = Events_capacity dst → asleep st (d ++ req) = false →
  loop_polled w q x d req refs dst (queue_poll_loop null_job grow (S fuel) q (head req) dst w).
Proof.
  intros Hi Hf Has. exists dst, w, x, st, [], d. unfold buffered.
  cbn [queue_poll_loop filter list_filter omap list_omap fmap list_fmap app].
  rewrite (proj2 (N.ltb_ge _ _)) by lia. rewrite !app_nil_r. split_and!; try done; [lia|by right|].
  apply (rl_queues _ _ _ _ _ (relinked_refl _ _ _ _ _ (iv_queue _ _ _ _ _ _ Hi))).
Qed.

Lemma loop_end fuel w q x st req refs dst :
  inv w q x st req refs → Events_len dst < Events_capacity dst →
  loop_polled w q x [] req refs dst (queue_poll_loop null_job grow (S fuel) q (head req) dst w).
Proof.
  intros Hi Hroom. destruct (dequeue_spec w q x st req (head req) (iv_queue _ _ _ _ _ _ Hi))
    as (r & w' & x' & st' & d' & E & Hq' & [(Ea & Em & Es) Ec Ew] & Hr).
  assert (r = Empty ∧ d' = req ∧ st' ≠ SSleep) as (-> & -> & Hst').
  { destruct req as [|y req]; cbn in Hr; [|rewrite decide_True in Hr by done]; naive_solver. }
  exists dst, w', x', st', [], []. unfold buffered. cbn [queue_poll_loop]. rewrite (proj2 (N.ltb_lt _ _)) by done.
  step by exact E. split; [done|]. split; [done|].
  cbn [filter list_filter omap list_omap fmap list_fmap app]. rewrite !app_nil_r.
  split_and!; try done; [|by apply not_asleep|by intros y; rewrite Ec|lia|by left].
  destruct Hi as [_ H1 H2 H3 H4 H5 H6]. split; rewrite ?Em, ?Es, ?Ec; done.
Qed.

Lemma queue_poll_loop_spec fuel w q x st d req refs dst :
  inv w q x st (d ++ req) refs → (length d < fuel)%nat → Events_len dst <= Events_capacity dst →
  (Events_len dst = Events_capacity dst → asleep st (d ++ req) = false) →
  loop_polled w q x d req refs dst (queue_poll_loop null_job grow fuel q (head req) dst w).
Proof.
  revert w x st d req dst. induction fuel as [|fuel IH]; intros w x st d req dst Hi Hf Hlen Has; [lia|].
  destruct (decide (Events_len dst < Events_capacity dst)) as [Hroom|Hfull].
  2:{ assert (Events_len dst = Events_capacity dst) by lia. eapply loop_full; [exact Hi|done|by apply Has]. }
  destruct d as [|p d]; [by eapply loop_end|].
  pose proof (queue_data_nodup _ _ _ _ _ (iv_queue _ _ _ _ _ _ Hi)) as Hnd. cbn in Hnd.
  apply NoDup_cons in Hnd as [Hp _]. rewrite elem_of_app in Hp.
  assert (head req ≠ Some p) as Hu.
  { intros Hh. apply Hp. right. destruct req; [done|]. injection Hh as ->. by left. }
  destruct (poll_one null_job grow w q x st p (d ++ req) refs (head req) dst Hi Hu Hroom)
    as (w1 & x1 & st1 & E1 & Hi1 & Hst1 & Ec1 & Em1 & Ea1 & Ew1).
  rewrite is_null_head in E1. rewrite <- app_assoc in Hi1.
  destruct (push_report_buffered dst (reported (contents w) p) Hroom) as (Ee & Ecap & Hl1).
  destruct (IH w1 x1 st1 d _ (push_report grow dst (reported (contents w) p)) Hi1)
    as (dst' & w' & x' & st' & pl & rest & Ed & E & Hi' & Has' & Een & Ecap' & Hst & Hle & Hend & Em' & Ea' & Ew');
    [cbn in Hf; lia|by rewrite Ecap|intros _; by apply not_asleep|].
  assert (∀ y, y ∈ pl → contents w1 !! y = contents w !! y) as Hsame.
  { intros y Hy. rewrite Ec1. apply poll_node_ne. intros ->. apply Hp. left. rewrite Ed, elem_of_app. by left. }
  destruct (polled_ext (contents w) (contents w1) pl) as [Esf Eso]; [by intros y Hy; rewrite Hsame|].
  assert (filter (still (contents w)) (p :: pl) =
    (if still (contents w) p then [p] else []) ++ filter (still (contents w1)) pl) as Efl
    by (rewrite filter_cons, Esf; by destruct (still (contents w) p)).
  exists dst', w', x', st', (p :: pl), rest. rewrite Efl. rewrite <- app_assoc in Hi', Has'.
  split; [by rewrite Ed|]. split; [by rewrite E1|]. split; [done|]. split; [done|]. split.
  { cbn [omap list_omap]. rewrite Eso. pose proof (buffered_app _ _ _ _ _ Ee Een) as Hb.
    by destruct (reported (contents w) p). }
  split_and!; try done; [congruence| |by rewrite <- Ecap|by rewrite <- Ecap
    |congruence|congruence|by rewrite Ew', Ew1, insert_insert_eq].
  - apply polled_store_cons; [|by rewrite <- Ec1]. intros Hin. apply Hp. left. rewrite Ed, elem_of_app. by left.
Qed.

(** What a report is, for a node of the queue. *)
Lemma reported_means w q x st d refs p n :
  inv w q x st d refs → contents w !! p = Some n → p ∈ d →
  match reported (contents w) p with
  | Some (e, j) =>
      Event_readiness e = RS.effective_readiness (n_state n) ∧
      node_token n (RS.token_write_pos (n_state n)) = Done (event_token e) ∧ j = n_job n
  | None => dropped n = true ∨ Ready.is_empty (RS.effective_readiness (n_state n)) = true
  end.
Proof.
  intros Hi En Hp. unfold reported. rewrite En. destruct (dropped n) eqn:Ed; [by left|].
  unfold report. destruct (Ready.is_empty _) eqn:Er; [by right|].
  assert (p ∉ markers x) as Hpm by (by apply (qo_data _ _ _ _ _ (iv_queue _ _ _ _ _ _ Hi))).
  pose proof (no_word _ _ _ _ (iv_nodes _ _ _ _ _ _ Hi p n En Hpm)) as Hwf.
  destruct (node_token_ok n (RS.token_write_pos (n_state n))) as [tok Et]; [by apply wf_word_wr|].
  rewrite Et. by destruct tok.
Qed.

Lemma queue_poll_full fuel w q x st d refs dst :
  inv w q x st d refs → (length d < fuel)%nat → Events_len dst <= Events_capacity dst →
  ∃ dst' w' x' st' polled rest, d = polled ++ rest ∧
    queue_poll null_job grow fuel q dst w = Done (dst', w') ∧
    inv w' q x' st' (rest ++ filter (still (contents w)) polled) refs ∧
    asleep st' (rest ++ filter (still (contents w)) polled) = false ∧
    buffered dst (omap (reported (contents w)) polled) dst' ∧
    Events_capacity dst' = Events_capacity dst ∧
    polled_store (contents w) polled (contents w') ∧
    Events_len dst' <= Events_capacity dst ∧
    (rest = [] ∨ Events_len dst' = Events_capacity dst) ∧
    markers x' = markers x ∧ q_awakener x' = q_awakener x ∧
    w_queues w' = <[q := x']> (w_queues w).
Proof.
  intros Hi Hf Hlen. pose proof (iv_queue _ _ _ _ _ _ Hi) as Hq.
  assert (∃ w1 x1 st1, (if Events_len dst =? Events_capacity dst then clear_sleep_marker q else mret tt) w =
      Done (tt, w1) ∧ queue_ok w1 q x1 st1 d ∧ relinked w w1 q x x1 ∧
      (Events_len dst = Events_capacity dst → asleep st1 d = false)) as (w1 & x1 & st1 & E1 & Hq1 & Hr1 & Has1).
  { destruct (N.eqb_spec (Events_len dst) (Events_capacity dst)) as [_|Hne].
    - destruct (clear_sleep_marker_spec w q x st d Hq) as (w1 & x1 & E1 & Hq1 & Hr1).
      eexists w1, x1, _. split_and!; [done..|]. intros _. case_bool_decide; [by apply not_asleep|by apply bool_decide_eq_false_2].
    - exists w, x, st. split; [done|]. split; [done|]. by split; [eapply relinked_refl|]. }
  pose proof (inv_relinked _ _ _ _ _ _ _ _ _ Hi Hq1 Hr1) as Hi1.
  destruct Hr1 as [(Ea & Em & Es) Ec Ew].
  destruct (queue_poll_loop_spec fuel w1 q x1 st1 d [] refs dst)
    as (dst' & w' & x' & st' & pl & rest & Ed & E & Hi' & Has' & Een & Ecap & Hst & Hle & Hend & Em' & Ea' & Ew');
    [by rewrite app_nil_r|done|done|by rewrite app_nil_r|]. rewrite Ec in *.
  exists dst', w', x', st', pl, rest. split; [done|]. split.
  { unfold queue_poll. by step by exact E1. }
  split; [exact Hi'|]. split_and!; try done; try congruence. by rewrite Ew', Ew, insert_insert_eq.
Qed.

Lemma queue_poll_ok fuel w q x st d refs dst :
  inv w q x st d refs → (length d < fuel)%nat → Events_len dst <= Events_capacity dst →
  ∃ dst' w' x' st' polled rest, d = polled ++ rest ∧
    queue_poll null_job grow fuel q dst w = Done (dst', w') ∧
    inv w' q x' st' (rest ++ filter (still (contents w)) polled) refs ∧
    asleep st' (rest ++ filter (still (contents w)) polled) = false ∧
    ev_entries dst' = ev_entries dst ++ (report_entry <$> omap (reported (contents w)) polled) ∧
    Events_capacity dst' = Events_capacity dst ∧
    polled_store (contents w) polled (contents w') ∧
    Events_len dst' <= Events_capacity dst ∧
    (rest = [] ∨ Events_len dst' = Events_capacity dst) ∧
    markers x' = markers x ∧ q_awakener x' = q_awakener x ∧
    w_queues w' = <[q := x']> (w_queues w).
Proof.
  intros Hi Hf Hlen. destruct (queue_poll_full fuel w q x st d refs dst Hi Hf Hlen)
    as (dst' & w' & x' & st' & pl & rest & Ed & E & Hi' & Has & [Een _] & H).
  exists dst', w', x', st', pl, rest. split; [exact Ed|]. split; [exact E|]. split; [exact Hi'|].
  split; [exact Has|]. split; [exact Een|exact H].
Qed.

(** C10 A poll takes the nodes of the queue in order until it is empty or the
    buffer is full.  For each live node that is ready it puts into the buffer
    one event, with the effective readiness as epoll flags and the token of the
    last update, and beside it one entry, with that token and the job of the
    node, in whose own readiness nothing is recorded (the entry is what
    [io_process] hands to the job); an edge-triggered node leaves the queue
    (disarmed if one-shot), a ready level-triggered node goes to the back, a
    dropped node is released.  Other nodes are untouched, no freed node is
    accessed, and the invariant of the queue and of the reference counts is
    kept. *)
Theorem queue_poll_spec fuel w q x st d refs dst :
  inv w q x st d refs → (length d < fuel)%nat → Events_len dst <= Events_capacity dst →
  ∃ dst' w' x' st' polled rest, d = polled ++ rest ∧
    queue_poll null_job grow fuel q dst w = Done (dst', w') ∧
    inv w' q x' st' (rest ++ filter (still (contents w)) polled) refs ∧
    ev_entries dst' = ev_entries dst ++
      ((λ r, mkJobEntry (event_token r.1) r.2 Ready.empty) <$> omap (reported (contents w)) polled) ∧
    ev_events dst' = ev_events dst ++
      ((λ r, mkEpollEvent (ioevent_to_epoll (Event_readiness r.1) PollOpt.empty)
         (token_val (token (event_token r.1)))) <$> omap (reported (contents w)) polled) ∧
    (∀ p n, contents w !! p = Some n → p ∈ polled →
       match reported (contents w) p with
       | Some (e, j) =>
           Event_readiness e = RS.effective_readiness (n_state n) ∧
           node_token n (RS.token_write_pos (n_state n)) = Done (event_token e) ∧ j = n_job n
       | None => dropped n = true ∨ Ready.is_empty (RS.effective_readiness (n_state n)) = true
       end) ∧
    Events_capacity dst' = Events_capacity dst ∧ Events_len dst' <= Events_capacity dst' ∧
    (rest = [] ∨ Events_len dst' = Events_capacity dst) ∧
    ∀ p n, contents w !! p = Some n →
      if decide (p ∈ polled) then
        contents w' !! p =
          if dropped n then (if n_ref_count n =? 1 then None else Some (with_ref (n_ref_count n - 1) n))
          else Some (after_poll null_job n)
      else contents w' !! p = Some n.
Proof.
  intros Hi Hf Hlen. destruct (queue_poll_full fuel w q x st d refs dst Hi Hf Hlen)
    as (dst' & w' & x' & st' & pl & rest & Ed & E & Hi' & _ & [Een Eev] & Ecap & Hst & Hle & Hend & _).
  exists dst', w', x', st', pl, rest. split; [exact Ed|]. split; [exact E|]. split; [exact Hi'|].
  split; [exact Een|]. split; [exact Eev|]. split.
  { intros p n En Hp. eapply reported_means; [exact Hi|exact En|]. rewrite Ed, elem_of_app. by left. }
  split_and!; try done.
  - by rewrite Ecap.
  - intros p n En. rewrite (Hst p). destruct (decide (p ∈ pl)); [|done].
    unfold poll_node. rewrite En. unfold released. destruct (dropped n); [destruct (_ =? _)|];
      by rewrite ?lookup_delete_eq, ?lookup_insert_eq.
Qed.

(** ** Going to sleep *)

Lemma prepare_for_sleep_inv w q x st d refs :
  inv w q x st d refs →
  ∃ w' x' st', prepare_for_sleep q w = Done (bool_decide (d = []), w') ∧
    inv w' q x' st' d refs ∧ contents w' = contents w ∧ markers x' = markers x ∧
    q_awakener x' = q_awakener x ∧ w_queues w' = <[q := x']> (w_queues w) ∧
    (d = [] → st' = SSleep).
Proof.
  intros Hi. destruct (prepare_for_sleep_ok w q x st d (iv_queue _ _ _ _ _ _ Hi))
    as (w' & x' & st' & E & Hq' & Hr & Hst).
  exists w', x', st'. split; [done|]. split; [by eapply inv_relinked|].
  destruct Hr as [(Ea & Em & Es) Ec Ew]. by split_and!.
Qed.

(** No lost wakeup: [prepare_for_sleep] says that the poller may block
    exactly when the queue is empty, and the first handle that then makes a
    node ready writes to the awakener (which leaves the pipe readable unless
    the write failed, and then the failure is returned). *)
Theorem sleep_then_notify_wakes w q x st d refs :
  inv w q x st d refs →
  ∃ w1 x1 st1, prepare_for_sleep q w = Done (bool_decide (d = []), w1) ∧
    inv w1 q x1 st1 d refs ∧ q_awakener x1 = q_awakener x ∧
    ∀ p n r, contents w !! p = Some n → p ∉ markers x → dropped n = false →
      n_readiness_queue n = Some q → queued n = false → ready_0 r < 2 ^ 4 →
      N.land (ready_0 r) (f_interest (fields (n_state n))) ≠ 0 →
      ∃ res w2 x2 st2, set_readiness p r w1 = Done (res, w2) ∧
        inv w2 q x2 st2 (d ++ [p]) refs ∧
        (d = [] →
         match res with
         | IoOk _ => 0 < pipe_len (q_awakener x2)
         | IoErr e => wakeup (q_awakener x) = (IoErr e, q_awakener x2)
         end).
Proof.
  intros Hi. destruct (prepare_for_sleep_inv w q x st d refs Hi)
    as (w1 & x1 & st1 & E1 & Hi1 & Ec1 & Em1 & Ea1 & Ew1 & Hst).
  exists w1, x1, st1. split; [done|]. split; [done|]. split; [done|].
  intros p n r En Hm Hdr Hnq Hqd Hr Hne. rewrite <- Ec1 in En. rewrite <- Em1 in Hm.
  pose proof (no_word _ _ _ _ (iv_nodes _ _ _ _ _ _ Hi1 p n En Hm)) as Hwf.
  destruct (readied_spec (n_state n) r Hwf Hr Hdr) as [_ Ef].
  assert (joins n (readied (n_state n) r) = true) as Hj.
  { unfold joins. rewrite Hqd. apply (f_equal f_queued) in Ef as Efq. cbn in Efq. rewrite Efq.
    cbn [negb andb]. apply orb_true_iff. right. apply negb_true_iff.
    rewrite effective_readiness_land. apply N.eqb_neq.
    apply (f_equal f_readiness) in Ef as Efr. apply (f_equal f_interest) in Ef as Efi.
    cbn in Efr, Efi. cbn. by rewrite Efr, Efi. }
  destruct (set_readiness_ok w1 q x1 st1 d refs p n r Hi1 En Hm Hdr (or_intror Hnq) Hr)
    as (res & w2 & x2 & E2 & Hi2 & _ & _ & _ & Hw2).
  rewrite Hj in *. exists res, w2, x2, st1. split; [done|]. split; [done|].
  intros Hd. rewrite (Hst Hd), Hd in Hw2. unfold asleep in Hw2.
  rewrite bool_decide_eq_true_2 in Hw2 by done. cbn [andb woken] in Hw2. rewrite Ea1 in Hw2.
  pose proof (wakeup_ready _ _ _ Hw2) as Hp. destruct res; [by destruct Hp|done].
Qed.

(** ** Handles *)

(** [set_readiness] on a dropped node does nothing; on a live one it
    stores the readiness and nothing else of the registration, and queues the
    node exactly when it becomes effectively ready and is not queued yet, so
    that a node is in the queue at most once; the poller is woken exactly when
    it sleeps on an empty queue. *)
Theorem set_readiness_spec w q x st d refs p n r :
  inv w q x st d refs → contents w !! p = Some n → p ∉ markers x →
  n_readiness_queue n = None ∨ n_readiness_queue n = Some q → ready_0 r < 2 ^ 4 →
  if dropped n then set_readiness p r w = Done (IoOk (), w)
  else ∃ n' res w' x', set_readiness p r w = Done (res, w') ∧
    fields (n_state n') =
      with_queued (queued n || negb (N.land (ready_0 r) (f_interest (fields (n_state n))) =? 0))
        (with_readiness (ready_0 r) (fields (n_state n))) ∧
    contents w' = <[p := n']> (contents w) ∧
    inv w' q x' st (if negb (queued n) && queued n' then d ++ [p] else d) refs ∧
    woken (negb (queued n) && queued n' && asleep st d) (q_awakener x) res (q_awakener x').
Proof.
  intros Hi En Hm Hnq Hr. destruct (dropped n) eqn:Hdr.
  - destruct (contents_node _ _ _ En) as (m & Em & Est).
    unfold set_readiness, load_state. erewrite stm_step.
    2:{ step by by apply node_at_Done. reflexivity. }
    unfold AtomicState.load. cbn [set_readiness_loop].
    assert (RS.is_dropped (n_state m) = true) as -> by (by rewrite <- Hdr, <- Est). done.
  - destruct (set_readiness_ok w q x st d refs p n r Hi En Hm Hdr Hnq Hr)
      as (res & w' & x' & E & Hi' & Ec & _ & _ & Hw).
    pose proof (no_word _ _ _ _ (iv_nodes _ _ _ _ _ _ Hi p n En Hm)) as Hwf.
    destruct (readied_spec (n_state n) r Hwf Hr Hdr) as [_ Ef].
    exists (with_state (readied (n_state n) r) n), res, w', x'. split_and!; try done.
    cbn [with_state n_state]. rewrite Ef. f_equal. f_equal. f_equal.
    rewrite effective_readiness_land.
    apply (f_equal f_readiness) in Ef as Efr. apply (f_equal f_interest) in Ef as Efi.
    cbn in Efr, Efi. cbn. by rewrite Efr, Efi.
Qed.

Lemma associated_eta n q :
  n_readiness_queue n = Some q → with_ref (n_ref_count n) (with_queue (Some q) n) = n.
Proof. destruct n; cbn. by intros ->. Qed.

Lemma update_associated p q tok interest opt job w w1 :
  associate p q w = Done (IoOk (), w1) → associate p q w1 = Done (IoOk (), w1) →
  update p q tok interest opt job w = update p q tok interest opt job w1.
Proof. intros E1 E2. unfold update. by rewrite (stm_step _ _ _ _ _ E1), (stm_step _ _ _ _ _ E2). Qed.

Lemma update_ok w q x st d refs p n tok interest opt job :
  inv w q x st d refs → contents w !! p = Some n → p ∉ markers x → dropped n = false →
  q_strong x + 1 < 2 ^ 64 → ready_0 interest < 2 ^ 4 → opt_0 opt < 2 ^ 4 →
  match n_readiness_queue n with
  | Some q' => q' ≠ q → update p q tok interest opt job w = Done (IoErr (OtherError 0), w)
  | None => True
  end ∧
  (n_readiness_queue n = None ∨ n_readiness_queue n = Some q →
   ∃ n' res w' x', update p q tok interest opt job w = Done (res, w') ∧
    update_node n tok interest opt job n' ∧ n_readiness_queue n' = Some q ∧
    n_ref_count n' = n_ref_count n + (if decide (n_readiness_queue n = None) then 1 else 0) ∧
    contents w' = <[p := n']> (contents w) ∧
    inv w' q x' st (if joins n (n_state n') then d ++ [p] else d) refs ∧
    woken (joins n (n_state n') && asleep st d) (q_awakener x) res (q_awakener x') ∧
    markers x' = markers x).
Proof.
  intros Hi En Hm Hdr Hb Hint Hopt.
  pose proof (associate_ok w q x st d refs p n Hi En Hm Hdr) as Ha.
  split.
  - destruct (n_readiness_queue n) as [q'|]; [|done]. intros Hne.
    specialize (Ha ltac:(done)). unfold update. rewrite (stm_step _ _ _ _ _ Ha).
    by apply N.eqb_neq in Hne as ->.
  - intros Hnq. assert (∃ n0 w0 x0, associate p q w = Done (IoOk (), w0) ∧ inv w0 q x0 st d refs ∧
      contents w0 = <[p := n0]> (contents w) ∧ markers x0 = markers x ∧ q_awakener x0 = q_awakener x ∧
      n0 = with_ref (n_ref_count n + (if decide (n_readiness_queue n = None) then 1 else 0))
             (with_queue (Some q) n)) as (n0 & w0 & x0 & E0 & Hi0 & Ec0 & Em0 & Ea0 & En0).
    { destruct (n_readiness_queue n) as [q'|] eqn:Enq.
      - destruct Hnq as [|[= ->]]; [done|]. rewrite decide_False by done. specialize (Ha ltac:(done)).
        rewrite N.eqb_refl in Ha. exists n, w, x. split_and!; try done.
        + by rewrite insert_id.
        + rewrite N.add_0_r. by rewrite associated_eta.
      - destruct (Ha ltac:(intros _; exact Hb)) as (w0 & x0 & E0 & Hi0 & Ec0 & Em0 & Ea0 & _).
        rewrite decide_True by done. exists (associated q n), w0, x0. by split_and!. }
    assert (contents w0 !! p = Some n0) as Ep0 by (by rewrite Ec0, lookup_insert_eq).
    assert (n_readiness_queue n0 = Some q ∧ n_state n0 = n_state n ∧ n_job n0 = n_job n ∧
      ∀ k, node_token n0 k = node_token n k) as (F1 & F2 & F3 & F4) by (by subst n0; destruct n).
    assert (associate p q w0 = Done (IoOk (), w0)) as E00.
    { pose proof (associate_ok w0 q x0 st d refs p n0 Hi0 Ep0) as H0. rewrite F1, N.eqb_refl in H0.
      apply H0; [by rewrite Em0|by unfold dropped; rewrite F2|done]. }
    destruct (update_core w0 q x0 st d refs p n0 tok interest opt job Hi0 Ep0)
      as (n' & res & w' & x' & E & Hu & U9 & U10 & Ec & Hi' & Em' & Ew' & Hw); try done;
      [by rewrite Em0|by unfold dropped; rewrite F2|].
    exists n', res, w', x'. rewrite (update_associated _ _ _ _ _ _ _ w0) by done.
    assert (joins n0 (n_state n') = joins n (n_state n')) as Ej by (unfold joins, queued; by rewrite F2).
    destruct Hu as [U1 U2 U3 U4 [U5 U6] U7 U8 U11].
    rewrite F2 in U1, U5, U6. rewrite F4 in U6. rewrite F3 in U8. rewrite Ej in U8, Hi', Hw.
    unfold queued in U7. rewrite F2 in U7. unfold dropped in U11. rewrite F2 in U11.
    rewrite <- Ea0. split_and!; try done; [by rewrite U9, F1|by rewrite U10, En0|
      by rewrite Ec, Ec0, insert_insert_eq|by rewrite Em', Em0].
Qed.

(** C31 [update] refuses a node of another poll and changes nothing then;
    otherwise it associates the node with the poll (once, taking a reference
    on the node and one on the queue), stores the token in a slot that no
    poller is reading, sets interest and options and keeps the readiness, and
    queues the node exactly when it becomes effectively ready; the job is
    stored only in that case.  [deregister] is the update that leaves the node
    without interest: it never queues it and never wakes the poller. *)
Theorem update_spec w q x st d refs p n tok interest opt job :
  inv w q x st d refs → contents w !! p = Some n → p ∉ markers x → dropped n = false →
  q_strong x + 1 < 2 ^ 64 → ready_0 interest < 2 ^ 4 → opt_0 opt < 2 ^ 4 →
  match n_readiness_queue n with
  | Some q' => q' ≠ q → update p q tok interest opt job w = Done (IoErr (OtherError 0), w)
  | None => True
  end ∧
  (n_readiness_queue n = None ∨ n_readiness_queue n = Some q →
   ∃ n' res w' x', update p q tok interest opt job w = Done (res, w') ∧
    update_node n tok interest opt job n' ∧ n_readiness_queue n' = Some q ∧
    n_ref_count n' = n_ref_count n + (if decide (n_readiness_queue n = None) then 1 else 0) ∧
    contents w' = <[p := n']> (contents w) ∧
    inv w' q x' st (if joins n (n_state n') then d ++ [p] else d) refs ∧
    woken (joins n (n_state n') && asleep st d) (q_awakener x) res (q_awakener x')) ∧
  (n_readiness_queue n = None ∨ n_readiness_queue n = Some q →
   ∃ n' w' x', deregister null_job p q w = Done (IoOk (), w') ∧
    update_node n null_token Ready.empty PollOpt.empty null_job n' ∧ queued n' = queued n ∧
    contents w' = <[p := n']> (contents w) ∧ inv w' q x' st d refs ∧
    q_awakener x' = q_awakener x).
Proof.
  intros Hi En Hm Hdr Hb Hint Hopt.
  destruct (update_ok w q x st d refs p n tok interest opt job Hi En Hm Hdr Hb Hint Hopt) as [H1 H2].
  split; [exact H1|]. split.
  { intros Hnq. destruct (H2 Hnq) as (n' & res & w' & x' & E & Hu & Hq & Hr & Ec & Hi' & Hw & _).
    by exists n', res, w', x'. }
  intros Hnq.
  destruct (update_ok w q x st d refs p n null_token Ready.empty PollOpt.empty null_job
    Hi En Hm Hdr Hb) as [_ H3]; [done|done|].
  destruct (H3 Hnq) as (n' & res & w' & x' & E & Hu & _ & _ & Ec & Hi' & Hw & _).
  pose proof (un_queued _ _ _ _ _ _ Hu) as Hqd.
  assert (Ready.is_empty (RS.effective_readiness (n_state n')) = true) as He.
  { rewrite effective_readiness_land. cbn [fields f_interest].
    rewrite (un_interest _ _ _ _ _ _ Hu). by rewrite N.land_0_r. }
  rewrite He, orb_false_r in Hqd.
  assert (joins n (n_state n') = false) as Hj.
  { unfold joins. fold (queued n'). rewrite Hqd. by destruct (queued n). }
  rewrite Hj in *. cbn in Hw. destruct Hw as [-> Ha]. exists n', w', x'. by split_and!.
Qed.

(** Dropping a registration whose only handle it is puts its node in the
    queue if it is not there; the next poll that does not fill its buffer frees
    the node. *)
Theorem dropped_node_is_reclaimed fuel w q x st d refs p n dst :
  inv w q x st d refs → contents w !! p = Some n → p ∉ markers x → refs p = 1 →
  dropped n = false → n_readiness_queue n = Some q → (length d + 1 < fuel)%nat →
  Events_len dst <= Events_capacity dst →
  ∃ w1 x1, registration_drop p w = Done (tt, w1) ∧
    inv w1 q x1 st (if queued n then d else d ++ [p]) (set_refs refs p 0) ∧
    is_Some (contents w1 !! p) ∧
    ∃ dst' w2, queue_poll null_job grow fuel q dst w1 = Done (dst', w2) ∧
      (Events_len dst' < Events_capacity dst' → contents w2 !! p = None).
Proof.
  intros Hi En Hm Hr Hdr Hnq Hf Hlen.
  destruct (registration_drop_ok w q x st d refs p n Hi En Hm) as (w1 & x1 & r & E1 & Hi1 & Ec1 & _);
    [lia|done|by right|].
  pose proof (iv_nodes _ _ _ _ _ _ Hi p n En Hm) as Hok.
  destruct (no_owned _ _ _ _ Hok Hnq) as (Erc & _ & Hst). rewrite Hdr in Erc, Hst. cbn [andb] in Erc.
  destruct Hst as [_ Hqh]. rewrite Hr in *.
  assert (drop_queue n d p = if queued n then d else d ++ [p]) as Ed.
  { unfold drop_queue. rewrite Hnq. rewrite bool_decide_eq_true_2 by eauto. by destruct (queued n). }
  rewrite Ed in Hi1. exists w1, x1. split; [done|]. split; [done|].
  set (n1 := with_state (flagged (n_state n)) n) in *.
  assert (contents w1 !! p = Some (with_ref 1 n1)) as Ep1.
  { rewrite Ec1. unfold released. assert (n_ref_count n1 = 2) as -> by (cbn; lia). cbn.
    by rewrite lookup_insert_eq. }
  split; [eauto|].
  assert ((length (if queued n then d else d ++ [p]) < fuel)%nat) as Hf1
    by (destruct (queued n); rewrite ?length_app; cbn; lia).
  destruct (queue_poll_ok fuel w1 q x1 st _ _ dst Hi1 Hf1 Hlen)
    as (dst' & w2 & x2 & st2 & pl & rest & Edd & E2 & _ & _ & _ & Ecap & Hps & _ & Hend & _).
  exists dst', w2. split; [done|]. intros Hroom. destruct Hend as [->|Hfull]; [|rewrite Ecap in Hroom; lia].
  rewrite app_nil_r in Edd. subst pl. rewrite (Hps p), decide_True.
  - unfold poll_node. rewrite Ep1.
    assert (dropped (with_ref 1 n1) = true) as ->.
    { destruct (flagged_spec (n_state n) (no_word _ _ _ _ Hok) Hdr) as (_ & _ & Ef).
      by apply (f_equal f_dropped) in Ef. }
    unfold released. cbn. apply lookup_delete_eq.
  - destruct (queued n); [|set_solver]. symmetry in Hqh. by apply bool_decide_eq_true in Hqh.
Qed.

(** ** Programs of handle operations *)

(** The calls the owners of the poll and of the handles can make. *)
Inductive client_op : Type :=
  | CNew (p : ptr) (tok : TokenEntry) (interest : Ready) (opt : PollOpt)
  | CNew2 (p : ptr)
  | CUpdate (p : ptr) (tok : TokenEntry) (interest : Ready) (opt : PollOpt) (job : J)
  | CSetReadiness (p : ptr) (r : Ready)
  | CClone (p : ptr)
  | CDropSetReadiness (p : ptr)
  | CDropRegistration (p : ptr)
  | CPoll (fuel : nat) (dst : Events (J:=J))
  | CPrepareForSleep.

Definition run_op q (op : client_op) : stm W unit :=
  match op with
  | CNew p tok interest opt => new null_job q p tok interest opt ≫= λ _, mret tt
  | CNew2 p => new2 null_job p ≫= λ _, mret tt
  | CUpdate p tok interest opt job => update p q tok interest opt job ≫= λ _, mret tt
  | CSetReadiness p r => set_readiness p r ≫= λ _, mret tt
  | CClone p => set_readiness_clone p ≫= λ _, mret tt
  | CDropSetReadiness p => set_readiness_drop p
  | CDropRegistration p => registration_drop p
  | CPoll fuel dst => queue_poll null_job grow fuel q dst ≫= λ _, mret tt
  | CPrepareForSleep => prepare_for_sleep q ≫= λ _, mret tt
  end.

(** What the owners know: the number of handles of each node, and whether its
    registration is one of them. *)
Record owners := mkOwners { o_refs : ptr → N; o_reg : ptr → bool }.

Definition set_reg (o : owners) p r (b : bool) : owners :=
  mkOwners (set_refs (o_refs o) p r) (λ y, if decide (y = p) then b else o_reg o y).

Definition after_op (op : client_op) (o : owners) : owners :=
  match op with
  | CNew p _ _ _ | CNew2 p => set_reg o p 2 true
  | CClone p => set_reg o p (o_refs o p + 1) (o_reg o p)
  | CDropSetReadiness p => set_reg o p (o_refs o p - 1) (o_reg o p)
  | CDropRegistration p => set_reg o p (o_refs o p - 1) false
  | _ => o
  end.

(** The calls the ownership discipline of the language allows: a handle is
    used while it is owned, a new box has a free address.  The flag sets fit
    their four bits, the store is smaller than the address space, and a poll
    has fuel for its nodes. *)
Definition legal w (o : owners) (op : client_op) : Prop :=
  match op with
  | CNew p _ interest opt => w_nodes w !! p = None ∧ ready_0 interest < 2 ^ 4 ∧ opt_0 opt < 2 ^ 4 ∧
      N.of_nat (size (w_nodes w)) < 2 ^ 63
  | CNew2 p => w_nodes w !! p = None
  | CUpdate p _ interest opt _ => o_reg o p = true ∧ ready_0 interest < 2 ^ 4 ∧ opt_0 opt < 2 ^ 4 ∧
      N.of_nat (size (w_nodes w)) < 2 ^ 63
  | CSetReadiness p r => 0 < o_refs o p ∧ ready_0 r < 2 ^ 4
  | CClone p => 0 < o_refs o p ∧ o_refs o p < MAX_REFCOUNT
  | CDropSetReadiness p => (if o_reg o p then 1 else 0) < o_refs o p
  | CDropRegistration p => o_reg o p = true
  | CPoll fuel dst => (size (w_nodes w) < fuel)%nat ∧ Events_len dst <= Events_capacity dst
  | CPrepareForSleep => True
  end.

(** The invariant of the poll and of the owners of its handles. *)
Definition consistent q w (o : owners) : Prop :=
  ∃ x st d, inv w q x st d (o_refs o) ∧
    (∀ p, o_reg o p = true → 0 < o_refs o p) ∧
    ∀ p n, 0 < o_refs o p → contents w !! p = Some n →
      dropped n = negb (o_reg o p) ∧ (n_readiness_queue n = None ∨ n_readiness_queue n = Some q).

Lemma set_reg_ne (o : owners) p r b y : y ≠ p → o_refs (set_reg o p r b) y = o_refs o y ∧ o_reg (set_reg o p r b) y = o_reg o y.
Proof. intros H. cbn. split; [by apply set_refs_ne|by rewrite decide_False]. Qed.
Lemma set_reg_eq (o : owners) p r b : o_refs (set_reg o p r b) p = r ∧ o_reg (set_reg o p r b) p = b.
Proof. cbn. split; [by apply set_refs_eq|by rewrite decide_True]. Qed.

(** One node and what is known of it change. *)
Lemma consistent_set q w o w' x' st' d' p n' r b :
  consistent q w o → inv w' q x' st' d' (set_refs (o_refs o) p r) →
  contents w' = <[p := n']> (contents w) → (b = true → 0 < r) →
  (0 < r → dropped n' = negb b ∧ (n_readiness_queue n' = None ∨ n_readiness_queue n' = Some q)) →
  consistent q w' (set_reg o p r b).
Proof.
  intros (x & st & d & _ & Hreg & Hn) Hi' Ec Hb Hp. exists x', st', d'. split; [done|]. split.
  - intros y. destruct (decide (y = p)) as [->|Hne].
    + by destruct (set_reg_eq o p r b) as [-> ->].
    + destruct (set_reg_ne o p r b y Hne) as [-> ->]. apply Hreg.
  - intros y n. rewrite Ec. destruct (decide (y = p)) as [->|Hne].
    + destruct (set_reg_eq o p r b) as [-> ->]. rewrite lookup_insert_eq. intros Hr [= <-]. by apply Hp.
    + destruct (set_reg_ne o p r b y Hne) as [-> ->]. rewrite lookup_insert_ne by done. apply Hn.
Qed.

Lemma inv_refs_ext w q x st d refs refs' :
  (∀ y, refs' y = refs y) → inv w q x st d refs → inv w q x st d refs'.
Proof.
  intros E [H1 H2 H3 H4 H5 H6 H7]. split; try done.
  - intros y n. rewrite E. apply H3.
  - intros y. rewrite E. apply H5.
Qed.

(** The same, when the handles stay as they are. *)
Lemma consistent_store q w o w' x' st' d' p n n' :
  consistent q w o → inv w' q x' st' d' (o_refs o) →
  contents w !! p = Some n → contents w' = <[p := n']> (contents w) → dropped n' = dropped n →
  n_readiness_queue n' = n_readiness_queue n ∨ n_readiness_queue n' = Some q →
  consistent q w' o.
Proof.
  intros (x & st & d & _ & Hreg & Hn) Hi' Ep Ec Ed Eq. exists x', st', d'.
  split; [done|]. split; [done|]. intros y ny. rewrite Ec. destruct (decide (y = p)) as [->|Hne].
  - rewrite lookup_insert_eq. intros Hr [= <-]. destruct (Hn p n Hr Ep) as [E1 E2].
    split; [congruence|]. destruct Eq as [->|]; [done|by right].
  - rewrite lookup_insert_ne by done. apply Hn.
Qed.

Lemma size_contents w : size (contents w) = size (w_nodes w).
Proof. apply map_size_fmap. Qed.

Lemma strong_size w q x st d refs :
  inv w q x st d refs → q_strong x <= 1 + N.of_nat (size (w_nodes w)).
Proof.
  intros Hi. rewrite (iv_strong _ _ _ _ _ _ Hi), <- size_contents.
  assert (size (filter (held q) (contents w)) <= size (contents w))%nat; [|lia].
  rewrite <- !size_dom. apply subseteq_size, subseteq_dom, map_filter_subseteq.
Qed.

Lemma data_size w q x st d refs : inv w q x st d refs → (length d <= size (w_nodes w))%nat.
Proof.
  intros Hi. rewrite <- size_contents, <- size_dom, <- (size_list_to_set (C:=gset ptr)).
  - apply subseteq_size. intros y. rewrite elem_of_list_to_set. intros Hy.
    destruct (iv_data _ _ _ _ _ _ Hi y Hy) as (n & E & _). by eapply elem_of_dom_2.
  - eapply queue_data_nodup, (iv_queue _ _ _ _ _ _ Hi).
Qed.

(** The node of an owned handle. *)
Lemma owned_node q w o p :
  consistent q w o → 0 < o_refs o p →
  ∃ x st d n, inv w q x st d (o_refs o) ∧ contents w !! p = Some n ∧ p ∉ markers x ∧
    dropped n = negb (o_reg o p) ∧ (n_readiness_queue n = None ∨ n_readiness_queue n = Some q).
Proof.
  intros (x & st & d & Hi & _ & Hn) Hr. destruct (iv_handles _ _ _ _ _ _ Hi p Hr) as [Hm [n En]].
  exists x, st, d, n. destruct (Hn p n Hr En). by split_and!.
Qed.

Lemma safe_create q w o op p :
  consistent q w o → legal w o op →
  (op = CNew2 p ∨ ∃ tok interest opt, op = CNew p tok interest opt) →
  ∃ w', run_op q op w = Done (tt, w') ∧ consistent q w' (after_op op o).
Proof.
  intros Hc Hl Hop. pose proof Hc as (x & st & d & Hi & _).
  assert (w_nodes w !! p = None → contents w !! p = None) as Hfresh
    by (intros E; by rewrite contents_lookup, E).
  destruct Hop as [->|(tok & interest & opt & ->)]; cbn [legal run_op after_op] in *.
  - destruct (new2_ok null_job w q x st d _ p Hi) as (n & w' & E & Hi' & Ec & _ & Hnq & Hd & _); [auto|].
    exists w'. split; [by step by exact E|].
    eapply consistent_set; [done|exact Hi'|exact Ec|done|]. intros _. by rewrite Hd, Hnq; auto.
  - destruct Hl as (Hp & Hint & Hopt & Hsz). pose proof (strong_size _ _ _ _ _ _ Hi).
    destruct (new_ok null_job w q x st d _ p tok interest opt Hi)
      as (n & w' & x' & E & Hi' & Ec & _ & _ & _ & Hnq & Hd & _); [auto|lia|lia|lia|].
    exists w'. split; [by step by exact E|].
    eapply consistent_set; [done|exact Hi'|exact Ec|done|]. intros _. by rewrite Hd, Hnq; auto.
Qed.

Lemma safe_update q w o p tok interest opt job :
  consistent q w o → legal w o (CUpdate p tok interest opt job) →
  ∃ w', run_op q (CUpdate p tok interest opt job) w = Done (tt, w') ∧ consistent q w' o.
Proof.
  intros Hc (Hreg & Hint & Hopt & Hsz). pose proof Hc as (_ & _ & _ & _ & Hr & _).
  destruct (owned_node q w o p Hc (Hr p Hreg)) as (x & st & d & n & Hi & En & Hm & Hd & Hnq).
  rewrite Hreg in Hd. pose proof (strong_size _ _ _ _ _ _ Hi).
  destruct (update_ok w q x st d _ p n tok interest opt job Hi En Hm Hd) as [_ Hu]; [lia|done|done|].
  destruct (Hu Hnq) as (n' & res & w' & x' & E & Hun & Hq' & _ & Ec & Hi' & _).
  exists w'. split; [by cbn [run_op]; step by exact E|].
  eapply consistent_store; [done|exact Hi'|done|exact Ec|apply (un_dropped _ _ _ _ _ _ Hun)|by right].
Qed.

Lemma safe_set_readiness q w o p r :
  consistent q w o → legal w o (CSetReadiness p r) →
  ∃ w', run_op q (CSetReadiness p r) w = Done (tt, w') ∧ consistent q w' o.
Proof.
  intros Hc [Hr Hrd]. destruct (owned_node q w o p Hc Hr) as (x & st & d & n & Hi & En & Hm & Hd & Hnq).
  cbn [run_op]. destruct (dropped n) eqn:Hdr.
  - exists w. split; [|done]. destruct (contents_node _ _ _ En) as (m & Em & Est).
    assert (RS.is_dropped (n_state m) = true) as Hdm by (by rewrite <- Hdr, <- Est).
    assert (set_readiness p r w = Done (IoOk (), w)) as E; [|by step by exact E].
    unfold set_readiness, load_state. erewrite stm_step.
    2:{ step by by apply node_at_Done. reflexivity. }
    unfold AtomicState.load. cbn [set_readiness_loop]. by rewrite Hdm.
  - destruct (set_readiness_ok w q x st d _ p n r Hi En Hm Hdr Hnq Hrd)
      as (res & w' & x' & E & Hi' & Ec & _).
    exists w'. split; [by step by exact E|].
    eapply consistent_store; [done|exact Hi'|done|exact Ec| |by left].
    pose proof (no_word _ _ _ _ (iv_nodes _ _ _ _ _ _ Hi p n En Hm)) as Hwf.
    destruct (readied_spec (n_state n) r Hwf Hrd Hdr) as [_ Ef].
    apply (f_equal f_dropped) in Ef. exact Ef.
Qed.

Lemma safe_clone q w o p :
  consistent q w o → legal w o (CClone p) →
  ∃ w', run_op q (CClone p) w = Done (tt, w') ∧ consistent q w' (after_op (CClone p) o).
Proof.
  intros Hc [Hr Hmax]. destruct (owned_node q w o p Hc Hr) as (x & st & d & n & Hi & En & Hm & Hd & Hnq).
  pose proof (iv_nodes _ _ _ _ _ _ Hi p n En Hm) as Hok. change MAX_REFCOUNT with (2 ^ 63 - 1) in Hmax.
  destruct (inner_clone_ok w q x st d _ p n Hi En Hm Hr) as (w' & E & Hi' & Ec & _); [|done|].
  { change MAX_REFCOUNT with (2 ^ 63 - 1). destruct Hnq as [E|E].
    - destruct (no_free _ _ _ _ Hok E) as (_ & _ & ? & _). lia.
    - destruct (no_owned _ _ _ _ Hok E) as (Erc & _). destruct (_ && _); lia. }
  exists w'. split; [by cbn [run_op]; unfold set_readiness_clone; step by exact E|].
  eapply consistent_set; [done|exact Hi'|exact Ec|lia|]. intros _. by split.
Qed.

(** What is left of a released node. *)
Lemma consistent_released q w o w' x' st' d' p n b r :
  consistent q w o → inv w' q x' st' d' (set_refs (o_refs o) p r) →
  contents w' = released (<[p := n]> (contents w)) p n → (b = true → 0 < r) →
  dropped n = negb b → n_readiness_queue n = None ∨ n_readiness_queue n = Some q →
  consistent q w' (set_reg o p r b).
Proof.
  intros Hc Hi' Ec Hb Hd Hnq. unfold released in Ec. destruct (n_ref_count n =? 1).
  - rewrite delete_insert_eq in Ec. destruct Hc as (x & st & d & Hi & Hreg & Hn).
    assert (r = 0) as ->.
    { destruct (decide (r = 0)); [done|]. destruct (iv_handles _ _ _ _ _ _ Hi' p) as [_ [m Em]].
      - rewrite set_refs_eq. lia.
      - by rewrite Ec, lookup_delete_eq in Em. }
    exists x', st', d'. split; [done|]. split.
    + intros y. destruct (decide (y = p)) as [->|Hne].
      * destruct (set_reg_eq o p 0 b) as [-> ->]. exact Hb.
      * destruct (set_reg_ne o p 0 b y Hne) as [-> ->]. apply Hreg.
    + intros y ny. rewrite Ec. destruct (decide (y = p)) as [->|Hne].
      * by rewrite lookup_delete_eq.
      * destruct (set_reg_ne o p 0 b y Hne) as [-> ->]. rewrite lookup_delete_ne by done. apply Hn.
  - rewrite insert_insert_eq in Ec. eapply consistent_set; [done|done|exact Ec|done|]. intros _. by split.
Qed.

Lemma safe_drop_set_readiness q w o p :
  consistent q w o → legal w o (CDropSetReadiness p) →
  ∃ w', run_op q (CDropSetReadiness p) w = Done (tt, w') ∧
    consistent q w' (after_op (CDropSetReadiness p) o).
Proof.
  intros Hc Hl. cbn [legal] in Hl.
  destruct (owned_node q w o p Hc) as (x & st & d & n & Hi & En & Hm & Hd & Hnq); [destruct (o_reg o p); lia|].
  destruct (release_handle_ok w q x st d _ p n Hi En Hm) as (w' & x' & E & Hi' & Ec & _);
    [destruct (o_reg o p); lia| |done|].
  { destruct (o_reg o p); [right; lia|by left]. }
  exists w'. split; [exact E|]. cbn [after_op].
  eapply consistent_released; [done|exact Hi'|by rewrite insert_id|intros Hb; rewrite Hb in Hl; lia|done|done].
Qed.

Lemma safe_drop_registration q w o p :
  consistent q w o → legal w o (CDropRegistration p) →
  ∃ w', run_op q (CDropRegistration p) w = Done (tt, w') ∧
    consistent q w' (after_op (CDropRegistration p) o).
Proof.
  intros Hc Hreg. cbn [legal] in Hreg. pose proof Hc as (_ & _ & _ & _ & Hr & _).
  destruct (owned_node q w o p Hc (Hr p Hreg)) as (x & st & d & n & Hi & En & Hm & Hd & Hnq).
  rewrite Hreg in Hd. pose proof (no_word _ _ _ _ (iv_nodes _ _ _ _ _ _ Hi p n En Hm)) as Hwf.
  destruct (registration_drop_ok w q x st d _ p n Hi En Hm (Hr p Hreg) Hd Hnq)
    as (w' & x' & r & E & Hi' & Ec & _).
  exists w'. split; [exact E|]. cbn [after_op].
  eapply consistent_released; [done|exact Hi'|exact Ec|done| |done].
  destruct (flagged_spec (n_state n) Hwf Hd) as (_ & _ & Ef). by apply (f_equal f_dropped) in Ef.
Qed.

Lemma safe_poll q w o fuel dst :
  consistent q w o → legal w o (CPoll fuel dst) →
  ∃ w', run_op q (CPoll fuel dst) w = Done (tt, w') ∧ consistent q w' o.
Proof.
  intros (x & st & d & Hi & Hreg & Hn) [Hf Hlen]. pose proof (data_size _ _ _ _ _ _ Hi).
  destruct (queue_poll_ok fuel w q x st d _ dst Hi) as
    (dst' & w' & x' & st' & pl & rest & Ed & E & Hi' & _ & _ & _ & Hps & _); [lia|done|].
  exists w'. split; [by cbn [run_op]; step by exact E|].
  eexists x', st', _. split; [exact Hi'|]. split; [done|]. intros y ny Hr. rewrite (Hps y).
  destruct (decide (y ∈ pl)) as [Hy|]; [|by apply Hn].
  destruct (iv_handles _ _ _ _ _ _ Hi y Hr) as [Hym [n En]]. destruct (Hn y n Hr En) as [Hd Hnq].
  unfold poll_node. rewrite En. destruct (dropped n) eqn:Hdr.
  - unfold released. destruct (_ =? _); [by rewrite lookup_delete_eq|].
    rewrite lookup_insert_eq. intros [= <-]. split; [rewrite <- Hd; exact Hdr|exact Hnq].
  - rewrite lookup_insert_eq. intros [= <-].
    destruct (after_poll_fields null_job n) as (Es & -> & _). split; [|done].
    assert (y ∈ d) as Hyd by (subst d; set_solver).
    assert (queued n = true) as Hqd.
    { destruct (iv_data _ _ _ _ _ _ Hi y Hyd) as (n0 & E0 & Eq0). assert (n0 = n) as -> by congruence.
      destruct (no_owned _ _ _ _ (iv_nodes _ _ _ _ _ _ Hi y n En Hym) Eq0) as (_ & _ & Hs).
      rewrite Hdr in Hs. destruct Hs as [_ ->]. by apply bool_decide_eq_true_2. }
    destruct (polled_queued (n_state n)) as (_ & Epd & _);
      [apply (no_word _ _ _ _ (iv_nodes _ _ _ _ _ _ Hi y n En Hym))|done|done|].
    unfold dropped. by rewrite Es, Epd.
Qed.

Lemma op_safe q w o op :
  consistent q w o → legal w o op →
  ∃ w', run_op q op w = Done (tt, w') ∧ consistent q w' (after_op op o).
Proof.
  intros Hc Hl. destruct op.
  - eapply safe_create; [done|done|eauto].
  - eapply safe_create; [done|done|by left].
  - by apply safe_update.
  - by apply safe_set_readiness.
  - by apply safe_clone.
  - by apply safe_drop_set_readiness.
  - by apply safe_drop_registration.
  - by apply safe_poll.
  - destruct Hc as (x & st & d & Hi & Hreg & Hn).
    destruct (prepare_for_sleep_inv w q x st d _ Hi) as (w' & x' & st' & E & Hi' & Ec & _).
    exists w'. split; [by cbn [run_op]; step by exact E|]. exists x', st', d. by rewrite Ec.
Qed.

(** The states the owners reach, from a new poll, by legal calls. *)
Inductive reachable q : W → owners → Prop :=
  | reach_new a e s c w :
      e ≠ s → e ≠ c → s ≠ c →
      ReadinessQueue_new null_job (IoOk a) q e s c (mkWorld ∅ ∅) = Done (IoOk q, w) →
      reachable q w (mkOwners (λ _, 0) (λ _, false))
  | reach_op w o op w' :
      reachable q w o → legal w o op → run_op q op w = Done (tt, w') →
      reachable q w' (after_op op o).

Lemma reachable_consistent q w o : reachable q w o → consistent q w o.
Proof.
  induction 1 as [a e s c w Hes Hec Hsc E|w o op w' _ IH Hl E].
  - destruct (queue_new_ok null_job a q e s c Hes Hec Hsc) as (w1 & x & E1 & Hi & _).
    rewrite E in E1. injection E1 as <-. exists x, SEnd, []. split; [done|]. split; [done|]. cbn. lia.
  - destruct (op_safe q w o op IH Hl) as (w1 & E1 & Hc). rewrite E in E1. by injection E1 as <-.
Qed.

(** C2 Memory safety and absence of panics: in every state that the owners of
    a poll and of its handles reach, every call they may make returns; no
    assertion fails, no freed node is accessed, no loop runs out of fuel, and
    a node is in the queue exactly when it is live with its queued flag set or
    waits for its last reference to be dropped. *)
Theorem reachable_safe q w o op :
  reachable q w o → legal w o op →
  (∃ w', run_op q op w = Done (tt, w') ∧ reachable q w' (after_op op o)) ∧
  ∃ x st d, inv w q x st d (o_refs o).
Proof.
  intros Hr Hl. pose proof (reachable_consistent q w o Hr) as Hc. split.
  - destruct (op_safe q w o op Hc Hl) as (w' & E & _). exists w'. split; [done|].
    by eapply reach_op.
  - destruct Hc as (x & st & d & Hi & _). eauto.
Qed.
End QueueProps.

(** ** A concrete queue *)

Module QueueDemo.
Abbreviation DW := (World (J:=nat) (P:=N)).
Definition grow (n : N) : N := 2 * n.
Definition tok (k : N) : TokenEntry := mkTokenEntry TokenEvent (mkToken k).
Definition after {A} (m : stm DW A) (w : DW) : DW :=
  match m w with Done (_, w') => w' | _ => w end.

(** A new poll whose queue has the markers 1, 2 and 3; a level-triggered node
    at 10 and an edge-triggered one at 11, both interested in reading; both
    made readable. *)
Definition w0 : DW := after (ReadinessQueue_new 0%nat (IoOk 0) 0 1 2 3) (mkWorld ∅ ∅).
Definition w1 : DW := after (new 0%nat 0 10 (tok 100) Ready.readable PollOpt.level) w0.
Definition w2 : DW := after (new 0%nat 0 11 (tok 110) Ready.readable PollOpt.edge) w1.
Definition w3 : DW := after (set_readiness 10 Ready.readable) w2.
Definition w4 : DW := after (set_readiness 11 Ready.readable) w3.
Definition refs1 : ptr → N := set_refs (λ _, 0) 10 2.
Definition refs2 : ptr → N := set_refs refs1 11 2.

Lemma after_Done {A} (m : stm DW A) w a w' : m w = Done (a, w') → after m w = w'.
Proof. unfold after. by intros ->. Qed.

Lemma w0_inv : ∃ x, inv w0 0 x SEnd [] (λ _, 0) ∧ markers x = [1; 2; 3].
Proof.
  destruct (queue_new_ok 0%nat 0 0 1 2 3) as (w & x & E & Hi & _ & Em & _); [done..|].
  exists x. unfold w0. by rewrite (after_Done _ _ _ _ E).
Qed.

Lemma new_inv w x st d refs p t i o :
  inv w 0 x st d refs → markers x = [1; 2; 3] → contents w !! p = None →
  N.of_nat (size (w_nodes w)) < 100 → ready_0 i <= 15 → opt_0 o <= 15 →
  ∃ x', inv (after (new 0%nat 0 p t i o) w) 0 x' st d (set_refs refs p 2) ∧ markers x' = [1; 2; 3].
Proof.
  intros Hi Em Hp Hsz Hint Hopt. pose proof (strong_size _ _ _ _ _ _ Hi).
  destruct (new_ok 0%nat w 0 x st d refs p t i o Hi Hp) as (n & w' & x' & E & Hi' & _ & Em' & _);
    [lia|done|done|].
  exists x'. rewrite (after_Done _ _ _ _ E). by rewrite Em'.
Qed.

Lemma w2_inv : ∃ x, inv w2 0 x SEnd [] refs2 ∧ markers x = [1; 2; 3].
Proof.
  destruct w0_inv as (x0 & Hi0 & Em0).
  destruct (new_inv w0 x0 SEnd [] _ 10 (tok 100) Ready.readable PollOpt.level Hi0 Em0)
    as (x1 & Hi1 & Em1); [by vm_compute..|].
  by destruct (new_inv w1 x1 SEnd [] _ 11 (tok 110) Ready.readable PollOpt.edge Hi1 Em1)
    as (x2 & Hi2 & Em2); [by vm_compute..|eauto].
Qed.

Definition node (w : DW) (p : ptr) : ReadinessNode (J:=nat) :=
  default (mkNode (mkRS 0) (tok 0) (tok 0) (tok 0) None false None 0 0%nat) (contents w !! p).

(** Making a live node ready, with the outcome computed. *)
Lemma ready_inv w x st d refs p n r d' :
  inv w 0 x st d refs → markers x = [1; 2; 3] → contents w !! p = Some n → p ∉ [1; 2; 3] →
  dropped n = false → n_readiness_queue n = Some 0 → ready_0 r < 2 ^ 4 →
  (if joins n (readied (n_state n) r) then d ++ [p] else d) = d' →
  ∃ x', inv (after (set_readiness p r) w) 0 x' st d' refs ∧ markers x' = [1; 2; 3].
Proof.
  intros Hi Em En Hp Hd Hq Hr <-. rewrite <- Em in Hp.
  destruct (set_readiness_ok w 0 x st d refs p n r Hi En Hp Hd (or_intror Hq) Hr)
    as (res & w' & x' & E & Hi' & _ & Em' & _).
  exists x'. rewrite (after_Done _ _ _ _ E). by rewrite Em'.
Qed.

Lemma w4_inv : ∃ x, inv w4 0 x SEnd [10; 11] refs2 ∧ markers x = [1; 2; 3].
Proof.
  destruct w2_inv as (x2 & Hi2 & Em2).
  destruct (ready_inv w2 x2 SEnd [] refs2 10 (node w2 10) Ready.readable [10] Hi2 Em2) as (x3 & Hi3 & Em3);
    [by vm_compute|set_solver|by vm_compute|by vm_compute|by vm_compute|by vm_compute|].
  destruct (ready_inv w3 x3 SEnd [10] refs2 11 (node w3 11) Ready.readable [10; 11] Hi3 Em3) as (x4 & Hi4 & Em4);
    [by vm_compute|set_solver|by vm_compute|by vm_compute|by vm_compute|by vm_compute|eauto].
Qed.
End QueueDemo.
Import QueueDemo.

Lemma queue_poll_spec_witness :
  ∃ x, inv w4 0 x SEnd [10; 11] refs2 ∧
  ∃ dst' w' polled rest, [10; 11] = polled ++ rest ∧
    queue_poll 0%nat grow 5 0 (Events_with_capacity 8) w4 = Done (dst', w') ∧
    ev_events dst' = (λ r, mkEpollEvent (ioevent_to_epoll (Event_readiness r.1) PollOpt.empty)
      (token_val (token (event_token r.1)))) <$> omap (reported (contents w4)) polled ∧
    ev_events dst' = [mkEpollEvent EPOLLIN 100; mkEpollEvent EPOLLIN 110] ∧
    Events_capacity dst' = 8 ∧ (rest = [] ∨ Events_len dst' = 8).
Proof.
  destruct w4_inv as (x & Hi & _). exists x. split; [exact Hi|].
  destruct (queue_poll_spec 0%nat grow 5 w4 0 x SEnd [10; 11] refs2 (Events_with_capacity 8) Hi)
    as (dst' & w' & x' & st' & pl & rest & Ed & E & _ & _ & Eev & _ & Ecap & _ & Hend & _);
    [cbn; lia|by vm_compute|].
  exists dst', w', pl, rest. split; [exact Ed|]. split; [exact E|]. split; [exact Eev|].
  split; [|by split]. vm_compute in E. injection E as <- _. vm_compute. reflexivity.
Defined.

Lemma sleep_then_notify_wakes_witness :
  ∃ x, inv w2 0 x SEnd [] refs2 ∧
  ∃ w1 x1 st1, prepare_for_sleep 0 w2 = Done (bool_decide (@nil ptr = []), w1) ∧
    inv w1 0 x1 st1 [] refs2 ∧ q_awakener x1 = q_awakener x ∧
    ∀ p n r, contents w2 !! p = Some n → p ∉ markers x → dropped n = false →
      n_readiness_queue n = Some 0 → queued n = false → ready_0 r < 2 ^ 4 →
      N.land (ready_0 r) (f_interest (fields (n_state n))) ≠ 0 →
      ∃ res w2 x2 st2, set_readiness p r w1 = Done (res, w2) ∧
        inv w2 0 x2 st2 ([] ++ [p]) refs2 ∧
        (@nil ptr = [] →
         match res with
         | IoOk _ => 0 < pipe_len (q_awakener x2)
         | IoErr e => wakeup (q_awakener x) = (IoErr e, q_awakener x2)
         end).
Proof.
  destruct w2_inv as (x & Hi & _). exists x. split; [exact Hi|].
  exact (sleep_then_notify_wakes w2 0 x SEnd [] refs2 Hi).
Defined.

Lemma set_readiness_spec_witness :
  ∃ x, inv w2 0 x SEnd [] refs2 ∧
  ∃ n' res w' x', set_readiness 10 Ready.readable w2 = Done (res, w') ∧
    fields (n_state n') =
      with_queued (queued (node w2 10) ||
          negb (N.land (ready_0 Ready.readable) (f_interest (fields (n_state (node w2 10)))) =? 0))
        (with_readiness (ready_0 Ready.readable) (fields (n_state (node w2 10)))) ∧
    contents w' = <[10 := n']> (contents w2) ∧
    inv w' 0 x' SEnd (if negb (queued (node w2 10)) && queued n' then [] ++ [10] else []) refs2 ∧
    woken (negb (queued (node w2 10)) && queued n' && asleep SEnd []) (q_awakener x) res (q_awakener x').
Proof.
  destruct w2_inv as (x & Hi & Em). exists x. split; [exact Hi|].
  apply (set_readiness_spec w2 0 x SEnd [] refs2 10 (node w2 10) Ready.readable Hi);
    [by vm_compute|rewrite Em; set_solver|right; by vm_compute|by vm_compute].
Defined.

Lemma update_spec_witness :
  ∃ x, inv w2 0 x SEnd [] refs2 ∧
  ∃ n' res w' x', update 10 0 (tok 101) Ready.writable PollOpt.edge 7%nat w2 = Done (res, w') ∧
    update_node (node w2 10) (tok 101) Ready.writable PollOpt.edge 7%nat n' ∧
    n_readiness_queue n' = Some 0 ∧
    n_ref_count n' = n_ref_count (node w2 10) +
      (if decide (n_readiness_queue (node w2 10) = None) then 1 else 0) ∧
    contents w' = <[10 := n']> (contents w2) ∧
    inv w' 0 x' SEnd (if joins (node w2 10) (n_state n') then [] ++ [10] else []) refs2 ∧
    woken (joins (node w2 10) (n_state n') && asleep SEnd []) (q_awakener x) res (q_awakener x').
Proof.
  destruct w2_inv as (x & Hi & Em). exists x. split; [exact Hi|].
  pose proof (strong_size _ _ _ _ _ _ Hi) as Hs.
  assert (N.of_nat (size (w_nodes w2)) = 5) as Hsz by by vm_compute.
  refine (proj1 (proj2 (update_spec 0%nat w2 0 x SEnd [] refs2 10 (node w2 10) (tok 101)
    Ready.writable PollOpt.edge 7%nat Hi _ _ _ _ _ _)) _);
    [by vm_compute|rewrite Em; set_solver|by vm_compute|lia|by vm_compute|by vm_compute|right; by vm_compute].
Defined.

Lemma not_marker_11 : (11 : ptr) ∉ [1; 2; 3].
Proof. set_solver. Qed.

(** The [SetReadiness] of the node at 11 is dropped, then its registration. *)
Definition refs3 : ptr → N := set_refs refs2 11 1.

Lemma dropped_node_is_reclaimed_witness :
  ∃ x, inv (after (set_readiness_drop 11) w4) 0 x SEnd [10; 11] refs3 ∧
  ∃ w1 x1, registration_drop 11 (after (set_readiness_drop 11) w4) = Done (tt, w1) ∧
    inv w1 0 x1 SEnd
      (if queued (node (after (set_readiness_drop 11) w4) 11) then [10; 11] else [10; 11] ++ [11])
      (set_refs refs3 11 0) ∧
    is_Some (contents w1 !! 11) ∧
    ∃ dst' w2, queue_poll 0%nat grow 5 0 (Events_with_capacity 8) w1 = Done (dst', w2) ∧
      (Events_len dst' < Events_capacity dst' → contents w2 !! 11 = None).
Proof.
  destruct w4_inv as (x & Hi & Em).
  destruct (release_handle_ok w4 0 x SEnd [10; 11] refs2 11 (node w4 11) Hi)
    as (w5 & x5 & E5 & Hi5 & _ & Em5 & _);
    [by vm_compute|rewrite Em; exact not_marker_11|by vm_compute|right; by vm_compute|right; by vm_compute|].
  assert (after (set_readiness_drop 11) w4 = w5) as Ew by (by apply (after_Done _ _ tt)).
  exists x5. rewrite Ew. split; [exact Hi5|]. rewrite <- Ew in *.
  apply (dropped_node_is_reclaimed 0%nat grow 5 _ 0 x5 SEnd [10; 11] refs3 11
    (node (after (set_readiness_drop 11) w4) 11) (Events_with_capacity 8) Hi5);
    [by vm_compute|rewrite Em5, Em; exact not_marker_11|by vm_compute|by vm_compute|by vm_compute|cbn; lia|by vm_compute].
Defined.

Lemma reachable_safe_witness :
  (∃ w', run_op 0%nat grow 0 (CNew 10 (tok 100) Ready.readable PollOpt.level) w0 = Done (tt, w') ∧
     reachable 0%nat grow 0 w' (after_op (CNew (J:=nat) 10 (tok 100) Ready.readable PollOpt.level)
       (mkOwners (λ _, 0) (λ _, false)))) ∧
  ∃ x st d, inv w0 0 x st d (λ _, 0).
Proof.
  apply (reachable_safe 0%nat grow 0 w0 (mkOwners (λ _, 0) (λ _, false))
    (CNew 10 (tok 100) Ready.readable PollOpt.level)).
  - apply (reach_new 0%nat grow 0 0 1 2 3); [done..|]. by vm_compute.
  - by vm_compute.
Defined.
