(* ===== verification/Mpsc.v ===== *)
(** * The readiness queue under concurrency

    [enqueue_node], [dequeue_node], [clear_sleep_marker] and
    [prepare_for_sleep] of [src/src/poll.rs] again, this time interleaved: any
    number of producers, each in the middle of its own [enqueue_node], and the
    one consumer that holds the lock of the poll.  A step is one access to the
    shared memory, taken in program order; [tail_readiness] is the consumer's
    own.  [q_flags] holds the nodes whose queued flag is set: a producer takes
    a node by setting the flag, the consumer may clear that of a node it has
    dequeued (see [ReadinessState] for the word itself).

    The calls run one after the other in [ReadinessQueue]; what is shown here
    is what the interleaving adds. *)
From S2P Require Import Prelude ReadinessQueue.

Section Mpsc.
(** The three markers. *)
Context (end_marker sleep_marker closed_marker : ptr).

Definition is_marker (p : ptr) : bool :=
  (p =? end_marker) || (p =? sleep_marker) || (p =? closed_marker).

(** The links, the head, and whether the pipe of the awakener holds a byte. *)
Record Memory := mkMemory {
  links : gmap ptr ptr;
  head_readiness : ptr;
  awake : bool;
}.

Definition load_link (p : ptr) (m : Memory) : option ptr := links m !! p.
Definition store_link (p : ptr) (v : option ptr) (m : Memory) : Memory :=
  mkMemory (partial_alter (λ _, v) p (links m)) (head_readiness m) (awake m).
(** [compare_exchange] on the head: the value it had. *)
Definition cas_link (current new : ptr) (m : Memory) : ptr * Memory :=
  (head_readiness m,
   if head_readiness m =? current then mkMemory (links m) new (awake m) else m).
Definition set_awake (b : bool) (m : Memory) : Memory :=
  mkMemory (links m) (head_readiness m) b.

(** ** [enqueue_node] *)

(** Where a thread is in [enqueue_node p]: before the store of the null link;
    before the load of the head; at the exchange with the head it saw; before
    the assertion and the store of the link of [prev]; returning.  [EClosed] is
    the branch of a closed queue, which gives the node back. *)
Inductive epc : Set :=
  | EStore (p : ptr)
  | ELoad (p : ptr)
  | ECas (p prev : ptr)
  | EAssert (p prev : ptr)
  | ELink (p prev : ptr)
  | EDone (wake : bool)
  | EClosed (p : ptr).

Definition enqueue_step (m : Memory) (l : epc) : exec (epc * Memory) :=
  match l with
  | EStore p => Done (ELoad p, store_link p None m)
  | ELoad p => Done (ECas p (head_readiness m), m)
  | ECas p prev =>
      if prev =? closed_marker then Done (EClosed p, m)
      else
        let '(val, m) := cas_link prev p m in
        Done (if val =? prev then EAssert p prev else ECas p val, m)
  | EAssert p prev =>
      assert (is_null (load_link prev m)) ≫= λ _, Done (ELink p prev, m)
  | ELink p prev =>
      Done (EDone (prev =? sleep_marker), store_link prev (Some p) m)
  | EDone _ | EClosed _ => Done (l, m)
  end.

(** ** The producers *)

(** Outside; in [enqueue_node]; before the byte that wakes the poll. *)
Inductive ppc : Set :=
  | PIdle
  | PEnq (l : epc)
  | PWake.

(** ** The consumer *)

(** Outside, where it may hold a node it dequeued; the loads and the exchange
    of [dequeue_node], of [clear_sleep_marker] and of [prepare_for_sleep]; the
    enqueue of the end marker and that of a node put back; the wait. *)
Inductive cpc : Set :=
  | CIdle
  | CNext1 (until : option ptr)
  | CNext2 (until : option ptr)
  | CHead
  | CEnd (l : epc)
  | CNext3
  | CClear1
  | CClear2
  | CData (p : ptr)
  | CRequeue (l : epc)
  | CPrepHead
  | CPrep1
  | CPrep2
  | CPrep3
  | CWaiting.

(** What a step reports: a node that enters the queue, one that leaves it. *)
Inductive event : Set :=
  | Enqueued (p : ptr)
  | Dequeued (p : ptr).

(** Taking [next] as the tail and returning the node at the old one. *)
Definition take_data (tail : ptr) (next : option ptr) (none : cpc) : cpc * ptr * list event :=
  match next with
  | Some next => (CData tail, next, [Dequeued tail])
  | None => (none, tail, [])
  end.

(** [dequeue_node] after the load of the link. *)
Definition after_load (until : option ptr) (tail : ptr) (next : option ptr)
    : cpc * ptr * list event :=
  if bool_decide (Some tail = until) then (CIdle, tail, [])
  else take_data tail next CHead.

(** The node that enters the queue with a step of [enqueue_node]. *)
Definition enqueue_event (l l' : epc) : list event :=
  match l, l' with
  | ECas p _, EAssert _ _ => if is_marker p then [] else [Enqueued p]
  | _, _ => []
  end.

(** A step of the consumer within a call: where it is then, its tail, the
    memory and what it reports. *)
Definition consumer_step (c : cpc) (tail : ptr) (m : Memory)
    : exec (option (cpc * ptr * Memory * list event)) :=
  match c with
  | CNext1 until =>
      let next := load_link tail m in
      Done (Some (
        if is_marker tail then
          match next with
          | None => (if tail =? sleep_marker then CClear1 else CIdle, tail, m, [])
          | Some next => (CNext2 until, next, m, [])
          end
        else let '(c, tail, es) := after_load until tail next in (c, tail, m, es)))
  | CNext2 until =>
      let '(c, tail, es) := after_load until tail (load_link tail m) in
      Done (Some (c, tail, m, es))
  | CHead =>
      Done (Some (if negb (head_readiness m =? tail) then CIdle else CEnd (EStore end_marker),
                  tail, m, []))
  | CEnd (EDone _) | CEnd (EClosed _) => Done (Some (CNext3, tail, m, []))
  | CEnd l =>
      enqueue_step m l ≫= λ '(l', m), Done (Some (CEnd l', tail, m, enqueue_event l l'))
  | CNext3 =>
      let '(c, tail, es) := take_data tail (load_link tail m) CIdle in
      Done (Some (c, tail, m, es))
  | CClear1 => Done (Some (CClear2, tail, store_link end_marker None m, []))
  | CClear2 =>
      let '(val, m) := cas_link sleep_marker end_marker m in
      assert (negb (val =? end_marker)) ≫= λ _,
      Done (Some (CIdle, if val =? sleep_marker then end_marker else tail, m, []))
  | CRequeue (EDone _) | CRequeue (EClosed _) => Done (Some (CIdle, tail, m, []))
  | CRequeue l =>
      enqueue_step m l ≫= λ '(l', m), Done (Some (CRequeue l', tail, m, enqueue_event l l'))
  | CPrepHead =>
      Done (Some (if head_readiness m =? sleep_marker then CWaiting else CIdle, tail, m, []))
  | CPrep1 => Done (Some (CPrep2, tail, store_link sleep_marker None m, []))
  | CPrep2 =>
      let '(val, m) := cas_link end_marker sleep_marker m in
      assert (negb (val =? sleep_marker)) ≫= λ _,
      Done (Some (if val =? end_marker then CPrep3 else CIdle, tail, m, []))
  | CPrep3 =>
      assert (tail =? end_marker) ≫= λ _,
      assert (is_null (load_link end_marker m)) ≫= λ _,
      Done (Some (CWaiting, sleep_marker, m, []))
  | CIdle | CData _ | CWaiting => Done None
  end.

(** ** The system *)

Record System := mkSystem {
  memory : Memory;
  tail_readiness : ptr;
  q_flags : gset ptr;
  consumer : cpc;
  producers : list ppc;
}.

Definition with_consumer (c : cpc) (x : System) : System :=
  mkSystem (memory x) (tail_readiness x) (q_flags x) c (producers x).
Definition with_producer (i : nat) (l : ppc) (x : System) : System :=
  mkSystem (memory x) (tail_readiness x) (q_flags x) (consumer x) (<[i := l]> (producers x)).
Definition with_memory (m : Memory) (x : System) : System :=
  mkSystem m (tail_readiness x) (q_flags x) (consumer x) (producers x).
Definition with_flags (f : gset ptr) (x : System) : System :=
  mkSystem (memory x) (tail_readiness x) f (consumer x) (producers x).

(** The calls the consumer can begin when it is outside: [dequeue_node],
    [clear_sleep_marker], which ends at once for another tail, and
    [prepare_for_sleep]. *)
Definition clear_call (x : System) : cpc :=
  if negb (tail_readiness x =? sleep_marker) then CIdle else CClear1.
Definition prepare_call (x : System) : cpc :=
  if tail_readiness x =? sleep_marker then CPrepHead
  else if negb (tail_readiness x =? end_marker) then CIdle
  else CPrep1.

Inductive step : System → list event → System → Prop :=
  (** A producer sets the queued flag of a node and enqueues it. *)
  | step_produce x i p :
      producers x !! i = Some PIdle → is_marker p = false → p ∉ q_flags x →
      step x [] (with_flags ({[p]} ∪ q_flags x) (with_producer i (PEnq (EStore p)) x))
  | step_enqueue x i l l' m :
      producers x !! i = Some (PEnq l) → (∀ b, l ≠ EDone b) → (∀ p, l ≠ EClosed p) →
      enqueue_step (memory x) l = Done (l', m) →
      step x (enqueue_event l l') (with_memory m (with_producer i (PEnq l') x))
  | step_enqueued x i b :
      producers x !! i = Some (PEnq (EDone b)) →
      step x [] (with_producer i (if b : bool then PWake else PIdle) x)
  | step_given_back x i p :
      producers x !! i = Some (PEnq (EClosed p)) → step x [] (with_producer i PIdle x)
  | step_wake x i :
      producers x !! i = Some PWake →
      step x [] (with_memory (set_awake true (memory x)) (with_producer i PIdle x))
  | step_consume x c tail m es :
      consumer_step (consumer x) (tail_readiness x) (memory x) = Done (Some (c, tail, m, es)) →
      step x es (mkSystem m tail (q_flags x) c (producers x))
  | step_dequeue x until :
      consumer x = CIdle → step x [] (with_consumer (CNext1 until) x)
  | step_clear x :
      consumer x = CIdle → step x [] (with_consumer (clear_call x) x)
  | step_prepare x :
      consumer x = CIdle → step x [] (with_consumer (prepare_call x) x)
  (** What [poll] does with a node: it clears its flag, or puts it back. *)
  | step_unqueue x p :
      consumer x = CData p → step x [] (with_consumer CIdle (with_flags (q_flags x ∖ {[p]}) x))
  | step_requeue x p :
      consumer x = CData p → step x [] (with_consumer (CRequeue (EStore p)) x)
  (** The wait ends, for whatever reason, and the awakener may be emptied. *)
  | step_wait_ends x :
      consumer x = CWaiting → step x [] (with_consumer CIdle x)
  | step_cleanup x :
      consumer x = CIdle → step x [] (with_memory (set_awake false (memory x)) x).

Definition initial (n : nat) : System :=
  mkSystem (mkMemory ∅ end_marker false) end_marker ∅ CIdle (replicate n PIdle).

(** The states [n] producers and the consumer can reach, with what happened. *)
Inductive reachable (n : nat) : System → list event → Prop :=
  | reach_initial : reachable n (initial n) []
  | reach_step x tr es x' : reachable n x tr → step x es x' → reachable n x' (tr ++ es).

(** The nodes that entered, and those that left, in order. *)
Definition entered (tr : list event) : list ptr :=
  omap (λ e, match e with Enqueued p => Some p | Dequeued _ => None end) tr.
Definition left_queue (tr : list event) : list ptr :=
  omap (λ e, match e with Dequeued p => Some p | Enqueued _ => None end) tr.

(** The consumer alone, until its call is over: it has no loop but the one of
    [enqueue_node], so a dozen steps are enough. *)
Fixpoint run_consumer (fuel : nat) (x : System) (es : list event) : exec (System * list event) :=
  match fuel with
  | O => NoFuel
  | S fuel =>
      consumer_step (consumer x) (tail_readiness x) (memory x) ≫= λ r,
      match r with
      | None => Done (x, es)
      | Some (c, tail, m, es') =>
          run_consumer fuel (mkSystem m tail (q_flags x) c (producers x)) (es ++ es')
      end
  end.
End Mpsc.
