(* ===== verification/MpscInv.v ===== *)
(** * The readiness queue under concurrency: invariants

    The chain of nodes from the tail to the head, in which a link may be
    missing exactly where a thread is between its exchange of the head and its
    store of the link. *)
From S2P Require Import Prelude ReadinessQueue Mpsc.

(** ** The chain *)

(** The node a thread in [enqueue_node] has not put in the chain yet. *)
Definition outside (l : epc) : option ptr :=
  match l with
  | EStore p | ELoad p | ECas p _ => Some p
  | _ => None
  end.
(** The node it has put there, and the one whose link it is to store. *)
Definition linking (l : epc) : option (ptr * ptr) :=
  match l with
  | EAssert p prev | ELink p prev => Some (p, prev)
  | _ => None
  end.
Definition holds (l : epc) : option ptr :=
  match outside l with Some p => Some p | None => fst <$> linking l end.

Section Chain.
Context (end_marker sleep_marker closed_marker : ptr).
#[local] Abbreviation enq_step := (enqueue_step sleep_marker closed_marker).
Implicit Types (m : Memory) (L : list ptr).

(** [T] gives the threads in [enqueue_node]; [None] is the consumer. *)
Record chain (m : Memory) (tl : ptr) (L : list ptr) (T : option nat → option epc) : Prop := {
  ch_first : head L = Some tl;
  ch_last : last L = Some (head_readiness m);
  ch_nodup : NoDup L;
  ch_link : ∀ L1 a b L2, L = L1 ++ a :: b :: L2 →
    links m !! a = Some b ∨
    links m !! a = None ∧ ∃ t l, T t = Some l ∧ linking l = Some (b, a);
  ch_head : links m !! head_readiness m = None;
  ch_linking : ∀ t l p prev, T t = Some l → linking l = Some (p, prev) →
    (∃ L1 L2, L = L1 ++ prev :: p :: L2) ∧ links m !! prev = None;
  ch_outside : ∀ t l p, T t = Some l → outside l = Some p →
    p ∉ L ∧ (l ≠ EStore p → links m !! p = None);
  ch_own : ∀ t1 t2 l1 l2 p, T t1 = Some l1 → T t2 = Some l2 →
    holds l1 = Some p → holds l2 = Some p → t1 = t2;
  ch_open : closed_marker ∉ L;
}.

Definition upd (T : option nat → option epc) (t : option nat) (o : option epc) :
    option nat → option epc := λ t', if decide (t' = t) then o else T t'.

Lemma upd_eq T t o : upd T t o t = o.
Proof. unfold upd. by rewrite decide_True. Qed.
Lemma upd_ne T t o t' : t' ≠ t → upd T t o t' = T t'.
Proof. intros. unfold upd. by rewrite decide_False. Qed.

Lemma holds_outside l p : outside l = Some p → holds l = Some p.
Proof. unfold holds. by intros ->. Qed.
Lemma holds_linking l p prev : linking l = Some (p, prev) → holds l = Some p.
Proof. by destruct l; intros [= -> ->]. Qed.

(** The place of a node in a list without duplicates. *)
Lemma nodup_place {A} (L1 L2 L3 L4 : list A) a :
  NoDup (L1 ++ a :: L2) → L1 ++ a :: L2 = L3 ++ a :: L4 → L1 = L3 ∧ L2 = L4.
Proof.
  revert L3. induction L1 as [|b L1 IH]; intros [|c L3] Hn E; cbn in *.
  - by injection E as ->.
  - injection E as <- ->. apply NoDup_cons in Hn as [Hn _]. set_solver.
  - injection E as -> <-. apply NoDup_cons in Hn as [Hn _]. set_solver.
  - injection E as <- E. apply NoDup_cons in Hn as [_ Hn]. destruct (IH _ Hn E) as [-> ->]. done.
Qed.

Lemma place_next {A} (L1 L2 L3 L4 : list A) a b c :
  NoDup (L1 ++ a :: b :: L2) → L1 ++ a :: b :: L2 = L3 ++ a :: c :: L4 → b = c.
Proof. intros Hn E. destruct (nodup_place _ _ _ _ _ Hn E) as [_ [= -> _]]. done. Qed.

Lemma place_not_last {A} (L1 L2 : list A) a b : NoDup (L1 ++ a :: b :: L2) →
  last (L1 ++ a :: b :: L2) ≠ Some a.
Proof.
  intros Hn E. rewrite last_app_cons, last_cons_cons in E.
  apply last_Some in E as [l E]. rewrite E in Hn.
  apply NoDup_app in Hn as (_ & _ & Hn). apply NoDup_cons in Hn as [Hn _].
  apply Hn. set_solver.
Qed.

Lemma chain_head_in m tl L T : chain m tl L T → head_readiness m ∈ L.
Proof. intros H. apply last_Some_elem_of, (ch_last _ _ _ _ H). Qed.

Lemma chain_last_place m tl L T a b L1 L2 :
  chain m tl L T → L = L1 ++ a :: b :: L2 → a ≠ head_readiness m.
Proof.
  intros H -> ->. apply (place_not_last _ _ _ _ (ch_nodup _ _ _ _ H)), (ch_last _ _ _ _ H).
Qed.

Lemma chain_ext_threads m tl L T T' :
  chain m tl L T → (∀ t, T t = T' t) → chain m tl L T'.
Proof.
  intros [C1 C2 C3 C4 C5 C6 C7 C8 C9] E. split; try done; setoid_rewrite <- E; done.
Qed.

(** A thread that links nothing, before and after, and changes no link of the
    chain. *)
Lemma chain_update m m' tl L T t o :
  chain m tl L T → head_readiness m' = head_readiness m →
  (∀ a, a ∈ L → links m' !! a = links m !! a) →
  (∀ l, T t = Some l → linking l = None) →
  (∀ l, o = Some l → linking l = None ∧ ∀ p, outside l = Some p →
     p ∉ L ∧ (l ≠ EStore p → links m' !! p = None) ∧
     ∀ t' l', t' ≠ t → T t' = Some l' → holds l' ≠ Some p) →
  (∀ t' l' q, t' ≠ t → T t' = Some l' → outside l' = Some q → links m' !! q = links m !! q) →
  chain m' tl L (upd T t o).
Proof.
  intros H Eh El Hl Ho Hq. pose proof (chain_head_in _ _ _ _ H) as Hin.
  destruct H as [C1 C2 C3 C4 C5 C6 C7 C8 C9].
  assert (∀ t' l', upd T t o t' = Some l' → t' ≠ t ∧ T t' = Some l' ∨ t' = t ∧ o = Some l') as Hu.
  { intros t' l'. unfold upd. destruct (decide (t' = t)); auto. }
  split; try done.
  - by rewrite Eh.
  - intros L1 a b L2 E. rewrite El by (rewrite E; set_solver).
    destruct (C4 L1 a b L2 E) as [?|(? & t' & l' & Et & Elk)]; [by left|right]. split; [done|].
    exists t', l'. split; [|done]. rewrite upd_ne; [done|]. intros ->. by rewrite (Hl l') in Elk.
  - by rewrite Eh, El.
  - intros t' l' p prev [[_ Et]|[-> Et]]%Hu Elk; [|by rewrite (proj1 (Ho l' Et)) in Elk].
    destruct (C6 t' l' p prev Et Elk) as [[L1 [L2 E]] En]. split; [by exists L1, L2|].
    rewrite El; [done|]. rewrite E. set_solver.
  - intros t' l' p [[Hne Et]|[-> Et]]%Hu Eo.
    + destruct (C7 t' l' p Et Eo) as [Hp Hn]. split; [done|]. intros Hs.
      rewrite (Hq t' l' p Hne Et Eo). by apply Hn.
    + destruct (proj2 (Ho l' Et) p Eo) as (? & ? & _). done.
  - intros t1 t2 l1 l2 p [[Hn1 E1]|[-> E1]]%Hu [[Hn2 E2]|[-> E2]]%Hu H1 H2;
      [by eapply C8|exfalso..|done].
    + destruct (Ho l2 E2) as [Elk Ho2]. unfold holds in H2. rewrite Elk in H2.
      destruct (outside l2) as [p'|] eqn:Eo; [|done]. injection H2 as ->.
      by destruct (Ho2 p eq_refl) as (_ & _ & Hno); destruct (Hno t1 l1 Hn1 E1).
    + destruct (Ho l1 E1) as [Elk Ho1]. unfold holds in H1. rewrite Elk in H1.
      destruct (outside l1) as [p'|] eqn:Eo; [|done]. injection H1 as ->.
      by destruct (Ho1 p eq_refl) as (_ & _ & Hno); destruct (Hno t2 l2 Hn2 E2).
Qed.

(** The exchange of the head. *)
Lemma chain_push m tl L T t p :
  chain m tl L T → T t = Some (ECas p (head_readiness m)) → p ≠ closed_marker →
  chain (mkMemory (links m) p (awake m)) tl (L ++ [p]) (upd T t (Some (EAssert p (head_readiness m)))).
Proof.
  intros H Et Hp. pose proof H as [C1 C2 C3 C4 C5 C6 C7 C8 C9].
  destruct (C7 t _ p Et eq_refl) as [HpL Hpn]. specialize (Hpn ltac:(done)).
  destruct (proj1 (last_Some _ _) C2) as [L0 EL].
  assert (∀ t' l' , upd T t (Some (EAssert p (head_readiness m))) t' = Some l' →
    t' ≠ t ∧ T t' = Some l' ∨ t' = t ∧ l' = EAssert p (head_readiness m)) as Hu.
  { intros t' l'. unfold upd. destruct (decide (t' = t)); intros E; [right|left]; by simplify_eq. }
  split; cbn [links head_readiness].
  - destruct L; [done|]. exact C1.
  - by rewrite last_snoc.
  - apply NoDup_app. split; [done|]. split; [set_solver|apply NoDup_singleton].
  - intros L1 a b L2 E. destruct (decide (L2 = [])) as [->|HL2].
    + rewrite EL, <- app_assoc in E. cbn in E.
      apply (f_equal reverse) in E. rewrite !reverse_app in E. cbn in E.
      injection E as <- <- _. right. split; [done|].
      exists t, (EAssert p (head_readiness m)). by rewrite upd_eq.
    + destruct (exists_last HL2) as (L2' & z & ->).
      assert (L = L1 ++ a :: b :: L2') as E'.
      { rewrite (app_assoc L1 (a :: b :: L2') [z] : L1 ++ a :: b :: L2' ++ [z] = _) in E.
        by apply app_inj_tail in E as [-> _]. }
      destruct (C4 L1 a b L2' E') as [?|(? & t' & l' & E1 & E2)]; [by left|right]. split; [done|].
      exists t', l'. split; [|done]. rewrite upd_ne; [done|]. intros ->. by simplify_eq.
  - done.
  - intros t' l' q prev [[_ E1]|[-> ->]]%Hu E2.
    + destruct (C6 t' l' q prev E1 E2) as [(L1 & L2 & ->) Hn]. split; [|done].
      exists L1, (L2 ++ [p]). by rewrite <- app_assoc.
    + injection E2 as <- <-. split; [|done]. exists L0, []. by rewrite EL, <- app_assoc.
  - intros t' l' q [[Hne E1]|[-> ->]]%Hu E2; [|done].
    destruct (C7 t' l' q E1 E2) as [Hq Hn]. split; [|done]. rewrite elem_of_app, list_elem_of_singleton.
    intros [?| ->]; [done|]. apply Hne. eapply C8; [exact E1|exact Et|by apply holds_outside|done].
  - intros t1 t2 l1 l2 q [[Hn1 E1]|[-> ->]]%Hu [[Hn2 E2]|[-> ->]]%Hu H1 H2;
      [by eapply C8|exfalso..|done].
    + apply Hn1. injection H2 as <-. by eapply C8.
    + apply Hn2. injection H1 as <-. by eapply C8.
  - set_solver.
Qed.

(** The assertion that the link is missing. *)
Lemma chain_assert m tl L T t p prev :
  chain m tl L T → T t = Some (EAssert p prev) → chain m tl L (upd T t (Some (ELink p prev))).
Proof.
  intros H Et. destruct H as [C1 C2 C3 C4 C5 C6 C7 C8 C9].
  assert (∀ t' l', upd T t (Some (ELink p prev)) t' = Some l' →
    ∃ l, T t' = Some l ∧ outside l = outside l' ∧ linking l = linking l' ∧ (outside l' ≠ None → l = l'))
    as Hu.
  { intros t' l'. unfold upd. destruct (decide (t' = t)) as [->|]; intros E; simplify_eq; [|by exists l'; split_and!].
    eexists. by split_and!. }
  split; try done.
  - intros L1 a b L2 E. destruct (C4 L1 a b L2 E) as [?|(? & t' & l' & E1 & E2)]; [by left|right].
    split; [done|]. destruct (decide (t' = t)) as [->|Hne].
    + exists t, (ELink p prev). rewrite upd_eq. split; [done|]. by simplify_eq.
    + exists t', l'. by rewrite upd_ne.
  - intros t' l' q z (l & E1 & _ & E2 & _)%Hu E3. rewrite <- E2 in E3.
    exact (C6 t' l q z E1 E3).
  - intros t' l' q (l & E1 & E2 & _ & Hl)%Hu E3. assert (l = l') as -> by (apply Hl; by rewrite E3).
    exact (C7 t' l' q E1 E3).
  - intros t1 t2 l1 l2 q (l1' & E1 & O1 & K1 & _)%Hu (l2' & E2 & O2 & K2 & _)%Hu H1 H2.
    unfold holds in *. rewrite <- O1, <- K1 in H1. rewrite <- O2, <- K2 in H2.
    exact (C8 t1 t2 l1' l2' q E1 E2 H1 H2).
Qed.

(** The store of the link. *)
Lemma chain_store m tl L T t p prev b :
  chain m tl L T → T t = Some (ELink p prev) →
  chain (store_link prev (Some p) m) tl L (upd T t (Some (EDone b))).
Proof.
  intros H Et. pose proof H as [C1 C2 C3 C4 C5 C6 C7 C8 C9].
  destruct (C6 t _ p prev Et eq_refl) as [(L1 & L2 & EL) Hn].
  assert (∀ a, a ≠ prev → links (store_link prev (Some p) m) !! a = links m !! a) as Hne.
  { intros a Ha. by apply lookup_partial_alter_ne. }
  assert (∀ t' l', upd T t (Some (EDone b)) t' = Some l' →
    t' ≠ t ∧ T t' = Some l' ∨ t' = t ∧ l' = EDone b) as Hu.
  { intros t' l'. unfold upd. destruct (decide (t' = t)); intros E; [right|left]; by simplify_eq. }
  split; try done.
  - intros L3 a c L4 E. destruct (decide (a = prev)) as [->|Ha].
    + left. cbn. rewrite lookup_partial_alter_eq. f_equal. rewrite EL in E, C3.
      exact (place_next _ _ _ _ _ _ _ C3 E).
    + rewrite Hne by done. destruct (C4 L3 a c L4 E) as [?|(? & t' & l' & E1 & E2)]; [by left|right].
      split; [done|]. exists t', l'. split; [|done]. rewrite upd_ne; [done|]. intros ->.
      rewrite Et in E1. injection E1 as <-. injection E2 as _ E2. by apply Ha.
  - rewrite Hne; [done|]. intros Ha. exact (chain_last_place _ _ _ _ _ _ _ _ H EL (eq_sym Ha)).
  - intros t' l' q z [[Ht E1]|[-> ->]]%Hu E2; [|done].
    destruct (C6 t' l' q z E1 E2) as [HL Hz]. split; [done|]. rewrite Hne; [done|]. intros ->.
    destruct HL as (L3 & L4 & EL'). rewrite EL in EL', C3.
    pose proof (place_next _ _ _ _ _ _ _ C3 EL') as <-. apply Ht.
    exact (C8 t' t l' _ p E1 Et (holds_linking _ _ _ E2) eq_refl).
  - intros t' l' q [[Ht E1]|[-> ->]]%Hu E2; [|done]. destruct (C7 t' l' q E1 E2) as [Hq Hs].
    split; [done|]. intros Hl. rewrite Hne by (intros ->; apply Hq; rewrite EL; set_solver). by apply Hs.
  - intros t1 t2 l1 l2 q [[Hn1 E1]|[-> ->]]%Hu [[Hn2 E2]|[-> ->]]%Hu H1 H2; try done.
    exact (C8 t1 t2 l1 l2 q E1 E2 H1 H2).
Qed.

(** The consumer moves the tail over its link. *)
Lemma chain_advance m tl n L T :
  chain m tl L T → links m !! tl = Some n → ∃ L', L = tl :: n :: L' ∧ chain m n (n :: L') T.
Proof.
  intros H El. pose proof H as [C1 C2 C3 C4 C5 C6 C7 C8 C9].
  destruct L as [|a [|b L]]; [done|..]; injection C1 as ->.
  - injection C2 as E2. by rewrite <- E2, El in C5.
  - assert (b = n) as -> by (destruct (C4 [] tl b L eq_refl) as [E|[E _]]; congruence).
    exists L. split; [done|]. apply NoDup_cons in C3 as [Htl Hnd]. split; try done.
    + intros L1 a c L2 E. apply (C4 (tl :: L1) a c L2). by rewrite E.
    + intros t l p prev Et Elk. destruct (C6 t l p prev Et Elk) as [(L1 & L2 & E) Hp]. split; [|done].
      destruct L1 as [|z L1]; [|injection E as _ E; by exists L1, L2].
      injection E as -> _ _. by rewrite El in Hp.
    + intros t l p Et Eo. destruct (C7 t l p Et Eo) as [Hp Hs]. split; [set_solver|done].
    + set_solver.
Qed.

(** The link of the last node of the chain. *)
Lemma chain_single m tl L T : chain m tl L T → head_readiness m = tl → L = [tl].
Proof.
  intros H Eh. destruct L as [|a [|b L]]; pose proof (ch_first _ _ _ _ H) as Ef; [done| |].
  - by injection Ef as ->.
  - injection Ef as ->. exfalso. by eapply (chain_last_place _ _ _ _ tl b [] L H).
Qed.

(** The consumer exchanges a marker that is alone in the chain. *)
Lemma chain_swap m a b T :
  chain m a [a] T → links m !! b = None → b ≠ closed_marker →
  (∀ t l, T t = Some l → holds l ≠ Some b) →
  chain (mkMemory (links m) b (awake m)) b [b] T.
Proof.
  intros [C1 C2 C3 C4 C5 C6 C7 C8 C9] Hb Hc Hh. split; try done.
  - apply NoDup_singleton.
  - intros [|? [|??]] ???; by intros.
  - intros t l p prev Et Elk. destruct (C6 t l p prev Et Elk) as [(L1 & L2 & E) _].
    destruct L1 as [|? [|??]]; done.
  - intros t l p Et Eo. destruct (C7 t l p Et Eo) as [_ Hs]. split; [|done].
    rewrite list_elem_of_singleton. intros ->. by eapply Hh; [|apply holds_outside].
  - set_solver.
Qed.
End Chain.
