(* ===== verification/MpscSpec.v ===== *)
(** * The readiness queue under concurrency: the invariant of the system

    What holds of the chain, of the flags and of the place of every thread
    after any sequence of steps, and that the queue loses no node and no
    wakeup. *)
From S2P Require Import Prelude ReadinessQueue Mpsc MpscInv.

(** A thread that has not seen the closed marker. *)
Definition opened (closed_marker : ptr) (l : epc) : Prop :=
  match l with
  | ECas _ prev => prev ≠ closed_marker
  | EClosed _ => False
  | _ => True
  end.

(** A thread that is going to wake the poll. *)
Definition waking (sleep_marker : ptr) (l : epc) : Prop :=
  match l with
  | EAssert _ prev | ELink _ prev => prev = sleep_marker
  | EDone b => b = true
  | _ => False
  end.

Definition returning (l : epc) : bool :=
  match l with EDone _ | EClosed _ => true | _ => false end.

(** The node a step of [enqueue_node] appends to the chain. *)
Definition pushed (l l' : epc) : list ptr :=
  match l, l' with ECas p _, EAssert _ _ => [p] | _, _ => [] end.

Section Enqueue.
Context (end_marker sleep_marker closed_marker : ptr).
#[local] Abbreviation chain := (chain closed_marker).
Implicit Types (m : Memory) (L : list ptr).

(** What a step of [enqueue_node] does to the memory and to the chain. *)
Record enqueued_step m tl L T t (l l' : epc) m' : Prop := {
  es_step : enqueue_step sleep_marker closed_marker m l = Done (l', m');
  es_opened : opened closed_marker l';
  es_chain : chain m' tl (L ++ pushed l l') (upd T t (Some l'));
  es_pushed : ∀ p, p ∈ pushed l l' → holds l = Some p;
  es_holds : ∀ p, holds l' = Some p → holds l = Some p;
  es_frame : ∀ a, a ∉ L → holds l ≠ Some a → links m' !! a = links m !! a;
  es_awake : awake m' = awake m;
  es_waking : waking sleep_marker l → waking sleep_marker l';
  es_head : head_readiness m = sleep_marker →
    head_readiness m' = sleep_marker ∨ waking sleep_marker l';
}.

Lemma chain_head_opened m tl L T : chain m tl L T → head_readiness m ≠ closed_marker.
Proof.
  intros H E. apply (ch_open _ _ _ _ _ H). rewrite <- E. by eapply chain_head_in.
Qed.

(** A thread that changes only its own place. *)
Lemma chain_local m m' tl L T t l l' p :
  chain m tl L T → T t = Some l → outside l = Some p → outside l' = Some p →
  head_readiness m' = head_readiness m →
  (∀ a, a ≠ p → links m' !! a = links m !! a) → links m' !! p = None →
  chain m' tl L (upd T t (Some l')).
Proof.
  intros H Et Eo Eo' Eh El Ep. destruct (ch_outside _ _ _ _ _ H t l p Et Eo) as [Hp _].
  assert (∀ l0 q, outside l0 = Some q → linking l0 = None) as Hol by (by intros []).
  assert (∀ t' l0, t' ≠ t → T t' = Some l0 → holds l0 ≠ Some p) as Hno.
  { intros t' l0 Hne E1 E2. apply Hne.
    exact (ch_own _ _ _ _ _ H t' t l0 l p E1 Et E2 (holds_outside _ _ Eo)). }
  apply (chain_update _ m); try done.
  - intros a Ha. apply El. by intros ->.
  - intros l0 E0. rewrite Et in E0. injection E0 as <-. by eapply Hol.
  - intros l0 [= <-]. split; [by eapply Hol|]. rewrite Eo'. intros q [= <-].
    by split_and!.
  - intros t' l0 q Hne E1 E2. apply El. intros ->. by apply (Hno t' l0 Hne E1), holds_outside.
Qed.

Lemma enqueue_chain m tl L T t l :
  chain m tl L T → T t = Some l → returning l = false → opened closed_marker l →
  (∀ p, holds l = Some p → p ≠ closed_marker) →
  ∃ l' m', enqueued_step m tl L T t l l' m'.
Proof.
  intros H Et Hr Ho Hc. pose proof (chain_head_opened _ _ _ _ H) as Hh.
  destruct l as [p|p|p prev|p prev|p prev|b|p]; try done.
  - exists (ELoad p), (store_link p None m). cbn [pushed]. split; try done.
    + rewrite app_nil_r. eapply (chain_local m); [done..| |].
      * intros a Ha. by apply lookup_partial_alter_ne.
      * apply lookup_partial_alter_eq.
    + set_solver.
    + intros a _ Ha. apply lookup_partial_alter_ne. intros ->. by apply Ha.
    + by left.
  - exists (ECas p (head_readiness m)), m. cbn [pushed]. split; try done.
    + rewrite app_nil_r. destruct (ch_outside _ _ _ _ _ H t _ p Et eq_refl) as [_ Hn].
      by eapply (chain_local m); [done..| |apply Hn].
    + set_solver.
    + by left.
  - assert (enqueue_step sleep_marker closed_marker m (ECas p prev)
      = Done (if head_readiness m =? prev then EAssert p prev else ECas p (head_readiness m),
              if head_readiness m =? prev then mkMemory (links m) p (awake m) else m)) as E.
    { cbn. apply N.eqb_neq in Ho as ->. done. }
    destruct (N.eqb_spec (head_readiness m) prev) as [<-|Hne].
    + eexists _, _. split; [exact E|..]; try done.
      * cbn [pushed]. apply chain_push; [done..|]. by apply Hc.
      * cbn [pushed]. intros q ->%list_elem_of_singleton. done.
      * cbn. by right.
    + eexists _, _. split; [exact E|..]; try done; cbn [pushed].
      * rewrite app_nil_r. destruct (ch_outside _ _ _ _ _ H t _ p Et eq_refl) as [_ Hn].
        by eapply (chain_local m); [done..| |apply Hn].
      * set_solver.
      * by left.
  - destruct (ch_linking _ _ _ _ _ H t _ p prev Et eq_refl) as [_ Hn].
    exists (ELink p prev), m. cbn [pushed]. split; try done.
    + cbn. unfold load_link. by rewrite Hn.
    + rewrite app_nil_r. by apply chain_assert.
    + set_solver.
    + by left.
  - exists (EDone (prev =? sleep_marker)), (store_link prev (Some p) m). cbn [pushed]. split; try done.
    + rewrite app_nil_r. by apply chain_store.
    + set_solver.
    + intros a Ha _. apply lookup_partial_alter_ne. intros ->. apply Ha.
      destruct (ch_linking _ _ _ _ _ H t _ p a Et eq_refl) as [(L1 & L2 & ->) _]. set_solver.
    + cbn. intros ->. apply N.eqb_refl.
    + by left.
Qed.

(** The first node of the chain is in no thread's hands. *)
Lemma chain_first_free m tl L T t l :
  chain m tl L T → T t = Some l → holds l ≠ Some tl.
Proof.
  intros H Et Eh. pose proof (ch_first _ _ _ _ _ H) as Ef. unfold holds in Eh.
  destruct (outside l) as [q|] eqn:Eo.
  - injection Eh as ->. destruct (ch_outside _ _ _ _ _ H t l tl Et Eo) as [Hn _].
    apply Hn. by apply head_Some_elem_of.
  - destruct (linking l) as [[q prev]|] eqn:Elk; [|done]. injection Eh as ->.
    destruct (ch_linking _ _ _ _ _ H t l tl prev Et Elk) as [(L1 & L2 & EL) _].
    pose proof (ch_nodup _ _ _ _ _ H) as Hnd. rewrite EL in Ef, Hnd.
    destruct L1 as [|z L1]; cbn in Ef; injection Ef as ->.
    + apply NoDup_cons in Hnd as [Hnd _]. apply Hnd. set_solver.
    + apply NoDup_cons in Hnd as [Hnd _]. apply Hnd. set_solver.
Qed.
End Enqueue.
