(* ===== verification/MpscProps.v ===== *)
(** * The readiness queue under concurrency: the invariant of the system

    What holds of the chain, of the flags and of the place of every thread
    after any sequence of steps; the queue is first in, first out, loses no
    node and no wakeup, and none of its assertions fails. *)
From S2P Require Import Prelude ReadinessQueue Mpsc MpscInv MpscSpec.

Section System.
Context (end_marker sleep_marker closed_marker : ptr).
Context (Hes : end_marker ≠ sleep_marker) (Hec : end_marker ≠ closed_marker)
  (Hsc : sleep_marker ≠ closed_marker).
#[local] Abbreviation chain := (chain closed_marker).
#[local] Abbreviation is_mark := (is_marker end_marker sleep_marker closed_marker).
#[local] Abbreviation step := (step end_marker sleep_marker closed_marker).
#[local] Abbreviation consumer_step := (consumer_step end_marker sleep_marker closed_marker).
#[local] Abbreviation waking := (waking sleep_marker).
#[local] Abbreviation opened := (opened closed_marker).
Implicit Types (x : System) (m : Memory) (L : list ptr) (l : epc).

Definition consumer_epc (c : cpc) : option epc :=
  match c with CEnd l | CRequeue l => Some l | _ => None end.
Definition producer_epc (p : ppc) : option epc :=
  match p with PEnq l => Some l | _ => None end.

(** The threads in [enqueue_node]. *)
Definition thread (c : cpc) (ps : list ppc) (t : option nat) : option epc :=
  match t with
  | None => consumer_epc c
  | Some i => ps !! i ≫= producer_epc
  end.

(** The first node of the chain: between its exchange of the head and its move
    of the tail, [prepare_for_sleep] is behind. *)
Definition first_node (c : cpc) (tl : ptr) : ptr :=
  match c with CPrep3 => sleep_marker | _ => tl end.

Definition live (f : gset ptr) (p : ptr) : Prop := is_mark p = false ∧ p ∈ f.

(** The place of the consumer. *)
Definition consumer_ok (c : cpc) (tl : ptr) m (f : gset ptr) L (ps : list ppc) : Prop :=
  match c with
  | CNext2 _ | CHead | CNext3 => is_mark tl = false
  | CEnd l => is_mark tl = false ∧ ∀ p, holds l = Some p → p = end_marker
  | CClear1 | CPrepHead | CWaiting => tl = sleep_marker
  | CClear2 => tl = sleep_marker ∧ links m !! end_marker = None
  | CPrep1 => tl = end_marker
  | CPrep2 => tl = end_marker ∧ links m !! sleep_marker = None
  | CPrep3 => tl = end_marker ∧ links m !! end_marker = None
  | CData p => live f p ∧ p ∉ L ∧ ∀ i l, thread c ps (Some i) = Some l → holds l ≠ Some p
  | CRequeue l => ∀ p, holds l = Some p → live f p
  | CIdle | CNext1 _ => True
  end.

Definition waker (p : ppc) : Prop :=
  match p with PEnq l => waking l | PWake => True | PIdle => False end.

(** A poll that sleeps is woken by a byte in the pipe or by a producer that is
    on its way to write one, as soon as the queue has a node. *)
Definition will_wake m (ps : list ppc) : Prop :=
  head_readiness m = sleep_marker ∨ awake m = true ∨ ∃ i p, ps !! i = Some p ∧ waker p.

Definition sleeping (c : cpc) : bool :=
  match c with CPrep3 | CWaiting => true | _ => false end.

Record inv x L : Prop := {
  i_chain : chain (memory x) (first_node (consumer x) (tail_readiness x)) L
    (thread (consumer x) (producers x));
  i_sleep : sleep_marker ∈ L → first_node (consumer x) (tail_readiness x) = sleep_marker;
  i_alone : sleep_marker ∈ L → end_marker ∉ L;
  i_flags : ∀ p, p ∈ L → is_mark p = false → p ∈ q_flags x;
  i_held : ∀ i l p, thread (consumer x) (producers x) (Some i) = Some l →
    holds l = Some p → live (q_flags x) p;
  i_opened : ∀ t l, thread (consumer x) (producers x) t = Some l → opened l;
  i_consumer : consumer_ok (consumer x) (tail_readiness x) (memory x) (q_flags x) L (producers x);
  i_wake : sleeping (consumer x) = true → will_wake (memory x) (producers x);
}.

(** The nodes of a chain that are not markers. *)
Definition nodes L : list ptr := filter (λ p, is_mark p = false) L.

(** The nodes in the chain before, with those that enter, are those that leave
    with those in the chain after. *)
Definition accounted L (es : list event) L' : Prop :=
  nodes L ++ entered es = left_queue es ++ nodes L'.

(** ** Markers and nodes *)

Lemma is_mark_iff p : is_mark p = true ↔ p = end_marker ∨ p = sleep_marker ∨ p = closed_marker.
Proof.
  unfold is_marker. rewrite !orb_true_iff, !N.eqb_eq. tauto.
Qed.

Lemma is_mark_false p : is_mark p = false →
  p ≠ end_marker ∧ p ≠ sleep_marker ∧ p ≠ closed_marker.
Proof.
  intros H. assert (¬ (p = end_marker ∨ p = sleep_marker ∨ p = closed_marker)) as Hn
    by (rewrite <- is_mark_iff, H; done). tauto.
Qed.

Lemma nodes_app L1 L2 : nodes (L1 ++ L2) = nodes L1 ++ nodes L2.
Proof. apply filter_app. Qed.

Lemma nodes_cons_mark p L : is_mark p = true → nodes (p :: L) = nodes L.
Proof. intros H. apply (filter_cons_False (λ p, is_mark p = false)). by rewrite H. Qed.

Lemma nodes_cons_node p L : is_mark p = false → nodes (p :: L) = p :: nodes L.
Proof. apply (filter_cons_True (λ p, is_mark p = false)). Qed.

Lemma accounted_pushed L l l' :
  accounted L (enqueue_event end_marker sleep_marker closed_marker l l') (L ++ pushed l l').
Proof.
  unfold accounted. rewrite nodes_app.
  destruct l as [| |p ?| | | |], l'; cbn -[nodes]; rewrite ?app_nil_r; try done.
  destruct (is_mark p) eqn:E; cbn -[nodes].
  - rewrite nodes_cons_mark by done. by rewrite !app_nil_r.
  - by rewrite nodes_cons_node.
Qed.

Lemma thread_insert c ps i l t : (i < length ps)%nat →
  thread c (<[i := PEnq l]> ps) t = upd (thread c ps) (Some i) (Some l) t.
Proof.
  intros Hi. unfold upd, thread. case_decide as E; subst.
  - by rewrite list_lookup_insert_eq.
  - destruct t as [j|]; [|done]. rewrite list_lookup_insert_ne; [done|]. congruence.
Qed.

Lemma thread_leave c ps i p t : (i < length ps)%nat → producer_epc p = None →
  thread c (<[i := p]> ps) t = upd (thread c ps) (Some i) None t.
Proof.
  intros Hi Hp. unfold upd, thread. case_decide as E; subst.
  - by rewrite list_lookup_insert_eq.
  - destruct t as [j|]; [|done]. rewrite list_lookup_insert_ne; [done|]. congruence.
Qed.

Lemma will_wake_step m m' ps i a b :
  ps !! i = Some a → will_wake m ps →
  (awake m = true → awake m' = true) →
  (head_readiness m = sleep_marker → head_readiness m' = sleep_marker ∨ waker b) →
  (waker a → waker b ∨ awake m' = true) →
  will_wake m' (<[i := b]> ps).
Proof.
  intros Ha H Haw Hh Hw. pose proof (lookup_lt_Some _ _ _ Ha) as Hi. unfold will_wake.
  assert (waker b → ∃ j p, <[i:=b]> ps !! j = Some p ∧ waker p) as Hb.
  { intros Hb. exists i, b. by rewrite list_lookup_insert_eq. }
  destruct H as [H|[H|(j & p & Hj & Hp)]].
  - destruct (Hh H); auto.
  - auto.
  - destruct (decide (j = i)) as [->|Hne].
    + rewrite Ha in Hj. injection Hj as ->. destruct (Hw Hp); auto.
    + right; right. exists j, p. by rewrite list_lookup_insert_ne.
Qed.

(** ** The steps of a producer *)

(** The marker that [clear_sleep_marker] and [prepare_for_sleep] put in. *)
Definition spare (c : cpc) : option ptr :=
  match c with
  | CClear2 | CPrep3 => Some end_marker
  | CPrep2 => Some sleep_marker
  | _ => None
  end.

Lemma inv_first x L : inv x L → first_node (consumer x) (tail_readiness x) ∈ L.
Proof. intros I. apply head_Some_elem_of, (ch_first _ _ _ _ _ (i_chain _ _ I)). Qed.

Lemma inv_spare x L a : inv x L → spare (consumer x) = Some a → a ∉ L ∧ is_mark a = true.
Proof.
  intros I Hs. pose proof (inv_first _ _ I) as Hf. pose proof (i_sleep _ _ I) as H1.
  pose proof (i_alone _ _ I) as H2. pose proof (i_consumer _ _ I) as H3.
  destruct (consumer x); cbn in *; try done; injection Hs as <-; rewrite is_mark_iff.
  - destruct H3 as [E _]. rewrite E in Hf. auto.
  - destruct H3 as [E _]. split; [|auto]. intros H. apply H1 in H. by rewrite E in H.
  - auto.
Qed.

Lemma consumer_ok_frame x L m f L' ps :
  inv x L → q_flags x ⊆ f →
  (∀ a, spare (consumer x) = Some a → links m !! a = links (memory x) !! a) →
  (∀ p, live (q_flags x) p → p ∉ L →
    (∀ i l, thread (consumer x) (producers x) (Some i) = Some l → holds l ≠ Some p) →
    p ∉ L' ∧ ∀ i l, thread (consumer x) ps (Some i) = Some l → holds l ≠ Some p) →
  consumer_ok (consumer x) (tail_readiness x) m f L' ps.
Proof.
  intros I Hf Hm Hd. pose proof (i_consumer _ _ I) as H.
  assert (∀ p, live (q_flags x) p → live f p) as Hl by (intros p []; split; [done|set_solver]).
  destruct (consumer x); cbn [consumer_ok] in *; try done.
  - by rewrite (Hm _ eq_refl).
  - destruct H as (H1 & H2 & H3). split; [by apply Hl|]. by apply Hd.
  - intros q Hq. by apply Hl, H.
  - by rewrite (Hm _ eq_refl).
  - by rewrite (Hm _ eq_refl).
Qed.

Lemma live_not_closed f p : live f p → p ≠ closed_marker.
Proof. intros [H _]. apply (is_mark_false p H). Qed.

Lemma live_not_spare x L f p : inv x L → live f p → spare (consumer x) ≠ Some p.
Proof. intros I [Hp _] E. destruct (inv_spare x L p I E) as [_ H]. by rewrite Hp in H. Qed.

(** A producer begins [enqueue_node]. *)
Lemma inv_produce x L i p :
  inv x L → producers x !! i = Some PIdle → is_mark p = false → p ∉ q_flags x →
  inv (with_flags ({[p]} ∪ q_flags x) (with_producer i (PEnq (EStore p)) x)) L.
Proof.
  intros I Hi Hp Hf. pose proof (lookup_lt_Some _ _ _ Hi) as Hlt.
  assert (p ∉ L) as HpL by (intros H; apply Hf; by apply (i_flags _ _ I)).
  assert (∀ j l q, thread (consumer x) (producers x) (Some j) = Some l → holds l = Some q → q ≠ p)
    as Hno by (intros j l q E1 E2 ->; apply Hf, (i_held _ _ I j l p E1 E2)).
  assert (∀ j l, thread (consumer x) (<[i:=PEnq (EStore p)]> (producers x)) (Some j) = Some l →
    l = EStore p ∨ thread (consumer x) (producers x) (Some j) = Some l) as Hth.
  { intros j l. rewrite thread_insert by done. unfold upd. case_decide; [|by right]. intros [= <-]. by left. }
  split; cbn [with_flags with_producer memory tail_readiness q_flags consumer producers].
  - apply (chain_ext_threads _ _ _ _ (upd (thread (consumer x) (producers x)) (Some i) (Some (EStore p))));
      [|intros t; by rewrite thread_insert].
    apply (chain_update _ (memory x)); [apply (i_chain _ _ I)|done..| | |done].
    + intros l. cbn. by rewrite Hi.
    + intros l [= <-]. split; [done|]. intros q [= <-]. split_and!; [done..|].
      intros [j|] l' Hne E1 E2; [by apply (Hno j l' p E1 E2)|].
      pose proof (i_consumer _ _ I) as Hc. cbn in E1.
      destruct (consumer x); try done; injection E1 as ->; cbn in Hc.
      * destruct Hc as [_ Hc]. apply Hc in E2 as ->. by apply is_mark_false in Hp as [].
      * by destruct (Hc p E2).
  - apply (i_sleep _ _ I).
  - apply (i_alone _ _ I).
  - intros q Hq1 Hq2. pose proof (i_flags _ _ I q Hq1 Hq2). set_solver.
  - intros j l q [->|E1]%Hth E2.
    + injection E2 as <-. split; [done|set_solver].
    + destruct (i_held _ _ I j l q E1 E2). split; [done|set_solver].
  - intros [j|] l E; [apply Hth in E as [->|E]; [done|]|].
    + exact (i_opened _ _ I _ _ E).
    + exact (i_opened _ _ I None _ E).
  - eapply consumer_ok_frame; [exact I|set_solver|done|]. intros q [Hq1 Hq2] HqL Hq. split; [done|].
    intros j l [->|E]%Hth; [|by apply (Hq j)]. intros [= <-]. by apply Hf.
  - intros Hs. apply (will_wake_step (memory x) _ _ i PIdle); [done|by apply (i_wake _ _ I)|by auto..|done].
Qed.

(** A step within [enqueue_node]. *)
Lemma producer_enqueues x L i l :
  inv x L → producers x !! i = Some (PEnq l) → returning l = false →
  ∃ l' m', enqueued_step sleep_marker closed_marker (memory x)
    (first_node (consumer x) (tail_readiness x)) L (thread (consumer x) (producers x)) (Some i) l l' m'.
Proof.
  intros I Hi Hr.
  assert (thread (consumer x) (producers x) (Some i) = Some l) as Et by (cbn; by rewrite Hi).
  apply enqueue_chain; [apply (i_chain _ _ I)|done..|exact (i_opened _ _ I _ _ Et)|].
  intros p Hp. exact (live_not_closed _ _ (i_held _ _ I i l p Et Hp)).
Qed.

Lemma inv_enqueue x L i l l' m :
  inv x L → producers x !! i = Some (PEnq l) → returning l = false →
  enqueue_step sleep_marker closed_marker (memory x) l = Done (l', m) →
  inv (with_memory m (with_producer i (PEnq l') x)) (L ++ pushed l l').
Proof.
  intros I Hi Hr E. destruct (producer_enqueues x L i l I Hi Hr) as (l1 & m1 & S).
  pose proof (es_step _ _ _ _ _ _ _ _ _ _ S) as E1. rewrite E in E1. injection E1 as <- <-.
  pose proof (lookup_lt_Some _ _ _ Hi) as Hlt.
  assert (thread (consumer x) (producers x) (Some i) = Some l) as Et by (cbn; by rewrite Hi).
  pose proof (λ p, i_held _ _ I i l p Et) as Hheld.
  assert (∀ p, p ∈ pushed l l' → live (q_flags x) p) as Hpu
    by (intros p Hp; apply Hheld, (es_pushed _ _ _ _ _ _ _ _ _ _ S p Hp)).
  assert (∀ j l0, thread (consumer x) (<[i:=PEnq l']> (producers x)) (Some j) = Some l0 →
    j = i ∧ l0 = l' ∨ thread (consumer x) (producers x) (Some j) = Some l0) as Hth.
  { intros j l0. rewrite thread_insert by done. unfold upd. case_decide as Ej; [|by right].
    injection Ej as ->. intros [= <-]. by left. }
  split; cbn [with_memory with_producer memory tail_readiness q_flags consumer producers].
  - eapply chain_ext_threads; [exact (es_chain _ _ _ _ _ _ _ _ _ _ S)|].
    intros t. by rewrite thread_insert.
  - intros [H|H]%elem_of_app; [by apply (i_sleep _ _ I)|].
    by apply Hpu in H as [(_ & H & _)%is_mark_false _].
  - rewrite !elem_of_app. intros [H|H] [H'|H'].
    + by apply (i_alone _ _ I).
    + by apply Hpu in H' as [(H' & _)%is_mark_false _].
    + by apply Hpu in H as [(_ & H & _)%is_mark_false _].
    + by apply Hpu in H as [(_ & H & _)%is_mark_false _].
  - intros p [H|H]%elem_of_app Hp; [by apply (i_flags _ _ I)|]. by apply Hpu in H as [].
  - intros j l0 p [(-> & ->)|E0]%Hth E1.
    + apply Hheld, (es_holds _ _ _ _ _ _ _ _ _ _ S p E1).
    + exact (i_held _ _ I j l0 p E0 E1).
  - intros [j|] l0 E0; [apply Hth in E0 as [(-> & ->)|E0]|].
    + exact (es_opened _ _ _ _ _ _ _ _ _ _ S).
    + exact (i_opened _ _ I _ _ E0).
    + exact (i_opened _ _ I None _ E0).
  - eapply consumer_ok_frame; [exact I|done|..].
    + intros a Ha. destruct (inv_spare x L a I Ha) as [HaL _].
      apply (es_frame _ _ _ _ _ _ _ _ _ _ S a HaL). intros Hl.
      by apply (live_not_spare x L _ a I (Hheld a Hl)).
    + intros q Hq HqL Hno. split.
      * rewrite elem_of_app. intros [|H]; [done|].
        exact (Hno i l Et (es_pushed _ _ _ _ _ _ _ _ _ _ S q H)).
      * intros j l0 [(-> & ->)|E0]%Hth E1; [|exact (Hno j l0 E0 E1)].
        exact (Hno i l Et (es_holds _ _ _ _ _ _ _ _ _ _ S q E1)).
  - intros Hs. apply (will_wake_step (memory x) _ _ i (PEnq l)); [done|by apply (i_wake _ _ I)|..].
    + by rewrite (es_awake _ _ _ _ _ _ _ _ _ _ S).
    + exact (es_head _ _ _ _ _ _ _ _ _ _ S).
    + left. by apply (es_waking _ _ _ _ _ _ _ _ _ _ S).
Qed.

(** A producer leaves [enqueue_node], or its call ends. *)
Lemma inv_leave x L i a b m :
  inv x L → producers x !! i = Some a → producer_epc b = None →
  (∀ l, producer_epc a = Some l → linking l = None) →
  head_readiness m = head_readiness (memory x) → links m = links (memory x) →
  (awake (memory x) = true → awake m = true) → (waker a → waker b ∨ awake m = true) →
  inv (with_memory m (with_producer i b x)) L.
Proof.
  intros I Hi Hb Ha Eh El Eaw Ew. pose proof (lookup_lt_Some _ _ _ Hi) as Hlt.
  assert (∀ j l, thread (consumer x) (<[i:=b]> (producers x)) (Some j) = Some l →
    thread (consumer x) (producers x) (Some j) = Some l) as Hth.
  { intros j l. rewrite thread_leave by done. unfold upd. by case_decide. }
  split; cbn [with_memory with_producer memory tail_readiness q_flags consumer producers].
  - apply (chain_ext_threads _ _ _ _ (upd (thread (consumer x) (producers x)) (Some i) None));
      [|intros t; by rewrite thread_leave].
    apply (chain_update _ (memory x)); [apply (i_chain _ _ I)|done|by rewrite El|..|done|by rewrite El].
    intros l. cbn. rewrite Hi. apply Ha.
  - apply (i_sleep _ _ I).
  - apply (i_alone _ _ I).
  - apply (i_flags _ _ I).
  - intros j l p E%Hth. by apply (i_held _ _ I j).
  - intros [j|] l E; [apply Hth in E|].
    + exact (i_opened _ _ I _ _ E).
    + exact (i_opened _ _ I None _ E).
  - eapply consumer_ok_frame; [exact I|done|by rewrite El|].
    intros q _ HqL Hno. split; [done|]. intros j l E%Hth. exact (Hno j l E).
  - intros Hs. apply (will_wake_step (memory x) _ _ i a); [done|by apply (i_wake _ _ I)|done| |done].
    rewrite Eh. auto.
Qed.

(** ** The steps of the consumer *)

Lemma inv_move x L c tl m L' :
  inv x L → chain m (first_node c tl) L' (thread c (producers x)) →
  (sleep_marker ∈ L' → first_node c tl = sleep_marker ∧ end_marker ∉ L') →
  (∀ p, p ∈ L' → is_mark p = true ∨ p ∈ q_flags x) →
  (∀ l, consumer_epc c = Some l → opened l) →
  consumer_ok c tl m (q_flags x) L' (producers x) →
  (sleeping c = true → will_wake m (producers x)) →
  inv (mkSystem m tl (q_flags x) c (producers x)) L'.
Proof.
  intros I H1 H2 H3 H4 H5 H6.
  split; cbn [memory tail_readiness q_flags consumer producers]; try done.
  - intros H. by apply H2.
  - intros H. by apply H2.
  - intros p Hp Hm. destruct (H3 p Hp) as [E|]; [|done]. by rewrite Hm in E.
  - intros i l p E. exact (i_held _ _ I i l p E).
  - intros [i|] l E; [exact (i_opened _ _ I (Some i) l E)|by apply H4].
Qed.

Lemma thread_consumer c c' ps o :
  consumer_epc c' = o → ∀ t, upd (thread c ps) None o t = thread c' ps t.
Proof. intros <- t. unfold upd. case_decide; subst; [done|]. by destruct t. Qed.

(** The consumer between its own enqueues. *)
Lemma chain_move x L c m :
  inv x L → consumer_epc c = None →
  (∀ l, consumer_epc (consumer x) = Some l → linking l = None) →
  head_readiness m = head_readiness (memory x) →
  (∀ a, a ∈ L ∨ is_mark a = false → links m !! a = links (memory x) !! a) →
  chain m (first_node (consumer x) (tail_readiness x)) L (thread c (producers x)).
Proof.
  intros I Hc Hl Hh Hm.
  apply (chain_ext_threads _ _ _ _ (upd (thread (consumer x) (producers x)) None None));
    [|by apply thread_consumer].
  apply (chain_update _ (memory x)); [apply (i_chain _ _ I)|done|by auto|done|done|].
  intros [i|] l q Hne E1 E2; [|done]. apply Hm. right.
  apply (i_held _ _ I i l q E1), holds_outside, E2.
Qed.

Lemma inv_in x L p : inv x L → p ∈ L → is_mark p = true ∨ p ∈ q_flags x.
Proof.
  intros I Hp. destruct (is_mark p) eqn:E; [by left|right]. by apply (i_flags _ _ I).
Qed.

Lemma inv_sleep x L : inv x L → sleep_marker ∈ L →
  first_node (consumer x) (tail_readiness x) = sleep_marker ∧ end_marker ∉ L.
Proof. intros I H. split; [by apply (i_sleep _ _ I)|by apply (i_alone _ _ I)]. Qed.

Lemma accounted_refl L : accounted L [] L.
Proof. unfold accounted. cbn. apply app_nil_r. Qed.

(** It goes on without a change of the queue. *)
Lemma inv_stay x L c :
  inv x L → consumer_epc c = None →
  (∀ l, consumer_epc (consumer x) = Some l → linking l = None) →
  first_node c (tail_readiness x) = first_node (consumer x) (tail_readiness x) →
  consumer_ok c (tail_readiness x) (memory x) (q_flags x) L (producers x) →
  (sleeping c = true → will_wake (memory x) (producers x)) →
  inv (mkSystem (memory x) (tail_readiness x) (q_flags x) c (producers x)) L.
Proof.
  intros I Hc Hl Hf Hok Hw.
  apply (inv_move x L); [done|..|done|done].
  - rewrite Hf. by apply chain_move.
  - rewrite Hf. by apply inv_sleep.
  - intros p. by apply inv_in.
  - by rewrite Hc.
Qed.

(** It moves its tail over a link. *)
Lemma inv_advance x L c next :
  inv x L → first_node (consumer x) (tail_readiness x) = tail_readiness x →
  consumer_epc (consumer x) = None → consumer_epc c = None →
  sleeping c = false → first_node c next = next →
  links (memory x) !! tail_readiness x = Some next →
  ∃ L', L = tail_readiness x :: next :: L' ∧
    (consumer_ok c next (memory x) (q_flags x) (next :: L') (producers x) →
     inv (mkSystem (memory x) next (q_flags x) c (producers x)) (next :: L')).
Proof.
  intros I Hf Ho Hc Hs Hn El.
  destruct (chain_advance closed_marker (memory x) (tail_readiness x) next L
    (thread c (producers x))) as (L' & EL & H).
  { rewrite <- Hf. apply chain_move; [done..|by rewrite Ho|done|done]. }
  { done. }
  exists L'. split; [done|]. intros Hok.
  apply (inv_move x L); [done|by rewrite Hn|..|by rewrite Hc|done|by rewrite Hs].
  - intros Hin. exfalso. destruct (inv_sleep x L I) as [E _].
    { rewrite EL. by apply list_elem_of_further. }
    rewrite Hf in E. pose proof (ch_nodup _ _ _ _ _ (i_chain _ _ I)) as Hnd.
    rewrite EL, E in Hnd. by apply NoDup_cons in Hnd as [Hnd _].
  - intros p Hp. apply (inv_in x L p I). rewrite EL. by apply list_elem_of_further.
Qed.

(** A step of the consumer happens, and keeps the invariant. *)
Definition consumes x L : Prop :=
  ∃ c tl m es L',
    consumer_step (consumer x) (tail_readiness x) (memory x) = Done (Some (c, tl, m, es)) ∧
    inv (mkSystem m tl (q_flags x) c (producers x)) L' ∧ accounted L es L'.

(** The node at the tail leaves the queue. *)
Lemma inv_take x L next :
  inv x L → first_node (consumer x) (tail_readiness x) = tail_readiness x →
  consumer_epc (consumer x) = None → is_mark (tail_readiness x) = false →
  links (memory x) !! tail_readiness x = Some next →
  ∃ L', inv (mkSystem (memory x) next (q_flags x) (CData (tail_readiness x)) (producers x)) L' ∧
    accounted L [Dequeued (tail_readiness x)] L'.
Proof.
  intros I Hf Ho Hm El.
  destruct (inv_advance x L (CData (tail_readiness x)) next) as (L' & EL & H); [done..|].
  pose proof (i_chain _ _ I) as C. rewrite Hf in C.
  pose proof (ch_nodup _ _ _ _ _ C) as Hnd. rewrite EL in Hnd. apply NoDup_cons in Hnd as [Hnd _].
  exists (next :: L'). split.
  - apply H. split_and!; [split; [done|]|done|].
    + apply (i_flags _ _ I); [|done]. rewrite EL. by apply list_elem_of_here.
    + intros i l E. by apply (chain_first_free closed_marker _ _ _ _ (Some i) l C).
  - rewrite EL. unfold accounted. cbn [entered left_queue omap list_omap].
    rewrite (nodes_cons_node (tail_readiness x)) by done. by rewrite app_nil_r.
Qed.

(** [dequeue_node] after its load, at a node. *)
Lemma consumes_loaded x L until c tl es :
  inv x L → first_node (consumer x) (tail_readiness x) = tail_readiness x →
  consumer_epc (consumer x) = None → is_mark (tail_readiness x) = false →
  after_load until (tail_readiness x) (load_link (tail_readiness x) (memory x)) = (c, tl, es) →
  ∃ L', inv (mkSystem (memory x) tl (q_flags x) c (producers x)) L' ∧ accounted L es L'.
Proof.
  intros I Hf Ho Hm. unfold after_load, take_data, load_link.
  case_bool_decide as Eu; [|destruct (links (memory x) !! tail_readiness x) as [next|] eqn:El];
    intros [= <- <- <-].
  - exists L. split; [|apply accounted_refl]. apply inv_stay; try done. by rewrite Ho.
  - by apply inv_take.
  - exists L. split; [|apply accounted_refl]. apply inv_stay; try done. by rewrite Ho.
Qed.

Lemma consumes_next1 x L until : inv x L → consumer x = CNext1 until → consumes x L.
Proof.
  intros I Ec. unfold consumes. rewrite Ec. cbn [Mpsc.consumer_step].
  assert (first_node (consumer x) (tail_readiness x) = tail_readiness x) as Hf by by rewrite Ec.
  assert (consumer_epc (consumer x) = None) as Ho by by rewrite Ec.
  destruct (is_mark (tail_readiness x)) eqn:Em.
  - destruct (load_link (tail_readiness x) (memory x)) as [next|] eqn:El.
    + destruct (inv_advance x L (CNext2 until) next) as (L' & EL & H); [done..|].
      eexists _, _, _, _, (next :: L'). split; [done|]. split.
      * apply H. cbn. destruct (is_mark next) eqn:En; [exfalso|done].
        pose proof (i_chain _ _ I) as C. pose proof (ch_nodup _ _ _ _ _ C) as Hnd.
        rewrite EL in Hnd. apply NoDup_cons in Hnd as [Hnd _].
        assert (next ∈ L) as HnL by (rewrite EL; set_solver).
        assert (next ≠ tail_readiness x) as Hne by (intros ->; set_solver).
        assert (tail_readiness x ∈ L) as HtL by (rewrite EL; set_solver).
        apply is_mark_iff in En as [->|[->| ->]].
        -- apply is_mark_iff in Em as [E|[E|E]]; rewrite E in *; [done| |].
           ++ by apply (i_alone _ _ I HtL).
           ++ by apply (ch_open _ _ _ _ _ C).
        -- apply Hne. by rewrite <- Hf, (i_sleep _ _ I HnL).
        -- by apply (ch_open _ _ _ _ _ C).
      * rewrite EL. unfold accounted. cbn [entered left_queue omap list_omap].
        rewrite (nodes_cons_mark (tail_readiness x)) by done. apply app_nil_r.
    + eexists _, _, _, _, L. split; [done|]. split; [|apply accounted_refl].
      destruct (N.eqb_spec (tail_readiness x) sleep_marker) as [E|E];
        apply inv_stay; try done; by rewrite Ho.
  - destruct (after_load until _ _) as [[c tl] es] eqn:E.
    destruct (consumes_loaded x L until c tl es I Hf Ho Em E) as (L' & H1 & H2).
    by eexists _, _, _, _, L'.
Qed.

Lemma consumes_next2 x L until : inv x L → consumer x = CNext2 until → consumes x L.
Proof.
  intros I Ec. pose proof (i_consumer _ _ I) as Hm. rewrite Ec in Hm.
  unfold consumes. rewrite Ec. cbn [Mpsc.consumer_step].
  destruct (after_load until _ _) as [[c tl] es] eqn:E.
  destruct (consumes_loaded x L until c tl es I) as (L' & H1 & H2); [by rewrite Ec..|done|done|].
  by eexists _, _, _, _, L'.
Qed.

Lemma consumes_next3 x L : inv x L → consumer x = CNext3 → consumes x L.
Proof.
  intros I Ec. pose proof (i_consumer _ _ I) as Hm. rewrite Ec in Hm.
  unfold consumes, load_link, take_data. rewrite Ec. cbn [Mpsc.consumer_step].
  unfold load_link. destruct (links (memory x) !! tail_readiness x) as [next|] eqn:El.
  - destruct (inv_take x L next) as (L' & H1 & H2); [done|by rewrite Ec..|done|done|].
    by eexists _, _, _, _, L'.
  - eexists _, _, _, _, L. split; [done|]. split; [|apply accounted_refl].
    apply inv_stay; try done; by rewrite Ec.
Qed.

(** The tail is the head, and [dequeue_node] adds the end marker. *)
Lemma consumes_head x L : inv x L → consumer x = CHead → consumes x L.
Proof.
  intros I Ec. pose proof (i_consumer _ _ I) as Hm. rewrite Ec in Hm. cbn in Hm.
  pose proof (i_chain _ _ I) as C. unfold consumes. rewrite Ec in *. cbn [Mpsc.consumer_step first_node] in *.
  destruct (N.eqb_spec (head_readiness (memory x)) (tail_readiness x)) as [E|E]; cbn [negb];
    eexists _, _, _, _, L; (split; [done|]; split; [|apply accounted_refl]).
  - assert (L = [tail_readiness x]) as EL by by apply (chain_single closed_marker _ _ _ _ C).
    assert (end_marker ∉ L) as He.
    { rewrite EL. intros H%list_elem_of_singleton. by apply is_mark_false in Hm as [? _]. }
    apply (inv_move x L); [done|..|done].
    + apply (chain_ext_threads _ _ _ _ (upd (thread CHead (producers x)) None (Some (EStore end_marker))));
        [|by apply thread_consumer].
      apply (chain_update _ (memory x)); [done..| |done]. intros l [= <-]. split; [done|].
      intros p [= <-]. split_and!; [done..|]. intros [i|] l Hne E1 E2; [|done].
      destruct (i_held x L I i l end_marker) as [Hl _]; [by rewrite Ec|done|].
      by apply is_mark_false in Hl as [].
    + cbn. rewrite EL. intros H%list_elem_of_singleton. apply is_mark_false in Hm. naive_solver.
    + intros p. by apply inv_in.
    + by intros l [= <-].
    + cbn. split; [done|]. by intros p [= ->].
  - apply inv_stay; try done; by rewrite Ec.
Qed.

(** The consumer within [enqueue_node], of the end marker or of a node. *)
Lemma consumer_enqueues x L c l :
  inv x L → consumer x = c → first_node c (tail_readiness x) = tail_readiness x →
  consumer_epc c = Some l → returning l = false →
  (∀ p, holds l = Some p → p = end_marker ∧ is_mark (tail_readiness x) = false ∨ live (q_flags x) p) →
  ∃ l' m, enqueue_step sleep_marker closed_marker (memory x) l = Done (l', m) ∧
    (∀ p, holds l' = Some p → holds l = Some p) ∧
    ∀ c', consumer_epc c' = Some l' → first_node c' (tail_readiness x) = tail_readiness x →
      consumer_ok c' (tail_readiness x) m (q_flags x) (L ++ pushed l l') (producers x) →
      sleeping c' = false →
      inv (mkSystem m (tail_readiness x) (q_flags x) c' (producers x)) (L ++ pushed l l').
Proof.
  intros I Ec Hf El Hr Hp. pose proof (i_chain _ _ I) as C. rewrite Ec, Hf in C.
  destruct (enqueue_chain sleep_marker closed_marker (memory x) (tail_readiness x) L
    (thread c (producers x)) None l) as (l' & m & S); [done..| | |].
  { apply (i_opened _ _ I None). by rewrite Ec. }
  { intros p [[-> _]|H]%Hp; [done|]. by eapply live_not_closed. }
  exists l', m. split; [exact (es_step _ _ _ _ _ _ _ _ _ _ S)|].
  split; [exact (es_holds _ _ _ _ _ _ _ _ _ _ S)|]. intros c' Ec' Hf' Hok Hs.
  apply (inv_move x L); [done|..|done|by rewrite Hs].
  - rewrite Hf'. eapply chain_ext_threads; [exact (es_chain _ _ _ _ _ _ _ _ _ _ S)|].
    intros t. unfold upd. case_decide; subst; [done|]. by destruct t.
  - rewrite Hf'. intros Hin. rewrite elem_of_app in Hin.
    assert (sleep_marker ∈ L) as HL.
    { destruct Hin as [|H]; [done|]. apply (es_pushed _ _ _ _ _ _ _ _ _ _ S), Hp in H.
      destruct H as [[H _]|[H _]]; [by destruct Hes|]. by apply is_mark_false in H as (_ & ? & _). }
    destruct (inv_sleep x L I HL) as [E HeL]. rewrite Ec, Hf in E. split; [done|].
    rewrite elem_of_app. intros [|H]; [done|]. apply (es_pushed _ _ _ _ _ _ _ _ _ _ S), Hp in H.
    destruct H as [[_ H]|[H _]]; [|by apply is_mark_false in H as [? _]].
    rewrite E in H. by apply is_mark_false in H as (_ & ? & _).
  - intros p [H|H]%elem_of_app; [by apply (inv_in x L)|].
    apply (es_pushed _ _ _ _ _ _ _ _ _ _ S), Hp in H as [[-> _]|[_ H]]; [|by right].
    left. apply is_mark_iff. by left.
  - rewrite Ec'. intros l0 [= <-]. exact (es_opened _ _ _ _ _ _ _ _ _ _ S).
Qed.

Lemma consumes_end x L l : inv x L → consumer x = CEnd l → consumes x L.
Proof.
  intros I Ec. pose proof (i_consumer _ _ I) as H. rewrite Ec in H. destruct H as [Hm Hh].
  destruct (returning l) eqn:Hr.
  - exists CNext3, (tail_readiness x), (memory x), [], L. split; [by rewrite Ec; destruct l|].
    split; [|apply accounted_refl]. apply inv_stay; rewrite ?Ec; try done.
    intros l0 [= <-]. by destruct l.
  - destruct (consumer_enqueues x L (CEnd l) l) as (l' & m & E & Hh' & Hinv); try done.
    { intros p Hp. left. by rewrite (Hh p Hp). }
    exists (CEnd l'), (tail_readiness x), m, (enqueue_event end_marker sleep_marker closed_marker l l'),
      (L ++ pushed l l'). split; [rewrite Ec; destruct l; try done; cbn [Mpsc.consumer_step]; by rewrite E|].
    split; [|apply accounted_pushed]. apply Hinv; try done. split; [done|]. auto.
Qed.

Lemma consumes_requeue x L l : inv x L → consumer x = CRequeue l → consumes x L.
Proof.
  intros I Ec. pose proof (i_consumer _ _ I) as Hh. rewrite Ec in Hh. cbn in Hh.
  destruct (returning l) eqn:Hr.
  - exists CIdle, (tail_readiness x), (memory x), [], L. split; [by rewrite Ec; destruct l|].
    split; [|apply accounted_refl]. apply inv_stay; rewrite ?Ec; try done.
    intros l0 [= <-]. by destruct l.
  - destruct (consumer_enqueues x L (CRequeue l) l) as (l' & m & E & Hh' & Hinv); try done.
    { intros p Hp. right. by apply Hh. }
    exists (CRequeue l'), (tail_readiness x), m,
      (enqueue_event end_marker sleep_marker closed_marker l l'), (L ++ pushed l l').
    split; [rewrite Ec; destruct l; try done; cbn [Mpsc.consumer_step]; by rewrite E|].
    split; [|apply accounted_pushed]. apply Hinv; try done. intros p Hp. by apply Hh, Hh'.
Qed.

(** [clear_sleep_marker] and [prepare_for_sleep] reset the marker they are
    about to put in. *)
Lemma inv_store_marker x L c a :
  inv x L → consumer_epc (consumer x) = None → consumer_epc c = None → a ∉ L → is_mark a = true →
  first_node c (tail_readiness x) = first_node (consumer x) (tail_readiness x) →
  consumer_ok c (tail_readiness x) (store_link a None (memory x)) (q_flags x) L (producers x) →
  sleeping c = false →
  inv (mkSystem (store_link a None (memory x)) (tail_readiness x) (q_flags x) c (producers x)) L.
Proof.
  intros I Ho Hc Ha Hm Hf Hok Hs. apply (inv_move x L); [done|..|by rewrite Hc|done|by rewrite Hs].
  - rewrite Hf. apply chain_move; [done..|by rewrite Ho|done|].
    intros b Hb. apply lookup_partial_alter_ne. intros ->. destruct Hb as [|Hb]; [done|].
    by rewrite Hm in Hb.
  - rewrite Hf. by apply inv_sleep.
  - intros p. by apply inv_in.
Qed.

(** They exchange the marker that is alone in the queue. *)
Lemma inv_swap x L c tl a b :
  inv x L → consumer_epc (consumer x) = None → consumer_epc c = None →
  first_node (consumer x) (tail_readiness x) = a → head_readiness (memory x) = a →
  is_mark a = true → is_mark b = true → b ≠ closed_marker → links (memory x) !! b = None →
  first_node c tl = b →
  consumer_ok c tl (mkMemory (links (memory x)) b (awake (memory x))) (q_flags x) [b] (producers x) →
  (sleeping c = true → b = sleep_marker) →
  inv (mkSystem (mkMemory (links (memory x)) b (awake (memory x))) tl (q_flags x) c (producers x)) [b] ∧
  accounted L [] [b].
Proof.
  intros I Ho Hc Hf Hh Ha Hb Hbc Hl Hf' Hok Hs.
  assert (chain (memory x) a L (thread c (producers x))) as C
    by (rewrite <- Hf; apply chain_move; [done..|by rewrite Ho|done|done]).
  assert (L = [a]) as EL by exact (chain_single closed_marker _ _ _ _ C Hh).
  split; [|unfold accounted; rewrite EL; cbn [entered left_queue omap list_omap];
    rewrite !nodes_cons_mark by done; done].
  apply (inv_move x L); [done|..|by rewrite Hc|done|].
  - rewrite Hf'. rewrite EL in C. apply (chain_swap closed_marker _ a); [done..|].
    intros [i|] l E1 E2; [|cbn in E1; by rewrite Hc in E1].
    destruct (i_held x L I i l b E1 E2) as [H _]. by rewrite Hb in H.
  - rewrite Hf', !list_elem_of_singleton. by intros <-.
  - intros p ->%list_elem_of_singleton. by left.
  - intros E. left. by rewrite (Hs E).
Qed.

Lemma is_mark_end : is_mark end_marker = true.
Proof. apply is_mark_iff. auto. Qed.
Lemma is_mark_sleep : is_mark sleep_marker = true.
Proof. apply is_mark_iff. auto. Qed.

Lemma consumes_clear x L : inv x L →
  consumer x = CClear1 ∨ consumer x = CClear2 → consumes x L.
Proof.
  intros I Ec. pose proof (i_consumer _ _ I) as H.
  assert (first_node (consumer x) (tail_readiness x) = tail_readiness x) as Hf by by destruct Ec as [-> | ->].
  assert (tail_readiness x = sleep_marker) as Et by (destruct Ec as [Ec|Ec]; rewrite Ec in H; apply H).
  pose proof (inv_first x L I) as Hin. rewrite Hf, Et in Hin.
  pose proof (i_alone _ _ I Hin) as He.
  unfold consumes. destruct Ec as [Ec|Ec]; rewrite Ec in *; cbn [Mpsc.consumer_step].
  - eexists _, _, _, _, L. split; [done|]. split; [|apply accounted_refl].
    apply inv_store_marker; rewrite ?Ec; try done.
    + apply is_mark_end.
    + split; [done|]. apply lookup_partial_alter_eq.
  - destruct H as [_ Hl]. unfold cas_link.
    assert (head_readiness (memory x) ≠ end_marker) as Hh.
    { intros E. apply He. rewrite <- E. eapply chain_head_in, (i_chain _ _ I). }
    apply N.eqb_neq in Hh as Hh'. rewrite Hh'. cbn [negb mbind exec_bind assert].
    destruct (N.eqb_spec (head_readiness (memory x)) sleep_marker) as [E|E].
    + eexists _, _, _, _, [end_marker]. split; [done|].
      apply (inv_swap x L CIdle end_marker sleep_marker end_marker); rewrite ?Ec; try done.
      * apply is_mark_sleep.
      * apply is_mark_end.
    + eexists _, _, _, _, L. split; [done|]. split; [|apply accounted_refl].
      apply inv_stay; try done; by rewrite Ec.
Qed.

Lemma consumes_prephead x L : inv x L → consumer x = CPrepHead → consumes x L.
Proof.
  intros I Ec. pose proof (i_consumer _ _ I) as H. rewrite Ec in H. cbn in H.
  unfold consumes. rewrite Ec. cbn [Mpsc.consumer_step].
  destruct (N.eqb_spec (head_readiness (memory x)) sleep_marker) as [E|E];
    eexists _, _, _, _, L; (split; [done|]; split; [|apply accounted_refl]);
    apply inv_stay; rewrite ?Ec; try done. intros _. by left.
Qed.

Lemma consumes_prep x L : inv x L →
  consumer x = CPrep1 ∨ consumer x = CPrep2 → consumes x L.
Proof.
  intros I Ec. pose proof (i_consumer _ _ I) as H. pose proof (i_chain _ _ I) as C.
  assert (first_node (consumer x) (tail_readiness x) = tail_readiness x) as Hf by by destruct Ec as [-> | ->].
  assert (tail_readiness x = end_marker) as Et by (destruct Ec as [Ec|Ec]; rewrite Ec in H; apply H).
  assert (sleep_marker ∉ L) as Hs.
  { intros Hin. apply (i_sleep _ _ I) in Hin. rewrite Hf, Et in Hin. by apply Hes. }
  unfold consumes. destruct Ec as [Ec|Ec]; rewrite Ec in *; cbn [Mpsc.consumer_step].
  - eexists _, _, _, _, L. split; [done|]. split; [|apply accounted_refl].
    apply inv_store_marker; rewrite ?Ec; try done.
    + apply is_mark_sleep.
    + split; [done|]. apply lookup_partial_alter_eq.
  - destruct H as [_ Hl]. unfold cas_link.
    assert (head_readiness (memory x) ≠ sleep_marker) as Hh.
    { intros E. apply Hs. rewrite <- E. eapply chain_head_in, C. }
    apply N.eqb_neq in Hh as Hh'. rewrite Hh'. cbn [negb mbind exec_bind assert].
    destruct (N.eqb_spec (head_readiness (memory x)) end_marker) as [E|E].
    + eexists _, _, _, _, [sleep_marker]. split; [done|].
      apply (inv_swap x L CPrep3 _ end_marker sleep_marker); rewrite ?Ec; try done.
      * apply is_mark_end.
      * apply is_mark_sleep.
      * split; [done|]. rewrite <- E. apply (ch_head _ _ _ _ _ C).
    + eexists _, _, _, _, L. split; [done|]. split; [|apply accounted_refl].
      apply inv_stay; try done; by rewrite Ec.
Qed.

Lemma consumes_prep3 x L : inv x L → consumer x = CPrep3 → consumes x L.
Proof.
  intros I Ec. pose proof (i_consumer _ _ I) as H. rewrite Ec in H. destruct H as [Et El].
  unfold consumes, load_link. rewrite Ec. cbn [Mpsc.consumer_step].
  exists CWaiting, sleep_marker, (memory x), [], L. split.
  { unfold load_link. rewrite Et, N.eqb_refl, El. done. }
  split; [|apply accounted_refl]. apply (inv_move x L); [done|..|done|done|].
  - assert (first_node CWaiting sleep_marker = first_node (consumer x) (tail_readiness x)) as ->
      by by rewrite Ec. apply chain_move; [done..|by rewrite Ec|done|done].
  - intros Hin. split; [done|]. by apply (i_alone _ _ I).
  - intros p. by apply inv_in.
  - intros _. apply (i_wake _ _ I). by rewrite Ec.
Qed.

(** Within a call, the consumer always has a step: no assertion fails. *)
Lemma consumer_consumes x L : inv x L →
  consumer x = CIdle ∨ (∃ p, consumer x = CData p) ∨ consumer x = CWaiting ∨ consumes x L.
Proof.
  intros I. destruct (consumer x) as [|u|u| |l| | | |p|l| | | | |] eqn:Ec; eauto 6; do 3 right.
  - by eapply consumes_next1.
  - by eapply consumes_next2.
  - by apply consumes_head.
  - by eapply consumes_end.
  - by apply consumes_next3.
  - apply consumes_clear; auto.
  - apply consumes_clear; auto.
  - by eapply consumes_requeue.
  - by apply consumes_prephead.
  - apply consumes_prep; auto.
  - apply consumes_prep; auto.
  - by apply consumes_prep3.
Qed.

(** ** The whole system *)

(** What [poll] does with the node it dequeued. *)
Lemma inv_unqueue x L p : inv x L → consumer x = CData p →
  inv (with_consumer CIdle (with_flags (q_flags x ∖ {[p]}) x)) L.
Proof.
  intros I Ec. pose proof (i_consumer _ _ I) as H. rewrite Ec in H. destruct H as (_ & HpL & Hno).
  pose proof (i_sleep _ _ I) as Hs. rewrite Ec in Hs.
  split; cbn [with_consumer with_flags memory tail_readiness q_flags consumer producers]; try done.
  - assert (first_node CIdle (tail_readiness x) = first_node (consumer x) (tail_readiness x)) as ->
      by by rewrite Ec. apply chain_move; [done..|by rewrite Ec|done|done].
  - apply (i_alone _ _ I).
  - intros q Hq Hm. pose proof (i_flags _ _ I q Hq Hm). set_solver.
  - intros i l q E1 E2. destruct (i_held _ _ I i l q E1 E2) as [Hm Hf]. split; [done|].
    apply elem_of_difference. split; [done|]. intros ->%elem_of_singleton. by apply (Hno i l E1).
  - intros [i|] l E; [|done]. exact (i_opened _ _ I (Some i) l E).
Qed.

Lemma inv_requeue x L p : inv x L → consumer x = CData p →
  inv (with_consumer (CRequeue (EStore p)) x) L.
Proof.
  intros I Ec. pose proof (i_consumer _ _ I) as H. rewrite Ec in H. destruct H as (Hp & HpL & Hno).
  apply (inv_move x L); [done|..|done].
  - apply (chain_ext_threads _ _ _ _ (upd (thread (consumer x) (producers x)) None (Some (EStore p))));
      [|by apply thread_consumer].
    apply (chain_update _ (memory x)); [|done..| | |done].
    + pose proof (i_chain _ _ I) as C. by rewrite Ec in *.
    + rewrite Ec. by intros l.
    + intros l [= <-]. split; [done|]. intros q [= <-]. split_and!; [done..|].
      intros [i|] l Hne E1; [|done]. exact (Hno i l E1).
  - intros Hin. destruct (inv_sleep x L I Hin) as [E ?]. by rewrite Ec in E.
  - intros q. by apply inv_in.
  - by intros l [= <-].
  - cbn. by intros q [= <-].
Qed.

Lemma inv_cleanup x L b : inv x L → consumer x = CIdle →
  inv (with_memory (set_awake b (memory x)) x) L.
Proof.
  intros I Ec. destruct x as [m tl f c ps]. cbn in Ec. subst c.
  apply (inv_move _ L CIdle tl (set_awake b m) L I); [..|done|done|done].
  - by apply (chain_move _ L CIdle (set_awake b m) I).
  - intros Hin. exact (inv_sleep _ L I Hin).
  - intros p Hp. exact (inv_in _ L p I Hp).
Qed.

Lemma inv_begin x L c : inv x L → consumer x = CIdle ∨ consumer x = CWaiting →
  consumer_epc c = None → first_node c (tail_readiness x) = tail_readiness x →
  consumer_ok c (tail_readiness x) (memory x) (q_flags x) L (producers x) →
  sleeping c = false → inv (with_consumer c x) L.
Proof.
  intros I Ec Hc Hf Hok Hs. apply (inv_stay x L c); [done..| |rewrite Hf|done|by rewrite Hs].
  - by destruct Ec as [-> | ->].
  - by destruct Ec as [-> | ->].
Qed.

Lemma system_inv_step x L es x' : inv x L → step x es x' → ∃ L', inv x' L' ∧ accounted L es L'.
Proof.
  intros I S. destruct S as
    [x i p Hi Hm Hf|x i l l' m Hi H1 H2 E|x i b Hi|x i p Hi|x i Hi|x c tl m es E|x u Ec|x Ec|x Ec
    |x p Ec|x p Ec|x Ec|x Ec].
  - exists L. split; [by apply inv_produce|apply accounted_refl].
  - exists (L ++ pushed l l'). split; [|apply accounted_pushed]. apply inv_enqueue; try done.
    destruct l; try done; [by destruct (H1 wake)|by destruct (H2 p)].
  - exists L. split; [|apply accounted_refl].
    apply (inv_leave x L i (PEnq (EDone b)) _ (memory x)); try done; [by destruct b|by intros l [= <-]|].
    intros E. left. cbn in E. by subst b.
  - exists L. split; [|apply accounted_refl].
    by apply (inv_leave x L i (PEnq (EClosed p)) PIdle (memory x)); [..|intros l [= <-]| | | |].
  - exists L. split; [|apply accounted_refl].
    apply (inv_leave x L i PWake); try done. intros _. by right.
  - destruct (consumer_consumes x L I) as [Ec|[[p Ec]|[Ec|H]]]; [by rewrite Ec in E..|].
    destruct H as (c1 & tl1 & m1 & es1 & L' & E1 & I' & A). rewrite E in E1. injection E1 as <- <- <- <-.
    by exists L'.
  - exists L. split; [|apply accounted_refl]. apply inv_begin; cbn; auto.
  - exists L. split; [|apply accounted_refl]. unfold clear_call.
    destruct (N.eqb_spec (tail_readiness x) sleep_marker); apply inv_begin; cbn; auto.
  - exists L. split; [|apply accounted_refl]. unfold prepare_call.
    destruct (N.eqb_spec (tail_readiness x) sleep_marker); [apply inv_begin; cbn; auto|].
    destruct (N.eqb_spec (tail_readiness x) end_marker); apply inv_begin; cbn; auto.
  - exists L. split; [by apply inv_unqueue|apply accounted_refl].
  - exists L. split; [by apply inv_requeue|apply accounted_refl].
  - exists L. split; [|apply accounted_refl]. apply inv_begin; cbn; auto.
  - exists L. split; [by apply inv_cleanup|apply accounted_refl].
Qed.

Lemma inv_initial n : inv (initial end_marker n) [end_marker].
Proof.
  assert (∀ t, thread CIdle (replicate n PIdle) t = None) as Hth.
  { intros [i|]; [|done]. cbn. destruct (replicate n PIdle !! i) eqn:E; [|done].
    by apply lookup_replicate in E as [-> _]. }
  unfold initial. split; cbn [memory tail_readiness q_flags consumer producers].
  - split; try setoid_rewrite Hth; try done.
    + apply NoDup_singleton.
    + by intros [|? [|??]] ???.
    + rewrite list_elem_of_singleton. intros E. by apply Hec.
  - intros E%list_elem_of_singleton. by destruct Hes.
  - intros E%list_elem_of_singleton. by destruct Hes.
  - intros p ->%list_elem_of_singleton. by rewrite is_mark_end.
  - intros i l p. by rewrite Hth.
  - intros t l. by rewrite Hth.
  - done.
  - done.
Qed.

(** Every state the system can reach has a chain, and the nodes of the chain
    are those that entered and have not left, in that order. *)
Lemma system_reachable_inv n x tr :
  reachable end_marker sleep_marker closed_marker n x tr →
  ∃ L, inv x L ∧ entered tr = left_queue tr ++ nodes L.
Proof.
  induction 1 as [|x tr es x' _ (L & I & E) S].
  - exists [end_marker]. split; [apply inv_initial|]. cbn [entered left_queue omap list_omap].
    by rewrite nodes_cons_mark by apply is_mark_end.
  - destruct (system_inv_step x L es x' I S) as (L' & I' & A). exists L'. split; [done|].
    unfold entered, left_queue in *. rewrite !omap_app, E, <- !app_assoc. by f_equal.
Qed.
End System.
