(* ===== verification/MpscTheorems.v ===== *)
(** * The readiness queue under concurrency: theorems

    First in first out, no lost node, no lost wakeup, no failed assertion, and
    a dequeue that gives the first node whenever no producer is between its
    exchange of the head and its store of the link. *)
From S2P Require Import Prelude ReadinessQueue Mpsc MpscInv MpscSpec MpscProps.

Section Theorems.
Context (end_marker sleep_marker closed_marker : ptr).
Context (Hes : end_marker ≠ sleep_marker) (Hec : end_marker ≠ closed_marker)
  (Hsc : sleep_marker ≠ closed_marker).
#[local] Abbreviation is_mark := (is_marker end_marker sleep_marker closed_marker).
#[local] Abbreviation reachable := (reachable end_marker sleep_marker closed_marker).
#[local] Abbreviation consumer_step := (consumer_step end_marker sleep_marker closed_marker).
#[local] Abbreviation run_consumer := (run_consumer end_marker sleep_marker closed_marker).
#[local] Abbreviation inv := (inv end_marker sleep_marker closed_marker).
#[local] Abbreviation nodes := (nodes end_marker sleep_marker closed_marker).
Implicit Types (x : System) (m : Memory) (L : list ptr) (l : epc).

(** [b] follows [a]: the link is stored, or the thread that is to store it is
    about to. *)
Definition follows x (a b : ptr) : Prop :=
  links (memory x) !! a = Some b ∨
  links (memory x) !! a = None ∧
    ∃ t l, thread (consumer x) (producers x) t = Some l ∧ linking l = Some (b, a).

Lemma fifo_ok n x tr : reachable n x tr →
  ∃ L, entered tr = left_queue tr ++ nodes L ∧ NoDup L ∧
    head L = Some (first_node sleep_marker (consumer x) (tail_readiness x)) ∧
    last L = Some (head_readiness (memory x)) ∧
    (∀ L1 a b L2, L = L1 ++ a :: b :: L2 → follows x a b) ∧
    ∀ p, p ∈ L → is_mark p = false → p ∈ q_flags x.
Proof.
  intros H. destruct (system_reachable_inv end_marker sleep_marker closed_marker Hes Hec Hsc n x tr H)
    as (L & I & E). pose proof (i_chain _ _ _ _ _ I) as C.
  exists L. split; [exact E|]. split; [exact (ch_nodup _ _ _ _ _ C)|].
  split; [exact (ch_first _ _ _ _ _ C)|]. split; [exact (ch_last _ _ _ _ _ C)|].
  split; [exact (ch_link _ _ _ _ _ C)|exact (i_flags _ _ _ _ _ I)].
Qed.

Lemma no_panic_ok n x tr : reachable n x tr →
  (∀ i l, producers x !! i = Some (PEnq l) →
     ∃ l' m, enqueue_step sleep_marker closed_marker (memory x) l = Done (l', m) ∧
       ∀ p, l' ≠ EClosed p) ∧
  ∃ r, consumer_step (consumer x) (tail_readiness x) (memory x) = Done r.
Proof.
  intros H. destruct (system_reachable_inv end_marker sleep_marker closed_marker Hes Hec Hsc n x tr H)
    as (L & I & _). split.
  - intros i l Hi. destruct (returning l) eqn:Hr.
    + exists l, (memory x). split; [by destruct l|]. intros p ->.
      apply (i_opened _ _ _ _ _ I (Some i) (EClosed p)). cbn. by rewrite Hi.
    + destruct (producer_enqueues end_marker sleep_marker closed_marker x L i l I Hi Hr)
        as (l' & m & S). exists l', m. split; [exact (es_step _ _ _ _ _ _ _ _ _ _ S)|].
      intros p ->. exact (es_opened _ _ _ _ _ _ _ _ _ _ S).
  - destruct (consumer_consumes end_marker sleep_marker closed_marker Hes Hec Hsc x L I)
      as [E|[[p E]|[E|(c & tl & m & es & L' & E & _)]]]; [by eexists; rewrite E..|by eexists].
Qed.

Lemma chain_sleeping x L : inv x L → consumer x = CWaiting →
  head_readiness (memory x) = sleep_marker → nodes L = [].
Proof.
  intros I Ec Eh. pose proof (i_chain _ _ _ _ _ I) as C. pose proof (i_consumer _ _ _ _ _ I) as Hok.
  rewrite Ec in C, Hok. cbn in C, Hok. rewrite Hok in C.
  rewrite (chain_single closed_marker (memory x) _ _ _ C Eh).
  apply nodes_cons_mark, is_mark_sleep.
Qed.

Lemma no_lost_wakeup_ok n x tr : reachable n x tr → consumer x = CWaiting →
  entered tr ≠ left_queue tr →
  awake (memory x) = true ∨
  ∃ i p, producers x !! i = Some p ∧ waker sleep_marker p.
Proof.
  intros H Ec Hne. destruct (system_reachable_inv end_marker sleep_marker closed_marker Hes Hec Hsc n x tr H)
    as (L & I & E).
  destruct (i_wake _ _ _ _ _ I) as [Eh|[Ea|Ew]]; [by rewrite Ec| |by left|by right].
  destruct Hne. rewrite E, (chain_sleeping x L I Ec Eh). apply app_nil_r.
Qed.

(** ** A consumer alone *)

Lemma run_step fuel m tl f c ps es c' tl' m' es' :
  consumer_step c tl m = Done (Some (c', tl', m', es')) →
  run_consumer (S fuel) (mkSystem m tl f c ps) es =
    run_consumer fuel (mkSystem m' tl' f c' ps) (es ++ es').
Proof. intros E. cbn [Mpsc.run_consumer consumer tail_readiness memory]. by rewrite E. Qed.

Lemma run_data fuel m tl f p ps es :
  run_consumer (S fuel) (mkSystem m tl f (CData p) ps) es = Done (mkSystem m tl f (CData p) ps, es).
Proof. done. Qed.

(** The last node: the end marker is put behind it first. *)
Lemma run_head fuel m tl f ps es :
  tl ≠ end_marker → tl ≠ closed_marker → links m !! tl = None → head_readiness m = tl →
  ∃ m', run_consumer (9 + fuel) (mkSystem m tl f CHead ps) es =
    Done (mkSystem m' end_marker f (CData tl) ps, es ++ [Dequeued tl]).
Proof.
  intros He Hc El Eh. eexists. cbn [Nat.add].
  erewrite run_step by (cbn; rewrite Eh, N.eqb_refl; reflexivity). rewrite app_nil_r.
  erewrite run_step by reflexivity. cbn [enqueue_event]. rewrite app_nil_r.
  erewrite run_step by reflexivity. cbn [enqueue_event]. rewrite app_nil_r.
  erewrite run_step.
  2:{ cbn. rewrite Eh. apply N.eqb_neq in Hc as ->. rewrite N.eqb_refl. reflexivity. }
  cbn [enqueue_event]. rewrite is_mark_end, app_nil_r.
  erewrite run_step.
  2:{ cbn. unfold load_link. cbn. rewrite lookup_partial_alter_ne by done. rewrite El. reflexivity. }
  cbn [enqueue_event]. rewrite app_nil_r.
  erewrite run_step by reflexivity. cbn [enqueue_event]. rewrite app_nil_r.
  erewrite run_step by reflexivity. rewrite app_nil_r.
  erewrite run_step.
  2:{ cbn. unfold load_link. cbn. rewrite lookup_partial_alter_eq. reflexivity. }
  apply run_data.
Qed.

(** At a node whose link, and every link behind it, is there. *)
Lemma run_loaded fuel m L tl f ps c es :
  L = tl :: drop 1 L → is_mark tl = false →
  (∀ a b L2, L = a :: b :: L2 → links m !! a = Some b) →
  (L = [tl] → links m !! tl = None ∧ head_readiness m = tl) →
  (∃ u, c = CNext1 u ∧ u = None) ∨ (∃ u, c = CNext2 u ∧ u = None) →
  ∃ x', run_consumer (10 + fuel) (mkSystem m tl f c ps) es = Done (x', es ++ [Dequeued tl]) ∧
    consumer x' = CData tl ∧ q_flags x' = f ∧ producers x' = ps.
Proof.
  intros HL Hm Hl Hh Hc. destruct (is_mark_false end_marker sleep_marker closed_marker tl Hm) as (H1 & _ & H3).
  assert (∀ next, links m !! tl = next → consumer_step c tl m = Done (Some
    (let '(c', tl', es') := take_data tl next CHead in (c', tl', m, es')))) as Es.
  { intros next E. destruct Hc as [(u & -> & ->)|(u & -> & ->)]; cbn;
      unfold load_link; rewrite ?Hm, E; by destruct next. }
  change (10 + fuel)%nat with (S (9 + fuel)).
  destruct (drop 1 L) as [|next L2] eqn:Ed; subst L.
  - destruct (Hh eq_refl) as [El Eh]. specialize (Es None El). cbn [take_data] in Es.
    erewrite run_step by exact Es. rewrite app_nil_r.
    destruct (run_head fuel m tl f ps es) as [m' ->]; [done..|]. by eexists.
  - specialize (Es _ (Hl _ _ _ eq_refl)). cbn [take_data] in Es.
    erewrite run_step by exact Es. cbn [Nat.add]. rewrite run_data. by eexists.
Qed.

(** No producer is between its exchange and its store: every link is there. *)
Lemma links_there x L a b L1 L2 : inv x L → consumer x = CIdle →
  (∀ i l, producers x !! i = Some (PEnq l) → linking l = None) →
  L = L1 ++ a :: b :: L2 → links (memory x) !! a = Some b.
Proof.
  intros I Ec Hp EL. destruct (ch_link _ _ _ _ _ (i_chain _ _ _ _ _ I) L1 a b L2 EL) as [E|(_ & t & l & E1 & E2)];
    [done|]. rewrite Ec in E1. destruct t as [i|]; [|done]. cbn in E1.
  destruct (producers x !! i) as [[|l'|]|] eqn:Ei; try done. injection E1 as ->.
  by rewrite (Hp i l Ei) in E2.
Qed.

Lemma dequeues_ok n x tr p rest : reachable n x tr → consumer x = CIdle →
  (∀ i l, producers x !! i = Some (PEnq l) → linking l = None) →
  entered tr = left_queue tr ++ p :: rest →
  ∃ x', run_consumer 12 (with_consumer (CNext1 None) x) [] = Done (x', [Dequeued p]) ∧
    consumer x' = CData p ∧ q_flags x' = q_flags x ∧ producers x' = producers x.
Proof.
  intros H Ec Hp En.
  destruct (system_reachable_inv end_marker sleep_marker closed_marker Hes Hec Hsc n x tr H) as (L & I & E).
  rewrite En in E. apply app_inv_head in E. pose proof (i_chain _ _ _ _ _ I) as C.
  pose proof (λ L1 a b L2, links_there x L a b L1 L2 I Ec Hp) as Hl.
  pose proof (ch_first _ _ _ _ _ C) as Ef. pose proof (ch_last _ _ _ _ _ C) as Elast.
  pose proof (ch_head _ _ _ _ _ C) as Eh. rewrite Ec in *. cbn [first_node] in *.
  destruct L as [|tl L]; [done|]. injection Ef as Etl.
  destruct x as [m tl' f c ps]; cbn [memory tail_readiness q_flags consumer producers] in *. subst c tl'.
  destruct (is_mark tl) eqn:Em.
  - rewrite nodes_cons_mark in E by done. destruct L as [|a L]; [done|].
    assert (is_mark a = false) as Ha.
    { pose proof (ch_nodup _ _ _ _ _ C) as Hnd. apply NoDup_cons in Hnd as [Hnd _].
      destruct (is_mark a) eqn:Ea; [exfalso|done]. apply is_mark_iff in Ea as [->|[->| ->]].
      - apply is_mark_iff in Em as [->|[->| ->]]; [set_solver| |].
        + apply (i_alone _ _ _ _ _ I); set_solver.
        + apply (ch_open _ _ _ _ _ C). set_solver.
      - pose proof (i_sleep _ _ _ _ _ I ltac:(set_solver)) as Es. cbn in Es. set_solver.
      - apply (ch_open _ _ _ _ _ C). set_solver. }
    rewrite nodes_cons_node in E by done. injection E as -> _.
    change 12%nat with (S (10 + 1))%nat. unfold with_consumer. cbn [memory tail_readiness q_flags producers].
    erewrite run_step.
    2:{ cbn. rewrite Em. unfold load_link. rewrite (Hl [] tl a L eq_refl). reflexivity. }
    rewrite app_nil_r.
    apply (run_loaded 1 m (a :: L) a f ps (CNext2 None) []); [done..| | |right; by eexists].
    + intros b b' L2 Eb. apply (Hl [tl] b b' L2). by rewrite Eb.
    + intros [= ->]. injection Elast as E1. by rewrite E1.
  - rewrite nodes_cons_node in E by done. injection E as -> _.
    apply (run_loaded 2 m (tl :: L) tl f ps (CNext1 None) []); [done..| | |left; by eexists].
    + intros b b' L2 Eb. by apply (Hl [] b b' L2).
    + intros [= ->]. injection Elast as E1. by rewrite E1.
Qed.
End Theorems.

(** ** Properties *)

(** C1 under any interleaving of any number of [enqueue_node] calls with the
    consumer's dequeues, re-enqueues and sleeps, the readiness queue is first
    in, first out and loses nothing: the nodes that entered are, in order, those
    that were dequeued followed by those of the chain in memory, which goes from
    the tail to the head without repetition, each node linked to the next, or
    the thread that put the next one there about to store the link; and the
    nodes in it have their queued flag set. *)
Theorem mpsc_fifo end_marker sleep_marker closed_marker n x tr
    (Hes : end_marker ≠ sleep_marker) (Hec : end_marker ≠ closed_marker)
    (Hsc : sleep_marker ≠ closed_marker)
    (H : reachable end_marker sleep_marker closed_marker n x tr) :
  ∃ L, entered tr =
      left_queue tr ++ filter (λ p, is_marker end_marker sleep_marker closed_marker p = false) L ∧
    NoDup L ∧ head L = Some (first_node sleep_marker (consumer x) (tail_readiness x)) ∧
    last L = Some (head_readiness (memory x)) ∧
    (∀ L1 a b L2, L = L1 ++ a :: b :: L2 →
       links (memory x) !! a = Some b ∨
       links (memory x) !! a = None ∧
         ∃ t l, thread (consumer x) (producers x) t = Some l ∧ linking l = Some (b, a)) ∧
    ∀ p, p ∈ L → is_marker end_marker sleep_marker closed_marker p = false → p ∈ q_flags x.
Proof. exact (fifo_ok _ _ _ Hes Hec Hsc n x tr H). Qed.

(** no assertion of [enqueue_node], [dequeue_node], [clear_sleep_marker]
    or [prepare_for_sleep] fails in any interleaving: the link of the node a
    producer exchanged is null, and the markers are where the consumer expects
    them; and no node is given back as long as the queue is open. *)
Theorem mpsc_no_panic end_marker sleep_marker closed_marker n x tr
    (Hes : end_marker ≠ sleep_marker) (Hec : end_marker ≠ closed_marker)
    (Hsc : sleep_marker ≠ closed_marker)
    (H : reachable end_marker sleep_marker closed_marker n x tr) :
  (∀ i l, producers x !! i = Some (PEnq l) →
     ∃ l' m, enqueue_step sleep_marker closed_marker (memory x) l = Done (l', m) ∧
       ∀ p, l' ≠ EClosed p) ∧
  ∃ r, consumer_step end_marker sleep_marker closed_marker
    (consumer x) (tail_readiness x) (memory x) = Done r.
Proof. exact (no_panic_ok _ _ _ Hes Hec Hsc n x tr H). Qed.

(** C9 no wakeup is lost: when the poll has gone to sleep and the queue holds
    a node, the pipe of the awakener holds a byte or some producer is on its
    way to write one, in every interleaving. *)
Theorem mpsc_no_lost_wakeup end_marker sleep_marker closed_marker n x tr
    (Hes : end_marker ≠ sleep_marker) (Hec : end_marker ≠ closed_marker)
    (Hsc : sleep_marker ≠ closed_marker)
    (H : reachable end_marker sleep_marker closed_marker n x tr)
    (Hw : consumer x = CWaiting) (Hne : entered tr ≠ left_queue tr) :
  awake (memory x) = true ∨
  ∃ i p, producers x !! i = Some p ∧ waker sleep_marker p.
Proof. exact (no_lost_wakeup_ok _ _ _ Hes Hec Hsc n x tr H Hw Hne). Qed.

(** C13 whenever no producer is between its exchange of the head and its store
    of the link, a call of [dequeue_node] returns the oldest node of the queue,
    within a dozen accesses; [Dequeue::Inconsistent] is left to the producers
    that are in between. *)
Theorem mpsc_dequeues end_marker sleep_marker closed_marker n x tr p rest
    (Hes : end_marker ≠ sleep_marker) (Hec : end_marker ≠ closed_marker)
    (Hsc : sleep_marker ≠ closed_marker)
    (H : reachable end_marker sleep_marker closed_marker n x tr)
    (Hc : consumer x = CIdle)
    (Hp : ∀ i l, producers x !! i = Some (PEnq l) → linking l = None)
    (Hn : entered tr = left_queue tr ++ p :: rest) :
  ∃ x', run_consumer end_marker sleep_marker closed_marker 12
      (with_consumer (CNext1 None) x) [] = Done (x', [Dequeued p]) ∧
    consumer x' = CData p ∧ q_flags x' = q_flags x ∧ producers x' = producers x.
Proof. exact (dequeues_ok _ _ _ Hes Hec Hsc n x tr p rest H Hc Hp Hn). Qed.

(** ** Two runs *)

Module MpscDemo.
(** The poll goes to sleep, and a producer has put node 10 in. *)
Definition asleep : System :=
  mkSystem (mkMemory ∅ 10 false) 2 {[10]} CWaiting [PEnq (EAssert 10 2)].
(** The poll is awake, and the producer has returned. *)
Definition ready : System :=
  mkSystem (mkMemory {[1 := 10]} 10 false) 1 {[10]} CIdle [PIdle].

#[local] Ltac advance H tac :=
  let H' := fresh in
  eassert (reachable 1 2 3 1 _ _) as H' by (eapply reach_step; [exact H|tac]);
  clear H; rename H' into H; cbn in H.
#[local] Ltac enqueues :=
  eapply (step_enqueue _ _ _ _ 0%nat); [reflexivity|done|done|reflexivity].
#[local] Ltac consume_step := eapply step_consume; reflexivity.

Lemma asleep_reachable : reachable 1 2 3 1 asleep [Enqueued 10].
Proof.
  pose proof (reach_initial 1 2 3 1) as H.
  advance H ltac:(apply step_prepare; reflexivity).
  advance H ltac:(consume_step). advance H ltac:(consume_step). advance H ltac:(consume_step).
  advance H ltac:(apply (step_produce _ _ _ _ 0%nat 10); [reflexivity|reflexivity|set_solver]).
  advance H ltac:(enqueues). advance H ltac:(enqueues). advance H ltac:(enqueues).
  exact H.
Qed.

Lemma ready_reachable : reachable 1 2 3 1 ready [Enqueued 10].
Proof.
  pose proof (reach_initial 1 2 3 1) as H.
  advance H ltac:(apply (step_produce _ _ _ _ 0%nat 10); [reflexivity|reflexivity|set_solver]).
  advance H ltac:(enqueues). advance H ltac:(enqueues). advance H ltac:(enqueues). advance H ltac:(enqueues). advance H ltac:(enqueues).
  advance H ltac:(eapply (step_enqueued _ _ _ _ 0%nat); reflexivity).
  exact H.
Qed.
End MpscDemo.

Lemma mpsc_fifo_witness :
  ∃ L, [10] = [] ++ filter (λ p, is_marker 1 2 3 p = false) L ∧ head L = Some 2 ∧ last L = Some 10 ∧
    ∀ L1 a b L2, L = L1 ++ a :: b :: L2 →
      links (memory MpscDemo.asleep) !! a = Some b ∨
      ∃ t l, thread CWaiting [PEnq (EAssert 10 2)] t = Some l ∧ linking l = Some (b, a).
Proof.
  destruct (mpsc_fifo 1 2 3 1 MpscDemo.asleep [Enqueued 10] ltac:(done) ltac:(done) ltac:(done)
    MpscDemo.asleep_reachable) as (L & E & _ & Eh & El & Hl & _).
  exists L. split; [exact E|]. split; [exact Eh|]. split; [exact El|].
  intros L1 a b L2 EL. destruct (Hl L1 a b L2 EL) as [?|[_ ?]]; [by left|by right].
Defined.

Lemma mpsc_no_panic_witness : ∃ r,
  consumer_step 1 2 3 (consumer MpscDemo.ready) (tail_readiness MpscDemo.ready)
    (memory MpscDemo.ready) = Done r.
Proof.
  exact (proj2 (mpsc_no_panic 1 2 3 1 MpscDemo.ready [Enqueued 10] ltac:(done) ltac:(done) ltac:(done)
    MpscDemo.ready_reachable)).
Defined.

Lemma mpsc_no_lost_wakeup_witness :
  awake (memory MpscDemo.asleep) = true ∨
  ∃ i p, producers MpscDemo.asleep !! i = Some p ∧ waker 2 p.
Proof.
  exact (mpsc_no_lost_wakeup 1 2 3 1 MpscDemo.asleep [Enqueued 10] ltac:(done) ltac:(done) ltac:(done)
    MpscDemo.asleep_reachable eq_refl ltac:(vm_compute; discriminate)).
Defined.

Lemma mpsc_dequeues_witness :
  ∃ x', run_consumer 1 2 3 12 (with_consumer (CNext1 None) MpscDemo.ready) [] =
      Done (x', [Dequeued 10]) ∧
    consumer x' = CData 10 ∧ q_flags x' = {[10]} ∧ producers x' = [PIdle].
Proof.
  apply (mpsc_dequeues 1 2 3 1 MpscDemo.ready [Enqueued 10] 10 []); [done..| | | |done].
  - exact MpscDemo.ready_reachable.
  - reflexivity.
  - intros [|[|i]] l E; discriminate E.
Defined.
