(* ===== verification/NodeSync.v ===== *)
(** * One readiness node under concurrency

    [set_readiness], [update] and the drops of [src/src/poll.rs], and the body of
    [ReadinessQueue::poll], on one node, this time interleaved: any number of
    threads with a [SetReadiness], any number that share the [Registration],
    and the one poll.  A step is one access to the node: its word, its three
    token slots, its lock, its job, its reference count.  That the node enters
    or leaves the queue is one step too ([Mpsc] shows why it may be).

    The node is associated with the queue from the start, as [Registration::new]
    makes it; that the first [update] of a node of [new2] associates it is in
    [Registration], one call after the other.  What happens is recorded as a
    list of [event]s. *)
From S2P Require Import Prelude EventSet ReadinessState Awakener Duration Selector ReadinessQueue.

Section NodeSync.
Context {J : Type} (null_job : J).

(** The arguments of [update]. *)
Record Args := mkArgs {
  a_token : TokenEntry;
  a_interest : Ready;
  a_opt : PollOpt;
  a_job : J;
}.

(** The node, whether it was freed, and how often the queue holds it. *)
Record Shared := mkShared {
  node : ReadinessNode (J:=J);
  freed : bool;
  entries : nat;
}.

Inductive event : Type :=
  (** An exchange of [set_readiness] or of [update] stored this word. *)
  | Readied (s : ReadinessState)
  | Updated (a : Args) (s : ReadinessState)
  (** The poll loaded this word, or replaced it. *)
  | Loaded (s : ReadinessState)
  | Took (s : ReadinessState)
  (** [push_event] with the job. *)
  | Reported (r : Ready) (tok : TokenEntry) (j : J).

(** ** Accesses of the node *)

Definition live (s : Shared) : exec (ReadinessNode (J:=J)) :=
  if freed s then Panic PFreed else Done (node s).
Definition with_node (n : ReadinessNode (J:=J)) (s : Shared) : Shared :=
  mkShared n (freed s) (entries s).
Definition load_word (s : Shared) : exec ReadinessState :=
  live s ≫= λ n, Done (AtomicState.load (n_state n)).
Definition cas_word (current new : ReadinessState) (s : Shared) : exec (ReadinessState * Shared) :=
  live s ≫= λ n,
  let '(r, w) := AtomicState.compare_and_swap (n_state n) current new in
  Done (r, with_node (with_state w n) s).
Definition enqueue (s : Shared) : exec Shared :=
  live s ≫= λ n, Done (mkShared n (freed s) (S (entries s))).
(** [release_node]: the last reference frees the node. *)
Definition release (s : Shared) : exec Shared :=
  live s ≫= λ n,
  Done (mkShared (with_ref (fetch_sub1 (n_ref_count n)) n) (n_ref_count n =? 1) (entries s)).
(** [Clone for RegistrationInner]. *)
Definition clone (s : Shared) : exec Shared :=
  live s ≫= λ n,
  if negb (N.land (n_ref_count n) (not64 MAX_REFCOUNT) =? 0) then Panic PAbort
  else Done (with_node (with_ref (fetch_add1 (n_ref_count n)) n) s).

(** ** [SetReadiness] *)

(** The word that [set_readiness] wants to store. *)
Definition set_next (ready : Ready) (state : ReadinessState) : exec ReadinessState :=
  let next := RS.set_readiness state ready in
  if negb (Ready.is_empty (RS.effective_readiness next)) then RS.set_queued next else Done next.

(** A thread with a handle: outside; at the load and the exchange of
    [set_readiness]; before [enqueue_with_wakeup]; before the release of its
    handle; without one. *)
Inductive spc : Type :=
  | SIdle
  | SLoad (r : Ready)
  | SCas (r : Ready) (state : ReadinessState)
  | SEnq
  | SDrop
  | SGone.

Definition setter_step (s : Shared) (l : spc) : exec (option (spc * Shared * list event)) :=
  match l with
  | SLoad r => load_word s ≫= λ state, Done (Some (SCas r state, s, []))
  | SCas r state =>
      if RS.is_dropped state then Done (Some (SIdle, s, []))
      else
        set_next r state ≫= λ next,
        cas_word state next s ≫= λ '(actual, s),
        Done (Some (
          if bool_decide (state = actual) then
            (if negb (RS.is_queued state) && RS.is_queued next then SEnq else SIdle, s, [Readied next])
          else (SCas r actual, s, [])))
  | SEnq => enqueue s ≫= λ s, Done (Some (SIdle, s, []))
  | SDrop => release s ≫= λ s, Done (Some (SGone, s, []))
  | SIdle | SGone => Done None
  end.

(** ** [update] *)

Definition update_next (a : Args) (pos : N) (state : ReadinessState) : exec ReadinessState :=
  let next := RS.set_token_write_pos state pos in
  let next := RS.set_interest next (a_interest a) in
  let next := RS.set_poll_opt next (a_opt a) in
  if negb (Ready.is_empty (RS.effective_readiness next)) then RS.set_queued next else Done next.

(** A thread that calls [update]: outside; at the lock; at the load; at the read
    of the token and, with the word it loaded, the write of another slot; at
    the exchange; at the unlocking, [won] when it has set the queued flag; at
    the store of the job; before [enqueue_with_wakeup]. *)
Inductive upc : Type :=
  | UIdle
  | ULock (a : Args)
  | ULoad (a : Args)
  | URead (a : Args) (state : ReadinessState)
  | UWrite (a : Args) (state : ReadinessState) (pos : N)
  | UCas (a : Args) (cur pos : N) (state : ReadinessState)
  | UUnlock (a : Args) (won : bool)
  | UJob (a : Args)
  | UEnq.

Definition updater_step (s : Shared) (l : upc) : exec (option (upc * Shared * list event)) :=
  match l with
  | ULock a =>
      live s ≫= λ n,
      Done (Some (if n_update_lock n then (UIdle, s, []) else (ULoad a, with_node (with_lock true n) s, [])))
  | ULoad a => load_word s ≫= λ state, Done (Some (URead a state, s, []))
  | URead a state =>
      let cur := RS.token_write_pos state in
      live s ≫= λ n,
      node_token n cur ≫= λ curr_token,
      if bool_decide (a_token a ≠ curr_token) then
        RS.next_token_pos state ≫= λ pos, Done (Some (UWrite a state pos, s, []))
      else Done (Some (UCas a cur cur state, s, []))
  | UWrite a state pos =>
      live s ≫= λ n,
      with_token pos (a_token a) n ≫= λ n,
      Done (Some (UCas a (RS.token_write_pos state) pos state, with_node n s, []))
  | UCas a cur pos state =>
      assert (negb (RS.is_dropped state)) ≫= λ _,
      update_next a pos state ≫= λ next,
      cas_word state next s ≫= λ '(actual, s),
      if bool_decide (actual = state) then
        Done (Some (UUnlock a (negb (RS.is_queued state) && RS.is_queued next), s, [Updated a next]))
      else
        assert (cur =? RS.token_write_pos actual) ≫= λ _,
        Done (Some (UCas a cur pos actual, s, []))
  | UUnlock a won =>
      live s ≫= λ n,
      Done (Some (if won : bool then UJob a else UIdle, with_node (with_lock false n) s, []))
  | UJob a =>
      live s ≫= λ n, Done (Some (UEnq, with_node (with_job (a_job a) n) s, []))
  | UEnq => enqueue s ≫= λ s, Done (Some (UIdle, s, []))
  | UIdle => Done None
  end.

(** ** The registration *)

(** Alive; at [flag_as_dropped]; before [enqueue_with_wakeup]; before the
    release of its handle; gone. *)
Inductive rpc : Set :=
  | RAlive
  | RFlag
  | REnq
  | RRelease
  | RGone.

Definition registration_step (s : Shared) (l : rpc) : exec (option (rpc * Shared * list event)) :=
  match l with
  | RFlag =>
      live s ≫= λ n,
      AtomicState.flag_as_dropped (n_state n) ≫= λ '(b, w),
      Done (Some (if b : bool then REnq else RRelease, with_node (with_state w n) s, []))
  | REnq => enqueue s ≫= λ s, Done (Some (RRelease, s, []))
  | RRelease => release s ≫= λ s, Done (Some (RGone, s, []))
  | RAlive | RGone => Done None
  end.

(** ** The poll *)

Definition poll_next (state : ReadinessState) : exec ReadinessState :=
  let readiness := RS.effective_readiness state in
  let opt := RS.poll_opt state in
  (if PollOpt.is_edge opt then
     RS.set_dequeued state ≫= λ next,
     Done (if PollOpt.is_oneshot opt && negb (Ready.is_empty readiness) then RS.disarm next else next)
   else if Ready.is_empty readiness then RS.set_dequeued state
   else Done state) ≫= λ next,
  Done (RS.update_token_read_pos next).

(** Outside; at the load and the exchange for a node it took out of the queue;
    putting it back; at the read of the token, of the job, at the store of the
    empty job; at [release_node]. *)
Inductive ppc : Type :=
  | PIdle
  | PLoad
  | PCas (state : ReadinessState)
  | PPut (r : Ready) (pos : N)
  | PToken (r : Ready) (pos : N)
  | PJob (r : Ready) (tok : TokenEntry)
  | PJobSet
  | PRelease.

(** After the loop: where the poll goes. *)
Definition after_loop (readiness : Ready) (next : ReadinessState) : ppc :=
  if RS.is_queued next then PPut readiness (RS.token_read_pos next)
  else if Ready.is_empty readiness then PIdle
  else PToken readiness (RS.token_read_pos next).

Definition poll_step (s : Shared) (l : ppc) : exec (option (ppc * Shared * list event)) :=
  match l with
  | PIdle =>
      match entries s with
      | O => Done None
      | S k => Done (Some (PLoad, mkShared (node s) (freed s) k, []))
      end
  | PLoad => load_word s ≫= λ state, Done (Some (PCas state, s, [Loaded state]))
  | PCas state =>
      assert (RS.is_queued state) ≫= λ _,
      if RS.is_dropped state then Done (Some (PRelease, s, []))
      else
        let readiness := RS.effective_readiness state in
        poll_next state ≫= λ next,
        if bool_decide (state = next) then Done (Some (after_loop readiness next, s, []))
        else
          cas_word state next s ≫= λ '(actual, s),
          Done (Some (
            if bool_decide (actual = state) then (after_loop readiness next, s, [Took state])
            else (PCas actual, s, [Loaded actual])))
  | PPut r pos =>
      enqueue s ≫= λ s, Done (Some (if Ready.is_empty r then PIdle else PToken r pos, s, []))
  | PToken r pos =>
      live s ≫= λ n, node_token n pos ≫= λ tok, Done (Some (PJob r tok, s, []))
  | PJob r tok => live s ≫= λ n, Done (Some (PJobSet, s, [Reported r tok (n_job n)]))
  | PJobSet => live s ≫= λ n, Done (Some (PIdle, with_node (with_job null_job n) s, []))
  | PRelease => release s ≫= λ s, Done (Some (PIdle, s, []))
  end.

(** ** The system *)

Record System := mkSystem {
  shared : Shared;
  poller : ppc;
  setters : list spc;
  updaters : list upc;
  registration : rpc;
}.

Definition args_ok (a : Args) : Prop := ready_0 (a_interest a) < 2 ^ 4 ∧ opt_0 (a_opt a) < 2 ^ 4.

Definition with_setter (i : nat) (l : spc) (s : Shared) (x : System) : System :=
  mkSystem s (poller x) (<[i := l]> (setters x)) (updaters x) (registration x).
Definition with_updater (i : nat) (l : upc) (s : Shared) (x : System) : System :=
  mkSystem s (poller x) (setters x) (<[i := l]> (updaters x)) (registration x).
Definition with_registration (l : rpc) (s : Shared) (x : System) : System :=
  mkSystem s (poller x) (setters x) (updaters x) l.
Definition with_poller (l : ppc) (s : Shared) (x : System) : System :=
  mkSystem s l (setters x) (updaters x) (registration x).

(** A readiness and options are sets of the four flags that the word has room
    for; the registration is dropped by its owner, when nobody borrows it. *)
Inductive step : System → list event → System → Prop :=
  | step_set x i r :
      setters x !! i = Some SIdle → ready_0 r < 2 ^ 4 →
      step x [] (with_setter i (SLoad r) (shared x) x)
  | step_forget x i :
      setters x !! i = Some SIdle → step x [] (with_setter i SDrop (shared x) x)
  | step_clone x i j s :
      setters x !! i = Some SIdle → setters x !! j = Some SGone → clone (shared x) = Done s →
      step x [] (with_setter j SIdle s x)
  | step_setter x i l l' s es :
      setters x !! i = Some l → setter_step (shared x) l = Done (Some (l', s, es)) →
      step x es (with_setter i l' s x)
  | step_update x i a :
      updaters x !! i = Some UIdle → registration x = RAlive → args_ok a →
      step x [] (with_updater i (ULock a) (shared x) x)
  | step_updater x i l l' s es :
      updaters x !! i = Some l → updater_step (shared x) l = Done (Some (l', s, es)) →
      step x es (with_updater i l' s x)
  | step_drop x :
      registration x = RAlive → Forall (λ l, l = UIdle) (updaters x) →
      step x [] (with_registration RFlag (shared x) x)
  | step_registration x l s es :
      registration_step (shared x) (registration x) = Done (Some (l, s, es)) →
      step x es (with_registration l s x)
  | step_poll x l s es :
      poll_step (shared x) (poller x) = Done (Some (l, s, es)) → step x es (with_poller l s x).

(** [Registration::new]: a node of the queue [q], with one [SetReadiness];
    [n] threads may get a clone of it, and [m] borrow the registration. *)
Definition initial (n m : nat) (nd : ReadinessNode (J:=J)) : System :=
  mkSystem (mkShared nd false 0) PIdle (SIdle :: replicate n SGone) (replicate m UIdle) RAlive.

Inductive reachable (n m : nat) (q : qid) (tok : TokenEntry) (interest : Ready) (opt : PollOpt)
    : System → list event → Prop :=
  | reach_initial nd :
      ReadinessNode_new null_job (Some q) tok interest opt 3 = Done nd →
      reachable n m q tok interest opt (initial n m nd) []
  | reach_step x tr es x' :
      reachable n m q tok interest opt x tr → step x es x' →
      reachable n m q tok interest opt x' (tr ++ es).

(** The poll alone, from the node it takes to the next one: no exchange fails,
    so eight steps are enough. *)
Fixpoint poll_pass (fuel : nat) (x : System) (es : list event) : exec (System * list event) :=
  match fuel with
  | O => NoFuel
  | S fuel =>
      poll_step (shared x) (poller x) ≫= λ r,
      match r with
      | None => Done (x, es)
      | Some (l, s, es') =>
          let x := with_poller l s x in
          match l with
          | PIdle => Done (x, es ++ es')
          | _ => poll_pass fuel x (es ++ es')
          end
      end
  end.

(** ** Races *)

(** The parts of a node that are no atomics. *)
Inductive cell : Set :=
  | Slot (pos : N)
  | JobCell.

(** The access a thread makes next, [true] for a write. *)
Definition updater_access (l : upc) : option (cell * bool) :=
  match l with
  | URead _ state => Some (Slot (RS.token_write_pos state), false)
  | UWrite _ _ pos => Some (Slot pos, true)
  | UJob _ => Some (JobCell, true)
  | _ => None
  end.
Definition poll_access (l : ppc) : option (cell * bool) :=
  match l with
  | PToken _ pos => Some (Slot pos, false)
  | PJob _ _ => Some (JobCell, false)
  | PJobSet => Some (JobCell, true)
  | _ => None
  end.

(** Two threads are about to access a cell, one of them to write it. *)
Definition race (c : cell) (x : System) : Prop :=
  (∃ i l b, updaters x !! i = Some l ∧ updater_access l = Some (c, b) ∧
     ∃ b', poll_access (poller x) = Some (c, b') ∧ b || b' = true) ∨
  (∃ i j l l' b b', i ≠ j ∧ updaters x !! i = Some l ∧ updaters x !! j = Some l' ∧
     updater_access l = Some (c, b) ∧ updater_access l' = Some (c, b') ∧ b || b' = true).

(** A thread is about to fail an assertion or to touch the freed node. *)
Definition fails (x : System) : Prop :=
  (∃ i l p, setters x !! i = Some l ∧ setter_step (shared x) l = Panic p) ∨
  (∃ i l p, updaters x !! i = Some l ∧ updater_step (shared x) l = Panic p) ∨
  (∃ p, registration_step (shared x) (registration x) = Panic p) ∨
  (∃ p, poll_step (shared x) (poller x) = Panic p).
End NodeSync.
