(* ===== verification/NodeSyncInv.v ===== *)
(** * One readiness node under concurrency: the invariant

    What holds of the node of [NodeSync] and of the place of every thread,
    after any sequence of steps, and what the events so far say of the
    registration. *)
From S2P Require Import Prelude EventSet ReadinessState Awakener Duration Selector ReadinessQueue.
From S2P Require Import QueueSpec RegistrationSpec NodeSync.

(** ** The words that are stored *)

(** The parts of a word the protocol depends on. *)
Record word_facts (s : ReadinessState) (rd wr : N) (q d : bool) : Prop := {
  wd_wf : wf_word s;
  wd_rd : RS.token_read_pos s = rd;
  wd_wr : RS.token_write_pos s = wr;
  wd_queued : RS.is_queued s = q;
  wd_dropped : RS.is_dropped s = d;
}.

Lemma word_facts_of s f :
  wf_word s → fields s = f → word_facts s (f_rd f) (f_wr f) (f_queued f) (f_dropped f).
Proof. intros H <-. by split. Qed.

Definition ready (s : ReadinessState) : bool := negb (Ready.is_empty (RS.effective_readiness s)).

Lemma set_next_ok r s :
  wf_word s → RS.is_dropped s = false → ready_0 r < 2 ^ 4 →
  ∃ s', set_next r s = Done s' ∧
    word_facts s' (RS.token_read_pos s) (RS.token_write_pos s) (RS.is_queued s || ready s') false.
Proof.
  intros Hwf Hd Hr. destruct (readied_spec s r Hwf Hr Hd) as [Hwf' Ef].
  exists (readied s r). split.
  - unfold set_next. apply notified_spec.
    + by apply wf_set_readiness.
    + assert (fields (RS.set_readiness s r) = with_readiness (ready_0 r) (fields s)) as E
        by (apply set_readiness_fields; [auto with sickle|done]).
      apply (f_equal f_dropped) in E. cbn in E. congruence.
  - pose proof (word_facts_of _ _ Hwf' Ef) as H. cbn in H. by rewrite Hd in H.
Qed.

Lemma update_next_ok {J} (a : Args (J:=J)) pos s :
  wf_word s → RS.is_dropped s = false → pos <= 2 → args_ok a →
  ∃ s', update_next a pos s = Done s' ∧
    word_facts s' (RS.token_read_pos s) pos (RS.is_queued s || ready s') false.
Proof.
  intros Hwf Hd Hp [Hi Ho].
  destruct (updated_spec s pos (a_interest a) (a_opt a) Hwf Hd Hp Hi Ho) as (E & Hwf' & Ef).
  exists (updated s pos (a_interest a) (a_opt a)). split; [exact E|].
  pose proof (word_facts_of _ _ Hwf' Ef) as H. cbn in H. by rewrite Hd in H.
Qed.

Lemma poll_next_ok s :
  wf_word s → RS.is_queued s = true → RS.is_dropped s = false →
  ∃ s', poll_next s = Done s' ∧
    word_facts s' (RS.token_write_pos s) (RS.token_write_pos s)
      (negb (PollOpt.is_edge (RS.poll_opt s)) && ready s) false.
Proof.
  intros Hwf Hq Hd. destruct (polled_spec s Hwf Hq Hd) as [Hwf' Ef].
  exists (polled s). split.
  - unfold poll_next, polled, unqueued. rewrite !(set_dequeued_Done s) by done.
    by destruct (PollOpt.is_edge _), (Ready.is_empty _).
  - exact (word_facts_of _ _ Hwf' Ef).
Qed.

Section NodeSyncInv.
Context {J : Type} (null_job : J).
#[local] Abbreviation Node := (ReadinessNode (J:=J)).
Implicit Types (x : System (J:=J)) (s : Shared (J:=J)) (n : Node) (tr : list (event (J:=J))).

Definition word x : ReadinessState := n_state (node (shared x)).

(** ** What the events say *)

(** The token of the last [update]; the readiness and the token of the
    registration when the poll last looked at the word; whether a word that
    was ready was stored since the poll last replaced the word. *)
Record Ghost := mkGhost {
  current : TokenEntry;
  looked : Ready * TokenEntry;
  pending : bool;
}.

Definition observe (g : Ghost) (e : event (J:=J)) : Ghost :=
  match e with
  | Readied s => mkGhost (current g) (looked g) (pending g || ready s)
  | Updated a s => mkGhost (a_token a) (looked g) (pending g || ready s)
  | Loaded s => mkGhost (current g) (RS.effective_readiness s, current g) (pending g)
  | Took s => mkGhost (current g) (RS.effective_readiness s, current g) false
  | Reported _ _ _ => g
  end.
Definition ghost (tok : TokenEntry) tr : Ghost :=
  foldl observe (mkGhost tok (Ready.empty, tok) false) tr.

(** ** Where the threads are *)

(** About to put the node into the queue. *)
Definition s_enq (l : spc) : bool := match l with SEnq => true | _ => false end.
Definition u_enq (l : upc (J:=J)) : bool :=
  match l with UUnlock _ b => b | UJob _ | UEnq => true | _ => false end.
Definition r_enq (l : rpc) : bool := match l with REnq => true | _ => false end.
(** Has taken the node out of the queue, or will put it back. *)
Definition p_taken (l : ppc) : bool :=
  match l with PLoad | PCas _ | PPut _ _ | PRelease => true | _ => false end.

(** Owns a reference. *)
Definition s_has (l : spc) : bool := match l with SGone => false | _ => true end.
Definition r_has (l : rpc) : bool := match l with RGone => false | _ => true end.
Definition r_dropped (l : rpc) : bool :=
  match l with REnq | RRelease | RGone => true | _ => false end.
(** Holds [update_lock]. *)
Definition u_locked (l : upc (J:=J)) : bool :=
  match l with ULoad _ | URead _ _ | UWrite _ _ _ | UCas _ _ _ _ | UUnlock _ _ => true | _ => false end.

(** The node in the queue, or on its way into or out of it. *)
Definition places x : N :=
  N.of_nat (entries (shared x)) + count s_enq (setters x) + count u_enq (updaters x)
  + bit (r_enq (registration x)) + bit (p_taken (poller x)).
(** The references: the handles, and that of the queue until it is released. *)
Definition owners x (rel : bool) : N :=
  count s_has (setters x) + bit (r_has (registration x)) + bit (negb rel).

(** ** What a thread knows *)

(** The word a thread will compare with. *)
Definition seen (st : ReadinessState) : Prop := wf_word st ∧ RS.is_dropped st = false.

Definition setter_ok (l : spc) : Prop :=
  match l with
  | SLoad r => ready_0 r < 2 ^ 4
  | SCas r st => ready_0 r < 2 ^ 4 ∧ wf_word st
  | _ => True
  end.

(** A position that was loaded is still the write position, the read position
    is the one that was loaded or has moved there. *)
Definition loaded_pos n (st : ReadinessState) : Prop :=
  RS.token_write_pos st = RS.token_write_pos (n_state n) ∧
  (RS.token_read_pos (n_state n) = RS.token_read_pos st ∨
   RS.token_read_pos (n_state n) = RS.token_write_pos st).

Definition updater_ok n (l : upc (J:=J)) : Prop :=
  match l with
  | ULock a | ULoad a => args_ok a
  | URead a st => args_ok a ∧ seen st ∧ loaded_pos n st
  | UWrite a st pos =>
      args_ok a ∧ seen st ∧ loaded_pos n st ∧ pos <= 2 ∧
      pos ≠ RS.token_read_pos (n_state n) ∧ pos ≠ RS.token_write_pos (n_state n)
  | UCas a cur pos st =>
      args_ok a ∧ seen st ∧ cur = RS.token_write_pos (n_state n) ∧ pos <= 2 ∧
      node_token n pos = Done (a_token a) ∧
      (pos = cur ∨ pos ≠ RS.token_read_pos (n_state n))
  | _ => True
  end.

Definition holds_token n (pos : N) (tok : TokenEntry) : Prop :=
  pos = RS.token_read_pos (n_state n) ∧ node_token n pos = Done tok.

Definition poll_ok n (g : Ghost) (l : ppc) : Prop :=
  match l with
  | PCas st =>
      wf_word st ∧ RS.is_queued st = true ∧
      (RS.is_dropped st = true → RS.is_dropped (n_state n) = true) ∧
      RS.token_read_pos st = RS.token_read_pos (n_state n) ∧
      (looked g).1 = RS.effective_readiness st ∧
      (RS.token_write_pos st = RS.token_read_pos st →
       node_token n (RS.token_read_pos st) = Done (looked g).2)
  | PPut r pos | PToken r pos =>
      r = (looked g).1 ∧ Ready.is_empty r = false ∧ holds_token n pos (looked g).2
  | PJob r tok => (r, tok) = looked g
  | PRelease => RS.is_dropped (n_state n) = true
  | _ => True
  end.

(** [rel]: the poll has released the queue's reference. *)
Record inv (rel : bool) x (g : Ghost) : Prop := {
  iv_wf : wf_word (word x);
  iv_places : places x = bit (RS.is_queued (word x) && negb rel);
  iv_released : rel = true → RS.is_dropped (word x) = true ∧ poller x = PIdle;
  iv_size : N.of_nat (length (setters x)) + 2 <= 2 ^ 63;
  iv_refs : n_ref_count (node (shared x)) = owners x rel;
  iv_freed : freed (shared x) = (owners x rel =? 0);
  iv_lock : count u_locked (updaters x) = bit (n_update_lock (node (shared x)));
  iv_alive : registration x ≠ RAlive → Forall (λ l, l = UIdle) (updaters x);
  iv_dropped : RS.is_dropped (word x) = r_dropped (registration x);
  iv_setters : ∀ i l, setters x !! i = Some l → setter_ok l;
  iv_updaters : ∀ i l, updaters x !! i = Some l → updater_ok (node (shared x)) l;
  iv_poller : poll_ok (node (shared x)) g (poller x);
  iv_current : node_token (node (shared x)) (RS.token_write_pos (word x)) = Done (current g);
  iv_pending : pending g = true ∨ RS.is_dropped (word x) = true → RS.is_queued (word x) = true;
}.

(** ** What a step may change *)

Definition same_tokens n n' : Prop := ∀ pos, node_token n' pos = node_token n pos.

Lemma updater_ok_frame n n' l :
  same_tokens n n' →
  RS.token_write_pos (n_state n') = RS.token_write_pos (n_state n) →
  RS.token_read_pos (n_state n') = RS.token_read_pos (n_state n) ∨
  RS.token_read_pos (n_state n') = RS.token_write_pos (n_state n) →
  updater_ok n l → updater_ok n' l.
Proof.
  intros Ht Hw Hr. destruct l as [|a|a|a st|a st pos|a cur pos st|a b|a|]; cbn; try done.
  - intros (Ha & Hs & E1 & E2). split; [done|]. split; [done|]. unfold loaded_pos.
    rewrite Hw. destruct Hr as [-> | ->]; split_and!; auto.
  - intros (Ha & Hs & [E1 E2] & Hp & H1 & H2). split; [done|]. split; [done|]. unfold loaded_pos.
    rewrite Hw. destruct Hr as [-> | ->]; split_and!; auto.
  - intros (Ha & Hs & E1 & Hp & E2 & H). rewrite Ht. split_and!; try done; [congruence|].
    destruct Hr as [-> | ->]; [done|]. destruct (decide (pos = cur)); [by left|right; congruence].
Qed.

Lemma updater_ok_unlocked n n' l : u_locked l = false → updater_ok n l → updater_ok n' l.
Proof. by destruct l. Qed.

Lemma poll_ok_frame n n' g g' l :
  RS.token_read_pos (n_state n') = RS.token_read_pos (n_state n) →
  node_token n' (RS.token_read_pos (n_state n)) = node_token n (RS.token_read_pos (n_state n)) →
  (RS.is_dropped (n_state n) = true → RS.is_dropped (n_state n') = true) →
  looked g' = looked g → poll_ok n g l → poll_ok n' g' l.
Proof.
  intros Er Et Hd Eg. destruct l as [| |st|r pos|r pos|r tok| |]; cbn; rewrite ?Eg; auto.
  - intros (H1 & H2 & H3 & H4 & H5 & H6). rewrite Er. split_and!; auto.
    intros E. rewrite H4 in *. rewrite Et. by apply H6.
  - intros (-> & H1 & [-> H2]). unfold holds_token. rewrite Er, Et. by split_and!.
  - intros (-> & H1 & [-> H2]). unfold holds_token. rewrite Er, Et. by split_and!.
Qed.

Lemma lookup_other {A} (ls : list A) i j (l m y : A) (Q : A → Prop) :
  ls !! i = Some l → (∀ k z, k ≠ i → ls !! k = Some z → Q z) → Q m →
  <[i := m]> ls !! j = Some y → Q y.
Proof.
  intros Hi Hk Hm Hj. destruct (decide (j = i)) as [->|Hne].
  - rewrite list_lookup_insert_eq in Hj by (by eapply lookup_lt_Some). congruence.
  - rewrite list_lookup_insert_ne in Hj by done. by eapply Hk.
Qed.

(** The events change nothing the other threads rely on. *)
Definition same_view (g g' : Ghost) : Prop := current g' = current g ∧ looked g' = looked g.

(** ** A step of one thread: what has to be shown of it *)

Lemma inv_setter rel x g g' i l l' s' :
  inv rel x g → setters x !! i = Some l →
  let s := shared x in
  let w' := n_state (node s') in
  wf_word w' → RS.is_dropped w' = RS.is_dropped (word x) →
  RS.token_read_pos w' = RS.token_read_pos (word x) →
  RS.token_write_pos w' = RS.token_write_pos (word x) →
  same_tokens (node s) (node s') → n_update_lock (node s') = n_update_lock (node s) →
  N.of_nat (entries s') + bit (s_enq l') + bit (RS.is_queued (word x) && negb rel) =
    N.of_nat (entries s) + bit (s_enq l) + bit (RS.is_queued w' && negb rel) →
  n_ref_count (node s') + bit (s_has l) = n_ref_count (node s) + bit (s_has l') →
  freed s' = (n_ref_count (node s') =? 0) →
  setter_ok l' → same_view g g' →
  (pending g' = true ∨ RS.is_dropped w' = true → RS.is_queued w' = true) →
  inv rel (with_setter i l' s' x) g'.
Proof.
  intros [I1 I2 I3 I4 I5 I6 I7 I8 I9 I10 I11 I12 I13 I14] Hi s w' Hwf Hd Hr Hw Ht Hlk Hq Href Hfr Hok
    [Ec El] Hp.
  pose proof (count_insert s_enq _ _ _ l' Hi) as C1.
  pose proof (count_insert s_has _ _ _ l' Hi) as C2.
  unfold places, owners in *. fold s in I2, I5, I6, I7.
  split; unfold word, places, owners; cbn [shared poller setters updaters registration with_setter].
  - exact Hwf.
  - fold w'. lia.
  - intros ->. fold w'. rewrite Hd. by apply I3.
  - by rewrite length_insert.
  - lia.
  - rewrite Hfr. f_equal. lia.
  - by rewrite Hlk.
  - exact I8.
  - fold w'. congruence.
  - intros j m Hj. eapply lookup_other; [exact Hi| |exact Hok|exact Hj]. intros k z _. apply I10.
  - intros j m Hj. eapply updater_ok_frame; [exact Ht|exact Hw|by left|by eapply I11].
  - eapply poll_ok_frame; [exact Hr|apply Ht| |exact El|exact I12]. fold w'. by rewrite Hd.
  - fold w'. by rewrite Hw, Ht, Ec.
  - exact Hp.
Qed.

Lemma inv_updater rel x g g' i l l' s' :
  inv rel x g → updaters x !! i = Some l →
  let s := shared x in
  let w' := n_state (node s') in
  wf_word w' → RS.is_dropped w' = RS.is_dropped (word x) →
  RS.token_read_pos w' = RS.token_read_pos (word x) →
  node_token (node s') (RS.token_read_pos w') = node_token (node s) (RS.token_read_pos w') →
  N.of_nat (entries s') + bit (u_enq l') + bit (RS.is_queued (word x) && negb rel) =
    N.of_nat (entries s) + bit (u_enq l) + bit (RS.is_queued w' && negb rel) →
  n_ref_count (node s') = n_ref_count (node s) → freed s' = freed s →
  bit (n_update_lock (node s')) + bit (u_locked l) = bit (n_update_lock (node s)) + bit (u_locked l') →
  (registration x = RAlive ∨ l' = UIdle) →
  updater_ok (node s') l' →
  (∀ j m, j ≠ i → updaters x !! j = Some m → updater_ok (node s') m) →
  looked g' = looked g →
  node_token (node s') (RS.token_write_pos w') = Done (current g') →
  (pending g' = true ∨ RS.is_dropped w' = true → RS.is_queued w' = true) →
  inv rel (with_updater i l' s' x) g'.
Proof.
  intros [I1 I2 I3 I4 I5 I6 I7 I8 I9 I10 I11 I12 I13 I14] Hi s w' Hwf Hd Hr Ht Hq Href Hfr Hlk Hal Hok
    Hoth El Hc Hp.
  pose proof (count_insert u_enq _ _ _ l' Hi) as C1.
  pose proof (count_insert u_locked _ _ _ l' Hi) as C2.
  unfold places, owners in *. fold s in I2, I5, I6, I7.
  split; unfold word, places, owners; cbn [shared poller setters updaters registration with_updater].
  - exact Hwf.
  - fold w'. lia.
  - intros ->. fold w'. rewrite Hd. by apply I3.
  - exact I4.
  - lia.
  - by rewrite Hfr.
  - lia.
  - intros Hra. destruct Hal as [| ->]; [done|]. apply Forall_insert; [by apply I8|done].
  - fold w'. congruence.
  - exact I10.
  - intros j m Hj. eapply lookup_other; [exact Hi|exact Hoth|exact Hok|exact Hj].
  - eapply poll_ok_frame; [exact Hr| | |exact El|exact I12].
    + unfold word in Hr. rewrite <- Hr. exact Ht.
    + fold w'. by rewrite Hd.
  - exact Hc.
  - exact Hp.
Qed.

Lemma inv_registration rel x g l' s' :
  inv rel x g →
  let s := shared x in
  let w' := n_state (node s') in
  let l := registration x in
  wf_word w' → (RS.is_dropped w' = r_dropped l') → (RS.is_dropped (word x) = true → RS.is_dropped w' = true) →
  RS.token_read_pos w' = RS.token_read_pos (word x) →
  RS.token_write_pos w' = RS.token_write_pos (word x) →
  same_tokens (node s) (node s') → n_update_lock (node s') = n_update_lock (node s) →
  N.of_nat (entries s') + bit (r_enq l') + bit (RS.is_queued (word x) && negb rel) =
    N.of_nat (entries s) + bit (r_enq l) + bit (RS.is_queued w' && negb rel) →
  n_ref_count (node s') + bit (r_has l) = n_ref_count (node s) + bit (r_has l') →
  freed s' = (n_ref_count (node s') =? 0) →
  Forall (λ u, u = UIdle) (updaters x) →
  (pending g = true ∨ RS.is_dropped w' = true → RS.is_queued w' = true) →
  inv rel (with_registration l' s' x) g.
Proof.
  intros [I1 I2 I3 I4 I5 I6 I7 I8 I9 I10 I11 I12 I13 I14] s w' l Hwf Hdl Hd Hr Hw Ht Hlk Hq Href Hfr Hal Hqm.
  unfold places, owners in *. fold s in I2, I5, I6, I7. fold l in I2, I5, I6.
  split; unfold word, places, owners; cbn [shared poller setters updaters registration with_registration].
  - exact Hwf.
  - fold w'. lia.
  - intros ->. fold w'. destruct (I3 eq_refl) as [H1 H2]. split; [by apply Hd|done].
  - exact I4.
  - lia.
  - rewrite Hfr. f_equal. lia.
  - by rewrite Hlk.
  - intros _. exact Hal.
  - exact Hdl.
  - exact I10.
  - intros j m Hj. eapply updater_ok_frame; [exact Ht|exact Hw|by left|by eapply I11].
  - eapply poll_ok_frame; [exact Hr|apply Ht|exact Hd|done|exact I12].
  - fold w'. by rewrite Hw, Ht.
  - exact Hqm.
Qed.

Lemma inv_poll rel rel' x g g' l' s' :
  inv rel x g →
  let s := shared x in
  let w' := n_state (node s') in
  let l := poller x in
  wf_word w' → RS.is_dropped w' = RS.is_dropped (word x) →
  (RS.token_read_pos w' = RS.token_read_pos (word x) ∨
   RS.token_read_pos w' = RS.token_write_pos (word x)) →
  RS.token_write_pos w' = RS.token_write_pos (word x) →
  same_tokens (node s) (node s') → n_update_lock (node s') = n_update_lock (node s) →
  N.of_nat (entries s') + bit (p_taken l') + bit (RS.is_queued (word x) && negb rel) =
    N.of_nat (entries s) + bit (p_taken l) + bit (RS.is_queued w' && negb rel') →
  n_ref_count (node s') + bit (negb rel) = n_ref_count (node s) + bit (negb rel') →
  freed s' = (n_ref_count (node s') =? 0) →
  (rel' = true → RS.is_dropped w' = true ∧ l' = PIdle) →
  poll_ok (node s') g' l' → current g' = current g →
  (pending g' = true ∨ RS.is_dropped w' = true → RS.is_queued w' = true) →
  inv rel' (with_poller l' s' x) g'.
Proof.
  intros [I1 I2 I3 I4 I5 I6 I7 I8 I9 I10 I11 I12 I13 I14] s w' l Hwf Hd Hr Hw Ht Hlk Hq Href Hfr Hrel Hok Ec Hp.
  unfold places, owners in *. fold s in I2, I5, I6, I7. fold l in I2.
  split; unfold word, places, owners; cbn [shared poller setters updaters registration with_poller].
  - exact Hwf.
  - fold w'. lia.
  - exact Hrel.
  - exact I4.
  - lia.
  - rewrite Hfr. f_equal. lia.
  - by rewrite Hlk.
  - exact I8.
  - fold w'. congruence.
  - exact I10.
  - intros j m Hj. eapply updater_ok_frame; [exact Ht|exact Hw|exact Hr|by eapply I11].
  - exact Hok.
  - fold w'. by rewrite Hw, Ht, Ec.
  - exact Hp.
Qed.
End NodeSyncInv.
