(* ===== verification/NodeSyncProps.v ===== *)
(** * One readiness node under concurrency: the steps

    Every step of [NodeSync] keeps the invariant of [NodeSyncInv], and no step
    fails. *)
From S2P Require Import Prelude EventSet ReadinessState Awakener Duration Selector ReadinessQueue.
From S2P Require Import QueueSpec RegistrationSpec NodeSync NodeSyncInv.

Section NodeSyncProps.
Context {J : Type} (null_job : J).
#[local] Abbreviation Node := (ReadinessNode (J:=J)).
Implicit Types (x : System (J:=J)) (s : Shared (J:=J)) (n : Node) (g : Ghost).

(** A step that is possible does not fail, and leads where [Q] holds. *)
Definition steps_to {A} (r : exec (option A)) (Q : A → Prop) : Prop :=
  ∃ o, r = Done o ∧ ∀ a, o = Some a → Q a.

Lemma steps_to_some {A} (a : A) (Q : A → Prop) : Q a → steps_to (Done (Some a)) Q.
Proof. intros H. exists (Some a). split; [done|]. by intros ? [= <-]. Qed.

Lemma steps_to_none {A} (Q : A → Prop) : steps_to (Done None) Q.
Proof. by exists None. Qed.

Lemma live_ok rel x g : inv rel x g → 1 <= owners x rel → live (shared x) = Done (node (shared x)).
Proof.
  intros Hi Ho. unfold live. rewrite (iv_freed _ _ _ Hi).
  destruct (N.eqb_spec (owners x rel) 0); [lia|done].
Qed.

Lemma not_freed rel x g : inv rel x g → 1 <= owners x rel → freed (shared x) = false.
Proof. intros Hi Ho. rewrite (iv_freed _ _ _ Hi). apply N.eqb_neq. lia. Qed.

Lemma refs_pos rel x g : inv rel x g → 1 <= owners x rel →
  freed (shared x) = (n_ref_count (node (shared x)) =? 0).
Proof. intros Hi _. by rewrite (iv_freed _ _ _ Hi), (iv_refs _ _ _ Hi). Qed.

Lemma owners_small rel x g : inv rel x g → owners x rel <= 2 ^ 63.
Proof.
  intros Hi. pose proof (iv_size _ _ _ Hi). pose proof (count_le s_has (setters x)).
  unfold owners, bit. destruct (r_has _), rel; cbn [negb]; lia.
Qed.

Lemma owners_setter rel x i l : setters x !! i = Some l → s_has l = true → 1 <= owners x rel.
Proof. intros Hi Hl. pose proof (count_pos s_has _ _ _ Hi Hl). unfold owners. lia. Qed.
Lemma owners_registration rel x : r_has (registration x) = true → 1 <= owners x rel.
Proof. intros H. unfold owners. rewrite H. cbn [bit]. lia. Qed.
Lemma owners_queue x : 1 <= owners x false.
Proof. unfold owners. cbn [negb bit]. lia. Qed.

(** ** Releasing and cloning *)

Lemma release_ok rel x g : inv rel x g → 1 <= owners x rel →
  ∃ s', release (shared x) = Done s' ∧
    n_ref_count (node s') + 1 = n_ref_count (node (shared x)) ∧
    freed s' = (n_ref_count (node s') =? 0) ∧ entries s' = entries (shared x) ∧
    n_state (node s') = word x ∧ same_tokens (node (shared x)) (node s') ∧
    n_update_lock (node s') = n_update_lock (node (shared x)).
Proof.
  intros Hi Ho. unfold release. rewrite (live_ok _ _ _ Hi Ho). cbn [mbind exec_bind].
  pose proof (owners_small _ _ _ Hi) as Hs. rewrite <- (iv_refs _ _ _ Hi) in Hs, Ho.
  eexists. split; [reflexivity|]. cbn [node freed entries with_ref n_ref_count n_state n_update_lock].
  rewrite fetch_sub1_pos by (first [lia|change (2 ^ 64) with (2 * 2 ^ 63); lia]).
  split_and!; try done; [lia|]. destruct (N.eqb_spec (n_ref_count (node (shared x))) 1) as [->|Hne].
  - done.
  - symmetry. apply N.eqb_neq. lia.
Qed.

(** ** The exchange of the word *)

Lemma cas_word_hit x next : live (shared x) = Done (node (shared x)) →
  cas_word (word x) next (shared x) =
    Done (word x, with_node (with_state next (node (shared x))) (shared x)).
Proof.
  intros Hl. unfold cas_word. rewrite Hl. cbn [mbind exec_bind].
  unfold AtomicState.compare_and_swap. by rewrite bool_decide_eq_true_2.
Qed.

Lemma cas_word_miss x st next : live (shared x) = Done (node (shared x)) → word x ≠ st →
  cas_word st next (shared x) = Done (word x, shared x).
Proof.
  intros Hl Hne. unfold cas_word. rewrite Hl. cbn [mbind exec_bind].
  unfold AtomicState.compare_and_swap, word in *. rewrite bool_decide_eq_false_2 by done.
  by destruct (shared x) as [[] ? ?].
Qed.

(** Nothing but the place of the thread changes. *)
Lemma inv_setter_stay rel x g i l l' :
  inv rel x g → setters x !! i = Some l → s_enq l' = s_enq l → s_has l' = s_has l → setter_ok l' →
  inv rel (with_setter i l' (shared x) x) g.
Proof.
  intros Hi Hl He Hh Hok.
  assert (freed (shared x) = (n_ref_count (node (shared x)) =? 0)) as Hfr
    by (by rewrite (iv_freed _ _ _ Hi), (iv_refs _ _ _ Hi)).
  eapply inv_setter; [exact Hi|exact Hl|apply (iv_wf _ _ _ Hi)|done..|by rewrite He|by rewrite Hh
    |exact Hfr|exact Hok|done|apply (iv_pending _ _ _ Hi)].
Qed.

(** The queued flag that an exchange sets, and the one who has set it. *)
Lemma flag_won (q q' : bool) : (q = true → q' = true) → bit (negb q && q') + bit q = bit q'.
Proof. destruct q, q'; cbn; intros H; try done. by discriminate H. Qed.

(** ** [SetReadiness] *)

Lemma setter_step_ok rel x g i l :
  inv rel x g → setters x !! i = Some l →
  steps_to (setter_step (shared x) l) (λ '(l', s', es),
    inv rel (with_setter i l' s' x) (foldl observe g es)).
Proof.
  intros Hi Hl. pose proof (iv_setters _ _ _ Hi i l Hl) as Hok.
  pose proof (owners_setter rel x i l Hl) as Hown.
  destruct l as [|r|r st| | |]; cbn [setter_step]; try apply steps_to_none; specialize (Hown eq_refl);
    pose proof (live_ok _ _ _ Hi Hown) as Hlive; pose proof (refs_pos _ _ _ Hi Hown) as Hfr.
  - unfold load_word. rewrite Hlive. apply steps_to_some.
    eapply inv_setter_stay; [exact Hi|exact Hl|done|done|]. split; [exact Hok|apply (iv_wf _ _ _ Hi)].
  - destruct (RS.is_dropped st) eqn:Hd.
    + apply steps_to_some. by eapply inv_setter_stay.
    + destruct Hok as [Hr Hwf]. destruct (set_next_ok r st Hwf Hd Hr) as (next & En & [N1 N2 N3 N4 N5]).
      rewrite En. cbn [mbind exec_bind]. destruct (decide (word x = st)) as [<-|Hne].
      * rewrite (cas_word_hit _ next Hlive). cbn [mbind exec_bind].
        rewrite bool_decide_eq_true_2 by done. apply steps_to_some. cbn [foldl observe].
        destruct rel; [destruct (iv_released _ _ _ Hi eq_refl); congruence|].
        eapply inv_setter; [exact Hi|exact Hl|exact N1|cbn; congruence|exact N2|exact N3|done|done
          | | |exact Hfr|by destruct (_ && _)|done|].
        -- cbn [entries with_node node n_state with_state s_enq negb bit]. rewrite !andb_true_r.
           pose proof (flag_won (RS.is_queued (word x)) (RS.is_queued next)) as Hf.
           destruct (negb (RS.is_queued (word x)) && RS.is_queued next); cbn [s_enq bit] in *;
             rewrite <- Hf by (rewrite N4; by intros ->); lia.
        -- by destruct (_ && _).
        -- cbn [pending with_node node with_state n_state]. rewrite N5. intros [Hp|]; [|done]. rewrite N4.
           apply orb_true_iff in Hp as [Hp| ->]; [|by rewrite orb_true_r].
           by rewrite (iv_pending _ _ _ Hi (or_introl Hp)).
      * rewrite (cas_word_miss _ _ next Hlive Hne). cbn [mbind exec_bind].
        rewrite bool_decide_eq_false_2 by (intros ->; done). apply steps_to_some.
        eapply inv_setter_stay; [exact Hi|exact Hl|done|done|]. split; [exact Hr|apply (iv_wf _ _ _ Hi)].
  - unfold enqueue. rewrite Hlive. apply steps_to_some.
    eapply inv_setter; [exact Hi|exact Hl|apply (iv_wf _ _ _ Hi)|done..| |done|exact Hfr|done|done
      |apply (iv_pending _ _ _ Hi)].
    cbn [entries node s_enq bit]. unfold word. lia.
  - destruct (release_ok _ _ _ Hi Hown) as (s' & E & E1 & E2 & E3 & E4 & E5 & E6).
    rewrite E. apply steps_to_some.
    eapply inv_setter; [exact Hi|exact Hl|..]; rewrite ?E3, ?E4;
      [apply (iv_wf _ _ _ Hi)|done|done|done|exact E5|exact E6|done|cbn [s_has bit]; lia|exact E2|done|done
      |apply (iv_pending _ _ _ Hi)].
Qed.

(** ** [update] *)

Record busy_facts (rel : bool) x : Prop := {
  bf_alive : registration x = RAlive;
  bf_rel : rel = false;
  bf_dropped : RS.is_dropped (word x) = false;
  bf_live : live (shared x) = Done (node (shared x));
  bf_freed : freed (shared x) = false;
}.

Lemma busy_ok rel x g i l :
  inv rel x g → updaters x !! i = Some l → l ≠ UIdle → busy_facts rel x.
Proof.
  intros Hi Hl Hne. assert (registration x = RAlive) as Ha.
  { destruct (registration x) eqn:Er; try done; exfalso; apply Hne;
      (eapply (Forall_lookup_1 (λ l, l = UIdle)); [|exact Hl]);
      apply (iv_alive _ _ _ Hi); by rewrite Er. }
  assert (RS.is_dropped (word x) = false) as Hd by (rewrite (iv_dropped _ _ _ Hi), Ha; done).
  assert (1 <= owners x rel) as Ho by (apply owners_registration; by rewrite Ha).
  split; [done| |done|by eapply live_ok|by eapply not_freed].
  destruct rel; [|done]. destruct (iv_released _ _ _ Hi eq_refl). congruence.
Qed.

(** The threads but the one that holds the lock rely on nothing. *)
Lemma others_unlocked rel x g i l n' :
  inv rel x g → updaters x !! i = Some l → u_locked l = true →
  ∀ j m, j ≠ i → updaters x !! j = Some m → updater_ok n' m.
Proof.
  intros Hi Hl Hlk j m Hne Hm. eapply updater_ok_unlocked; [|by eapply iv_updaters].
  pose proof (count_insert u_locked _ _ _ UIdle Hl) as C. rewrite Hlk in C. cbn [u_locked bit] in C.
  pose proof (iv_lock _ _ _ Hi) as L. assert (bit (n_update_lock (node (shared x))) <= 1) as B
    by (destruct (n_update_lock _); done).
  apply (count_0 _ (<[i := UIdle]> (updaters x)) j m); [lia|].
  by rewrite list_lookup_insert_ne by done.
Qed.

Lemma inv_updater_stay rel x g i l l' :
  inv rel x g → updaters x !! i = Some l → u_enq l' = u_enq l → u_locked l' = u_locked l →
  (registration x = RAlive ∨ l' = UIdle) → updater_ok (node (shared x)) l' →
  inv rel (with_updater i l' (shared x) x) g.
Proof.
  intros Hi Hl He Hk Ha Hok.
  eapply inv_updater; [exact Hi|exact Hl|apply (iv_wf _ _ _ Hi)|done|done|done|by rewrite He|done|done
    |by rewrite Hk|exact Ha|exact Hok| |done|apply (iv_current _ _ _ Hi)|apply (iv_pending _ _ _ Hi)].
  intros j m _. apply (iv_updaters _ _ _ Hi).
Qed.

(** The write of a slot that nobody reads. *)
Lemma inv_write rel x g i a st pos :
  inv rel x g → updaters x !! i = Some (UWrite a st pos) →
  ∃ n', with_token pos (a_token a) (node (shared x)) = Done n' ∧
    inv rel (with_updater i (UCas a (RS.token_write_pos st) pos st) (with_node n' (shared x)) x) g.
Proof.
  intros Hi Hl. pose proof (iv_updaters _ _ _ Hi i _ Hl) as (Ha & Hs & [Ew Er] & Hp & Hrd & Hwr).
  destruct (busy_ok _ _ _ _ _ Hi Hl) as [Hal -> Hd Hlive Hfr]; [done|].
  destruct (with_token_ok pos (a_token a) (node (shared x)) Hp) as (n' & E & [S1 S2 S3 S4 S5 S6] & Et & Eo).
  exists n'. split; [exact E|].
  eapply inv_updater; [exact Hi|exact Hl|..]; cbn [with_node node entries freed]; rewrite ?S1;
    [apply (iv_wf _ _ _ Hi)|done|done|by apply Eo|done|exact S5|done|by rewrite S3|by left| | |done| 
    |apply (iv_pending _ _ _ Hi)].
  - split_and!; try done; cbn; rewrite S1; [exact Ew|by right].
  - by eapply others_unlocked.
  - rewrite Eo by done. apply (iv_current _ _ _ Hi).
Qed.

(** The exchange of [update]. *)
Lemma inv_update_cas x g i a cur pos next :
  inv false x g → updaters x !! i = Some (UCas a cur pos (word x)) →
  word_facts next (RS.token_read_pos (word x)) pos (RS.is_queued (word x) || ready next) false →
  inv false (with_updater i (UUnlock a (negb (RS.is_queued (word x)) && RS.is_queued next))
    (with_node (with_state next (node (shared x))) (shared x)) x) (observe g (Updated a next)).
Proof.
  intros Hi Hl [N1 N2 N3 N4 N5].
  pose proof (iv_updaters _ _ _ Hi i _ Hl) as (Ha & [Hwf Hds] & Ec & Hp & Et & Hpos).
  destruct (busy_ok _ _ _ _ _ Hi Hl) as [Hal _ Hd Hlive Hfr]; [done|].
  eapply inv_updater; [exact Hi|exact Hl|..]; cbn [with_node node entries freed with_state n_state
    n_update_lock n_ref_count current pending observe looked];
    [exact N1|congruence|exact N2|done| |done|done|done|by left|done| |done| |].
  - rewrite !andb_true_r. cbn [u_enq bit].
    pose proof (flag_won (RS.is_queued (word x)) (RS.is_queued next)) as Hf.
    rewrite <- Hf by (rewrite N4; by intros ->). lia.
  - by eapply others_unlocked.
  - rewrite N3. exact Et.
  - rewrite N5. intros [Hq|]; [|done]. rewrite N4.
    apply orb_true_iff in Hq as [Hq| ->]; [|by rewrite orb_true_r].
    by rewrite (iv_pending _ _ _ Hi (or_introl Hq)).
Qed.

(** The step that chooses the slot of the token. *)
Lemma updater_slot_ok rel x g i a st :
  inv rel x g → updaters x !! i = Some (URead a st) →
  steps_to (updater_step (shared x) (URead a st)) (λ '(l', s', es),
    inv rel (with_updater i l' s' x) (foldl observe g es)).
Proof.
  intros Hi Hl. pose proof (iv_updaters _ _ _ Hi i _ Hl) as Hok. pose proof (iv_wf _ _ _ Hi) as Hwf.
  destruct (busy_ok _ _ _ _ _ Hi Hl ltac:(done)) as [Hal -> Hd Hlive Hfr].
  cbn [updater_step]. rewrite Hlive. cbn [mbind exec_bind].
  destruct Hok as (Ha & Hs & Hpos). destruct (node_token_ok (node (shared x)) (RS.token_write_pos st))
    as [curr Ecur]; [apply (wf_word_wr _ (proj1 Hs))|].
  rewrite Ecur. cbn [mbind exec_bind]. case_bool_decide as Htok.
  - destruct (next_token_pos_fresh st (proj1 Hs)) as (pos & Ep & Hp & Hrd & Hwr).
    rewrite Ep. apply steps_to_some.
    eapply inv_updater_stay; [exact Hi|exact Hl|done|done|by left|].
    destruct Hpos as [Ew Er]. split_and!; try done; [by destruct Er as [-> | ->]|by rewrite <- Ew].
  - apply steps_to_some.
    eapply inv_updater_stay; [exact Hi|exact Hl|done|done|by left|].
    split; [exact Ha|]. split; [exact Hs|]. split; [apply Hpos|].
    split; [apply (wf_word_wr _ (proj1 Hs))|]. split; [by rewrite Ecur, Htok|by left].
Qed.

(** The step that publishes the word. *)
Lemma updater_cas_ok rel x g i a cur pos st :
  inv rel x g → updaters x !! i = Some (UCas a cur pos st) →
  steps_to (updater_step (shared x) (UCas a cur pos st)) (λ '(l', s', es),
    inv rel (with_updater i l' s' x) (foldl observe g es)).
Proof.
  intros Hi Hl. pose proof (iv_updaters _ _ _ Hi i _ Hl) as Hok. pose proof (iv_wf _ _ _ Hi) as Hwf.
  destruct (busy_ok _ _ _ _ _ Hi Hl ltac:(done)) as [Hal -> Hd Hlive Hfr].
  cbn [updater_step]. rewrite ?Hlive. cbn [mbind exec_bind].
  destruct Hok as (Ha & [Hwfs Hds] & Ec & Hp & Et & Hpos). rewrite Hds. cbn [assert negb mbind exec_bind].
  destruct (update_next_ok a pos st Hwfs Hds Hp Ha) as (next & En & Hn). rewrite En. cbn [mbind exec_bind].
  destruct (decide (word x = st)) as [<-|Hst].
  - rewrite (cas_word_hit _ next Hlive). cbn [mbind exec_bind]. rewrite bool_decide_eq_true_2 by done.
    apply steps_to_some. cbn [foldl]. by eapply inv_update_cas.
  - rewrite (cas_word_miss _ _ next Hlive Hst). cbn [mbind exec_bind].
    rewrite bool_decide_eq_false_2 by done. rewrite Ec.
    change (n_state (node (shared x))) with (word x). rewrite N.eqb_refl. apply steps_to_some.
    eapply inv_updater_stay; [exact Hi|exact Hl|done|done|by left|]. subst cur. by split_and!.
Qed.

Lemma updater_step_ok rel x g i l :
  inv rel x g → updaters x !! i = Some l →
  steps_to (updater_step (shared x) l) (λ '(l', s', es),
    inv rel (with_updater i l' s' x) (foldl observe g es)).
Proof.
  intros Hi Hl. pose proof (iv_updaters _ _ _ Hi i l Hl) as Hok. pose proof (iv_wf _ _ _ Hi) as Hwf.
  assert (l = UIdle ∨ l ≠ UIdle) as [->|Hne]; [destruct l; by auto|apply steps_to_none|].
  destruct (busy_ok _ _ _ _ _ Hi Hl Hne) as [Hal -> Hd Hlive Hfr].
  destruct l as [|a|a|a st|a st pos|a cur pos st|a b|a|];
    [done| | |by eapply updater_slot_ok| |by eapply updater_cas_ok| | |];
    cbn [updater_step]; rewrite ?Hlive; cbn [mbind exec_bind].
  - apply steps_to_some. destruct (n_update_lock (node (shared x))) eqn:Elk; cbn [foldl].
    + eapply inv_updater_stay; [exact Hi|exact Hl|done|done|by right|done].
    + eapply inv_updater; [exact Hi|exact Hl|..]; cbn [with_node node entries freed with_lock n_state
        n_update_lock n_ref_count];
        [exact Hwf|done|done|done|done|done|done|by rewrite Elk|by left|exact Hok| |done
        |apply (iv_current _ _ _ Hi)|apply (iv_pending _ _ _ Hi)].
      intros j m _ Hm. eapply (updater_ok_frame (node (shared x))); [done|done|by left|by eapply iv_updaters].
  - unfold load_word. rewrite Hlive. apply steps_to_some.
    eapply inv_updater_stay; [exact Hi|exact Hl|done|done|by left|].
    split; [exact Hok|]. split; [by split|]. split; [done|by left].
  - destruct (inv_write _ _ _ _ _ _ _ Hi Hl) as (n' & E & Hi'). rewrite E. by apply steps_to_some.
  - apply steps_to_some.
    eapply inv_updater; [exact Hi|exact Hl|..]; cbn [with_node node entries freed with_lock n_state
      n_update_lock n_ref_count];
      [exact Hwf|done|done|done|by destruct b|done|done| |by left|by destruct b| |done
      |apply (iv_current _ _ _ Hi)|apply (iv_pending _ _ _ Hi)].
    + pose proof (count_pos u_locked _ _ _ Hl eq_refl) as C. pose proof (iv_lock _ _ _ Hi).
      destruct (n_update_lock _), b; cbn in *; lia.
    + by eapply others_unlocked.
  - apply steps_to_some.
    eapply inv_updater; [exact Hi|exact Hl|..]; cbn [with_node node entries freed with_job n_state
      n_update_lock n_ref_count];
      [exact Hwf|done|done|done|done|done|done|done|by left|done| |done
      |apply (iv_current _ _ _ Hi)|apply (iv_pending _ _ _ Hi)].
    intros j m _ Hm. eapply (updater_ok_frame (node (shared x))); [done|done|by left|by eapply iv_updaters].
  - unfold enqueue. rewrite Hlive. apply steps_to_some.
    eapply inv_updater; [exact Hi|exact Hl|..]; cbn [node entries freed];
      [exact Hwf|done|done|done| |done|done|done|by left|done| |done
      |apply (iv_current _ _ _ Hi)|apply (iv_pending _ _ _ Hi)].
    + cbn [u_enq bit]. unfold word. lia.
    + intros j m _ Hm. by eapply iv_updaters.
Qed.

(** ** The registration *)

Lemma registration_step_ok rel x g :
  inv rel x g →
  steps_to (registration_step (shared x) (registration x)) (λ '(l', s', es),
    inv rel (with_registration l' s' x) (foldl observe g es)).
Proof.
  intros Hi. pose proof (iv_wf _ _ _ Hi) as Hwf. pose proof (iv_dropped _ _ _ Hi) as Hd.
  pose proof (iv_alive _ _ _ Hi) as Hal. pose proof (owners_registration rel x) as Ho.
  destruct (registration x) eqn:Er; cbn [registration_step]; try apply steps_to_none;
    specialize (Ho eq_refl); specialize (Hal ltac:(done));
    pose proof (live_ok _ _ _ Hi Ho) as Hlive; pose proof (refs_pos _ _ _ Hi Ho) as Hfr.
  - rewrite Hlive. cbn [mbind exec_bind].
    destruct (flag_as_dropped_fields (word x) Hd) as (w & Ew & Ef & _).
    pose proof (wf_flag_as_dropped _ _ _ Hwf Ew) as Hwf'. change (n_state (node (shared x))) with (word x).
    rewrite Ew. apply steps_to_some. cbn [foldl].
    destruct (word_facts_of _ _ Hwf' Ef) as [_ N2 N3 N4 N5]. cbn in N2, N3, N4, N5.
    destruct rel; [destruct (iv_released _ _ _ Hi eq_refl) as [H _]; rewrite Hd in H; discriminate H|].
    eapply inv_registration; [exact Hi|..]; cbn [with_node node entries freed with_state n_state
      n_update_lock n_ref_count]; rewrite ?Er;
      [exact Hwf'|by rewrite N5; destruct (negb _)|intros _; exact N5|exact N2|exact N3|done|done| |by destruct (negb _)
      |exact Hfr|exact Hal|by rewrite N4].
    rewrite N4. destruct (RS.is_queued (word x)); cbn; lia.
  - unfold enqueue. rewrite Hlive. apply steps_to_some. cbn [foldl].
    eapply inv_registration; [exact Hi|..]; cbn [node entries freed]; rewrite ?Er;
      [exact Hwf|exact Hd|done|done|done|done|done| |done|exact Hfr|exact Hal|apply (iv_pending _ _ _ Hi)].
    cbn [r_enq bit]. unfold word. lia.
  - destruct (release_ok _ _ _ Hi Ho) as (s' & E & E1 & E2 & E3 & E4 & E5 & E6).
    rewrite E. apply steps_to_some. cbn [foldl].
    eapply inv_registration; [exact Hi|..]; rewrite ?E3, ?E4, ?Er;
      [exact Hwf|exact Hd|done|done|done|exact E5|exact E6|done|cbn [r_has bit]; lia|exact E2
      |exact Hal|apply (iv_pending _ _ _ Hi)].
Qed.

(** ** The poll *)

Lemma inv_poll_stay x g g' l' :
  inv false x g → p_taken l' = p_taken (poller x) → poll_ok (node (shared x)) g' l' →
  current g' = current g → pending g' = pending g →
  inv false (with_poller l' (shared x) x) g'.
Proof.
  intros Hi Ht Hok Ec Ep. pose proof (owners_queue x) as Ho.
  eapply inv_poll; [exact Hi|apply (iv_wf _ _ _ Hi)|done|by left|done|done|done|by rewrite Ht|done
    |exact (refs_pos _ _ _ Hi Ho)|done|exact Hok|exact Ec|rewrite Ep; apply (iv_pending _ _ _ Hi)].
Qed.

(** A load of the word, or an exchange that failed. *)
Lemma inv_poll_look x g :
  inv false x g → p_taken (poller x) = true →
  inv false (with_poller (PCas (word x)) (shared x) x) (observe (J:=J) g (Loaded (word x))).
Proof.
  intros Hi Ht. eapply inv_poll_stay; [exact Hi|by rewrite Ht| |done|done].
  split; [apply (iv_wf _ _ _ Hi)|]. split.
  - pose proof (iv_places _ _ _ Hi) as Hp. unfold places in Hp. rewrite Ht in Hp. cbn [bit] in Hp.
    rewrite andb_true_r in Hp. destruct (RS.is_queued (word x)); [done|cbn in Hp; lia].
  - split; [done|]. split; [done|]. split; [done|]. cbn. intros <-. apply (iv_current _ _ _ Hi).
Qed.

(** The exchange of the poll. *)
Lemma inv_poll_cas x g next :
  inv false x g → poller x = PCas (word x) → RS.is_queued (word x) = true →
  word_facts next (RS.token_write_pos (word x)) (RS.token_write_pos (word x))
    (negb (PollOpt.is_edge (RS.poll_opt (word x))) && ready (word x)) false →
  RS.is_dropped (word x) = false →
  inv false (with_poller (after_loop (RS.effective_readiness (word x)) next)
    (with_node (with_state next (node (shared x))) (shared x)) x) (observe (J:=J) g (Took (word x))).
Proof.
  intros Hi Hl Hq [N1 N2 N3 N4 N5] Hd. pose proof (owners_queue x) as Ho.
  eapply inv_poll; [exact Hi|..]; rewrite ?Hl; cbn [with_node node entries freed with_state n_state
    n_update_lock n_ref_count observe current pending];
    [exact N1|congruence|right; congruence|exact N3|done|done| |done|exact (refs_pos _ _ _ Hi Ho)|done| |done
    |rewrite N5; by intros [|]].
  - rewrite Hq. unfold after_loop.
    destruct (RS.is_queued next), (Ready.is_empty (RS.effective_readiness (word x))); cbn; lia.
  - unfold after_loop. rewrite N4, N2. pose proof (iv_current _ _ _ Hi) as Hc.
    destruct (negb (PollOpt.is_edge _) && ready (word x)) eqn:Eq.
    + apply andb_true_iff in Eq as [_ Er]. apply negb_true_iff in Er.
      split; [done|]. split; [exact Er|]. split; [done|exact Hc].
    + destruct (Ready.is_empty _) eqn:Er; [done|].
      split; [done|]. split; [exact Er|]. split; [done|exact Hc].
Qed.

(** The step that takes the word. *)
Lemma poll_cas_ok x g st :
  inv false x g → poller x = PCas st →
  steps_to (poll_step null_job (shared x) (PCas st)) (λ '(l', s', es),
    ∃ rel', inv rel' (with_poller l' s' x) (foldl observe g es)).
Proof.
  intros Hi El. pose proof (iv_poller _ _ _ Hi) as Hok. rewrite El in Hok.
  pose proof (live_ok _ _ _ Hi (owners_queue x)) as Hlive. cbn [poll_step].
  destruct Hok as (Hwfs & Hqs & Hds & Hrs & Hls & Hts). rewrite Hqs. cbn [assert mbind exec_bind].
  destruct (RS.is_dropped st) eqn:Ed.
  - apply steps_to_some. exists false. eapply inv_poll_stay; [exact Hi|by rewrite El|by apply Hds|done|done].
  - destruct (poll_next_ok st Hwfs Hqs Ed) as (next & En & Hn). rewrite En. cbn [mbind exec_bind].
    case_bool_decide as Hst.
    + apply steps_to_some. exists false. subst next. destruct Hn as [N1 N2 N3 N4 N5]. cbn [foldl].
      unfold after_loop. rewrite Hqs. rewrite Hqs in N4. symmetry in N4.
      apply andb_true_iff in N4 as [_ Er]. apply negb_true_iff in Er.
      eapply inv_poll_stay; [exact Hi|by rewrite El| |done|done].
      split; [by rewrite Hls|]. split; [exact Er|]. split; [exact Hrs|by apply Hts].
    + destruct (decide (word x = st)) as [<-|Hw].
      * rewrite (cas_word_hit _ next Hlive). cbn [mbind exec_bind].
        rewrite bool_decide_eq_true_2 by done. apply steps_to_some. exists false. cbn [foldl].
        by apply inv_poll_cas.
      * rewrite (cas_word_miss _ _ next Hlive Hw). cbn [mbind exec_bind].
        rewrite bool_decide_eq_false_2 by done. apply steps_to_some. exists false. cbn [foldl].
        apply inv_poll_look; [exact Hi|by rewrite El].
Qed.

Lemma poll_step_ok rel x g :
  inv rel x g →
  steps_to (poll_step null_job (shared x) (poller x)) (λ '(l', s', es),
    ∃ rel', inv rel' (with_poller l' s' x) (foldl observe g es)).
Proof.
  intros Hi. pose proof (iv_wf _ _ _ Hi) as Hwf. pose proof (iv_poller _ _ _ Hi) as Hok.
  pose proof (iv_places _ _ _ Hi) as Hp. unfold places in Hp.
  assert (poller x = PIdle ∧ entries (shared x) = 0%nat ∨
          ¬ (poller x = PIdle ∧ entries (shared x) = 0%nat)) as [[El Ee]|Hne].
  { destruct (poller x), (entries (shared x)); try (right; by intros [? ?]); by left. }
  { rewrite El. cbn [poll_step]. rewrite Ee. apply steps_to_none. }
  assert (rel = false) as ->.
  { destruct rel; [|done]. exfalso. destruct (iv_released _ _ _ Hi eq_refl) as [_ El]. apply Hne.
    split; [done|]. cbn in Hp. rewrite andb_false_r in Hp. cbn in Hp. lia. }
  pose proof (owners_queue x) as Ho. pose proof (live_ok _ _ _ Hi Ho) as Hlive.
  pose proof (refs_pos _ _ _ Hi Ho) as Hfr. pose proof (iv_pending _ _ _ Hi) as Hpd.
  destruct (poller x) as [| |st|r pos|r pos|r tok| |] eqn:El; cbn [poll_step].
  - destruct (entries (shared x)) as [|k] eqn:Ek; [by destruct Hne|]. apply steps_to_some.
    exists false. eapply inv_poll; [exact Hi|..]; rewrite ?El; cbn [node entries freed];
      [exact Hwf|done|by left|done|done|done| |done|exact Hfr|done|done|done|exact Hpd].
    rewrite Ek. cbn [p_taken bit]. unfold word. lia.
  - unfold load_word. rewrite Hlive. apply steps_to_some. exists false. cbn [foldl].
    apply inv_poll_look; [exact Hi|by rewrite El].
  - by apply poll_cas_ok.
  - unfold enqueue. rewrite Hlive. destruct Hok as (Hr & Her & Hh). apply steps_to_some. exists false.
    rewrite Her. cbn [foldl]. eapply inv_poll; [exact Hi|..]; rewrite ?El; cbn [node entries freed];
      [exact Hwf|done|by left|done|done|done| |done|exact Hfr|done|by split|done|exact Hpd].
    cbn [p_taken bit]. unfold word. lia.
  - destruct Hok as (-> & Her & [-> Ht]). rewrite Hlive. cbn [mbind exec_bind]. rewrite Ht.
    apply steps_to_some. exists false. eapply inv_poll_stay; [exact Hi|by rewrite El| |done|done].
    cbn. by destruct (looked g).
  - rewrite Hlive. apply steps_to_some. exists false. by eapply inv_poll_stay; [exact Hi|rewrite El|..].
  - rewrite Hlive. apply steps_to_some. exists false. cbn [foldl].
    eapply inv_poll; [exact Hi|..]; rewrite ?El; cbn [with_node with_job node entries freed n_state
      n_update_lock n_ref_count];
      [exact Hwf|done|by left|done|done|done|done|done|exact Hfr|done|done|done|exact Hpd].
  - destruct (release_ok _ _ _ Hi Ho) as (s' & E & E1 & E2 & E3 & E4 & E5 & E6).
    rewrite E. apply steps_to_some. exists true. cbn [foldl].
    eapply inv_poll; [exact Hi|..]; rewrite ?E3, ?E4, ?El;
      [exact Hwf|done|by left|done|exact E5|exact E6| |cbn [negb bit]; lia|exact E2|done|done|done|exact Hpd].
    cbn [p_taken bit negb] in *. rewrite andb_true_r, andb_false_r in *.
    destruct (RS.is_queued (word x)); cbn in *; lia.
Qed.
End NodeSyncProps.
