(* ===== verification/NodeSyncTheorems.v ===== *)
(** * One readiness node under concurrency: theorems

    Token slots are never accessed by two threads at once, assertions hold, the
    node is freed by its last owner and not touched after that; it is in the
    queue at most once, and when it has news; the poll reports what the last
    [update] registered.  Only the job is not protected, and may get lost. *)
From S2P Require Import Prelude EventSet ReadinessState Awakener Duration Selector ReadinessQueue.
From S2P Require Import QueueSpec RegistrationSpec NodeSync NodeSyncInv NodeSyncProps.

Section NodeSyncTheorems.
Context {J : Type} (null_job : J).
Context (n m : nat) (q : qid) (tok : TokenEntry) (interest : Ready) (opt : PollOpt).
Context (Hn : N.of_nat n + 3 <= 2 ^ 63).
Implicit Types (x : System (J:=J)) (g : Ghost) (tr es : list (event (J:=J))).
#[local] Abbreviation reach := (reachable null_job n m q tok interest opt).

(** ** The invariant of every reachable state *)

Lemma ghost_app tr es : ghost tok (tr ++ es) = foldl observe (ghost tok tr) es.
Proof using Type. unfold ghost. by rewrite foldl_app. Qed.

Lemma node_initial_inv nd :
  ReadinessNode_new null_job (Some q) tok interest opt 3 = Done nd →
  inv false (initial n m nd) (ghost (J:=J) tok []).
Proof using Hn.
  intros E. unfold ReadinessNode_new, AtomicState.new in E.
  destruct (RS.new interest opt) as [s| |] eqn:Es; [|discriminate E..]. injection E as <-.
  assert (ready_0 interest <= MASK_4 ∧ opt_0 opt <= MASK_4) as [Hi Ho].
  { unfold RS.new, assert in Es. destruct (ready_as_usize interest <=? MASK_4) eqn:E1; [|discriminate Es].
    cbn [mbind exec_bind] in Es. destruct (opt_as_usize opt <=? MASK_4) eqn:E2; [|discriminate Es].
    apply N.leb_le in E1, E2. by split. }
  destruct (new_fields interest opt Hi Ho) as (s' & Es' & Hwf & Ef).
  rewrite Es in Es'. injection Es' as <-.
  destruct (word_facts_of _ _ Hwf Ef) as [_ N2 N3 N4 N5]. cbn in N2, N3, N4, N5.
  assert (∀ {A} (f : A → bool) (a : A) k, f a = false → count f (replicate k a) = 0) as Hrep.
  { intros A f a k Hf. unfold count. induction k as [|k IH]; [done|]. cbn [replicate].
    rewrite filter_cons_False by congruence. exact IH. }
  assert (count s_enq (SIdle :: replicate n SGone) = 0 ∧ count s_has (SIdle :: replicate n SGone) = 1)
    as [C1 C2].
  { unfold count. rewrite !filter_cons. cbn [s_enq s_has].
    rewrite decide_False, decide_True by done. cbn [length]. rewrite Nat2N.inj_succ.
    specialize (Hrep spc). unfold count in Hrep. rewrite !Hrep by done. done. }
  split; unfold word, places, owners; cbn [initial shared poller setters updaters registration node freed
    entries n_state n_ref_count n_update_lock ghost foldl current pending]; rewrite ?C1, ?C2, ?Hrep, ?N4, ?N5
    by done; try done.
  - cbn [length]. rewrite length_replicate. lia.
  - intros i l Hl. destruct i as [|i]; cbn in Hl; [by injection Hl as <-|].
    apply lookup_replicate in Hl as [-> _]. done.
  - intros i l [-> _]%lookup_replicate. done.
  - by rewrite N3.
  - by intros [|].
Qed.

Lemma clone_inv rel x g i j s :
  inv rel x g → setters x !! i = Some SIdle → setters x !! j = Some SGone →
  clone (shared x) = Done s → inv rel (with_setter j SIdle s x) g.
Proof using Hn.
  intros Hi Hl Hj E. pose proof (owners_setter rel x i _ Hl eq_refl) as Ho.
  pose proof (owners_small _ _ _ Hi) as Hs. unfold clone in E.
  rewrite (live_ok _ _ _ Hi Ho) in E. cbn [mbind exec_bind] in E.
  destruct (negb _); [discriminate E|]. injection E as <-.
  assert (fetch_add1 (n_ref_count (node (shared x))) = n_ref_count (node (shared x)) + 1) as Ef.
  { apply fetch_add1_small. rewrite (iv_refs _ _ _ Hi). change (2 ^ 64) with (2 * 2 ^ 63). lia. }
  eapply inv_setter; [exact Hi|exact Hj|apply (iv_wf _ _ _ Hi)|done..| | |done|done
    |apply (iv_pending _ _ _ Hi)]; cbn [with_node node with_ref n_ref_count s_has bit freed]; rewrite Ef.
  - lia.
  - rewrite (not_freed _ _ _ Hi Ho). symmetry. apply N.eqb_neq. lia.
Qed.

Lemma steps_to_Done {A} (r : exec (option A)) (Q : A → Prop) a :
  steps_to r Q → r = Done (Some a) → Q a.
Proof using Type. intros (o & E & H) E'. apply H. congruence. Qed.

Lemma node_step_inv rel x g es x' :
  inv rel x g → step null_job x es x' → ∃ rel', inv rel' x' (foldl observe g es).
Proof using Hn.
  intros Hi Hs. destruct Hs as [x i r Hl Hr|x i Hl|x i j s Hl Hj E|x i l l' s es Hl E|x i a Hl Ha Hok
    |x i l l' s es Hl E|x Ha Hf|x l s es E|x l s es E]; cbn [foldl].
  - exists rel. by eapply inv_setter_stay.
  - exists rel. by eapply inv_setter_stay.
  - exists rel. by eapply clone_inv.
  - exists rel. exact (steps_to_Done _ _ _ (setter_step_ok _ _ _ _ _ Hi Hl) E).
  - exists rel. eapply inv_updater_stay; [exact Hi|exact Hl|done|done|by left|exact Hok].
  - exists rel. exact (steps_to_Done _ _ _ (updater_step_ok _ _ _ _ _ Hi Hl) E).
  - exists rel. assert (freed (shared x) = (n_ref_count (node (shared x)) =? 0)) as Hfr
      by (by rewrite (iv_freed _ _ _ Hi), (iv_refs _ _ _ Hi)).
    pose proof (iv_dropped _ _ _ Hi) as Hd. rewrite Ha in Hd.
    eapply inv_registration; [exact Hi|apply (iv_wf _ _ _ Hi)|exact Hd|done|done|done|done|done
      |by rewrite Ha|by rewrite Ha|exact Hfr|exact Hf|apply (iv_pending _ _ _ Hi)].
  - exists rel. exact (steps_to_Done _ _ _ (registration_step_ok _ _ _ Hi) E).
  - exact (steps_to_Done _ _ _ (poll_step_ok null_job _ _ _ Hi) E).
Qed.

Lemma node_reachable_inv x tr : reach x tr → ∃ rel, inv rel x (ghost tok tr).
Proof using Hn.
  induction 1 as [nd E|x tr es x' _ [rel Hi] Hs].
  - exists false. by apply node_initial_inv.
  - rewrite ghost_app. by eapply node_step_inv.
Qed.

Lemma reachable_lengths x tr : reach x tr →
  length (setters x) = S n ∧ length (updaters x) = m.
Proof using Type.
  induction 1 as [nd E|x tr es x' _ [IH1 IH2] Hs].
  - cbn. by rewrite !length_replicate.
  - destruct Hs; cbn; rewrite ?length_insert; done.
Qed.

(** ** Races and failures *)

Lemma inv_no_fail rel x g : inv rel x g → ¬ fails null_job x.
Proof using Type.
  intros Hi [(i & l & p & Hl & E)|[(i & l & p & Hl & E)|[(p & E)|(p & E)]]].
  - destruct (setter_step_ok _ _ _ _ _ Hi Hl) as (o & E' & _). congruence.
  - destruct (updater_step_ok _ _ _ _ _ Hi Hl) as (o & E' & _). congruence.
  - destruct (registration_step_ok _ _ _ Hi) as (o & E' & _). congruence.
  - destruct (poll_step_ok null_job _ _ _ Hi) as (o & E' & _). congruence.
Qed.

Lemma slot_locked l pos b : updater_access l = Some (Slot pos, b) → u_locked (J:=J) l = true.
Proof using Type. by destruct l. Qed.

Lemma inv_no_race rel x g pos : inv rel x g → ¬ race (Slot pos) x.
Proof using Type.
  intros Hi [(i & l & b & Hl & Ea & b' & Ep & Hb)|(i & j & l & l' & b & b' & Hij & Hl & Hl' & Ea & Ea' & _)].
  - pose proof (iv_updaters _ _ _ Hi i l Hl) as Hok. pose proof (iv_poller _ _ _ Hi) as Hp.
    destruct (poller x); try discriminate Ep. injection Ep as -> <-.
    destruct Hp as (_ & _ & [-> _]). destruct l; try discriminate Ea; injection Ea as Epos <-; [done|].
    destruct Hok as (_ & _ & _ & _ & Hne & _). by apply Hne.
  - assert (u_locked l' = false) as Hu.
    { pose proof (count_insert u_locked _ _ _ UIdle Hl) as C. rewrite (slot_locked _ _ _ Ea) in C.
      cbn [u_locked bit] in C. pose proof (iv_lock _ _ _ Hi) as L.
      assert (bit (n_update_lock (node (shared x))) <= 1) as B by (by destruct (n_update_lock _)).
      apply (count_0 _ (<[i := UIdle]> (updaters x)) j l').
      - clear -C L B. lia.
      - by rewrite list_lookup_insert_ne by done. }
    by rewrite (slot_locked _ _ _ Ea') in Hu.
Qed.

(** ** What is reported *)

(** Every event of the trace reports what the poll had looked at. *)
Definition reports_ok tr : Prop := ∀ tr1 r t j tr2,
  tr = tr1 ++ Reported r t j :: tr2 → looked (ghost tok tr1) = (r, t).

Lemma reports_ok_app tr es :
  reports_ok tr → (es = [] ∨ ∃ e, es = [e] ∧ ∀ r t j, e = Reported r t j → looked (ghost tok tr) = (r, t)) →
  reports_ok (tr ++ es).
Proof using Type.
  intros Htr [->|(e & -> & He)]; [by rewrite app_nil_r|]. intros tr1 r t j tr2 E.
  destruct tr2 as [|e2 tr2 _] using rev_ind.
  - apply app_inj_tail in E as [-> ->]. by eapply He.
  - rewrite app_comm_cons, app_assoc in E. apply app_inj_tail in E as [-> _]. by eapply Htr.
Qed.

#[local] Ltac run_step E :=
  unfold load_word, cas_word, enqueue, release, live, mbind, exec_bind in E;
  repeat (case_match; try discriminate E); simplify_eq; try by left.

Lemma setter_events s l l' s' es :
  setter_step s l = Done (Some (l', s', es)) → es = [] ∨ ∃ w, es = [Readied w].
Proof using Type. intros E. destruct l; cbn in E; try discriminate E; run_step E; eauto. Qed.

Lemma updater_events s l l' s' es :
  updater_step s l = Done (Some (l', s', es)) → es = [] ∨ ∃ a w, es = [Updated a w].
Proof using Type. intros E. destruct l; cbn in E; try discriminate E; run_step E; eauto. Qed.

Lemma registration_events s l l' s' (es : list (event (J:=J))) :
  registration_step s l = Done (Some (l', s', es)) → es = [].
Proof using Type. intros E. destruct l; cbn in E; try discriminate E; run_step E; eauto. Qed.

Lemma poll_events s l l' s' es :
  poll_step null_job s l = Done (Some (l', s', es)) →
  es = [] ∨ (∃ w, es = [Loaded w] ∨ es = [Took w]) ∨
  ∃ r t, l = PJob r t ∧ es = [Reported r t (n_job (node s))].
Proof using Type.
  intros E. destruct l; cbn in E; try discriminate E; run_step E; right; first [by left; eauto|by right; eauto].
Qed.

Lemma step_events rel x tr es x' :
  inv rel x (ghost tok tr) → step null_job x es x' →
  es = [] ∨ ∃ e, es = [e] ∧ ∀ r t j, e = Reported r t j → looked (ghost tok tr) = (r, t).
Proof using Type.
  intros Hi Hs. destruct Hs as [| | |x i l l' s es Hl E| |x i l l' s es Hl E| |x l s es E|x l s es E];
    try by left.
  - apply setter_events in E as [->|(w & ->)]; [by left|right]. by eexists.
  - apply updater_events in E as [->|(a & w & ->)]; [by left|right]. by eexists.
  - apply registration_events in E as ->. by left.
  - apply poll_events in E as [->|[(w & [-> | ->])|(r & t & El & ->)]]; [by left|right..]; [by eexists..|].
    eexists. split; [done|]. intros r' t' j [= <- <- _].
    pose proof (iv_poller _ _ _ Hi) as Hp. rewrite El in Hp. by symmetry.
Qed.

Lemma reachable_reports x tr : reach x tr → reports_ok tr.
Proof using Hn.
  induction 1 as [nd E|x tr es x' Hr IH Hs]; [by intros [] ? ? ? ?|].
  destruct (node_reachable_inv _ _ Hr) as [rel Hi]. apply reports_ok_app; [exact IH|].
  by eapply step_events.
Qed.

(** ** Quiet states *)

(** No thread is in the middle of a call. *)
Definition quiet x : Prop :=
  poller x = PIdle ∧ Forall (λ l, l = SIdle ∨ l = SGone) (setters x) ∧
  Forall (λ l, l = UIdle) (updaters x) ∧ (registration x = RAlive ∨ registration x = RGone).

Lemma count_none {A} (f : A → bool) ls : Forall (λ l, f l = false) ls → count f ls = 0.
Proof using Type.
  unfold count. induction 1 as [|l ls Hl _ IH]; [done|]. rewrite filter_cons_False by congruence. exact IH.
Qed.

Lemma quiet_places x : quiet x → places x = N.of_nat (entries (shared x)).
Proof using Type.
  intros (Hp & Hs & Hu & Hr). unfold places. rewrite Hp, (count_none s_enq), (count_none u_enq).
  - destruct Hr as [-> | ->]; cbn [r_enq p_taken bit]; clear; lia.
  - eapply Forall_impl; [exact Hu|]. by intros l ->.
  - eapply Forall_impl; [exact Hs|]. by intros l [-> | ->].
Qed.

(** ** A pass of the poll *)

Lemma pass_step fuel x es l s es' :
  poll_step null_job (shared x) (poller x) = Done (Some (l, s, es')) → l ≠ PIdle →
  poll_pass null_job (S fuel) x es = poll_pass null_job fuel (with_poller l s x) (es ++ es').
Proof using Type. intros E Hl. cbn [poll_pass]. rewrite E. cbn [mbind exec_bind]. by destruct l. Qed.

Lemma pass_last fuel x es s es' :
  poll_step null_job (shared x) (poller x) = Done (Some (PIdle, s, es')) →
  poll_pass null_job (S fuel) x es = Done (with_poller PIdle s x, es ++ es').
Proof using Type. intros E. cbn [poll_pass]. by rewrite E. Qed.

(** A poll takes the node and looks at its word. *)
Lemma pass_look fuel x g es :
  inv false x g → poller x = PIdle → entries (shared x) = 1%nat →
  ∃ s, node s = node (shared x) ∧ freed s = false ∧ entries s = 0%nat ∧
    poll_pass null_job (S (S fuel)) x es =
      poll_pass null_job fuel (with_poller (PCas (word x)) s x) (es ++ [Loaded (word x)]).
Proof using Type.
  intros Hi Hp He. pose proof (not_freed _ _ _ Hi (owners_queue x)) as Hf.
  exists (mkShared (node (shared x)) (freed (shared x)) 0). split; [done|]. split; [done|]. split; [done|].
  erewrite pass_step; [|rewrite Hp; cbn [poll_step]; rewrite He; reflexivity|done].
  erewrite pass_step; [|cbn [with_poller shared poller poll_step]; unfold load_word, live;
    cbn [freed]; rewrite Hf; reflexivity|done].
  by rewrite app_nil_r, Hf.
Qed.

(** The exchange of the poll, when nobody interferes. *)
Lemma poll_cas_alone s w next :
  n_state (node s) = w → freed s = false → RS.is_queued w = true → RS.is_dropped w = false →
  poll_next w = Done next →
  ∃ s' es, poll_step null_job s (PCas w) =
      Done (Some (after_loop (RS.effective_readiness w) next, s', es)) ∧
    node s' = with_state next (node s) ∧ freed s' = false ∧ entries s' = entries s ∧
    (∀ e, e ∈ es → ∀ r t j, e ≠ Reported r t j).
Proof using Type.
  intros Hw Hf Hq Hd En. cbn [poll_step]. rewrite Hq, Hd, En. cbn [assert mbind exec_bind].
  case_bool_decide as Hn'.
  - exists s, []. subst next. split_and!; try done; [by destruct (node s); cbn in *; subst|].
    by intros e He%not_elem_of_nil.
  - unfold cas_word, live. rewrite Hf. cbn [mbind exec_bind]. unfold AtomicState.compare_and_swap.
    rewrite Hw, bool_decide_eq_true_2 by done. cbn [mbind exec_bind]. rewrite bool_decide_eq_true_2 by done.
    eexists _, _. split; [reflexivity|]. split_and!; try done. by intros e ->%list_elem_of_singleton.
Qed.

Lemma pass_report fuel x r pos t es :
  poller x = PToken r pos → freed (shared x) = false → node_token (node (shared x)) pos = Done t →
  ∃ x', poll_pass null_job (S (S (S fuel))) x es =
      Done (x', es ++ [Reported r t (n_job (node (shared x)))]) ∧
    entries (shared x') = entries (shared x) ∧ poller x' = PIdle.
Proof using Type.
  intros Hp Hf Ht. eexists.
  erewrite pass_step; [|rewrite Hp; cbn [poll_step]; unfold live; rewrite Hf; cbn [mbind exec_bind];
    rewrite Ht; reflexivity|done].
  erewrite pass_step; [|cbn [with_poller shared poller poll_step]; unfold live; rewrite Hf; reflexivity|done].
  erewrite pass_last; [|cbn [with_poller shared poller poll_step]; unfold live; rewrite Hf; reflexivity].
  rewrite !app_nil_r. split; [reflexivity|]. done.
Qed.

Lemma node_reclaimed_ok x tr :
  reach x tr → quiet x → registration x = RGone →
  let handles := count s_has (setters x) in
  (entries (shared x) = 0%nat ∧ n_ref_count (node (shared x)) = handles ∧
   freed (shared x) = (handles =? 0)) ∨
  (freed (shared x) = false ∧
   ∃ x' es, poll_pass null_job 4 x [] = Done (x', es) ∧ entries (shared x') = 0%nat ∧
     n_ref_count (node (shared x')) = handles ∧ freed (shared x') = (handles =? 0)).
Proof using Hn.
  intros Hr Hq Hg handles. destruct (node_reachable_inv _ _ Hr) as [rel Hi].
  pose proof (quiet_places _ Hq) as Hpl. pose proof (iv_places _ _ _ Hi) as Hp. rewrite Hpl in Hp.
  pose proof (iv_refs _ _ _ Hi) as Href. pose proof (iv_freed _ _ _ Hi) as Hfr.
  pose proof (iv_dropped _ _ _ Hi) as Hd. rewrite Hg in Hd. cbn in Hd.
  pose proof (iv_pending _ _ _ Hi (or_intror Hd)) as Hqd. rewrite Hqd in Hp.
  assert (owners x rel = handles + bit (negb rel)) as Ho.
  { unfold owners, handles. rewrite Hg. cbn [r_has bit]. clear. lia. }
  rewrite Ho in Href, Hfr. destruct rel; cbn [negb andb bit] in *.
  - left. rewrite N.add_0_r in *. split; [clear -Hp; lia|]. by split.
  - right. assert (entries (shared x) = 1%nat) as He by (clear -Hp; lia).
    destruct Hq as (Hpi & _). pose proof (not_freed _ _ _ Hi (owners_queue x)) as Hf. split; [done|].
    destruct (pass_look 2 x _ [] Hi Hpi He) as (s & En & Ef & Ees & ->).
    erewrite pass_step; [|cbn [with_poller shared poller poll_step]; rewrite Hqd, Hd; reflexivity|done].
    pose proof (owners_small _ _ _ Hi) as Hs. rewrite Ho in Hs.
    eexists _, _. erewrite pass_last; [|cbn [with_poller shared poller poll_step]; unfold release, live;
      rewrite Ef; reflexivity].
    split; [reflexivity|]. cbn [with_poller shared node entries freed with_ref n_ref_count]. rewrite En, Href.
    rewrite fetch_sub1_pos by (clear -Hs; change (2 ^ 64) with (2 * 2 ^ 63); lia).
    split; [done|]. split; [clear; lia|]. clear. destruct (N.eqb_spec handles 0) as [->|Hne]; [done|].
    apply N.eqb_neq. lia.
Qed.

Lemma node_reported_ok x tr :
  reach x tr → quiet x → registration x = RAlive → entries (shared x) = 1%nat →
  let r := RS.effective_readiness (word x) in
  ∃ x' es, poll_pass null_job 8 x [] = Done (x', es) ∧
    (∃ es', es = es' ++ (if Ready.is_empty r then []
                   else [Reported r (current (ghost tok tr)) (n_job (node (shared x)))]) ∧
       ∀ e, e ∈ es' → ∀ r t j, e ≠ Reported r t j) ∧
    entries (shared x') =
      (if PollOpt.is_edge (RS.poll_opt (word x)) || Ready.is_empty r then 0 else 1)%nat ∧
    poller x' = PIdle.
Proof using Hn.
  intros Hr Hq Hg He r. destruct (node_reachable_inv _ _ Hr) as [rel Hi].
  pose proof (iv_dropped _ _ _ Hi) as Hd. rewrite Hg in Hd. cbn in Hd.
  destruct rel; [destruct (iv_released _ _ _ Hi eq_refl) as [H _]; rewrite Hd in H; discriminate H|].
  pose proof (quiet_places _ Hq) as Hpl. pose proof (iv_places _ _ _ Hi) as Hp. rewrite Hpl, He in Hp.
  rewrite andb_true_r in Hp. destruct (RS.is_queued (word x)) eqn:Hqd; [|discriminate Hp]. clear Hp.
  destruct (poll_next_ok (word x) (iv_wf _ _ _ Hi) Hqd Hd) as (next & En & [N1 N2 N3 N4 N5]).
  pose proof (iv_current _ _ _ Hi) as Hc. destruct Hq as (Hpi & _).
  destruct (pass_look 6 x _ [] Hi Hpi He) as (s & Es & Ef & Ees & ->).
  destruct (poll_cas_alone s (word x) next) as (s1 & es1 & E1 & En1 & Ef1 & Ee1 & Hes1);
    [by rewrite Es|done|done|done|done|].
  assert (∀ pos, node_token (node s1) pos = node_token (node (shared x)) pos) as Ht1
    by (intros pos; by rewrite En1, Es).
  assert (n_job (node s1) = n_job (node (shared x))) as Ej1 by (by rewrite En1, Es).
  assert (∀ e, e ∈ [Loaded (word x)] ++ es1 → ∀ r t j, e ≠ Reported r t j) as Hno.
  { intros e [->%list_elem_of_singleton|He1]%elem_of_app; [done|by apply Hes1]. }
  fold r in E1. unfold after_loop in E1. rewrite N4, N2 in E1. unfold ready in E1. fold r in E1.
  destruct (Ready.is_empty r) eqn:Er.
  - rewrite andb_false_r in E1. eexists _, _. erewrite pass_last; [|exact E1]. split; [reflexivity|].
    split; [|split; [|done]].
    + exists ([Loaded (word x)] ++ es1). split; [|exact Hno]. by rewrite app_nil_r.
    + cbn. by rewrite Ee1, Ees, orb_true_r.
  - destruct (PollOpt.is_edge (RS.poll_opt (word x))); cbn [negb andb orb] in *.
    + erewrite pass_step; [|exact E1|done].
      edestruct (pass_report 2 (with_poller (PToken r (RS.token_write_pos (word x))) s1
        (with_poller (PCas (word x)) s x))) as (x' & Ex & Ee' & Ep'); [done|exact Ef1|
        by rewrite Ht1|]. rewrite Ex. exists x'. eexists. split; [reflexivity|].
      split; [|split; [by rewrite Ee'; cbn; rewrite Ee1, Ees|exact Ep']].
      exists ([Loaded (word x)] ++ es1). split; [|exact Hno]. cbn [with_poller shared]. by rewrite Ej1.
    + erewrite pass_step; [|exact E1|done].
      erewrite pass_step; [|cbn [with_poller shared poller poll_step]; unfold enqueue, live;
        rewrite Ef1; cbn [mbind exec_bind]; rewrite Er; reflexivity|done].
      edestruct (pass_report 1 (with_poller (PToken r (RS.token_write_pos (word x)))
        (mkShared (node s1) false (S (entries s1)))
        (with_poller (PPut r (RS.token_write_pos (word x))) s1
        (with_poller (PCas (word x)) s x)))) as (x' & Ex & Ee' & Ep'); [done|done|
        by cbn; rewrite Ht1|]. rewrite Ex. exists x'. eexists. split; [reflexivity|].
      split; [|split; [by rewrite Ee'; cbn; rewrite Ee1, Ees|exact Ep']].
      exists ([Loaded (word x)] ++ es1). split; [|exact Hno]. cbn [with_poller shared node].
      by rewrite Ej1, app_nil_r.
Qed.

(** ** Theorems *)

(** C3 Any number of threads that set the readiness of a node, update its
    registration, clone and drop its handles and poll it leave its token slots
    free of data races; no assertion fails and no thread touches the node after
    it was freed.  (The node is one of [Registration::new], which belongs to its
    queue from the start; accesses are sequentially consistent.  So it is in
    the other theorems of this file.) *)
Theorem node_sync_safe x tr : reach x tr → (∀ pos, ¬ race (Slot pos) x) ∧ ¬ fails null_job x.
Proof using Hn.
  intros Hr. destruct (node_reachable_inv _ _ Hr) as [rel Hi].
  split; [intros pos; by eapply inv_no_race|by eapply inv_no_fail].
Qed.

(** C6 The node stays well formed under any interleaving: the fields of its
    word are in range and its read and write positions name slots, the slot at
    the write position holds the token of the last [update], the reference count
    is the number of handles and of the queue's reference, the node is freed
    exactly when it is 0, and at most one [update] is inside the lock.  (Of a
    node of [Registration::new], which belongs to its queue from the start.) *)
Theorem node_well_formed x tr : reach x tr →
  wf_word (word x) ∧
  node_token (node (shared x)) (RS.token_write_pos (word x)) = Done (current (ghost tok tr)) ∧
  (∃ rel, n_ref_count (node (shared x)) = owners x rel ∧ (rel = true → registration x ≠ RAlive)) ∧
  freed (shared x) = (n_ref_count (node (shared x)) =? 0) ∧
  count u_locked (updaters x) = bit (n_update_lock (node (shared x))).
Proof using Hn.
  intros [rel Hi]%node_reachable_inv. split; [apply (iv_wf _ _ _ Hi)|]. split; [apply (iv_current _ _ _ Hi)|].
  split; [|split; [by rewrite (iv_freed _ _ _ Hi), (iv_refs _ _ _ Hi)|apply (iv_lock _ _ _ Hi)]].
  exists rel. split; [apply (iv_refs _ _ _ Hi)|]. intros Hr Ha. destruct (iv_released _ _ _ Hi Hr) as [Hd _].
  rewrite (iv_dropped _ _ _ Hi), Ha in Hd. discriminate Hd.
Qed.

(** C4 The queued flag owns the node's place in the queue: the node is in the
    queue, about to be put there or in the hands of the poll at most once, and
    not at all when the flag is clear.  No readiness is lost: once a word whose
    effective readiness is not empty was stored, and until the poll replaces the
    word, the node has that place; when no call is in progress, it is in the
    queue.  (Of a node of [Registration::new], which belongs to its queue from
    the start.) *)
Theorem node_queued_once x tr : reach x tr →
  places x <= 1 ∧ (RS.is_queued (word x) = false → places x = 0) ∧
  (registration x = RAlive → pending (ghost tok tr) = true →
   places x = 1 ∧ (quiet x → entries (shared x) = 1%nat)).
Proof using Hn.
  intros Hr. destruct (node_reachable_inv _ _ Hr) as [rel Hi]. pose proof (iv_places _ _ _ Hi) as Hp.
  rewrite Hp. split; [by destruct (_ && _)|]. split; [by intros ->|]. intros Hg Hpd.
  pose proof (iv_dropped _ _ _ Hi) as Hd. rewrite Hg in Hd. cbn in Hd.
  rewrite (iv_pending _ _ _ Hi (or_introl Hpd)) in *.
  destruct rel; [destruct (iv_released _ _ _ Hi eq_refl) as [H _]; rewrite Hd in H; discriminate H|].
  split; [done|]. intros Hq. rewrite (quiet_places _ Hq) in Hp. cbn in Hp. clear -Hp. lia.
Qed.

(** C5 Every event a poll reports carries the effective readiness of the word
    it looked at last, and the token of the last [update] at that moment,
    whatever was written to the slots meanwhile.  (Of a node of
    [Registration::new], which belongs to its queue from the start.) *)
Theorem node_reports_current x tr : reach x tr →
  ∀ tr1 r t j tr2, tr = tr1 ++ Reported r t j :: tr2 → looked (ghost tok tr1) = (r, t).
Proof using Hn. exact (reachable_reports x tr). Qed.

(** C7 When no call is in progress, a pass of the poll over a node in the
    queue ends, reports the node once if its effective readiness is not empty,
    with the current token and its job, and leaves it in the queue only if it is
    level triggered and ready.  (Of a node of [Registration::new], which belongs
    to its queue from the start.) *)
Theorem node_reported x tr :
  reach x tr → quiet x → registration x = RAlive → entries (shared x) = 1%nat →
  let r := RS.effective_readiness (word x) in
  ∃ x' es, poll_pass null_job 8 x [] = Done (x', es) ∧
    (∃ es', es = es' ++ (if Ready.is_empty r then []
                   else [Reported r (current (ghost tok tr)) (n_job (node (shared x)))]) ∧
       ∀ e, e ∈ es' → ∀ r t j, e ≠ Reported r t j) ∧
    entries (shared x') =
      (if PollOpt.is_edge (RS.poll_opt (word x)) || Ready.is_empty r then 0 else 1)%nat ∧
    poller x' = PIdle.
Proof using Hn. exact (node_reported_ok x tr). Qed.

(** C8 A dropped registration is reclaimed: when no call is in progress, either
    the queue has given the node up, and it is freed exactly if no [SetReadiness]
    is left, or it still is in the queue and the next pass of the poll does
    that.  (Of a node of [Registration::new], which belongs to its queue from
    the start.) *)
Theorem node_reclaimed x tr :
  reach x tr → quiet x → registration x = RGone →
  let handles := count s_has (setters x) in
  (entries (shared x) = 0%nat ∧ n_ref_count (node (shared x)) = handles ∧
   freed (shared x) = (handles =? 0)) ∨
  (freed (shared x) = false ∧
   ∃ x' es, poll_pass null_job 4 x [] = Done (x', es) ∧ entries (shared x') = 0%nat ∧
     n_ref_count (node (shared x')) = handles ∧ freed (shared x') = (handles =? 0)).
Proof using Hn. exact (node_reclaimed_ok x tr). Qed.
End NodeSyncTheorems.
