(* ===== verification/NodeSyncRuns.v ===== *)
(** * One readiness node under concurrency: schedules

    Runs of [NodeSync] under a given schedule, the schedule that loses a job,
    and those in which the theorems of [NodeSyncTheorems] are applied. *)
From S2P Require Import Prelude EventSet ReadinessState Awakener Duration Selector ReadinessQueue.
From S2P Require Import NodeSync NodeSyncInv NodeSyncProps NodeSyncTheorems.

(** ** Schedules *)

Section Schedules.
Context {J : Type} (null_job : J).

(** The calls and the steps of the threads. *)
Inductive actor : Type :=
  | ASet (i : nat) (r : Ready)
  | AForget (i : nat)
  | AUpdate (i : nat) (a : Args (J:=J))
  | ADrop
  | ASetter (i : nat)
  | AUpdater (i : nat)
  | ARegistration
  | APoll.

Definition small (x : N) : bool := x <? 2 ^ 4.
Definition u_idle (l : upc (J:=J)) : bool := match l with UIdle => true | _ => false end.

(** One step of the actor, if it can make one. *)
Definition go (a : actor) (x : System (J:=J)) : option (System (J:=J) * list event) :=
  match a with
  | ASet i r =>
      match setters x !! i, small (ready_0 r) with
      | Some SIdle, true => Some (with_setter i (SLoad r) (shared x) x, [])
      | _, _ => None
      end
  | AForget i =>
      match setters x !! i with
      | Some SIdle => Some (with_setter i SDrop (shared x) x, [])
      | _ => None
      end
  | AUpdate i a =>
      match updaters x !! i, registration x, small (ready_0 (a_interest a)) && small (opt_0 (a_opt a)) with
      | Some UIdle, RAlive, true => Some (with_updater i (ULock a) (shared x) x, [])
      | _, _, _ => None
      end
  | ADrop =>
      match registration x, forallb u_idle (updaters x) with
      | RAlive, true => Some (with_registration RFlag (shared x) x, [])
      | _, _ => None
      end
  | ASetter i =>
      match setters x !! i with
      | Some l => match setter_step (shared x) l with
                  | Done (Some (l', s, es)) => Some (with_setter i l' s x, es)
                  | _ => None
                  end
      | None => None
      end
  | AUpdater i =>
      match updaters x !! i with
      | Some l => match updater_step (shared x) l with
                  | Done (Some (l', s, es)) => Some (with_updater i l' s x, es)
                  | _ => None
                  end
      | None => None
      end
  | ARegistration =>
      match registration_step (shared x) (registration x) with
      | Done (Some (l, s, es)) => Some (with_registration l s x, es)
      | _ => None
      end
  | APoll =>
      match poll_step null_job (shared x) (poller x) with
      | Done (Some (l, s, es)) => Some (with_poller l s x, es)
      | _ => None
      end
  end.

Fixpoint schedule (l : list actor) (x : System (J:=J)) (tr : list event)
    : option (System (J:=J) * list event) :=
  match l with
  | [] => Some (x, tr)
  | a :: l => match go a x with Some (x, es) => schedule l x (tr ++ es) | None => None end
  end.

Lemma go_step a x x' es : go a x = Some (x', es) → step null_job x es x'.
Proof.
  intros E. destruct a as [i r|i|i a| |i|i| |]; cbn in E.
  - destruct (setters x !! i) as [[]|] eqn:Hl; try discriminate E. destruct (small _) eqn:Hr; [|discriminate E].
    injection E as <- <-. apply step_set; [exact Hl|by apply N.ltb_lt].
  - destruct (setters x !! i) as [[]|] eqn:Hl; try discriminate E. injection E as <- <-. by apply step_forget.
  - destruct (updaters x !! i) as [[]|] eqn:Hl; try discriminate E.
    destruct (registration x) eqn:Hr; try discriminate E. destruct (small _ && _) eqn:Hs; [|discriminate E].
    injection E as <- <-. apply andb_true_iff in Hs as [H1 H2]. apply step_update; [done|done|].
    split; by apply N.ltb_lt.
  - destruct (registration x) eqn:Hr; try discriminate E. destruct (forallb _ _) eqn:Hf; [|discriminate E].
    injection E as <- <-. apply step_drop; [done|]. apply Forall_forall. intros l Hl.
    apply list_elem_of_In in Hl. pose proof (proj1 (forallb_forall _ _) Hf l Hl) as Hu. by destruct l.
  - destruct (setters x !! i) as [l|] eqn:Hl; [|discriminate E].
    destruct (setter_step _ _) as [[[[l' s] es']|]| |] eqn:Es; try discriminate E. injection E as <- <-.
    by eapply step_setter.
  - destruct (updaters x !! i) as [l|] eqn:Hl; [|discriminate E].
    destruct (updater_step _ _) as [[[[l' s] es']|]| |] eqn:Es; try discriminate E. injection E as <- <-.
    by eapply step_updater.
  - destruct (registration_step _ _) as [[[[l' s] es']|]| |] eqn:Es; try discriminate E. injection E as <- <-.
    by apply step_registration.
  - destruct (poll_step _ _ _) as [[[[l' s] es']|]| |] eqn:Es; try discriminate E. injection E as <- <-.
    by apply step_poll.
Qed.

Lemma schedule_reachable n m q tok interest opt l x tr x' tr' :
  reachable null_job n m q tok interest opt x tr → schedule l x tr = Some (x', tr') →
  reachable null_job n m q tok interest opt x' tr'.
Proof.
  revert x tr. induction l as [|a l IH]; intros x tr Hr E; cbn in E; [by injection E as <- <-|].
  destruct (go a x) as [[x1 es]|] eqn:Eg; [|discriminate E].
  eapply IH; [|exact E]. eapply reach_step; [exact Hr|by eapply go_step].
Qed.
End Schedules.

(** ** The lost job *)

Section LostJob.
Context {J : Type} (null_job : J) (j1 j2 : J).

Definition first : Args := mkArgs null_token Ready.readable PollOpt.edge j1.
Definition second : Args := mkArgs null_token Ready.readable PollOpt.edge j2.

(** [update] by the one thread that has the registration, to the end. *)
Definition update_call (a : Args (J:=J)) : list (actor (J:=J)) := AUpdate 0 a :: replicate 5 (AUpdater 0).
(** The readiness is set, the job [j1] registered, and the poll has reported it
    but not yet taken it out of the node. *)
Definition until_reported : list (actor (J:=J)) :=
  [ASet 0 Ready.readable; ASetter 0; ASetter 0] ++ update_call first ++
  [AUpdater 0; AUpdater 0] ++ replicate 5 APoll.
(** Then [j2] is registered, up to the store of the job. *)
Definition until_race : list (actor (J:=J)) := until_reported ++ update_call second.
(** The job is stored, then the poll stores the empty job; the node, in the
    queue again, is polled once more. *)
Definition until_lost : list (actor (J:=J)) :=
  until_race ++ [AUpdater 0; AUpdater 0; APoll] ++ replicate 6 APoll.

Definition run_from (l : list (actor (J:=J))) : option (System (J:=J) * list event) :=
  match ReadinessNode_new null_job (Some 0) null_token Ready.empty PollOpt.empty 3 with
  | Done nd => schedule null_job l (initial 0 1 nd) []
  | _ => None
  end.

Lemma run_from_reachable l x tr : run_from l = Some (x, tr) →
  reachable null_job 0 1 0 null_token Ready.empty PollOpt.empty x tr.
Proof.
  unfold run_from. destruct (ReadinessNode_new _ _ _ _ _ _) as [nd| |] eqn:E; try done. intros Es.
  eapply schedule_reachable; [|exact Es]. by apply reach_initial.
Qed.

Definition registered_jobs (tr : list (event (J:=J))) : list J :=
  omap (λ e, match e with Updated a _ => Some (a_job a) | _ => None end) tr.
Definition reported_jobs (tr : list (event (J:=J))) : list J :=
  omap (λ e, match e with Reported _ _ j => Some j | _ => None end) tr.

(** C28 The job of a node is not protected: [update] stores it after it has
    released its lock, and the poll clones it and replaces it by an empty job
    after it has cleared the queued flag.  The two can access it at once; and a
    job can be lost although its [update] succeeded and the node was reported
    again after it: the event runs an empty job. *)
Theorem update_job_lost :
  (∃ x tr, reachable null_job 0 1 0 null_token Ready.empty PollOpt.empty x tr ∧ race JobCell x) ∧
  (∃ x tr, reachable null_job 0 1 0 null_token Ready.empty PollOpt.empty x tr ∧
     registered_jobs tr = [j1; j2] ∧ reported_jobs tr = [j1; null_job] ∧
     quiet x ∧ entries (shared x) = 0%nat).
Proof.
  split.
  - destruct (run_from until_race) as [[x tr]|] eqn:E; [|vm_compute in E; discriminate E].
    exists x, tr. split; [by apply run_from_reachable in E|].
    vm_compute in E. injection E as <- <-. left. exists 0%nat, (UJob second), true.
    split; [reflexivity|]. split; [reflexivity|]. by exists true.
  - destruct (run_from until_lost) as [[x tr]|] eqn:E; [|vm_compute in E; discriminate E].
    exists x, tr. split; [by apply run_from_reachable in E|].
    vm_compute in E. injection E as <- <-. split; [reflexivity|]. split; [reflexivity|].
    split; [|reflexivity]. split; [reflexivity|]. split; [repeat constructor|]. split; [repeat constructor|by left].
Qed.
End LostJob.

Module NodeSyncDemo.

Definition call (l : list (actor (J:=nat))) : System (J:=nat) * list (event (J:=nat)) :=
  match run_from 0%nat l with
  | Some r => r
  | None => (mkSystem (mkShared (mkNode (mkRS 0) null_token null_token null_token None false None 0 0%nat)
               false 0) PIdle [] [] RAlive, [])
  end.

Lemma demo_reachable l : is_Some (run_from 0%nat l) →
  reachable 0%nat 0 1 0 null_token Ready.empty PollOpt.empty (call l).1 (call l).2.
Proof.
  intros [[x tr] E]. unfold call. rewrite E. exact (run_from_reachable 0%nat l x tr E).
Qed.

(** The node is in the queue with the job 1. *)
Definition ready : list (actor (J:=nat)) :=
  [ASet 0 Ready.readable; ASetter 0; ASetter 0] ++ update_call (first 1%nat) ++ [AUpdater 0; AUpdater 0].
(** Its registration is dropped. *)
Definition gone : list (actor (J:=nat)) := ready ++ [ADrop; ARegistration; ARegistration].

Lemma bound : N.of_nat 0 + 3 <= 2 ^ 63.
Proof. apply N.leb_le. vm_compute. reflexivity. Qed.

Lemma ready_demo_reachable :
  reachable 0%nat 0 1 0 null_token Ready.empty PollOpt.empty (call ready).1 (call ready).2.
Proof. apply (demo_reachable ready). vm_compute. by eexists. Qed.
Lemma gone_reachable :
  reachable 0%nat 0 1 0 null_token Ready.empty PollOpt.empty (call gone).1 (call gone).2.
Proof. apply (demo_reachable gone). vm_compute. by eexists. Qed.
Lemma race_reachable :
  reachable 0%nat 0 1 0 null_token Ready.empty PollOpt.empty
    (call (until_race 1%nat 2%nat)).1 (call (until_race 1%nat 2%nat)).2.
Proof. apply (demo_reachable (until_race 1%nat 2%nat)). vm_compute. by eexists. Qed.

Lemma ready_quiet : quiet (call ready).1.
Proof. split; [reflexivity|]. split; [repeat constructor|]. split; [repeat constructor|by left]. Qed.
Lemma gone_quiet : quiet (call gone).1.
Proof. split; [reflexivity|]. split; [repeat constructor|]. split; [repeat constructor|by right]. Qed.
End NodeSyncDemo.

Lemma node_sync_safe_witness :
  updaters (NodeSyncDemo.call (until_race 1%nat 2%nat)).1 = [UJob (second 2%nat)] ∧
  (∀ pos, ¬ race (Slot pos) (NodeSyncDemo.call (until_race 1%nat 2%nat)).1) ∧
  ¬ fails 0%nat (NodeSyncDemo.call (until_race 1%nat 2%nat)).1.
Proof.
  split; [vm_compute; reflexivity|].
  exact (node_sync_safe 0%nat 0 1 0 null_token Ready.empty PollOpt.empty NodeSyncDemo.bound _ _
    NodeSyncDemo.race_reachable).
Defined.

Lemma node_well_formed_witness :
  node_token (node (shared (NodeSyncDemo.call (until_race 1%nat 2%nat)).1)) 0 = Done null_token ∧
  count u_locked (updaters (NodeSyncDemo.call (until_race 1%nat 2%nat)).1) = 0.
Proof.
  destruct (node_well_formed 0%nat 0 1 0 null_token Ready.empty PollOpt.empty NodeSyncDemo.bound _ _
    NodeSyncDemo.race_reachable) as (_ & H & _ & _ & Hl).
  split; [exact H|exact Hl].
Defined.

Lemma node_queued_once_witness : entries (shared (NodeSyncDemo.call NodeSyncDemo.ready).1) = 1%nat.
Proof.
  apply (proj2 (proj2 (node_queued_once 0%nat 0 1 0 null_token Ready.empty PollOpt.empty
    NodeSyncDemo.bound _ _ NodeSyncDemo.ready_demo_reachable)));
    [vm_compute; reflexivity|vm_compute; reflexivity|exact NodeSyncDemo.ready_quiet].
Defined.

Lemma node_reports_current_witness :
  ∃ tr1 t j, (NodeSyncDemo.call (until_race 1%nat 2%nat)).2 =
      tr1 ++ [Reported Ready.readable t j; Updated (second 2%nat) (mkRS 65809)] ∧
    looked (ghost null_token tr1) = (Ready.readable, t).
Proof.
  eexists (take 4 (NodeSyncDemo.call (until_race 1%nat 2%nat)).2), null_token, 1%nat.
  split; [vm_compute; reflexivity|].
  eapply (node_reports_current 0%nat 0 1 0 null_token Ready.empty PollOpt.empty NodeSyncDemo.bound _ _
    NodeSyncDemo.race_reachable). vm_compute. reflexivity.
Defined.

Lemma node_reported_witness :
  ∃ x' es, poll_pass 0%nat 8 (NodeSyncDemo.call NodeSyncDemo.ready).1 [] = Done (x', es) ∧
    (∃ es', es = es' ++ [Reported Ready.readable null_token 1%nat] ∧
       ∀ e, e ∈ es' → ∀ r t j, e ≠ Reported r t j) ∧
    entries (shared x') = 0%nat ∧ poller x' = PIdle.
Proof.
  exact (node_reported 0%nat 0 1 0 null_token Ready.empty PollOpt.empty NodeSyncDemo.bound _ _
    NodeSyncDemo.ready_demo_reachable NodeSyncDemo.ready_quiet eq_refl eq_refl).
Defined.

Lemma node_reclaimed_witness :
  (entries (shared (NodeSyncDemo.call NodeSyncDemo.gone).1) = 0%nat ∧
   n_ref_count (node (shared (NodeSyncDemo.call NodeSyncDemo.gone).1)) = 1 ∧
   freed (shared (NodeSyncDemo.call NodeSyncDemo.gone).1) = (1 =? 0)) ∨
  (freed (shared (NodeSyncDemo.call NodeSyncDemo.gone).1) = false ∧
   ∃ x' es, poll_pass 0%nat 4 (NodeSyncDemo.call NodeSyncDemo.gone).1 [] = Done (x', es) ∧
     entries (shared x') = 0%nat ∧ n_ref_count (node (shared x')) = 1 ∧
     freed (shared x') = (1 =? 0)).
Proof.
  exact (node_reclaimed 0%nat 0 1 0 null_token Ready.empty PollOpt.empty NodeSyncDemo.bound _ _
    NodeSyncDemo.gone_reachable NodeSyncDemo.gone_quiet eq_refl).
Defined.
