(* ===== verification/Sys.v ===== *)
(** * System calls

    [src/src/sys/unix/]: the result of a call ([mod.rs]), the flags of a
    descriptor ([io.rs]), pipes ([mod.rs]), symbols looked up at run time
    ([dlsym.rs]) and vectored reads and writes ([uio.rs]).  The kernel and the
    C library are [LibcOps]; [LibcLaws] is what fcntl(2), pipe(2) and close(2)
    promise of the table of descriptors. *)
From Stdlib Require Import Strings.Byte.
From S2P Require Import Prelude.

(** ** Results with the state of the system *)

(** A call of the system: its result, and the system after it. *)
Definition io (W A : Type) : Type := W → io_result A * W.

#[export] Instance io_ret {W} : MRet (io W) := λ A a w, (IoOk a, w).
(** The operator [?]. *)
#[export] Instance io_bind {W} : MBind (io W) := λ A B f m w,
  match m w with
  | (IoOk a, w) => f a w
  | (IoErr e, w) => (IoErr e, w)
  end.

Class LibcOps (W : Type) := {
  (** [fcntl(fd, cmd, arg)]. *)
  libc_fcntl : Z → Z → Z → W → Z * W;
  (** [pipe(pipes)] and [pipe2(pipes, flags)], with the array they fill. *)
  libc_pipe : W → (Z * (Z * Z)) * W;
  libc_pipe2 : Z → W → (Z * (Z * Z)) * W;
  (** [dlsym(RTLD_DEFAULT, name)]: an address. *)
  libc_dlsym : list byte → W → N;
  (** [readv] and [writev] of the first slices of a list of buffers, given by
      their sizes and by their contents. *)
  libc_readv : Z → list N → Z → W → Z * W;
  libc_writev : Z → list (list byte) → Z → W → Z * W;
  last_os_error : W → io_error;
  (** Dropping a file or a socket closes its descriptor. *)
  close_fd : Z → W → W;
}.

Definition F_GETFD : Z := 1.
Definition F_SETFD : Z := 2.
Definition F_GETFL : Z := 3.
Definition F_SETFL : Z := 4.
Definition FD_CLOEXEC : Z := 1.
Definition O_NONBLOCK : Z := 2048.
Definition O_CLOEXEC : Z := 524288.

(** What the code sees of an open descriptor. *)
Record FdFlags := mkFlags { cloexec : bool; nonblock : bool }.

Class LibcLaws (W : Type) `{LibcOps W} := {
  open_fds : W → gmap Z FdFlags;
  getfl_law : ∀ fd arg w, let '(r, w') := libc_fcntl fd F_GETFL arg w in
    open_fds w' = open_fds w;
  getfd_law : ∀ fd arg w, let '(r, w') := libc_fcntl fd F_GETFD arg w in
    open_fds w' = open_fds w;
  setfl_law : ∀ fd arg w, let '(r, w') := libc_fcntl fd F_SETFL arg w in
    if (r =? -1)%Z then open_fds w' = open_fds w
    else ∃ f, open_fds w !! fd = Some f ∧
      open_fds w' = <[fd := mkFlags (cloexec f) (Z.testbit arg 11)]> (open_fds w);
  setfd_law : ∀ fd arg w, let '(r, w') := libc_fcntl fd F_SETFD arg w in
    if (r =? -1)%Z then open_fds w' = open_fds w
    else ∃ f, open_fds w !! fd = Some f ∧
      open_fds w' = <[fd := mkFlags (Z.testbit arg 0) (nonblock f)]> (open_fds w);
  pipe_law : ∀ w, let '(r, (a, b), w') := libc_pipe w in
    if (r =? -1)%Z then open_fds w' = open_fds w
    else a ≠ b ∧ open_fds w !! a = None ∧ open_fds w !! b = None ∧
      open_fds w' = <[b := mkFlags false false]> (<[a := mkFlags false false]> (open_fds w));
  pipe2_law : ∀ flags w, let '(r, (a, b), w') := libc_pipe2 flags w in
    let f := mkFlags (Z.testbit flags 19) (Z.testbit flags 11) in
    if (r =? -1)%Z then open_fds w' = open_fds w
    else a ≠ b ∧ open_fds w !! a = None ∧ open_fds w !! b = None ∧
      open_fds w' = <[b := f]> (<[a := f]> (open_fds w));
  close_law : ∀ fd w, open_fds (close_fd fd w) = delete fd (open_fds w);
}.

Section Sys.
Context {W : Type} {LO : LibcOps W}.

(** [is_minus_one] and [cvt]. *)
Definition is_minus_one (t : Z) : bool := (t =? -1)%Z.
Definition cvt (t : Z) : io W Z := λ w,
  if is_minus_one t then (IoErr (last_os_error w), w) else (IoOk t, w).

(** A call of the C library as a call of the system. *)
Definition sys_call {A} (f : W → A * W) : io W A := λ w, let '(r, w) := f w in (IoOk r, w).

(** A call that fails drops the files and sockets it holds, the last one
    first. *)
Definition holding {A} (fds : list Z) (m : io W A) : io W A := λ w,
  match m w with
  | (IoOk a, w) => (IoOk a, w)
  | (IoErr e, w) => (IoErr e, foldl (λ w fd, close_fd fd w) w fds)
  end.

(** ** [io.rs] *)

(** The flags that [F_GETFL] returns are not checked: a failed call returns -1,
    all the bits. *)
Definition set_nonblock (fd : Z) : io W unit :=
  sys_call (libc_fcntl fd F_GETFL 0) ≫= λ flags,
  sys_call (libc_fcntl fd F_SETFL (Z.lor flags O_NONBLOCK)) ≫= λ r,
  cvt r ≫= λ _, mret tt.

Definition set_cloexec (fd : Z) : io W unit :=
  sys_call (libc_fcntl fd F_GETFD 0) ≫= λ flags,
  sys_call (libc_fcntl fd F_SETFD (Z.lor flags FD_CLOEXEC)) ≫= λ r,
  cvt r ≫= λ _, mret tt.

(** ** [dlsym.rs] *)

(** [fetch]: the address of a symbol, 1 when there is none. *)
Definition fetch (name : list byte) (w : W) : exec N :=
  sub64 (N.of_nat (length name)) 1 ≫= λ i,
  unwrap PIndex (name !! N.to_nat i) ≫= λ b,
  assert (Byte.eqb b x00) ≫= λ _,
  match libc_dlsym name w with
  | 0 => Done 1
  | n => Done n
  end.

(** [DlSym::get] of a symbol with this name, and the cell that caches it. *)
Definition DlSym_get (name : list byte) (addr : N) (w : W) : exec (option N * N) :=
  (if addr =? 0 then fetch name w else Done addr) ≫= λ addr,
  Done (if addr =? 1 then None else Some addr, addr).

(** ** Pipes *)

(** The name ["pipe2\0"]. *)
Definition pipe2_name : list byte := [x70; x69; x70; x65; x32; x00].

(** The pipe without [pipe2]: the flags are set one by one, and both ends are
    dropped when a call fails. *)
Definition pipe_fallback : io W (Z * Z) :=
  sys_call libc_pipe ≫= λ '(r, (a, b)),
  cvt r ≫= λ _,
  holding [b; a] (
    sys_call (libc_fcntl a F_SETFD FD_CLOEXEC) ≫= λ r, cvt r ≫= λ _,
    sys_call (libc_fcntl b F_SETFD FD_CLOEXEC) ≫= λ r, cvt r ≫= λ _,
    sys_call (libc_fcntl a F_SETFL O_NONBLOCK) ≫= λ r, cvt r ≫= λ _,
    sys_call (libc_fcntl b F_SETFL O_NONBLOCK) ≫= λ r, cvt r ≫= λ _,
    mret (a, b)).

Definition pipe_with_flags : io W (Z * Z) :=
  sys_call (libc_pipe2 (Z.lor O_NONBLOCK O_CLOEXEC)) ≫= λ '(r, (a, b)),
  cvt r ≫= λ _, mret (a, b).

(** [pipe], with the cell of the symbol [pipe2]. *)
Definition pipe (addr : N) (w : W) : exec (io_result (Z * Z) * N * W) :=
  DlSym_get pipe2_name addr w ≫= λ '(f, addr),
  let '(r, w) := match f with Some _ => pipe_with_flags w | None => pipe_fallback w end in
  Done (r, addr, w).

(** ** [uio.rs] *)

(** The number of slices is cast to a [c_int]. *)
Definition slices (n : nat) : Z := Z.min (2 ^ 31 - 1) (Z.of_nat n).
Definition vec_result (rc : Z) : io W N := λ w,
  if (rc <? 0)%Z then (IoErr (last_os_error w), w) else (IoOk (Z.to_N rc), w).
Definition readv (fd : Z) (bufs : list N) : io W N :=
  sys_call (libc_readv fd bufs (slices (length bufs))) ≫= vec_result.
Definition writev (fd : Z) (bufs : list (list byte)) : io W N :=
  sys_call (libc_writev fd bufs (slices (length bufs))) ≫= vec_result.

(** ** Properties *)
Context {LL : LibcLaws W}.

(** What holds when a call returns a value, and when it fails. *)
Definition wp {A} (m : io W A) (w : W) (Q : A → W → Prop) (R : W → Prop) : Prop :=
  match m w with (IoOk a, w') => Q a w' | (IoErr _, w') => R w' end.

Lemma wp_bind {A B} (m : io W A) (f : A → io W B) w Q R :
  wp m w (λ a w', wp (f a) w' Q R) R → wp (m ≫= f) w Q R.
Proof. unfold wp, mbind, io_bind. by destruct (m w) as [[a|e] w']. Qed.

Lemma wp_ret {A} (a : A) w Q R : Q a w → wp (mret a) w Q R.
Proof. done. Qed.

Lemma wp_mono {A} (m : io W A) w (Q Q' : A → W → Prop) (R R' : W → Prop) :
  wp m w Q R → (∀ a w', Q a w' → Q' a w') → (∀ w', R w' → R' w') → wp m w Q' R'.
Proof. unfold wp. destruct (m w) as [[a|e] w']; auto. Qed.

Lemma wp_holding {A} (m : io W A) fds w Q R :
  wp m w Q (λ w', R (foldl (λ w fd, close_fd fd w) w' fds)) → wp (holding fds m) w Q R.
Proof. unfold wp, holding. by destruct (m w) as [[a|e] w']. Qed.

(** [F_SETFL] and [F_SETFD]. *)
Definition new_flags (cmd arg : Z) (f : FdFlags) : FdFlags :=
  if (cmd =? F_SETFL)%Z then mkFlags (cloexec f) (Z.testbit arg 11)
  else mkFlags (Z.testbit arg 0) (nonblock f).

Lemma set_flags_ok fd cmd arg w : cmd = F_SETFL ∨ cmd = F_SETFD →
  wp (sys_call (libc_fcntl fd cmd arg) ≫= cvt) w
    (λ _ w', ∃ f, open_fds w !! fd = Some f ∧
       open_fds w' = <[fd := new_flags cmd arg f]> (open_fds w))
    (λ w', open_fds w' = open_fds w).
Proof using LL.
  unfold wp, mbind, io_bind, sys_call, cvt, is_minus_one, new_flags. intros [-> | ->].
  - pose proof (setfl_law fd arg w) as H. destruct (libc_fcntl fd F_SETFL arg w) as [r w1].
    by destruct (r =? -1)%Z.
  - pose proof (setfd_law fd arg w) as H. destruct (libc_fcntl fd F_SETFD arg w) as [r w1].
    by destruct (r =? -1)%Z.
Qed.

Lemma set_nonblock_ok fd w :
  wp (set_nonblock fd) w
    (λ _ w', ∃ f, open_fds w !! fd = Some f ∧
       open_fds w' = <[fd := mkFlags (cloexec f) true]> (open_fds w))
    (λ w', open_fds w' = open_fds w).
Proof using LL.
  unfold set_nonblock. apply wp_bind. unfold wp at 1, sys_call at 1.
  pose proof (getfl_law fd 0 w) as H1. destruct (libc_fcntl fd F_GETFL 0 w) as [flags w1].
  rewrite <- H1.
  pose proof (set_flags_ok fd F_SETFL (Z.lor flags O_NONBLOCK) w1 (or_introl eq_refl)) as H.
  unfold wp, mbind, io_bind, sys_call, cvt in *.
  destruct (libc_fcntl fd F_SETFL (Z.lor flags O_NONBLOCK) w1) as [r w2].
  destruct (is_minus_one r); [done|]. destruct H as (f & Hf & E). exists f. split; [done|].
  rewrite E. unfold new_flags. rewrite Z.eqb_refl, Z.lor_spec. by rewrite orb_true_r.
Qed.

Lemma set_cloexec_ok fd w :
  wp (set_cloexec fd) w
    (λ _ w', ∃ f, open_fds w !! fd = Some f ∧
       open_fds w' = <[fd := mkFlags true (nonblock f)]> (open_fds w))
    (λ w', open_fds w' = open_fds w).
Proof using LL.
  unfold set_cloexec. apply wp_bind. unfold wp at 1, sys_call at 1.
  pose proof (getfd_law fd 0 w) as H1. destruct (libc_fcntl fd F_GETFD 0 w) as [flags w1].
  rewrite <- H1.
  pose proof (set_flags_ok fd F_SETFD (Z.lor flags FD_CLOEXEC) w1 (or_intror eq_refl)) as H.
  unfold wp, mbind, io_bind, sys_call, cvt in *.
  destruct (libc_fcntl fd F_SETFD (Z.lor flags FD_CLOEXEC) w1) as [r w2].
  destruct (is_minus_one r); [done|]. destruct H as (f & Hf & E). exists f. split; [done|].
  rewrite E. unfold new_flags. change (F_SETFD =? F_SETFL)%Z with false. cbv iota.
  rewrite Z.lor_spec. by rewrite orb_true_r.
Qed.

(** The ends [a] and [b] of a new pipe, with the flags [f] and [g]. *)
Definition ends (t : gmap Z FdFlags) (a b : Z) (f g : FdFlags) : gmap Z FdFlags :=
  <[b := g]> (<[a := f]> t).

(** A call that sets the flags of one end. *)
Lemma set_end {A} t a b f g fd cmd arg w (k : io W A) (Q : A → W → Prop) (R : W → Prop) :
  cmd = F_SETFL ∨ cmd = F_SETFD → fd = a ∨ fd = b → a ≠ b →
  open_fds w = ends t a b f g →
  (∀ f g w', open_fds w' = ends t a b f g → R w') →
  (∀ w', open_fds w' = ends t a b (if decide (fd = a) then new_flags cmd arg f else f)
                                  (if decide (fd = a) then g else new_flags cmd arg g) →
     wp k w' Q R) →
  wp (sys_call (libc_fcntl fd cmd arg) ≫= λ r, cvt r ≫= λ _, k) w Q R.
Proof using LL.
  intros Hc Hfd Hab Hw HR Hk.
  assert (wp (sys_call (libc_fcntl fd cmd arg) ≫= cvt) w (λ _ w', wp k w' Q R) R) as H.
  { eapply wp_mono; [by apply set_flags_ok|..]; cbn.
    - intros _ w' (f' & Hf & E). apply Hk. rewrite E, Hw in *. unfold ends in *.
      destruct (decide (fd = a)) as [->|Hne].
      + rewrite lookup_insert_ne, lookup_insert_eq in Hf by done. injection Hf as <-.
        by rewrite insert_insert_ne, insert_insert_eq by done.
      + destruct Hfd as [->| ->]; [done|]. rewrite lookup_insert_eq in Hf. injection Hf as <-.
        by rewrite insert_insert_eq.
    - intros w' E. apply (HR f g). by rewrite E. }
  unfold wp, mbind, io_bind, sys_call, cvt in *. destruct (libc_fcntl fd cmd arg w) as [r w1].
  by destruct (is_minus_one r).
Qed.

Lemma close_ends t a b f g w :
  t !! a = None → t !! b = None → open_fds w = ends t a b f g →
  open_fds (close_fd a (close_fd b w)) = t.
Proof using LL.
  intros Ha Hb Hw. rewrite !close_law, Hw. unfold ends.
  apply map_eq. intros x. destruct (decide (x = a)) as [->|]; [by rewrite lookup_delete_eq|].
  rewrite lookup_delete_ne by done. destruct (decide (x = b)) as [->|]; [by rewrite lookup_delete_eq|].
  by rewrite lookup_delete_ne, !lookup_insert_ne by done.
Qed.

Lemma pipe_fallback_ok w :
  wp pipe_fallback w
    (λ '(a, b) w', a ≠ b ∧ open_fds w !! a = None ∧ open_fds w !! b = None ∧
       open_fds w' = ends (open_fds w) a b (mkFlags true true) (mkFlags true true))
    (λ w', open_fds w' = open_fds w).
Proof using LL.
  unfold pipe_fallback. apply wp_bind. unfold wp at 1, sys_call at 1.
  pose proof (pipe_law w) as H. destruct (libc_pipe w) as [[r [a b]] w1].
  apply wp_bind. unfold wp at 1, cvt, is_minus_one. destruct (r =? -1)%Z; [done|].
  destruct H as (Hab & Ha & Hb & E). apply wp_holding.
  assert (∀ f g w', open_fds w' = ends (open_fds w) a b f g →
    open_fds (foldl (λ w fd, close_fd fd w) w' [b; a]) = open_fds w) as HR
    by (intros f g w'; by apply close_ends).
  do 4 (eapply (set_end (open_fds w) a b); [auto|auto|exact Hab|eassumption|exact HR|];
        rewrite ?decide_True, ?(decide_False (P := b = a)) by done; clear E; intros ? E).
  apply wp_ret. done.
Qed.

Lemma pipe_with_flags_ok w :
  wp pipe_with_flags w
    (λ '(a, b) w', a ≠ b ∧ open_fds w !! a = None ∧ open_fds w !! b = None ∧
       open_fds w' = ends (open_fds w) a b (mkFlags true true) (mkFlags true true))
    (λ w', open_fds w' = open_fds w).
Proof using LL.
  unfold pipe_with_flags. apply wp_bind. unfold wp at 1, sys_call at 1.
  pose proof (pipe2_law (Z.lor O_NONBLOCK O_CLOEXEC) w) as H.
  destruct (libc_pipe2 _ w) as [[r [a b]] w1]. apply wp_bind.
  unfold wp at 1, cvt, is_minus_one. by destruct (r =? -1)%Z.
Qed.

(** The symbol is looked up once: the cell keeps its address, or 1. *)
Lemma DlSym_get_ok name addr w :
  last name = Some x00 →
  ∃ r addr', DlSym_get name addr w = Done (r, addr') ∧ addr' ≠ 0 ∧
    DlSym_get name addr' w = Done (r, addr') ∧
    (addr = 0 → libc_dlsym name w ≠ 1 →
     r = if libc_dlsym name w =? 0 then None else Some (libc_dlsym name w)).
Proof using Type.
  intros Hn. assert (∃ a, fetch name w = Done a ∧ a ≠ 0 ∧
    a = if libc_dlsym name w =? 0 then 1 else libc_dlsym name w) as (a & Ef & Ha & Ea).
  { unfold fetch. rewrite last_lookup in Hn. destruct name as [|x name]; [done|].
    unfold sub64. rewrite (proj2 (N.leb_le _ _)) by (cbn [length]; lia). cbn [mbind exec_bind].
    replace (N.to_nat (N.of_nat (length (x :: name)) - 1)) with (pred (length (x :: name)))
      by (cbn [length]; lia).
    rewrite Hn. cbn. destruct (libc_dlsym (x :: name) w); eauto. }
  unfold DlSym_get. destruct (N.eqb_spec addr 0) as [->|Hne].
  - rewrite Ef. cbn [mbind exec_bind]. eexists _, a. split; [done|]. split; [done|].
    apply N.eqb_neq in Ha as E0. rewrite E0. split; [done|]. intros _ Hd. rewrite Ea.
    destruct (N.eqb_spec (libc_dlsym name w) 0); [done|]. by rewrite (proj2 (N.eqb_neq _ _) Hd).
  - cbn [mbind exec_bind]. eexists _, addr. split; [done|]. split; [done|].
    apply N.eqb_neq in Hne as E0. by rewrite E0.
Qed.

Lemma pipe_ok addr w :
  ∃ r addr' w', pipe addr w = Done (r, addr', w') ∧ addr' ≠ 0 ∧
    match r with
    | IoOk (a, b) => a ≠ b ∧ open_fds w !! a = None ∧ open_fds w !! b = None ∧
        open_fds w' = ends (open_fds w) a b (mkFlags true true) (mkFlags true true)
    | IoErr _ => open_fds w' = open_fds w
    end.
Proof using LL.
  destruct (DlSym_get_ok pipe2_name addr w eq_refl) as (f & addr' & E & Ha & _).
  unfold pipe. rewrite E. cbn [mbind exec_bind].
  pose proof (pipe_fallback_ok w) as H1. pose proof (pipe_with_flags_ok w) as H2. unfold wp in *.
  destruct f as [?|]; [destruct (pipe_with_flags w) as [[[a b]|e] w']|
    destruct (pipe_fallback w) as [[[a b]|e] w']]; by eexists _, _, _.
Qed.
End Sys.

(** ** A table of descriptors *)

Module TableLibc.
Record t := mk { fds : gmap Z FdFlags; has_pipe2 : bool }.

Definition set (fd : Z) (f : FdFlags → FdFlags) (w : t) : Z * t :=
  match fds w !! fd with
  | Some x => (0%Z, mk (<[fd := f x]> (fds w)) (has_pipe2 w))
  | None => ((-1)%Z, w)
  end.

Definition get (fd : Z) (f : FdFlags → Z) (w : t) : Z * t :=
  (match fds w !! fd with Some x => f x | None => (-1)%Z end, w).

Definition open2 (f : FdFlags) (w : t) : (Z * (Z * Z)) * t :=
  let a := fresh (dom (fds w)) in
  let b := fresh ({[a]} ∪ dom (fds w)) in
  ((0%Z, (a, b)), mk (<[b := f]> (<[a := f]> (fds w))) (has_pipe2 w)).

#[global] Instance ops : LibcOps t := {|
  libc_fcntl := λ fd cmd arg w,
    if (cmd =? F_SETFL)%Z then set fd (λ x, mkFlags (cloexec x) (Z.testbit arg 11)) w
    else if (cmd =? F_SETFD)%Z then set fd (λ x, mkFlags (Z.testbit arg 0) (nonblock x)) w
    else if (cmd =? F_GETFL)%Z then get fd (λ x, if nonblock x then O_NONBLOCK else 0%Z) w
    else get fd (λ x, if cloexec x then FD_CLOEXEC else 0%Z) w;
  libc_pipe := open2 (mkFlags false false);
  libc_pipe2 := λ flags, open2 (mkFlags (Z.testbit flags 19) (Z.testbit flags 11));
  libc_dlsym := λ _ w, if has_pipe2 w then 4096 else 0;
  libc_readv := λ _ _ _ w, (0%Z, w);
  libc_writev := λ _ _ _ w, (0%Z, w);
  last_os_error := λ _, OtherError 9;
  close_fd := λ fd w, mk (delete fd (fds w)) (has_pipe2 w);
|}.

Lemma open2_law f w : let '(r, (a, b), w') := open2 f w in
  if (r =? -1)%Z then fds w' = fds w
  else a ≠ b ∧ fds w !! a = None ∧ fds w !! b = None ∧
    fds w' = <[b := f]> (<[a := f]> (fds w)).
Proof.
  cbn. pose proof (is_fresh (dom (fds w))) as Ha.
  pose proof (is_fresh ({[fresh (dom (fds w))]} ∪ dom (fds w))) as Hb.
  rewrite not_elem_of_dom in Ha. rewrite not_elem_of_union, not_elem_of_dom in Hb.
  split_and!; try done; set_solver.
Qed.

Lemma set_law fd f w : let '(r, w') := set fd f w in
  if (r =? -1)%Z then fds w' = fds w
  else ∃ x, fds w !! fd = Some x ∧ fds w' = <[fd := f x]> (fds w).
Proof. unfold set. destruct (fds w !! fd) as [x|] eqn:E; cbn; eauto. Qed.

#[global] Instance laws : LibcLaws t.
Proof.
  refine {| open_fds := fds |}; try done.
  - intros fd arg w. apply set_law.
  - intros fd arg w. apply set_law.
  - intros w. apply open2_law.
  - intros flags w. apply open2_law.
Defined.
End TableLibc.

(** a pipe has two new ends, both non-blocking and closed on [exec], whether
    or not the C library has [pipe2]; a call that fails leaves no descriptor
    open; and the symbol is looked up once. *)
Theorem pipe_spec {W} `{LibcLaws W} (addr : N) (w : W) :
  ∃ r addr' w', pipe addr w = Done (r, addr', w') ∧ addr' ≠ 0 ∧
    match r with
    | IoOk (a, b) => a ≠ b ∧ open_fds w !! a = None ∧ open_fds w !! b = None ∧
        open_fds w' = ends (open_fds w) a b (mkFlags true true) (mkFlags true true)
    | IoErr _ => open_fds w' = open_fds w
    end.
Proof. apply pipe_ok. Qed.

Lemma pipe_spec_witness : ∃ r addr' w', pipe 0 (TableLibc.mk ∅ false) = Done (r, addr', w') ∧
  addr' ≠ 0 ∧ match r with
    | IoOk (a, b) => a ≠ b ∧ (∅ : gmap Z FdFlags) !! a = None ∧ (∅ : gmap Z FdFlags) !! b = None ∧
        TableLibc.fds w' = ends ∅ a b (mkFlags true true) (mkFlags true true)
    | IoErr _ => TableLibc.fds w' = ∅
    end.
Proof. exact (pipe_spec 0 (TableLibc.mk ∅ false)). Defined.
