(* ===== verification/Interfaces.v ===== *)
(** * Interfaces between the components

    [SlabOps] is what the timer needs of the [slab] crate, which is not part
    of the repository; [SlabLaws] is the behaviour its documentation promises.
    [ReadinessOps] is what the timer needs of the registrations of
    [src/src/poll.rs]: the world [W] is the state of the poll, [H] a handle. *)
From S2P Require Import Prelude EventSet.

(** ** The slab *)

Class SlabOps (slab : Type → Type) := {
  (** [Slab::with_capacity] *)
  slab_with_capacity : ∀ {A}, N → slab A;
  (** [Slab::insert]: the key it returns, or [None] when it cannot grow. *)
  slab_insert : ∀ {A}, slab A → A → option (N * slab A);
  (** [Slab::get] *)
  slab_get : ∀ {A}, slab A → N → option A;
  (** [slab[key] = a] through [IndexMut]; [None] when the key is vacant. *)
  slab_set : ∀ {A}, slab A → N → A → option (slab A);
  (** [Slab::remove]; [None] when the key is vacant (the crate panics). *)
  slab_remove : ∀ {A}, slab A → N → option (A * slab A);
}.

(** A slab is a finite map; [insert] picks a vacant key, which is an index
    of a vector and so below [isize::MAX]. *)
Class SlabLaws (slab : Type → Type) `{SlabOps slab} := {
  slab_map : ∀ {A}, slab A → gmap N A;
  slab_map_with_capacity : ∀ {A} c, slab_map (slab_with_capacity (A:=A) c) = ∅;
  slab_map_insert : ∀ {A} (s : slab A) a k s',
    slab_insert s a = Some (k, s') →
    k < N.ones 63 ∧ slab_map s !! k = None ∧ slab_map s' = <[k := a]> (slab_map s);
  slab_map_get : ∀ {A} (s : slab A) k, slab_get s k = slab_map s !! k;
  slab_map_set : ∀ {A} (s : slab A) k a,
    match slab_set s k a with
    | Some s' => is_Some (slab_map s !! k) ∧ slab_map s' = <[k := a]> (slab_map s)
    | None => slab_map s !! k = None
    end;
  slab_map_remove : ∀ {A} (s : slab A) k,
    match slab_remove s k with
    | Some (a, s') => slab_map s !! k = Some a ∧ slab_map s' = delete k (slab_map s)
    | None => slab_map s !! k = None
    end;
}.

(** A slab in the manner of the crate, a vector of optional entries whose
    first vacant position is reused: the laws are satisfiable. *)
Module VecSlab.
Definition t (A : Type) : Type := list (option A).

Fixpoint vacant {A} (s : list (option A)) : nat :=
  match s with
  | Some _ :: s => S (vacant s)
  | _ => 0
  end.

Definition insert {A} (s : list (option A)) (a : A) : option (N * list (option A)) :=
  let k := vacant s in
  if N.of_nat k <? N.ones 63
  then Some (N.of_nat k, if (k <? length s)%nat then <[k := Some a]> s else s ++ [Some a])
  else None.

Definition get {A} (s : list (option A)) (k : N) : option A := mjoin (s !! N.to_nat k).

Definition set {A} (s : list (option A)) (k : N) (a : A) : option (list (option A)) :=
  match get s k with
  | Some _ => Some (<[N.to_nat k := Some a]> s)
  | None => None
  end.

Definition remove {A} (s : list (option A)) (k : N) : option (A * list (option A)) :=
  match get s k with
  | Some a => Some (a, <[N.to_nat k := None]> s)
  | None => None
  end.

#[global] Instance ops : SlabOps t := {|
  slab_with_capacity := λ _ _, [];
  slab_insert := @insert;
  slab_get := @get;
  slab_set := @set;
  slab_remove := @remove;
|}.

Fixpoint to_map {A} (i : N) (s : list (option A)) : gmap N A :=
  match s with
  | [] => ∅
  | Some a :: s => <[i := a]> (to_map (i + 1) s)
  | None :: s => to_map (i + 1) s
  end.

Lemma to_map_below {A} (s : list (option A)) i k : k < i → to_map i s !! k = None.
Proof.
  revert i. induction s as [|[a|] s IH]; intros i Hk; cbn [to_map]; [done| |].
  - rewrite lookup_insert_ne by lia. apply IH. lia.
  - apply IH. lia.
Qed.

Lemma lookup_to_map {A} (s : list (option A)) i k :
  to_map i s !! (i + N.of_nat k) = mjoin (s !! k).
Proof.
  revert i k. induction s as [|o s IH]; intros i k; [done|].
  destruct k as [|k].
  - replace (i + N.of_nat 0) with i by lia. destruct o; cbn [to_map].
    + by rewrite lookup_insert_eq.
    + by apply to_map_below; lia.
  - replace (i + N.of_nat (S k)) with (i + 1 + N.of_nat k) by lia.
    destruct o; cbn [to_map]; [rewrite lookup_insert_ne by lia|]; apply IH.
Qed.

Lemma lookup_map {A} (s : list (option A)) k : to_map 0 s !! k = get s k.
Proof.
  unfold get. rewrite <- (lookup_to_map s 0). f_equal. lia.
Qed.

Lemma vacant_None {A} (s : list (option A)) : mjoin (s !! vacant s) = None.
Proof. induction s as [|[a|] s IH]; done. Qed.

Lemma vacant_le {A} (s : list (option A)) : (vacant s <= length s)%nat.
Proof. induction s as [|[a|] s IH]; cbn; lia. Qed.

Lemma get_insert {A} (s : list (option A)) n (o : option A) k :
  (n < length s)%nat →
  mjoin (<[n := o]> s !! N.to_nat k) = if decide (N.of_nat n = k) then o else get s k.
Proof.
  intros Hn. destruct (decide (N.of_nat n = k)) as [<-|Hne].
  - rewrite Nat2N.id, list_lookup_insert_eq by done. by destruct o.
  - rewrite list_lookup_insert_ne by lia. done.
Qed.

#[global] Instance laws : SlabLaws t.
Proof.
  refine {| slab_map := λ A, to_map 0 |}.
  - done.
  - intros A s a k s' H. cbn in H. unfold insert in H.
    destruct (_ <? _) eqn:E; nbool; [|done]. injection H as <- <-.
    split; [done|]. rewrite lookup_map. unfold get. rewrite Nat2N.id.
    split; [apply vacant_None|].
    apply map_eq; intros k. rewrite lookup_map. unfold get.
    destruct (Nat.ltb_spec (vacant s) (length s)) as [Hlt|Hge].
    + rewrite get_insert by done. rewrite lookup_insert, lookup_map.
      by destruct (decide _).
    + pose proof (vacant_le s). replace (vacant s) with (length s) by lia.
      rewrite lookup_insert, lookup_map.
      destruct (decide _) as [<-|Hne].
      * by rewrite Nat2N.id, lookup_app_r, Nat.sub_diag by lia.
      * unfold get. destruct (decide (N.to_nat k < length s)%nat).
        -- by rewrite lookup_app_l.
        -- rewrite (lookup_ge_None_2 s), lookup_ge_None_2;
             [done| |lia]. rewrite length_app. cbn. lia.
  - intros A s k. symmetry. apply lookup_map.
  - intros A s k a. cbn. unfold set. destruct (get s k) as [b|] eqn:E.
    + rewrite lookup_map, E. split; [eauto|]. apply map_eq; intros k'.
      rewrite lookup_map. unfold get at 1.
      assert (N.to_nat k < length s)%nat.
      { unfold get in E. destruct (s !! _) eqn:E'; [|done]. by eapply lookup_lt_Some. }
      rewrite get_insert by done. rewrite lookup_insert, lookup_map, N2Nat.id.
      by destruct (decide _).
    + by rewrite lookup_map.
  - intros A s k. cbn. unfold remove. destruct (get s k) as [b|] eqn:E.
    + rewrite lookup_map, E. split; [done|]. apply map_eq; intros k'.
      rewrite lookup_map. unfold get at 1.
      assert (N.to_nat k < length s)%nat.
      { unfold get in E. destruct (s !! _) eqn:E'; [|done]. by eapply lookup_lt_Some. }
      rewrite get_insert by done. rewrite lookup_delete, lookup_map, N2Nat.id.
      by destruct (decide _).
    + by rewrite lookup_map.
Defined.
End VecSlab.

(** ** Readiness handles *)

Class ReadinessOps (W H : Type) := {
  (** [Registration::new] on the poll: both handles refer to one node. *)
  rd_new : W → TokenEntry → Ready → PollOpt → exec (H * W);
  (** [SetReadiness::set_readiness]; the [io::Result] is ignored by the timer. *)
  rd_set : W → H → Ready → exec W;
  (** [SetReadiness::readiness] *)
  rd_readiness : W → H → Ready;
  (** [Registration::update] and [Registration::deregister] *)
  rd_update : W → H → TokenEntry → Ready → PollOpt → exec (io_result unit * W);
  rd_deregister : W → H → exec (io_result unit * W);
}.

(** In a world that is well formed a registration can be made, given flag sets
    of four bits, and that of a live handle changed; a live handle can always
    be set, stays live, and reads back the value. *)
Class ReadinessLaws (W H : Type) `{ReadinessOps W H} := {
  rd_ok : W → Prop;
  rd_live : W → H → Prop;
  rd_new_live : ∀ w tok r o,
    rd_ok w → ready_0 r <= 15 → opt_0 o <= 15 →
    ∃ h w', rd_new w tok r o = Done (h, w') ∧ rd_live w' h;
  rd_set_live : ∀ w h r,
    rd_live w h → ready_0 r <= 15 →
    ∃ w', rd_set w h r = Done w' ∧ rd_live w' h ∧ rd_readiness w' h = r;
  rd_update_live : ∀ w h tok r o,
    rd_ok w → rd_live w h → ready_0 r <= 15 → opt_0 o <= 15 →
    ∃ res w', rd_update w h tok r o = Done (res, w') ∧ rd_live w' h;
  rd_deregister_live : ∀ w h,
    rd_ok w → rd_live w h →
    ∃ res w', rd_deregister w h = Done (res, w') ∧ rd_live w' h;
}.

(** The simplest implementation: the world is the readiness of one node. *)
Module CellReadiness.
#[global] Instance ops : ReadinessOps Ready unit := {|
  rd_new := λ _ _ _ _, Done (tt, Ready.empty);
  rd_set := λ _ _ r, Done r;
  rd_readiness := λ w _, w;
  rd_update := λ w _ _ _ _, Done (IoOk (), w);
  rd_deregister := λ w _, Done (IoOk (), w);
|}.
#[global] Instance laws : ReadinessLaws Ready unit.
Proof.
  refine {| rd_ok := λ _, True; rd_live := λ _ _, True |}.
  - intros w tok r o _ _ _. by exists tt, Ready.empty.
  - intros w h r _ _. by exists r.
  - intros w h tok r o _ _ _ _. by exists (IoOk ()), w.
  - intros w h _ _. by exists (IoOk ()), w.
Defined.
End CellReadiness.
