(* ===== verification/Timer.v ===== *)
(** * The timer wheel: data and operations

    [src/src/timer.rs] without its wakeup thread (see [Wakeup]): a wheel of
    [mask + 1] slots, each the head of a doubly linked list of entries kept in
    a slab and linked by their keys.  An operation takes the timer and the
    state [W] of the poll its registration lives in, reads the clock through
    the argument [now], and may panic. *)
From S2P Require Import Prelude EventSet Duration LazyCell Interfaces.

(** A monotonic instant, in nanoseconds; [elapsed] saturates at zero. *)
Record Instant := mkInstant { instant_nanos : N }.

Definition elapsed (start now : Instant) : Duration :=
  let d := instant_nanos now - instant_nanos start in
  mkDuration (d / NANOS_PER_SEC) (d mod NANOS_PER_SEC).

Definition Tick := N.
Definition EMPTY : Token := mkToken usize_max.
Definition TICK_MAX : Tick := u64_max.
Definition TERMINATE_THREAD : N := 0.

Record Timeout := mkTimeout { timeout_token : Token; timeout_tick : N }.

Record EntryLinks := mkLinks { l_tick : Tick; l_prev : Token; l_next : Token }.

Record Entry (T : Type) := mkEntry { e_state : T; e_links : EntryLinks }.
Arguments mkEntry {T} _ _.
Arguments e_state {T} _.
Arguments e_links {T} _.

Definition Entry_new {T} (state : T) (tick : N) (next : Token) : Entry T :=
  mkEntry state (mkLinks tick EMPTY next).

Record WheelEntry := mkWheel { w_next_tick : Tick; w_head : Token }.

(** [Builder] *)
Record Builder := mkBuilder {
  b_tick : Duration;
  b_num_slots : N;
  b_capacity : N;
}.
Definition Builder_default : Builder := mkBuilder (from_millis 100) 256 65536.
Definition tick_duration (b : Builder) (d : Duration) : Builder :=
  mkBuilder d (b_num_slots b) (b_capacity b).
Definition num_slots (b : Builder) (n : N) : Builder :=
  mkBuilder (b_tick b) n (b_capacity b).
Definition capacity (b : Builder) (n : N) : Builder :=
  mkBuilder (b_tick b) (b_num_slots b) n.

Definition duration_to_tick (elapsed : Duration) (tick_ms : N) : exec Tick :=
  millis elapsed ≫= λ elapsed_ms,
  div64 (sat_add64 elapsed_ms (tick_ms / 2)) tick_ms.

Definition current_tick (start : Instant) (tick_ms : N) (now : Instant) : exec Tick :=
  duration_to_tick (elapsed start now) tick_ms.

(** [Inner]: the registration and the set-readiness handle name one node; the
    shared wakeup word; the park token of the wakeup thread. *)
Record Inner (H : Type) := mkInner {
  i_handle : H;
  i_wakeup_state : N;
  i_park_token : bool;
}.
Arguments mkInner {H} _ _ _.
Arguments i_handle {H} _.
Arguments i_wakeup_state {H} _.
Arguments i_park_token {H} _.

Section Timer.
Context {slab : Type → Type} {SO : SlabOps slab}.
Context {W H : Type} {RO : ReadinessOps W H}.
Context {T : Type}.

Record Timer := mkTimer {
  t_tick_ms : N;
  t_entries : slab (Entry T);
  t_wheel : list WheelEntry;
  t_start : Instant;
  t_tick : Tick;
  t_next : Token;
  t_mask : N;
  t_inner : option (Inner H);
}.

Definition with_entries (t : Timer) es : Timer :=
  mkTimer (t_tick_ms t) es (t_wheel t) (t_start t) (t_tick t) (t_next t)
    (t_mask t) (t_inner t).
Definition with_wheel (t : Timer) wh : Timer :=
  mkTimer (t_tick_ms t) (t_entries t) wh (t_start t) (t_tick t) (t_next t)
    (t_mask t) (t_inner t).
Definition with_tick (t : Timer) k : Timer :=
  mkTimer (t_tick_ms t) (t_entries t) (t_wheel t) (t_start t) k (t_next t)
    (t_mask t) (t_inner t).
Definition with_next (t : Timer) k : Timer :=
  mkTimer (t_tick_ms t) (t_entries t) (t_wheel t) (t_start t) (t_tick t) k
    (t_mask t) (t_inner t).
Definition with_inner (t : Timer) i : Timer :=
  mkTimer (t_tick_ms t) (t_entries t) (t_wheel t) (t_start t) (t_tick t)
    (t_next t) (t_mask t) i.

Definition Timer_new (tick_ms num_slots capacity : N) (start : Instant) : exec Timer :=
  next_power_of_two num_slots ≫= λ num_slots,
  next_power_of_two capacity ≫= λ capacity,
  sub64 num_slots 1 ≫= λ mask,
  let wheel := replicate (N.to_nat num_slots) (mkWheel TICK_MAX EMPTY) in
  Done (mkTimer tick_ms (slab_with_capacity capacity) wheel start 0 EMPTY mask lazy_new).

Definition build (b : Builder) (now : Instant) : exec Timer :=
  millis (b_tick b) ≫= λ tick_ms,
  Timer_new tick_ms (b_num_slots b) (b_capacity b) now.

Definition slot_for (t : Timer) (tick : Tick) : N := N.land (t_mask t) tick.

(** Indexing of the wheel and of the slab. *)
Definition wheel_at (t : Timer) (slot : N) : exec WheelEntry :=
  unwrap PIndex (nth64 (t_wheel t) slot).
Definition wheel_set (t : Timer) (slot : N) (w : WheelEntry) : exec Timer :=
  wheel_at t slot ≫= λ _, Done (with_wheel t (set64 (t_wheel t) slot w)).
Definition entry_at (t : Timer) (k : Token) : exec (Entry T) :=
  unwrap PIndex (slab_get (t_entries t) (token_into_usize k)).
Definition entry_set (t : Timer) (k : Token) (e : Entry T) : exec Timer :=
  unwrap PIndex (slab_set (t_entries t) (token_into_usize k) e) ≫= λ es,
  Done (with_entries t es).

(** [self.entries[k].links.prev = v] and [self.entries[k].links.next = v]. *)
Definition set_prev (t : Timer) (k v : Token) : exec Timer :=
  entry_at t k ≫= λ e,
  entry_set t k (mkEntry (e_state e)
    (mkLinks (l_tick (e_links e)) v (l_next (e_links e)))).
Definition set_next (t : Timer) (k v : Token) : exec Timer :=
  entry_at t k ≫= λ e,
  entry_set t k (mkEntry (e_state e)
    (mkLinks (l_tick (e_links e)) (l_prev (e_links e)) v)).

Definition set_head (t : Timer) (slot : N) (k : Token) : exec Timer :=
  wheel_at t slot ≫= λ w, wheel_set t slot (mkWheel (w_next_tick w) k).
Definition set_next_tick (t : Timer) (slot : N) (k : Tick) : exec Timer :=
  wheel_at t slot ≫= λ w, wheel_set t slot (mkWheel k (w_head w)).

(** [schedule_readiness]: a compare-and-swap loop that lowers the wakeup
    word to [tick] and unparks the thread when it did. *)
Fixpoint schedule_loop (fuel : nat) (inner : Inner H) (curr : N) (tick : Tick)
    : exec (Inner H) :=
  match fuel with
  | O => NoFuel
  | S fuel =>
      if curr <=? tick then Done inner
      else if i_wakeup_state inner =? curr then
        Done (mkInner (i_handle inner) tick true)
      else schedule_loop fuel inner (i_wakeup_state inner) tick
  end.

Definition schedule_readiness (t : Timer) (tick : Tick) : exec Timer :=
  match borrow (t_inner t) with
  | Some inner =>
      schedule_loop 2 inner (i_wakeup_state inner) tick ≫= λ inner,
      Done (with_inner t (Some inner))
  | None => Done t
  end.

(** [insert]; [Slab::insert] panics when the slab cannot grow. *)
Definition insert (t : Timer) (tick : Tick) (state : T) : exec (Timeout * Timer) :=
  let slot := N.land tick (t_mask t) in
  wheel_at t slot ≫= λ curr,
  let entry := Entry_new state tick (w_head curr) in
  unwrap POverflow (slab_insert (t_entries t) entry) ≫= λ '(key, es),
  let token := token_from_usize key in
  let t := with_entries t es in
  (if bool_decide (w_head curr ≠ EMPTY) then set_prev t (w_head curr) token
   else Done t) ≫= λ t,
  wheel_set t slot (mkWheel (N.min tick (w_next_tick curr)) token) ≫= λ t,
  schedule_readiness t tick ≫= λ t,
  Done (mkTimeout token tick, t).

Definition set_timeout_at (t : Timer) (delay_from_start : Duration) (state : T)
    : exec (Timeout * Timer) :=
  duration_to_tick delay_from_start (t_tick_ms t) ≫= λ tick,
  (if tick <? t_tick t then add64 (t_tick t) 1 else Done tick) ≫= λ tick,
  insert t tick state.

Definition set_timeout (t : Timer) (now : Instant) (delay_from_now : Duration)
    (state : T) : exec (Timeout * Timer) :=
  duration_add (elapsed (t_start t) now) delay_from_now ≫= λ delay_from_start,
  set_timeout_at t delay_from_start state.

Definition unlink (t : Timer) (links : EntryLinks) (token : Token) : exec Timer :=
  (if bool_decide (l_prev links = EMPTY) then
     let slot := slot_for t (l_tick links) in
     set_head t slot (l_next links)
   else set_next t (l_prev links) (l_next links)) ≫= λ t,
  if bool_decide (l_next links ≠ EMPTY) then
    set_prev t (l_next links) (l_prev links) ≫= λ t,
    Done (if bool_decide (token = t_next t) then with_next t (l_next links) else t)
  else
    Done (if bool_decide (token = t_next t) then with_next t EMPTY else t).

(** [self.entries.remove(key).state] *)
Definition remove_entry (t : Timer) (k : Token) : exec (T * Timer) :=
  unwrap PIndex (slab_remove (t_entries t) (token_into_usize k)) ≫= λ '(e, es),
  Done (e_state e, with_entries t es).

Definition cancel_timeout (t : Timer) (timeout : Timeout) : exec (option T * Timer) :=
  match slab_get (t_entries t) (token_into_usize (timeout_token timeout)) with
  | None => Done (None, t)
  | Some e =>
      let links := e_links e in
      if bool_decide (l_tick links ≠ timeout_tick timeout) then Done (None, t)
      else
        unlink t links (timeout_token timeout) ≫= λ t,
        remove_entry t (timeout_token timeout) ≫= λ '(state, t),
        Done (Some state, t)
  end.

(** [next_tick]: the minimum over the wheel, unless the slot being read
    already stores the current tick. *)
Definition wheel_min (t : Timer) : option Tick :=
  match w_next_tick <$> t_wheel t with
  | [] => None
  | x :: xs => Some (foldr N.min x xs)
  end.

Definition next_tick (t : Timer) : exec (option Tick) :=
  if bool_decide (t_next t ≠ EMPTY) then
    entry_at t (t_next t) ≫= λ e,
    let slot := slot_for t (l_tick (e_links e)) in
    wheel_at t slot ≫= λ w,
    Done (if w_next_tick w =? t_tick t then Some (t_tick t) else wheel_min t)
  else Done (wheel_min t).

(** The [while] loop of [poll_to]: [Some] when it returns from inside. *)
Fixpoint poll_loop (fuel : nat) (target_tick : Tick) (t : Timer)
    : exec (option T * Timer) :=
  match fuel with
  | O => NoFuel
  | S fuel =>
      if t_tick t <=? target_tick then
        let curr := t_next t in
        if bool_decide (curr = EMPTY) then
          add64 (t_tick t) 1 ≫= λ tick,
          let t := with_tick t tick in
          let slot := slot_for t (t_tick t) in
          wheel_at t slot ≫= λ w,
          let t := with_next t (w_head w) in
          (if bool_decide (t_next t = EMPTY) then set_next_tick t slot TICK_MAX
           else Done t) ≫= λ t,
          poll_loop fuel target_tick t
        else
          let slot := slot_for t (t_tick t) in
          wheel_at t slot ≫= λ w,
          (if bool_decide (curr = w_head w) then set_next_tick t slot TICK_MAX
           else Done t) ≫= λ t,
          entry_at t curr ≫= λ e,
          let links := e_links e in
          if l_tick links <=? t_tick t then
            unlink t links curr ≫= λ t,
            remove_entry t curr ≫= λ '(state, t),
            Done (Some state, t)
          else
            wheel_at t slot ≫= λ w,
            set_next_tick t slot (N.min (w_next_tick w) (l_tick links)) ≫= λ t,
            poll_loop fuel target_tick (with_next t (l_next links))
      else Done (None, t)
  end.

(** The end of [poll_to], when no timeout is left to return. *)
Definition poll_idle (t : Timer) (w : W) : exec (Timer * W) :=
  match borrow (t_inner t) with
  | Some inner =>
      rd_set w (i_handle inner) Ready.empty ≫= λ w,
      next_tick t ≫= λ o,
      match o with
      | Some tick => schedule_readiness t tick ≫= λ t, Done (t, w)
      | None => Done (t, w)
      end
  | None => Done (t, w)
  end.

Definition poll_to (fuel : nat) (t : Timer) (w : W) (target_tick : Tick)
    : exec (option T * Timer * W) :=
  let target_tick := if target_tick <? t_tick t then t_tick t else target_tick in
  poll_loop fuel target_tick t ≫= λ '(r, t),
  match r with
  | Some state => Done (Some state, t, w)
  | None => poll_idle t w ≫= λ '(t, w), Done (None, t, w)
  end.

Definition poll (fuel : nat) (t : Timer) (w : W) (now : Instant)
    : exec (option T * Timer * W) :=
  current_tick (t_start t) (t_tick_ms t) now ≫= λ target_tick,
  poll_to fuel t w target_tick.

(** [Evented for Timer]: [register]; the thread it spawns starts with the
    wakeup word [usize::MAX] and no park token.  [fill] cannot fail, the cell
    was just seen empty. *)
Definition register (t : Timer) (w : W) (token : TokenEntry) (interest : Ready)
    (opts : PollOpt) : exec (io_result unit * Timer * W) :=
  if filled (t_inner t) then Done (IoErr (OtherError 0), t, w)
  else
    rd_new w token interest opts ≫= λ '(h, w),
    let '(r, c) := fill (t_inner t) (mkInner h usize_max false) in
    match r with
    | Some _ => Panic PUnwrap
    | None =>
        let t := with_inner t c in
        next_tick t ≫= λ o,
        match o with
        | Some tick => schedule_readiness t tick ≫= λ t, Done (IoOk (), t, w)
        | None => Done (IoOk (), t, w)
        end
    end.

(** [reregister] and [deregister]: the update of the registration. *)
Definition reregister (t : Timer) (w : W) (token : TokenEntry) (interest : Ready)
    (opts : PollOpt) : exec (io_result unit * W) :=
  match borrow (t_inner t) with
  | Some inner => rd_update w (i_handle inner) token interest opts
  | None => Done (IoErr (OtherError 0), w)
  end.

Definition deregister (t : Timer) (w : W) : exec (io_result unit * W) :=
  match borrow (t_inner t) with
  | Some inner => rd_deregister w (i_handle inner)
  | None => Done (IoErr (OtherError 0), w)
  end.
End Timer.
Arguments Timer slab H T : clear implicits.
