(* ===== verification/DList.v ===== *)
(** * Doubly linked segments

    Lists threaded through a store of [(prev, next)] links, as the timer wheel
    keeps them.  A segment is described by the node before it, its first and
    last nodes and the node after it; [nil] marks both ends. *)
From S2P Require Import Prelude.

Section DList.
Context {K : Type} `{EqDecision K} (nil : K).
Implicit Types (L : K → option (K * K)) (ks : list K).

Fixpoint dseg L (pp p q qn : K) ks : Prop :=
  match ks with
  | [] => p = qn ∧ pp = q
  | k :: ks => p = k ∧ k ≠ nil ∧ ∃ nx, L k = Some (pp, nx) ∧ dseg L k nx q qn ks
  end.

Lemma dseg_app L pp p q qn xs ys :
  dseg L pp p q qn (xs ++ ys) ↔
  ∃ j jn, dseg L pp p j jn xs ∧ dseg L j jn q qn ys.
Proof.
  revert pp p. induction xs as [|x xs IH]; intros pp p; cbn.
  - split; [eauto|]. by intros (? & ? & [-> ->] & ?).
  - setoid_rewrite IH. naive_solver.
Qed.

Lemma dseg_frame L L' pp p q qn ks :
  (∀ k, k ∈ ks → L' k = L k) → dseg L pp p q qn ks → dseg L' pp p q qn ks.
Proof.
  revert pp p. induction ks as [|k ks IH]; intros pp p HL; cbn; [done|].
  intros (-> & Hk & nx & E & Hs). split; [done|]. split; [done|].
  exists nx. rewrite HL by set_solver. split; [done|]. apply IH; set_solver.
Qed.

Lemma dseg_not_nil L pp p q qn ks k : dseg L pp p q qn ks → k ∈ ks → k ≠ nil.
Proof.
  revert pp p. induction ks as [|x ks IH]; intros pp p; cbn; [set_solver|].
  intros (-> & Hk & nx & _ & Hs) [->|Hin]%elem_of_cons; [done|by eapply IH].
Qed.

Lemma dseg_first L pp p q ks : dseg L pp p q nil ks → p = default nil (head ks).
Proof. destruct ks; cbn; naive_solver. Qed.

Lemma dseg_nil_iff L pp p q ks : dseg L pp p q nil ks → p = nil ↔ ks = [].
Proof. destruct ks; cbn; naive_solver. Qed.

(** The last node of a segment, or the node before an empty one. *)
Lemma dseg_last L pp p q qn ks : dseg L pp p q qn ks → q = default pp (last ks).
Proof.
  revert pp p. induction ks as [|k ks IH]; intros pp p; cbn; [naive_solver|].
  intros (-> & _ & nx & _ & Hs%IH). rewrite last_cons. by destruct (last ks).
Qed.

(** Changing the [next] of the last node moves the end of the segment. *)
Lemma dseg_snoc_next L L' pp p q qn qn' ks x :
  x ∉ ks → (∀ k, k ≠ x → L' k = L k) →
  L' x = (λ '(pv, _), (pv, qn')) <$> L x →
  dseg L pp p q qn (ks ++ [x]) → dseg L' pp p x qn' (ks ++ [x]).
Proof.
  intros Hx HL HLx. rewrite !dseg_app. intros (j & jn & H1 & H2).
  exists j, jn. split.
  - eapply dseg_frame; [|done]. intros k Hk. apply HL. by intros ->.
  - cbn in *. destruct H2 as (-> & Hn & nx & E & Hnx & Hq).
    split; [done|]. split; [done|]. exists qn'. rewrite HLx, E. done.
Qed.

(** Changing the [prev] of the first node moves the start of the segment. *)
Lemma dseg_cons_prev L L' pp pp' p q qn ks x :
  x ∉ ks → (∀ k, k ≠ x → L' k = L k) →
  L' x = (λ '(_, nx), (pp', nx)) <$> L x →
  dseg L pp p q qn (x :: ks) → dseg L' pp' x q qn (x :: ks).
Proof.
  intros Hx HL HLx. cbn. intros (-> & Hn & nx & E & Hs).
  split; [done|]. split; [done|]. exists nx. rewrite HLx, E. split; [done|].
  eapply dseg_frame; [|done]. intros k Hk. apply HL. by intros ->.
Qed.

(** Pushing a node in front of a list. *)
Lemma dseg_push L L' h q ks x :
  x ≠ nil → x ∉ ks →
  L' x = Some (nil, h) →
  (∀ k, k ≠ x → k ≠ h → L' k = L k) →
  (h ≠ nil → L' h = (λ '(_, nx), (x, nx)) <$> L h) →
  NoDup ks → dseg L nil h q nil ks → ∃ q', dseg L' nil x q' nil (x :: ks).
Proof.
  intros Hx Hxks HLx HL HLh Hnd Hs. destruct ks as [|y ks].
  - exists x. cbn in *. destruct Hs as [-> <-]. eauto 10.
  - assert (h = y) as -> by (by destruct Hs). assert (y ≠ nil) by (by destruct Hs as (_ & ? & _)).
    apply NoDup_cons in Hnd as [Hy Hnd].
    exists q. split; [done|]. split; [done|]. exists y. split; [done|].
    eapply (dseg_cons_prev L _ _ _ _ _ _ _ y) in Hs; [|done| |].
    + eapply (dseg_frame (λ k, if decide (k = y) then (λ '(_, nx), (x, nx)) <$> L y else L k));
        [|exact Hs].
      intros k Hk. cbn. destruct (decide (k = y)) as [->|Hne]; [by apply HLh|].
      apply HL; [|done]. intros ->. done.
    + intros k Hk. cbn. by destruct (decide (k = y)).
    + cbn. by destruct (decide (y = y)).
Qed.

(** The neighbours of a node of a list are nodes of the list, or [nil]. *)
Lemma dseg_neighbours L h q l1 l2 x pv nx :
  dseg L nil h q nil (l1 ++ x :: l2) → L x = Some (pv, nx) →
  (pv ≠ nil → pv ∈ l1) ∧ (nx ≠ nil → nx ∈ l2) ∧ nx = default nil (head l2).
Proof.
  intros (j & jn & H1 & H2)%dseg_app E.
  cbn in H2. destruct H2 as (-> & Hxn & nx' & E' & H2).
  assert (j = pv ∧ nx' = nx) as [-> ->] by (split; congruence).
  apply dseg_last in H1. apply dseg_first in H2. repeat split; [| |done].
  - destruct (last l1) as [a|] eqn:Ea; cbn in H1; subst; [|done].
    intros _. by apply last_Some_elem_of.
  - destruct l2 as [|b l2]; cbn in H2; subst; [done|]. set_solver.
Qed.

(** Unlinking a node [x] whose neighbours are [pv] and [nx]: what is left of
    it is joined to [nx], what is right of it to [pv]. *)
Lemma dseg_unlink_left L L' h x pv nx l1 :
  NoDup l1 → (∀ k, k ∈ l1 → k ≠ pv → L' k = L k) →
  (pv ≠ nil → L' pv = (λ '(a, _), (a, nx)) <$> L pv) →
  dseg L nil h pv x l1 → dseg L' nil (if decide (pv = nil) then nx else h) pv nx l1.
Proof.
  intros Hnd HL Hpv Hs. destruct l1 as [|a l1 _] using rev_ind.
  - cbn in Hs. destruct Hs as [-> <-]. cbn. by rewrite decide_True.
  - assert (pv = a) as ->.
    { apply dseg_last in Hs. by rewrite last_snoc in Hs. }
    assert (a ≠ nil) by (eapply dseg_not_nil; [done|set_solver]).
    rewrite decide_False by done.
    apply NoDup_app in Hnd as (_ & Hdisj & _).
    assert (a ∉ l1) by (intros Ha; apply (Hdisj a Ha); set_solver).
    pose (L1 := λ k, if decide (k = a) then (λ '(p, _), (p, nx)) <$> L a else L k).
    apply (dseg_frame L1).
    + intros k Hk. unfold L1. destruct (decide (k = a)) as [->|Hne]; [by apply Hpv|].
      by apply HL.
    + eapply dseg_snoc_next; [done| | |done]; unfold L1.
      * intros k Hk. by rewrite decide_False.
      * by rewrite decide_True.
Qed.

Lemma dseg_unlink_right L L' x pv nx q l2 :
  NoDup l2 → (∀ k, k ∈ l2 → k ≠ nx → L' k = L k) →
  (nx ≠ nil → L' nx = (λ '(_, b), (pv, b)) <$> L nx) →
  dseg L x nx q nil l2 → ∃ q', dseg L' pv nx q' nil l2.
Proof.
  intros Hnd HL Hnx Hs. destruct l2 as [|b l2].
  - cbn in Hs. destruct Hs as [-> _]. by exists pv.
  - assert (nx = b) as -> by (by destruct Hs).
    assert (b ≠ nil) by (eapply dseg_not_nil; [done|set_solver]).
    apply NoDup_cons in Hnd as [Hb Hnd]. exists q.
    pose (L1 := λ k, if decide (k = b) then (λ '(_, p), (pv, p)) <$> L b else L k).
    apply (dseg_frame L1).
    + intros k Hk. unfold L1. destruct (decide (k = b)) as [->|Hne]; [by apply Hnx|].
      by apply HL.
    + eapply dseg_cons_prev; [done| | |done]; unfold L1.
      * intros k Hk. by rewrite decide_False.
      * by rewrite decide_True.
Qed.

Lemma dseg_unlink L L' h q l1 l2 x pv nx :
  NoDup (l1 ++ x :: l2) → dseg L nil h q nil (l1 ++ x :: l2) →
  L x = Some (pv, nx) →
  (∀ k, k ≠ x → k ≠ pv → k ≠ nx → L' k = L k) →
  (pv ≠ nil → L' pv = (λ '(a, _), (a, nx)) <$> L pv) →
  (nx ≠ nil → L' nx = (λ '(_, b), (pv, b)) <$> L nx) →
  ∃ q', dseg L' nil (if decide (pv = nil) then nx else h) q' nil (l1 ++ l2).
Proof.
  intros Hnd Hs HLx HL Hpv Hnx.
  apply dseg_app in Hs as (j & jn & H1 & H2).
  cbn in H2. destruct H2 as (-> & Hxn & nx' & E & H2).
  assert (j = pv ∧ nx' = nx) as [-> ->] by (split; congruence).
  apply NoDup_app in Hnd as (Hnd1 & Hdisj & [Hx2 Hnd2]%NoDup_cons).
  pose proof (dseg_last _ _ _ _ _ _ H1) as Elast.
  pose proof (dseg_first _ _ _ _ _ H2) as Ehead.
  assert (∀ k, k ∈ l1 → k ≠ nx) as Hln.
  { intros k Hk ->. destruct l2 as [|y l2]; cbn in Ehead; subst.
    - by eapply (dseg_not_nil _ _ _ _ _ _ nil) in H1.
    - apply (Hdisj y Hk). set_solver. }
  assert (∀ k, k ∈ l2 → k ≠ pv) as Hlp.
  { intros k Hk ->. destruct (last l1) as [a|] eqn:Ea; cbn in Elast; subst.
    - apply last_Some_elem_of in Ea. apply (Hdisj a Ea). set_solver.
    - by eapply (dseg_not_nil _ _ _ _ _ _ nil) in H2. }
  destruct (dseg_unlink_right L L' x pv nx q l2) as [q' H2']; [done| |done|done|].
  { intros k Hk Hne. apply HL; [by intros ->|by apply Hlp|done]. }
  exists q'. apply dseg_app. exists pv, nx. split; [|done].
  eapply dseg_unlink_left; [done| |done|done].
  intros k Hk Hne. apply HL; [|done|by apply Hln].
  intros ->. apply (Hdisj x Hk). set_solver.
Qed.
End DList.
