(* ===== verification/TimerInv.v ===== *)
(** * The timer wheel: invariant

    The wheel as the sets of lists it stores: [wheel_inv t ch] says that slot
    [i] of [t] is the doubly linked list of the keys [ch i], that the entries
    of the slab are exactly the members of these lists, each in the slot of
    its deadline, and that the cursor [next] is a node of the current slot. *)
From S2P Require Import Prelude EventSet Duration LazyCell Interfaces Timer DList.

Section TimerInv.
Context {slab : Type → Type} {SO : SlabOps slab} {SL : SlabLaws slab}.
Context {W H : Type} {RO : ReadinessOps W H}.
Context {T : Type}.
Implicit Types (t : Timer slab H T) (ch : N → list Token) (k : Token) (e : Entry T).

Definition ents t : gmap N (Entry T) := slab_map (t_entries t).

Definition link_pair e : Token * Token := (l_prev (e_links e), l_next (e_links e)).
Definition links_of (m : gmap N (Entry T)) k : option (Token * Token) :=
  link_pair <$> m !! token_val k.

(** What a client sees of an entry: its deadline and its state. *)
Definition pending e : Tick * T := (l_tick (e_links e), e_state e).
Definition content t : gmap N (Tick * T) := pending <$> ents t.

Record wheel_inv t ch : Prop := {
  wi_size : ∃ n, t_mask t = N.ones n ∧ N.of_nat (length (t_wheel t)) = 2 ^ n;
  wi_list : ∀ i w, nth64 (t_wheel t) i = Some w →
    ∃ q, dseg EMPTY (links_of (ents t)) EMPTY (w_head w) q EMPTY (ch i);
  wi_nodup : ∀ i, NoDup (ch i);
  wi_mem : ∀ i k, k ∈ ch i ↔
    ∃ d s, content t !! token_val k = Some (d, s) ∧ slot_for t d = i;
  wi_keys : ∀ x, is_Some (content t !! x) → x < N.ones 63;
  wi_next : t_next t = EMPTY ∨ t_next t ∈ ch (slot_for t (t_tick t));
}.

Lemma token_val_inj k k' : token_val k = token_val k' → k = k'.
Proof. destruct k, k'; cbn; congruence. Qed.

Lemma slot_lt t ch x : wheel_inv t ch → slot_for t x < N.of_nat (length (t_wheel t)).
Proof.
  intros [(n & Em & En) _ _ _ _ _]. unfold slot_for. rewrite Em, En, land_ones_l.
  apply N.mod_lt, N.pow_nonzero. lia.
Qed.

Lemma slot_wheel t ch x :
  wheel_inv t ch → ∃ w, nth64 (t_wheel t) (slot_for t x) = Some w.
Proof. intros Hi. by eapply nth64_lt, slot_lt. Qed.

Lemma lookup_content t x : content t !! x = pending <$> ents t !! x.
Proof. apply lookup_fmap. Qed.

Lemma content_is_Some t x : is_Some (content t !! x) ↔ is_Some (ents t !! x).
Proof. rewrite lookup_content. apply fmap_is_Some. Qed.

Lemma ents_content t x e : ents t !! x = Some e → content t !! x = Some (pending e).
Proof. intros E. by rewrite lookup_content, E. Qed.

Lemma content_ents t x d s :
  content t !! x = Some (d, s) → ∃ e, ents t !! x = Some e ∧ pending e = (d, s).
Proof. rewrite lookup_content, fmap_Some. naive_solver. Qed.

Lemma links_of_Some (m : gmap N (Entry T)) k e :
  m !! token_val k = Some e → links_of m k = Some (link_pair e).
Proof. intros E. unfold links_of. by rewrite E. Qed.

(** Rewriting the links of an entry does not change the content. *)
Lemma content_put t t' x e e' :
  ents t !! x = Some e → ents t' = <[x := e']> (ents t) → pending e' = pending e →
  content t' = content t.
Proof.
  intros E Ens Ep. unfold content. rewrite Ens, fmap_insert, Ep.
  apply insert_id. by rewrite lookup_fmap, E.
Qed.

(** ** The memory accesses *)

Definition put_prev e v : Entry T :=
  mkEntry (e_state e) (mkLinks (l_tick (e_links e)) v (l_next (e_links e))).
Definition put_next e v : Entry T :=
  mkEntry (e_state e) (mkLinks (l_tick (e_links e)) (l_prev (e_links e)) v).

Lemma wheel_at_Done t i w :
  nth64 (t_wheel t) i = Some w → wheel_at t i = Done w.
Proof. intros E. unfold wheel_at. by rewrite E. Qed.

Lemma wheel_set_Done t i w w' :
  nth64 (t_wheel t) i = Some w →
  wheel_set t i w' = Done (with_wheel t (set64 (t_wheel t) i w')).
Proof. intros E. unfold wheel_set. by rewrite (wheel_at_Done _ _ _ E). Qed.

Lemma set_head_Done t i w k :
  nth64 (t_wheel t) i = Some w →
  set_head t i k =
  Done (with_wheel t (set64 (t_wheel t) i (mkWheel (w_next_tick w) k))).
Proof.
  intros E. unfold set_head. rewrite (wheel_at_Done _ _ _ E). cbn.
  by apply (wheel_set_Done _ _ w).
Qed.

Lemma set_next_tick_Done t i w x :
  nth64 (t_wheel t) i = Some w →
  set_next_tick t i x =
  Done (with_wheel t (set64 (t_wheel t) i (mkWheel x (w_head w)))).
Proof.
  intros E. unfold set_next_tick. rewrite (wheel_at_Done _ _ _ E). cbn.
  by apply (wheel_set_Done _ _ w).
Qed.

Lemma entry_at_Done t k e : ents t !! token_val k = Some e → entry_at t k = Done e.
Proof. intros E. unfold entry_at, token_into_usize. rewrite slab_map_get.
  unfold ents in E. by rewrite E. Qed.

Lemma entry_set_Done t k e e' :
  ents t !! token_val k = Some e →
  ∃ es, entry_set t k e' = Done (with_entries t es) ∧
        slab_map es = <[token_val k := e']> (ents t).
Proof.
  intros E. unfold entry_set.
  pose proof (slab_map_set (t_entries t) (token_val k) e') as Hs.
  unfold token_into_usize. destruct (slab_set _ _ _) as [es|]; cbn.
  - exists es. by destruct Hs.
  - unfold ents in E. congruence.
Qed.

Lemma set_prev_Done t k e v :
  ents t !! token_val k = Some e →
  ∃ es, set_prev t k v = Done (with_entries t es) ∧
        slab_map es = <[token_val k := put_prev e v]> (ents t).
Proof.
  intros E. unfold set_prev. rewrite (entry_at_Done _ _ _ E).
  by apply (entry_set_Done t k e).
Qed.

Lemma set_next_Done t k e v :
  ents t !! token_val k = Some e →
  ∃ es, set_next t k v = Done (with_entries t es) ∧
        slab_map es = <[token_val k := put_next e v]> (ents t).
Proof.
  intros E. unfold set_next. rewrite (entry_at_Done _ _ _ E).
  by apply (entry_set_Done t k e).
Qed.

Lemma remove_entry_Done t k e :
  ents t !! token_val k = Some e →
  ∃ es, remove_entry t k = Done (e_state e, with_entries t es) ∧
        slab_map es = delete (token_val k) (ents t).
Proof.
  intros E. unfold remove_entry, token_into_usize.
  pose proof (slab_map_remove (t_entries t) (token_val k)) as Hs.
  unfold ents in *. destruct (slab_remove _ _) as [[e' es]|]; cbn.
  - exists es. destruct Hs as [E' ?]. by simplify_eq.
  - congruence.
Qed.

(** ** Unlinking and removing an entry *)

(** The parts of the timer no list operation touches. *)
Record same_clock t t' : Prop := {
  sc_tick_ms : t_tick_ms t' = t_tick_ms t;
  sc_start : t_start t' = t_start t;
  sc_tick : t_tick t' = t_tick t;
  sc_mask : t_mask t' = t_mask t;
  sc_inner : t_inner t' = t_inner t;
}.

Lemma same_clock_refl t : same_clock t t.
Proof. by split. Qed.

Lemma slot_for_clock t t' x : t_mask t' = t_mask t → slot_for t' x = slot_for t x.
Proof. intros E. unfold slot_for. by rewrite E. Qed.

Lemma links_of_insert m k k' e :
  links_of (<[token_val k := e]> m) k' =
  if decide (k' = k) then Some (link_pair e) else links_of m k'.
Proof.
  unfold links_of. destruct (decide (k' = k)) as [->|Hne].
  - by rewrite lookup_insert_eq.
  - rewrite lookup_insert_ne; [done|]. by intros ?%token_val_inj.
Qed.

Lemma links_of_delete m k k' :
  k' ≠ k → links_of (delete (token_val k) m) k' = links_of m k'.
Proof.
  intros Hne. unfold links_of. rewrite lookup_delete_ne; [done|].
  by intros ?%token_val_inj.
Qed.

(** The links after [unlink] joined the neighbours [pv] and [nx]. *)
Definition joined (L : Token → option (Token * Token)) (pv nx x : Token) :=
  if decide (x = pv ∧ pv ≠ EMPTY) then (λ '(a, _), (a, nx)) <$> L x
  else if decide (x = nx ∧ nx ≠ EMPTY) then (λ '(_, b), (pv, b)) <$> L x
  else L x.

Definition joined_head (pv nx : Token) (w : WheelEntry) : WheelEntry :=
  if decide (pv = EMPTY) then mkWheel (w_next_tick w) nx else w.

(** First half of [unlink]: the left neighbour, or the head of the slot,
    now points to [nx]. *)
Lemma unlink_left t pv nx slot w :
  nth64 (t_wheel t) slot = Some w →
  (pv ≠ EMPTY → is_Some (ents t !! token_val pv)) →
  ∃ t1,
    (if bool_decide (pv = EMPTY) then set_head t slot nx else set_next t pv nx) = Done t1 ∧
    same_clock t t1 ∧ t_next t1 = t_next t ∧ content t1 = content t ∧
    t_wheel t1 = set64 (t_wheel t) slot (joined_head pv nx w) ∧
    ∀ x, links_of (ents t1) x =
         if decide (x = pv ∧ pv ≠ EMPTY) then (λ '(a, _), (a, nx)) <$> links_of (ents t) x
         else links_of (ents t) x.
Proof.
  intros Ew Hpv. unfold joined_head.
  case_bool_decide as E.
  - rewrite (set_head_Done _ _ _ _ Ew). eexists; split; [done|].
    split; [by split|]. split; [done|]. split; [done|].
    rewrite decide_True by done. split; [done|].
    intros x. rewrite decide_False by naive_solver. done.
  - destruct (Hpv E) as [e Ee]. destruct (set_next_Done t pv e nx Ee) as (es & -> & Em).
    eexists; split; [done|]. split; [by split|]. split; [done|].
    assert (ents (with_entries t es) = <[token_val pv := put_next e nx]> (ents t)) as Ens by exact Em.
    split; [|split].
    + by apply (content_put _ _ _ _ _ Ee Ens).
    + rewrite decide_False by done. symmetry. by apply list_insert_id.
    + intros x. rewrite Ens, links_of_insert. destruct (decide (x = pv)) as [->|Hne].
      * rewrite decide_True by done. by rewrite (links_of_Some _ _ _ Ee).
      * by rewrite decide_False by naive_solver.
Qed.

(** Second half: the right neighbour now points back to [pv]. *)
Lemma unlink_right t pv nx :
  (nx ≠ EMPTY → is_Some (ents t !! token_val nx)) →
  ∃ t1,
    (if bool_decide (nx ≠ EMPTY) then set_prev t nx pv else Done t) = Done t1 ∧
    same_clock t t1 ∧ t_next t1 = t_next t ∧ content t1 = content t ∧
    t_wheel t1 = t_wheel t ∧
    ∀ x, links_of (ents t1) x =
         if decide (x = nx ∧ nx ≠ EMPTY) then (λ '(_, b), (pv, b)) <$> links_of (ents t) x
         else links_of (ents t) x.
Proof.
  intros Hnx. case_bool_decide as E.
  - destruct (Hnx E) as [e Ee]. destruct (set_prev_Done t nx e pv Ee) as (es & -> & Em).
    eexists; split; [done|]. split; [by split|]. split; [done|].
    assert (ents (with_entries t es) = <[token_val nx := put_prev e pv]> (ents t)) as Ens by exact Em.
    split; [|split; [done|]].
    + by apply (content_put _ _ _ _ _ Ee Ens).
    + intros x. rewrite Ens, links_of_insert. destruct (decide (x = nx)) as [->|Hne].
      * rewrite decide_True by done. by rewrite (links_of_Some _ _ _ Ee).
      * by rewrite decide_False by naive_solver.
  - eexists; split; [done|]. split; [by split|]. repeat split.
    intros x. by rewrite decide_False by naive_solver.
Qed.

(** Where an entry sits in its list. *)
Lemma entry_split t ch k e :
  wheel_inv t ch → ents t !! token_val k = Some e →
  let i := slot_for t (l_tick (e_links e)) in
  ∃ l1 l2 w q,
    ch i = l1 ++ k :: l2 ∧ nth64 (t_wheel t) i = Some w ∧
    dseg EMPTY (links_of (ents t)) EMPTY (w_head w) q EMPTY (l1 ++ k :: l2) ∧
    NoDup (l1 ++ k :: l2).
Proof.
  intros Hi Ee i.
  assert (k ∈ ch i) as Hk.
  { apply (wi_mem _ _ Hi). exists (l_tick (e_links e)), (e_state e).
    split; [|done]. by apply ents_content. }
  destruct (slot_wheel _ _ (l_tick (e_links e)) Hi) as [w Ew].
  destruct (wi_list _ _ Hi _ _ Ew) as [q Hs].
  pose proof (wi_nodup _ _ Hi i) as Hnd.
  apply list_elem_of_split in Hk as (l1 & l2 & E). fold i in Hs, Ew.
  rewrite E in *. eauto 10.
Qed.

Lemma member_ents t ch i k : wheel_inv t ch → k ∈ ch i → is_Some (ents t !! token_val k).
Proof.
  intros Hi (d & s & E & _)%(wi_mem _ _ Hi). apply content_ents in E as (e & E & _). eauto.
Qed.

(** The keys of entries are never [EMPTY]. *)
Lemma key_not_EMPTY t ch k : wheel_inv t ch → is_Some (content t !! token_val k) → k ≠ EMPTY.
Proof. intros Hi Hk%(wi_keys _ _ Hi) ->. by vm_compute in Hk. Qed.

(** [unlink] followed by the removal of the entry from the slab. *)
Lemma unlink_remove t ch k e :
  wheel_inv t ch → ents t !! token_val k = Some e →
  let i := slot_for t (l_tick (e_links e)) in
  let pv := l_prev (e_links e) in let nx := l_next (e_links e) in
  ∃ t1 t2 w,
    unlink t (e_links e) k = Done t1 ∧ remove_entry t1 k = Done (e_state e, t2) ∧
    same_clock t t2 ∧
    t_next t2 = (if decide (k = t_next t) then nx else t_next t) ∧
    content t2 = delete (token_val k) (content t) ∧
    nth64 (t_wheel t) i = Some w ∧
    t_wheel t2 = set64 (t_wheel t) i (joined_head pv nx w) ∧
    ∀ x, x ≠ k → links_of (ents t2) x = joined (links_of (ents t)) pv nx x.
Proof.
  intros Hi Ee i pv nx.
  destruct (entry_split _ _ _ _ Hi Ee) as (l1 & l2 & w & q & Ech & Ew & Hs & Hnd).
  fold i in Ech, Ew.
  destruct (dseg_neighbours _ _ _ _ _ _ _ _ _ Hs (links_of_Some _ _ _ Ee))
    as (Hpv & Hnx & _). fold pv in Hpv. fold nx in Hnx.
  assert (∀ x, x ∈ l1 ∨ x ∈ l2 → is_Some (ents t !! token_val x)) as Hmem.
  { intros x Hx. apply (member_ents t ch i); [done|]. rewrite Ech. set_solver. }
  apply NoDup_app in Hnd as (_ & Hdisj & [Hk2 _]%NoDup_cons).
  destruct (unlink_left t pv nx i w Ew) as (ta & Ea & Ca & Na & Da & Wa & La).
  { intros E. apply Hmem. by left; apply Hpv. }
  destruct (unlink_right ta pv nx) as (tb & Eb & Cb & Nb & Db & Wb & Lb).
  { intros E. specialize (Hmem nx (or_intror (Hnx E))).
    by rewrite <- content_is_Some, Da, content_is_Some. }
  set (tc := if bool_decide (k = t_next tb) then with_next tb nx else tb).
  assert (unlink t (e_links e) k = Done tc) as Eu.
  { unfold unlink. cbn zeta. fold pv nx i. rewrite Ea; cbn [mbind exec_bind].
    destruct (bool_decide (nx ≠ EMPTY)) eqn:En; rewrite ?Eb; cbn [mbind exec_bind];
      [done|]. injection Eb as <-. apply bool_decide_eq_false, dec_stable in En.
    unfold tc. by rewrite En. }
  assert (ents tc = ents tb) as Etc by (unfold tc; destruct (bool_decide (k = t_next tb)); reflexivity).
  assert (content tc = content t) as Dc.
  { transitivity (content tb); [unfold content; by rewrite Etc|congruence]. }
  assert (is_Some (ents tc !! token_val k)) as [e' Ee'].
  { rewrite <- content_is_Some, Dc, content_is_Some. eauto. }
  assert (e_state e' = e_state e) as Es.
  { apply ents_content in Ee'. rewrite Dc, (ents_content _ _ _ Ee) in Ee'.
    unfold pending in Ee'. by simplify_eq. }
  destruct (remove_entry_Done tc k e' Ee') as (es & Er & Em). rewrite Es in Er.
  exists tc, (with_entries tc es), w. split; [done|]. split; [done|].
  assert (same_clock t tc) as Ctc.
  { destruct Ca, Cb. unfold tc.
    destruct (bool_decide (k = t_next tb)); split; cbn; congruence. }
  split; [destruct Ctc; by split|].
  split; [|split; [|split; [done|split]]].
  - change (t_next tc = (if decide (k = t_next t) then nx else t_next t)).
    unfold tc. destruct (decide (k = t_next t)) as [E|E];
      [rewrite bool_decide_eq_true_2 by congruence; done|].
    rewrite bool_decide_eq_false_2; congruence.
  - unfold content at 1, ents at 1. cbn. rewrite Em, fmap_delete. f_equal. exact Dc.
  - cbn. transitivity (t_wheel tb); [|congruence].
    unfold tc. by destruct (bool_decide (k = t_next tb)).
  - intros x Hx. unfold ents at 1. cbn. rewrite Em, links_of_delete, Etc by done.
    rewrite Lb, La. unfold joined.
    destruct (decide (x = pv ∧ pv ≠ EMPTY)) as [[-> Hp]|]; [|done].
    rewrite decide_False; [done|]. intros [E1 E2].
    apply (Hdisj pv); [by apply Hpv|]. rewrite E1. right. by apply Hnx.
Qed.

(** ** The entries the cursor has still to visit *)

Fixpoint from (k : Token) (ks : list Token) : list Token :=
  match ks with
  | [] => []
  | x :: xs => if decide (x = k) then ks else from k xs
  end.

Definition to_visit t ch : list Token :=
  from (t_next t) (ch (slot_for t (t_tick t))).

Definition remove_key k ch : N → list Token := λ i, filter (λ x, x ≠ k) (ch i).

Lemma from_not_in k ks : k ∉ ks → from k ks = [].
Proof.
  induction ks as [|x xs IH]; [done|]. intros Hn. cbn.
  rewrite decide_False by set_solver. apply IH. set_solver.
Qed.

Lemma from_app k l1 l2 : k ∉ l1 → from k (l1 ++ k :: l2) = k :: l2.
Proof.
  induction l1 as [|x xs IH]; intros Hn; cbn; [by rewrite decide_True|].
  rewrite decide_False by set_solver. apply IH. set_solver.
Qed.

Lemma from_skip k l1 l2 : k ∉ l1 → from k (l1 ++ l2) = from k l2.
Proof.
  induction l1 as [|x xs IH]; intros Hn; cbn; [done|].
  rewrite decide_False by set_solver. apply IH. set_solver.
Qed.

Lemma from_sub k ks x : x ∈ from k ks → x ∈ ks.
Proof.
  induction ks as [|y ys IH]; cbn; [done|].
  destruct (decide _); [done|]. intros Hx%IH. set_solver.
Qed.

Lemma from_filter k k' ks :
  k ≠ k' → from k' (filter (λ x, x ≠ k) ks) = filter (λ x, x ≠ k) (from k' ks).
Proof.
  intros Hne. induction ks as [|x xs IH]; [done|].
  rewrite filter_cons. cbn [from].
  destruct (decide (x ≠ k)) as [Hx|Hx]; cbn [from].
  - destruct (decide (x = k')) as [->|]; [|done].
    rewrite filter_cons. by rewrite decide_True by done.
  - apply dec_stable in Hx. subst. by rewrite decide_False by done.
Qed.

Lemma filter_ne_id k (ks : list Token) : k ∉ ks → filter (λ x, x ≠ k) ks = ks.
Proof.
  intros Hn. induction ks as [|x xs IH]; [done|]. rewrite filter_cons.
  rewrite decide_True by set_solver. f_equal. apply IH. set_solver.
Qed.

Lemma filter_ne_split k (l1 l2 : list Token) :
  NoDup (l1 ++ k :: l2) → filter (λ x, x ≠ k) (l1 ++ k :: l2) = l1 ++ l2.
Proof.
  intros (_ & Hd & [Hk _]%NoDup_cons)%NoDup_app.
  rewrite filter_app, filter_cons, decide_False by naive_solver.
  rewrite !filter_ne_id; [done|done|]. intros Hin. apply (Hd k Hin). set_solver.
Qed.

(** Slots are disjoint: an entry is in the slot of its deadline only. *)
Lemma member_slot t ch i k e :
  wheel_inv t ch → ents t !! token_val k = Some e → k ∈ ch i →
  i = slot_for t (l_tick (e_links e)).
Proof.
  intros Hi Ee (d & s & E & <-)%(wi_mem _ _ Hi).
  apply ents_content in Ee. rewrite Ee in E. unfold pending in E. by simplify_eq.
Qed.

Lemma remove_key_other t ch i k e :
  wheel_inv t ch → ents t !! token_val k = Some e →
  i ≠ slot_for t (l_tick (e_links e)) → remove_key k ch i = ch i.
Proof.
  intros Hi Ee Hne. apply filter_ne_id. intros Hin. apply Hne.
  by eapply member_slot.
Qed.

(** The cursor of a timer whose entry [k] was unlinked. *)
Definition moved_next t k (nx : Token) : Token :=
  if decide (k = t_next t) then nx else t_next t.

(** Where the cursor stands after an unlink: what it has still to visit is
    what it had, without the entry removed. *)
Lemma moved_next_visit t ch k e :
  wheel_inv t ch → ents t !! token_val k = Some e →
  let c := slot_for t (t_tick t) in
  let nx := moved_next t k (l_next (e_links e)) in
  (nx = EMPTY ∨ nx ∈ remove_key k ch c) ∧
  from nx (remove_key k ch c) = filter (λ x, x ≠ k) (from (t_next t) (ch c)).
Proof.
  intros Hi Ee c nx.
  assert (k ≠ EMPTY) as HkE.
  { apply (key_not_EMPTY t ch); [done|]. apply content_is_Some. eauto. }
  assert (EMPTY ∉ ch c) as HE.
  { intros Hin. destruct (wi_mem _ _ Hi c EMPTY) as [Hm _].
    destruct (Hm Hin) as (d & s0 & E & _).
    apply (key_not_EMPTY t ch EMPTY); [done|by rewrite E; eauto|done]. }
  unfold nx, moved_next. destruct (decide (k = t_next t)) as [->|Hne].
  - destruct (wi_next _ _ Hi) as [E|Hin]; [done|]. fold c in Hin.
    assert (c = slot_for t (l_tick (e_links e))) as Ec by by eapply member_slot.
    destruct (entry_split _ _ _ _ Hi Ee) as (l1 & l2 & w & q & Ech & _ & Hs & Hnd).
    rewrite <- Ec in Ech.
    destruct (dseg_neighbours _ _ _ _ _ _ _ _ _ Hs (links_of_Some _ _ _ Ee)) as (_ & _ & Eh).
    cbn in Eh. unfold remove_key. rewrite Ech in *. rewrite filter_ne_split by done.
    apply NoDup_app in Hnd as (_ & Hd & [Hk2 _]%NoDup_cons).
    rewrite from_app by (intros Hin1; apply (Hd _ Hin1); set_solver).
    rewrite filter_cons, decide_False, filter_ne_id by naive_solver.
    destruct l2 as [|b l2]; cbn in Eh; rewrite Eh.
    + split; [by left|]. rewrite from_not_in; [done|]. set_solver.
    + split; [right; set_solver|]. apply from_app. intros Hb. apply (Hd b Hb). set_solver.
  - split; [|by apply from_filter].
    destruct (wi_next _ _ Hi) as [->|Hin]; [by left|right].
    apply list_elem_of_filter. auto.
Qed.

Lemma neighbours t ch k e :
  wheel_inv t ch → ents t !! token_val k = Some e →
  let i := slot_for t (l_tick (e_links e)) in
  let pv := l_prev (e_links e) in let nx := l_next (e_links e) in
  (pv ≠ EMPTY → pv ∈ ch i ∧ pv ≠ k ∧ pv ≠ nx) ∧ (nx ≠ EMPTY → nx ∈ ch i ∧ nx ≠ k).
Proof.
  intros Hi Ee i pv nx.
  destruct (entry_split _ _ _ _ Hi Ee) as (l1 & l2 & w & q & Ech & _ & Hs & Hnd).
  fold i in Ech. rewrite Ech.
  destruct (dseg_neighbours _ _ _ _ _ _ _ _ _ Hs (links_of_Some _ _ _ Ee))
    as (Hpv & Hnx & _). fold pv in Hpv. fold nx in Hnx.
  apply NoDup_app in Hnd as (_ & Hd & [Hk2 _]%NoDup_cons).
  split.
  - intros Hp. pose proof (Hpv Hp) as Hin. split; [set_solver|]. split.
    + intros ->. apply (Hd k Hin). set_solver.
    + intros E. apply (Hd pv Hin). rewrite E. right. apply Hnx. congruence.
  - intros Hin%Hnx. split; [set_solver|]. by intros ->.
Qed.

(** The lists of the slots after the neighbours of [k] were joined. *)
Lemma detach_lists t ch k e m2 i w :
  wheel_inv t ch → ents t !! token_val k = Some e →
  let i0 := slot_for t (l_tick (e_links e)) in
  let pv := l_prev (e_links e) in let nx := l_next (e_links e) in
  (∀ x, x ≠ k → links_of m2 x = joined (links_of (ents t)) pv nx x) →
  nth64 (t_wheel t) i = Some w →
  ∃ q, dseg EMPTY (links_of m2) EMPTY
    (w_head (if decide (i = i0) then joined_head pv nx w else w)) q EMPTY
    (remove_key k ch i).
Proof.
  intros Hi Ee i0 pv nx Hl Ew.
  destruct (neighbours _ _ _ _ Hi Ee) as [Hpv Hnx]. fold i0 pv nx in Hpv, Hnx.
  destruct (decide (i = i0)) as [->|Hne].
  - destruct (entry_split _ _ _ _ Hi Ee) as (l1 & l2 & w' & q & Ech & Ew' & Hs & Hnd).
    fold i0 in Ech, Ew'. rewrite Ew in Ew'. injection Ew' as <-.
    unfold remove_key. rewrite Ech, filter_ne_split by done.
    destruct (dseg_unlink EMPTY (links_of (ents t)) (links_of m2) _ _ _ _ k
      _ _ Hnd Hs (links_of_Some _ _ _ Ee)) as [q' Hs'].
    + intros x Hxk Hxp Hxn. rewrite Hl by done. unfold joined.
      by rewrite !decide_False by naive_solver.
    + intros Hp. destruct (Hpv Hp) as (_ & ? & _). rewrite Hl by done.
      unfold joined. by rewrite decide_True.
    + intros Hn. destruct (Hnx Hn) as [_ ?]. rewrite Hl by done. unfold joined.
      rewrite decide_False; [by rewrite decide_True|].
      intros [E Hp]. by destruct (Hpv Hp) as (_ & _ & []).
    + exists q'. unfold joined_head. fold pv nx in Hs'.
      by destruct (decide (pv = EMPTY)).
  - rewrite (remove_key_other t ch i k e Hi Ee Hne).
    destruct (wi_list _ _ Hi _ _ Ew) as [q Hs]. exists q.
    eapply dseg_frame; [|exact Hs]. intros x Hx.
    assert (∀ y, y ∈ ch i0 → x ≠ y) as Hdis.
    { intros y Hy ->. destruct (member_ents _ _ _ _ Hi Hx) as [ex Ex]. apply Hne.
      rewrite (member_slot _ _ _ _ _ Hi Ex Hx). symmetry. by eapply member_slot. }
    rewrite Hl; [|apply Hdis; apply (wi_mem _ _ Hi); exists (l_tick (e_links e)), (e_state e);
      split; [by apply ents_content|done]].
    unfold joined. rewrite !decide_False; [done| |].
    + intros [-> Hn]. destruct (Hnx Hn) as [Hin _]. by apply (Hdis nx Hin).
    + intros [-> Hp]. destruct (Hpv Hp) as [Hin _]. by apply (Hdis pv Hin).
Qed.

(** Membership after the removal of a key. *)
Lemma remove_key_mem t t2 ch k :
  wheel_inv t ch → t_mask t2 = t_mask t →
  content t2 = delete (token_val k) (content t) →
  ∀ i x, x ∈ remove_key k ch i ↔
    ∃ d s, content t2 !! token_val x = Some (d, s) ∧ slot_for t2 d = i.
Proof.
  intros Hi Em Ec i x. unfold remove_key. rewrite list_elem_of_filter, (wi_mem _ _ Hi), Ec.
  setoid_rewrite (slot_for_clock t t2 _ Em). split.
  - intros (Hne & d & s & E & Hs). exists d, s. split; [|done].
    rewrite lookup_delete_ne; [done|]. by intros ?%token_val_inj.
  - intros (d & s & E & Hs). apply lookup_delete_Some in E as [Hne E].
    split; [by intros ->|eauto].
Qed.

(** Unlinking and removing an entry, on every part of the state. *)
Lemma detach_spec t ch k e :
  wheel_inv t ch → ents t !! token_val k = Some e →
  ∃ t1 t2,
    unlink t (e_links e) k = Done t1 ∧ remove_entry t1 k = Done (e_state e, t2) ∧
    same_clock t t2 ∧ content t2 = delete (token_val k) (content t) ∧
    t_next t2 = moved_next t k (l_next (e_links e)) ∧
    wheel_inv t2 (remove_key k ch) ∧
    to_visit t2 (remove_key k ch) = filter (λ x, x ≠ k) (to_visit t ch) ∧
    ∀ i w2, nth64 (t_wheel t2) i = Some w2 →
      ∃ w, nth64 (t_wheel t) i = Some w ∧ w_next_tick w2 = w_next_tick w.
Proof.
  intros Hi Ee.
  destruct (unlink_remove _ _ _ _ Hi Ee)
    as (t1 & t2 & w & Eu & Er & Ck & En & Ec & Ew & Ewh & El).
  destruct (moved_next_visit _ _ _ _ Hi Ee) as [Hnx Hvis].
  set (i0 := slot_for t (l_tick (e_links e))) in *.
  pose proof Ck as [_ _ Etk Emk _].
  assert (∀ x, slot_for t2 x = slot_for t x) as Hsl by (intros x; by apply slot_for_clock).
  assert (∀ i w2, nth64 (t_wheel t2) i = Some w2 →
    ∃ w, nth64 (t_wheel t) i = Some w ∧
      w2 = if decide (i = i0) then joined_head (l_prev (e_links e)) (l_next (e_links e)) w else w)
    as Hw2.
  { intros i w2. rewrite Ewh. destruct (decide (i = i0)) as [->|Hne].
    - rewrite nth64_set64_eq by (by eapply slot_lt). intros [= <-]. eauto.
    - rewrite nth64_set64_ne by done. eauto. }
  exists t1, t2. repeat (split; [done|]). split; [|split].
  - split.
    + destruct (wi_size _ _ Hi) as (n & Em & Elen). exists n.
      rewrite Ewh, length_set64. split; congruence.
    + intros i w2 (w' & Ew' & ->)%Hw2. by eapply detach_lists.
    + intros i. apply NoDup_filter, (wi_nodup _ _ Hi).
    + by eapply remove_key_mem.
    + intros x. rewrite Ec. intros [y [_ Hy]%lookup_delete_Some]. eapply (wi_keys _ _ Hi). eauto.
    + rewrite En, Hsl, Etk. exact Hnx.
  - unfold to_visit. rewrite En, Hsl, Etk. exact Hvis.
  - intros i w2 (w' & Ew' & ->)%Hw2. exists w'. split; [done|].
    unfold joined_head. by repeat case_decide.
Qed.

(** ** Inserting an entry *)

Definition push_key (i : N) k ch : N → list Token :=
  λ j, if decide (j = i) then k :: ch j else ch j.

(** [insert] up to the call of [schedule_readiness]. *)
Definition insert_entry t (tick : Tick) (state : T) : exec (Token * Timer slab H T) :=
  let slot := N.land tick (t_mask t) in
  wheel_at t slot ≫= λ curr,
  unwrap POverflow (slab_insert (t_entries t) (Entry_new state tick (w_head curr)))
    ≫= λ '(key, es),
  let token := token_from_usize key in
  let t := with_entries t es in
  (if bool_decide (w_head curr ≠ EMPTY) then set_prev t (w_head curr) token
   else Done t) ≫= λ t,
  wheel_set t slot (mkWheel (N.min tick (w_next_tick curr)) token) ≫= λ t,
  Done (token, t).

Lemma insert_unfold t tick state :
  insert t tick state =
  insert_entry t tick state ≫= λ '(token, t),
  schedule_readiness t tick ≫= λ t, Done (mkTimeout token tick, t).
Proof.
  unfold insert, insert_entry. destruct (wheel_at _ _); cbn; [|done..].
  destruct (slab_insert _ _) as [[? ?]|]; cbn; [|done].
  destruct (bool_decide _); cbn; [destruct (set_prev _ _ _); cbn; [|done..]|];
    by destruct (wheel_set _ _ _).
Qed.

Lemma links_of_insert_fresh m k e x :
  m !! token_val k = None →
  links_of (<[token_val k := e]> m) x =
  if decide (x = k) then Some (link_pair e) else links_of m x.
Proof. intros _. apply links_of_insert. Qed.

(** The memory after an insertion at the head [h] of the slot. *)
Lemma insert_entry_Done t ch tick state key es w :
  wheel_inv t ch → nth64 (t_wheel t) (slot_for t tick) = Some w →
  slab_insert (t_entries t) (Entry_new state tick (w_head w)) = Some (key, es) →
  let k := token_from_usize key in let h := w_head w in
  ∃ t2, insert_entry t tick state = Done (k, t2) ∧
    same_clock t t2 ∧ t_next t2 = t_next t ∧
    content t !! key = None ∧ key < N.ones 63 ∧
    content t2 = <[key := (tick, state)]> (content t) ∧
    t_wheel t2 = set64 (t_wheel t) (slot_for t tick)
                   (mkWheel (N.min tick (w_next_tick w)) k) ∧
    ∀ x, links_of (ents t2) x =
      if decide (x = k) then Some (EMPTY, h)
      else if decide (x = h ∧ h ≠ EMPTY) then (λ '(_, b), (k, b)) <$> links_of (ents t) x
      else links_of (ents t) x.
Proof.
  intros Hi Ew Eins k h.
  destruct (slab_map_insert _ _ _ _ Eins) as (Hkey & Hfresh & Ees).
  assert (content t !! key = None) as Hnone by (rewrite lookup_content; unfold ents; by rewrite Hfresh).
  set (ta := with_entries t es).
  assert (ents ta = <[key := Entry_new state tick h]> (ents t)) as Ea by exact Ees.
  destruct (unlink_right ta k h) as (tb & Eb & Cb & Nb & Db & Wb & Lb).
  { intros Hh. destruct (wi_list _ _ Hi _ _ Ew) as [q Hs].
    assert (h ∈ ch (slot_for t tick)) as Hin.
    { destruct (ch (slot_for t tick)) as [|y l]; cbn in Hs; [by destruct Hs|].
      destruct Hs as [E _]. unfold h. rewrite E. set_solver. }
    apply (member_ents _ _ _ _ Hi) in Hin as [eh Eh]. rewrite Ea.
    destruct (decide (key = token_val h)) as [->|]; [by rewrite lookup_insert_eq|].
    rewrite lookup_insert_ne by done. eauto. }
  assert (nth64 (t_wheel tb) (slot_for t tick) = Some w) as Ewb by by rewrite Wb.
  exists (with_wheel tb (set64 (t_wheel tb) (slot_for t tick)
                   (mkWheel (N.min tick (w_next_tick w)) k))).
  assert (content (with_wheel tb (set64 (t_wheel tb) (slot_for t tick)
                   (mkWheel (N.min tick (w_next_tick w)) k))) = content tb) as Ec by done.
  split; [|split; [destruct Cb; by split|split; [done|]]].
  - unfold insert_entry. rewrite N.land_comm. fold (slot_for t tick).
    rewrite (wheel_at_Done _ _ _ Ew); cbn [mbind exec_bind]. rewrite Eins.
    cbn [unwrap mbind exec_bind]. fold k h ta. rewrite Eb. cbn [mbind exec_bind].
    by rewrite (wheel_set_Done _ _ _ _ Ewb).
  - split; [done|]. split; [done|]. split; [|split].
    + rewrite Ec, Db. unfold content. by rewrite Ea, fmap_insert.
    + cbn. by rewrite Wb.
    + intros x. transitivity (links_of (ents tb) x); [done|]. rewrite Lb, Ea.
      change key with (token_val k) at 1 2. rewrite !links_of_insert.
      destruct (decide (x = k)) as [->|Hxk]; [|done].
      destruct (decide (k = h ∧ h ≠ EMPTY)) as [[E Hh]|]; [|done].
      exfalso. destruct (wi_list _ _ Hi _ _ Ew) as [q Hs].
      destruct (ch (slot_for t tick)) as [|y l] eqn:Ech; cbn in Hs; [by destruct Hs|].
      destruct Hs as [Ey _]. fold h in Ey.
      assert (k ∈ ch (slot_for t tick)) as Hin by (rewrite Ech, E, Ey; set_solver).
      apply (member_ents _ _ _ _ Hi) in Hin. apply content_is_Some in Hin.
      unfold k in Hin. cbn in Hin. rewrite Hnone in Hin. by destruct Hin.
Qed.

(** The lists of the slots after the insertion of [k] in front of slot [i0]. *)
Lemma insert_lists t ch k m2 i0 i w :
  wheel_inv t ch → (∀ i, k ∉ ch i) → k ≠ EMPTY →
  (∀ w0, nth64 (t_wheel t) i0 = Some w0 → ∀ x, links_of m2 x =
      if decide (x = k) then Some (EMPTY, w_head w0)
      else if decide (x = w_head w0 ∧ w_head w0 ≠ EMPTY)
      then (λ '(_, b), (k, b)) <$> links_of (ents t) x else links_of (ents t) x) →
  is_Some (nth64 (t_wheel t) i0) → nth64 (t_wheel t) i = Some w →
  ∃ q, dseg EMPTY (links_of m2) EMPTY (if decide (i = i0) then k else w_head w) q EMPTY
         (push_key i0 k ch i).
Proof.
  intros Hi Hfresh HkE Hl [w0 Ew0] Ew. specialize (Hl w0 Ew0). unfold push_key.
  destruct (decide (i = i0)) as [->|Hne].
  - rewrite Ew0 in Ew. injection Ew as ->.
    destruct (wi_list _ _ Hi _ _ Ew0) as [q Hs].
    eapply dseg_push; [done|done| | | |apply (wi_nodup _ _ Hi)|exact Hs].
    + rewrite Hl. by rewrite decide_True.
    + intros x Hxk Hxh. rewrite Hl. by rewrite !decide_False by naive_solver.
    + intros Hh. rewrite Hl. rewrite decide_False; [by rewrite decide_True|].
      intros E. apply (Hfresh i0). rewrite <- E.
      destruct (ch i0); cbn in Hs; [by destruct Hs|]. destruct Hs as [-> _]. set_solver.
  - destruct (wi_list _ _ Hi _ _ Ew) as [q Hs]. exists q.
    eapply dseg_frame; [|exact Hs]. intros x Hx. rewrite Hl.
    rewrite decide_False by (by intros ->; apply (Hfresh i)).
    rewrite decide_False; [done|]. intros [-> Hh].
    destruct (wi_list _ _ Hi _ _ Ew0) as [q0 Hs0].
    assert (w_head w0 ∈ ch i0) as Hin0.
    { destruct (ch i0); cbn in Hs0; [by destruct Hs0|]. destruct Hs0 as [-> _]. set_solver. }
    destruct (member_ents _ _ _ _ Hi Hx) as [e Ee]. apply Hne.
    rewrite (member_slot _ _ _ _ _ Hi Ee Hx). symmetry. by eapply member_slot.
Qed.

(** Membership after an insertion. *)
Lemma push_key_mem t t2 ch k tick state :
  wheel_inv t ch → t_mask t2 = t_mask t → content t !! token_val k = None →
  content t2 = <[token_val k := (tick, state)]> (content t) →
  ∀ i x, x ∈ push_key (slot_for t tick) k ch i ↔
    ∃ d s, content t2 !! token_val x = Some (d, s) ∧ slot_for t2 d = i.
Proof.
  intros Hi Em Hn Ec i x. setoid_rewrite (slot_for_clock t t2 _ Em). rewrite Ec.
  destruct (decide (x = k)) as [->|Hne].
  - rewrite lookup_insert_eq. unfold push_key. split.
    + intros Hin. exists tick, state. split; [done|]. case_decide; [done|].
      apply (member_ents _ _ _ _ Hi), content_is_Some in Hin. rewrite Hn in Hin. by destruct Hin.
    + intros (d & s & [= <- <-] & <-). rewrite decide_True by done. set_solver.
  - rewrite lookup_insert_ne by (by intros ?%token_val_inj).
    rewrite <- (wi_mem _ _ Hi). unfold push_key. case_decide; [|done]. set_solver.
Qed.

(** The invariant after an insertion. *)
Lemma insert_entry_spec t ch tick state key es w :
  wheel_inv t ch → nth64 (t_wheel t) (slot_for t tick) = Some w →
  slab_insert (t_entries t) (Entry_new state tick (w_head w)) = Some (key, es) →
  let k := token_from_usize key in
  let ch2 := push_key (slot_for t tick) k ch in
  ∃ t2, insert_entry t tick state = Done (k, t2) ∧
    same_clock t t2 ∧ t_next t2 = t_next t ∧
    content t !! key = None ∧ content t2 = <[key := (tick, state)]> (content t) ∧
    wheel_inv t2 ch2 ∧ to_visit t2 ch2 = to_visit t ch ∧
    ∀ i w2, nth64 (t_wheel t2) i = Some w2 →
      ∃ w, nth64 (t_wheel t) i = Some w ∧
           w_next_tick w2 = if decide (i = slot_for t tick)
                            then N.min tick (w_next_tick w) else w_next_tick w.
Proof.
  intros Hi Ew Eins k ch2.
  destruct (insert_entry_Done _ _ _ _ _ _ _ Hi Ew Eins)
    as (t2 & E2 & Ck & En & Hnone & Hkey & Ec & Ewh & El). fold k in E2, Ewh, El.
  set (i0 := slot_for t tick) in *.
  pose proof Ck as [_ _ Etk Emk _].
  assert (∀ x, slot_for t2 x = slot_for t x) as Hsl by (intros x; by apply slot_for_clock).
  assert (∀ i, k ∉ ch i) as Hfresh.
  { intros i Hin. apply (member_ents _ _ _ _ Hi), content_is_Some in Hin.
    unfold k in Hin; cbn in Hin. rewrite Hnone in Hin. by destruct Hin. }
  assert (k ≠ EMPTY) as HkE by (intros [= E]; rewrite E in Hkey; by vm_compute in Hkey).
  assert (i0 < N.of_nat (length (t_wheel t))) as Hi0 by by eapply slot_lt.
  assert (∀ i w2, nth64 (t_wheel t2) i = Some w2 → ∃ w', nth64 (t_wheel t) i = Some w' ∧
    w2 = if decide (i = i0) then mkWheel (N.min tick (w_next_tick w')) k else w') as Hw2.
  { intros i w2. rewrite Ewh. destruct (decide (i = i0)) as [->|Hne].
    - rewrite nth64_set64_eq by done. intros [= <-]. eauto.
    - rewrite nth64_set64_ne by done. eauto. }
  exists t2. repeat (split; [done|]).
  split; [split|split].
  - destruct (wi_size _ _ Hi) as (n & Em & Elen). exists n.
    rewrite Ewh, length_set64. split; congruence.
  - intros i w2 (w' & Ew' & ->)%Hw2.
    destruct (insert_lists t ch k (ents t2) i0 i w' Hi Hfresh HkE) as [q Hs];
      [|by eauto|done|].
    { intros w0 Ew0. rewrite Ew in Ew0. injection Ew0 as <-. exact El. }
    exists q. by destruct (decide (i = i0)).
  - intros i. unfold ch2, push_key.
    destruct (decide (i = i0)); [|apply (wi_nodup _ _ Hi)].
    constructor; [done|by apply (wi_nodup _ _ Hi)].
  - by eapply push_key_mem.
  - intros x. rewrite Ec. destruct (decide (x = key)) as [->|Hne]; [done|].
    rewrite lookup_insert_ne by done. apply (wi_keys _ _ Hi).
  - rewrite En, Hsl, Etk. destruct (wi_next _ _ Hi) as [E|Hin]; [by left|right].
    unfold ch2, push_key. destruct (decide _); [set_solver|done].
  - unfold to_visit. rewrite En, Hsl, Etk. unfold ch2, push_key.
    destruct (decide (_ = i0)); [|done]. cbn. rewrite decide_False; [done|].
    destruct (wi_next _ _ Hi) as [->|Hin]; [done|].
    intros E. rewrite <- E in Hin. by apply Hfresh in Hin.
  - intros i w2 (w' & Ew' & ->)%Hw2. exists w'. split; [done|].
    by destruct (decide (i = i0)).
Qed.
End TimerInv.
