(* ===== verification/TimerSpec.v ===== *)
(** * The timer wheel: behaviour

    Polling against the abstract content of the timer, a finite map from keys
    to deadlines and states.  [timely] is the scheduling invariant (no entry
    is behind the cursor) and [covers] the wakeup invariant (the slots store
    lower bounds of the deadlines the cursor has not yet to visit). *)
From S2P Require Import Prelude EventSet Duration LazyCell Interfaces Timer DList TimerInv.

Section TimerSpec.
Context {slab : Type → Type} {SO : SlabOps slab} {SL : SlabLaws slab}.
Context {W H : Type} {RO : ReadinessOps W H} {RL : ReadinessLaws W H}.
Context {T : Type}.
Implicit Types (t : Timer slab H T) (ch : N → list Token) (k : Token) (e : Entry T).

(** The keys of entries the cursor has missed; a timer that is only ever given
    deadlines ahead of its cursor has none. *)
Context (M : N → Prop).

Definition timely t ch : Prop :=
  ∀ x d s, content t !! x = Some (d, s) → ¬ M x →
    t_tick t <= d ∧ (d = t_tick t → mkToken x ∈ to_visit t ch).

Definition covers (skip : list Token) t ch : Prop :=
  ∀ i w k d s, nth64 (t_wheel t) i = Some w → k ∈ ch i →
    content t !! token_val k = Some (d, s) → k ∉ skip → w_next_tick w <= d.

Record good t ch : Prop := {
  g_inv : wheel_inv t ch;
  g_timely : timely t ch;
  g_covers : covers (to_visit t ch) t ch;
}.

Lemma covers_weaken skip skip' t ch :
  (∀ k, k ∈ skip → k ∈ skip') → covers skip t ch → covers skip' t ch.
Proof. intros Hs Hc i w k d s Ew Hk E Hn. eapply Hc; eauto. Qed.

(** The parts of the timer a poll leaves alone. *)
Definition same_setup t t' : Prop :=
  t_tick_ms t' = t_tick_ms t ∧ t_start t' = t_start t ∧
  t_mask t' = t_mask t ∧ t_inner t' = t_inner t.

Lemma EMPTY_not_member t ch i : wheel_inv t ch → EMPTY ∉ ch i.
Proof.
  intros Hi Hin. destruct (wi_mem _ _ Hi i EMPTY) as [Hm _].
  destruct (Hm Hin) as (d & s & E & _).
  apply (key_not_EMPTY t ch EMPTY); [done|by rewrite E; eauto|done].
Qed.

Lemma to_visit_EMPTY t ch : wheel_inv t ch → t_next t = EMPTY → to_visit t ch = [].
Proof.
  intros Hi E. unfold to_visit. rewrite E. apply from_not_in. by eapply EMPTY_not_member.
Qed.

Lemma ents_pending t x e d s :
  ents t !! x = Some e → content t !! x = Some (d, s) →
  d = l_tick (e_links e) ∧ s = e_state e.
Proof.
  intros Ee%ents_content Ed. rewrite Ee in Ed. unfold pending in Ed. by simplify_eq.
Qed.

(** Moving the cursor and the stored ticks keeps the lists. *)
Lemma wheel_inv_change t t' ch :
  wheel_inv t ch → t_mask t' = t_mask t → t_entries t' = t_entries t →
  length (t_wheel t') = length (t_wheel t) →
  (∀ i w', nth64 (t_wheel t') i = Some w' →
     ∃ w, nth64 (t_wheel t) i = Some w ∧ w_head w' = w_head w) →
  (t_next t' = EMPTY ∨ t_next t' ∈ ch (slot_for t' (t_tick t'))) →
  wheel_inv t' ch.
Proof.
  intros Hi Em Ee El Ew En.
  assert (content t' = content t) as Ec by (unfold content, ents; by rewrite Ee).
  assert (ents t' = ents t) as Es by (unfold ents; by rewrite Ee).
  split; [| |apply (wi_nodup _ _ Hi)| | |done].
  - rewrite Em, El. apply (wi_size _ _ Hi).
  - intros i w' (w & E & ->)%Ew. rewrite Es. by apply (wi_list _ _ Hi).
  - intros i k. rewrite Ec. setoid_rewrite (slot_for_clock t t' _ Em).
    apply (wi_mem _ _ Hi).
  - rewrite Ec. apply (wi_keys _ _ Hi).
Qed.

Lemma head_next t ch i w :
  wheel_inv t ch → nth64 (t_wheel t) i = Some w →
  w_head w = default EMPTY (head (ch i)) ∧ (w_head w = EMPTY ↔ ch i = []) .
Proof.
  intros Hi Ew. destruct (wi_list _ _ Hi _ _ Ew) as [q Hs].
  split; [by eapply dseg_first|by eapply dseg_nil_iff].
Qed.

Lemma nth64_set_tick t i j w x w' :
  nth64 (t_wheel t) i = Some w →
  nth64 (set64 (t_wheel t) i (mkWheel x (w_head w))) j = Some w' →
  ∃ w0, nth64 (t_wheel t) j = Some w0 ∧ w_head w' = w_head w0 ∧
        (j ≠ i → w' = w0) ∧ (j = i → w_next_tick w' = x).
Proof.
  intros Ew. destruct (decide (j = i)) as [->|Hne].
  - rewrite nth64_set64_eq by eauto with sickle. intros [= <-]. exists w. done.
  - rewrite nth64_set64_ne by done. intros E. exists w'. done.
Qed.

(** ** One iteration: the cursor enters the next slot *)

Lemma step_empty t ch :
  good t ch → t_next t = EMPTY → t_tick t + 1 <= u64_max →
  let t1 := with_tick t (t_tick t + 1) in
  let slot := slot_for t1 (t_tick t1) in
  ∃ w t2, wheel_at t1 slot = Done w ∧
    (if bool_decide (w_head w = EMPTY)
     then set_next_tick (with_next t1 (w_head w)) slot TICK_MAX
     else Done (with_next t1 (w_head w))) = Done t2 ∧
    wheel_inv t2 ch ∧ timely t2 ch ∧ covers [] t2 ch ∧
    t_entries t2 = t_entries t ∧ t_tick t2 = t_tick t + 1 ∧ same_setup t t2 ∧
    to_visit t2 ch = ch slot.
Proof.
  intros [Hi Ht Hc] En Hov t1 slot.
  destruct (slot_wheel _ _ (t_tick t + 1) Hi) as [w Ew].
  change (slot_for t (t_tick t + 1)) with slot in Ew.
  destruct (head_next _ _ _ _ Hi Ew) as [Eh Ehn].
  assert (w_head w = EMPTY ∨ w_head w ∈ ch slot) as Hhd.
  { destruct (ch slot); cbn in Eh; [by left|right]. rewrite Eh. set_solver. }
  assert (from (w_head w) (ch slot) = ch slot) as Hfrom.
  { destruct (ch slot) as [|y l]; [done|]. cbn in Eh. rewrite Eh. cbn. by rewrite decide_True. }
  pose proof (to_visit_EMPTY _ _ Hi En) as Hv. rewrite Hv in Hc.
  assert (∀ t2, t_entries t2 = t_entries t → t_tick t2 = t_tick t + 1 →
    t_mask t2 = t_mask t → t_next t2 = w_head w →
    timely t2 ch ∧ to_visit t2 ch = ch slot) as Ht2.
  { intros t2 E1 E2 E3 E4. assert (to_visit t2 ch = ch slot) as Ev.
    { unfold to_visit. rewrite E4, (slot_for_clock t t2), E2 by done. exact Hfrom. }
    split; [|done]. intros x d s E HM. rewrite Ev, E2.
    assert (content t !! x = Some (d, s)) as E' by (revert E; unfold content, ents; by rewrite E1).
    destruct (Ht x d s E' HM) as [Hd Hcur]. rewrite Hv in Hcur.
    destruct (decide (d = t_tick t)) as [->|Hne]; [by apply not_elem_of_nil in Hcur|].
    split; [lia|]. intros ->. apply (wi_mem _ _ Hi). by exists (t_tick t + 1), s. }
  exists w. case_bool_decide as E.
  - rewrite (set_next_tick_Done (with_next t1 (w_head w)) slot w TICK_MAX Ew).
    eexists. split; [exact (wheel_at_Done t1 _ _ Ew)|]. split; [done|]. split.
    { apply (wheel_inv_change t); [done|done|done| | |left; exact E].
      - apply length_set64.
      - intros i w' (w0 & ? & ? & _)%(nth64_set_tick _ _ _ _ _ _ Ew). eauto. }
    edestruct Ht2 as [H1 H2]; [| | | |split; [exact H1|split; [|by split_and!]]]; [done..|].
    intros i w' k d s (w0 & Ew0 & _ & Hoth & Hsame)%(nth64_set_tick _ _ _ _ _ _ Ew) Hk Ed _.
    destruct (decide (i = slot)) as [->|Hne].
    + destruct Ehn as [Ehn _]. rewrite (Ehn E) in Hk. by apply not_elem_of_nil in Hk.
    + rewrite Hoth by done. apply (Hc i w0 k d s); [done|done|exact Ed|set_solver].
  - eexists. split; [exact (wheel_at_Done t1 _ _ Ew)|]. split; [done|]. split.
    { apply (wheel_inv_change t); [done|done|done|done|eauto|]. destruct Hhd; [by left|by right]. }
    edestruct Ht2 as [H1 H2]; [| | | |split; [exact H1|split; [|by split_and!]]]; [done..|].
    intros i w' k d s Ew' Hk Ed _.
    apply (Hc i w' k d s); [exact Ew'|done|exact Ed|set_solver].
Qed.

(** ** One iteration: the cursor is at an entry *)

Definition cur_slot t : N := slot_for t (t_tick t).

(** The entry under the cursor, and what is left of its list. *)
Lemma cursor_entry t ch :
  wheel_inv t ch → t_next t ≠ EMPTY →
  ∃ e l1 l2 w, ents t !! token_val (t_next t) = Some e ∧
    cur_slot t = slot_for t (l_tick (e_links e)) ∧
    nth64 (t_wheel t) (cur_slot t) = Some w ∧
    ch (cur_slot t) = l1 ++ t_next t :: l2 ∧ NoDup (l1 ++ t_next t :: l2) ∧
    to_visit t ch = t_next t :: l2 ∧ l_next (e_links e) = default EMPTY (head l2).
Proof.
  intros Hi Hn. destruct (wi_next _ _ Hi) as [|Hin]; [done|].
  destruct (member_ents _ _ _ _ Hi Hin) as [e Ee].
  pose proof (member_slot _ _ _ _ _ Hi Ee Hin) as Esl.
  destruct (entry_split _ _ _ _ Hi Ee) as (l1 & l2 & w & q & Ech & Ew & Hs & Hnd).
  destruct (dseg_neighbours _ _ _ _ _ _ _ _ _ Hs (links_of_Some _ _ _ Ee)) as (_ & _ & Eh).
  rewrite <- Esl in Ech, Ew. exists e, l1, l2, w. split_and!; try done.
  unfold to_visit. rewrite Ech. apply from_app.
  apply NoDup_app in Hnd as (_ & Hd & _). intros Hin1. apply (Hd _ Hin1). set_solver.
Qed.

Lemma step_reset t ch w :
  good t ch → t_next t ≠ EMPTY → nth64 (t_wheel t) (cur_slot t) = Some w →
  ∃ t1,
    (if bool_decide (t_next t = w_head w) then set_next_tick t (cur_slot t) TICK_MAX
     else Done t) = Done t1 ∧
    good t1 ch ∧ t_entries t1 = t_entries t ∧ t_tick t1 = t_tick t ∧
    t_next t1 = t_next t ∧ same_setup t t1.
Proof.
  intros [Hi Ht Hc] Hn Ew. case_bool_decide as E; [|by exists t].
  rewrite (set_next_tick_Done _ _ _ _ Ew). eexists; split; [done|].
  split; [|by split_and!]. split; [|exact Ht|].
  - apply (wheel_inv_change t); [done|done|done| | |apply (wi_next _ _ Hi)].
    + apply length_set64.
    + intros i w' (w0 & ? & ? & _)%(nth64_set_tick _ _ _ _ _ _ Ew). eauto.
  - intros i w' k d s (w0 & Ew0 & _ & Hoth & _)%(nth64_set_tick _ _ _ _ _ _ Ew) Hk Ed Hv.
    destruct (decide (i = cur_slot t)) as [->|Hne].
    + exfalso. apply Hv. unfold to_visit; cbn. fold (cur_slot t).
      destruct (head_next _ _ _ _ Hi Ew) as [Eh _]. rewrite E, Eh.
      change (slot_for _ (t_tick t)) with (cur_slot t).
      destruct (ch (cur_slot t)) as [|y l]; [done|]. cbn. by rewrite decide_True.
    + rewrite Hoth by done. apply (Hc i w0 k d s); [done|done|exact Ed|exact Hv].
Qed.

Lemma step_advance t ch e :
  good t ch → t_next t ≠ EMPTY → ents t !! token_val (t_next t) = Some e →
  t_tick t < l_tick (e_links e) →
  ∃ w t1, wheel_at t (cur_slot t) = Done w ∧
    set_next_tick t (cur_slot t) (N.min (w_next_tick w) (l_tick (e_links e))) = Done t1 ∧
    let t2 := with_next t1 (l_next (e_links e)) in
    good t2 ch ∧ t_entries t2 = t_entries t ∧ t_tick t2 = t_tick t ∧
    same_setup t t2 ∧ to_visit t ch = t_next t :: to_visit t2 ch.
Proof.
  intros [Hi Ht Hc] Hn Ee Hlt.
  destruct (cursor_entry _ _ Hi Hn) as (e' & l1 & l2 & w & Ee' & Esl & Ew & Ech & Hnd & Ev & El).
  assert (e' = e) as -> by congruence.
  exists w. rewrite (set_next_tick_Done _ _ _ _ Ew). eexists.
  split; [by apply wheel_at_Done|]. split; [done|]. intros t2.
  assert (to_visit t2 ch = l2) as Ev2.
  { unfold to_visit. change (from (l_next (e_links e)) (ch (cur_slot t)) = l2).
    rewrite Ech, El. pose proof Hnd as (_ & Hd & [Hk2 _]%NoDup_cons)%NoDup_app.
    destruct l2 as [|b l2]; cbn.
    - apply from_not_in. rewrite <- Ech. by eapply EMPTY_not_member.
    - change (l1 ++ t_next t :: b :: l2) with (l1 ++ [t_next t] ++ b :: l2).
      rewrite app_assoc. apply from_app. rewrite elem_of_app, list_elem_of_singleton.
      intros [Hb| ->]; [apply (Hd b Hb); set_solver|apply Hk2; set_solver]. }
  split; [split|by rewrite Ev, Ev2].
  - apply (wheel_inv_change t); [done|done|done| | |].
    + apply length_set64.
    + intros i w' (w0 & ? & ? & _)%(nth64_set_tick _ _ _ _ _ _ Ew). eauto.
    + change (l_next (e_links e) = EMPTY ∨ l_next (e_links e) ∈ ch (cur_slot t)).
      rewrite El, Ech. destruct l2; [by left|right]. set_solver.
  - intros x d s Ed HM. destruct (Ht x d s Ed HM) as [Hd Hcur]. split; [exact Hd|].
    intros E. specialize (Hcur E). rewrite Ev in Hcur. rewrite Ev2.
    apply elem_of_cons in Hcur as [E'|]; [|done]. exfalso.
    rewrite <- E' in Ee. destruct (ents_pending t x e d s Ee Ed) as [-> _].
    change (l_tick (e_links e) = t_tick t) in E. lia.
  - intros i w' k d s (w0 & Ew0 & _ & Hoth & Hsame)%(nth64_set_tick _ _ _ _ _ _ Ew) Hk Ed Hv.
    rewrite Ev2 in Hv.
    destruct (decide (i = cur_slot t)) as [->|Hne].
    + rewrite Hsame by done. rewrite Ew in Ew0. injection Ew0 as <-.
      destruct (decide (k = t_next t)) as [->|Hk'].
      * destruct (ents_pending t _ e d s Ee Ed) as [-> _]. lia.
      * assert (w_next_tick w <= d); [|lia]. apply (Hc (cur_slot t) w k d s); [done|done|exact Ed|].
        rewrite Ev. set_solver.
    + rewrite Hoth by done. apply (Hc i w0 k d s); [done|done|exact Ed|]. rewrite Ev.
      intros [->|]%elem_of_cons; [|done].
      apply Hne. rewrite Esl. by eapply member_slot.
Qed.

Lemma detach_good t t2 ch k :
  good t ch → wheel_inv t2 (remove_key k ch) → t_tick t2 = t_tick t →
  content t2 = delete (token_val k) (content t) →
  to_visit t2 (remove_key k ch) = filter (λ x, x ≠ k) (to_visit t ch) →
  (∀ i w2, nth64 (t_wheel t2) i = Some w2 →
      ∃ w, nth64 (t_wheel t) i = Some w ∧ w_next_tick w2 = w_next_tick w) →
  good t2 (remove_key k ch).
Proof.
  intros [Hi Ht Hc] Hi2 Etk Ec Ev Ew. split; [done| |].
  - intros x d s E HM. rewrite Ec in E. apply lookup_delete_Some in E as [Hne E].
    rewrite Etk, Ev. destruct (Ht x d s E HM) as [Hd Hcur]. split; [done|].
    intros E'. apply list_elem_of_filter. split; [|by apply Hcur]. intros <-. by apply Hne.
  - intros i w2 x d s (w & Ew' & ->)%Ew Hx E Hv. rewrite Ec in E.
    apply lookup_delete_Some in E as [Hne E].
    apply (Hc i w x d s); [done|by apply list_elem_of_filter in Hx as [_ ?]|done|].
    intros Hin. apply Hv. rewrite Ev. apply list_elem_of_filter. split; [|done].
    intros ->. done.
Qed.

(** ** The loop of [poll_to] *)

(** What a poll up to [target] promises: the earliest pending timeout when it
    is due, and nothing when none is. *)
Definition poll_result (target : Tick) t (r : option T) t' ch' : Prop :=
  same_setup t t' ∧ good t' ch' ∧
  match r with
  | Some s => ∃ x d, content t !! x = Some (d, s) ∧ d <= target ∧
      d <= t_tick t' ∧ (¬ M x → t_tick t' = d) ∧
      content t' = delete x (content t) ∧
      ∀ x' d' s', content t !! x' = Some (d', s') → ¬ M x' → d <= d'
  | None => content t' = content t ∧ t_tick t' = target + 1 ∧ covers [] t' ch' ∧
      ∀ x d s, content t !! x = Some (d, s) → ¬ M x → target < d
  end.

Definition iterations t ch (target : Tick) : nat :=
  N.to_nat (target + 1 - t_tick t) * S (size (content t)) + length (to_visit t ch).

Lemma chain_length t ch i : wheel_inv t ch → (length (ch i) <= size (content t))%nat.
Proof.
  intros Hi. rewrite <- (length_fmap token_val), <- size_dom.
  rewrite <- (size_list_to_set (C:=gset N)).
  - apply subseteq_size. intros x. rewrite elem_of_list_to_set, list_elem_of_fmap.
    intros (k & -> & Hk). apply elem_of_dom, content_is_Some. by eapply member_ents.
  - apply NoDup_fmap_2; [|apply (wi_nodup _ _ Hi)]. intros ??. apply token_val_inj.
Qed.

Lemma poll_result_trans target t t1 r t' ch' :
  same_setup t t1 → content t1 = content t →
  poll_result target t1 r t' ch' → poll_result target t r t' ch'.
Proof.
  intros (? & ? & ? & ?) Ec [(? & ? & ? & ?) [Hg Hr]].
  split; [split_and!; congruence|]. split; [done|]. rewrite <- Ec. exact Hr.
Qed.

Lemma content_entries t t' : t_entries t' = t_entries t → content t' = content t.
Proof. intros E. unfold content, ents. by rewrite E. Qed.

Lemma cursor_visit t ch : wheel_inv t ch → t_next t ≠ EMPTY → t_next t ∈ to_visit t ch.
Proof.
  intros Hi Hn. destruct (cursor_entry t ch Hi Hn) as (? & ? & ? & ? & _ & _ & _ & _ & _ & -> & _).
  set_solver.
Qed.

(** The cursor is at an expired entry: it is unlinked and returned. *)
Lemma step_expire t ch e target :
  good t ch → t_next t ≠ EMPTY → ents t !! token_val (t_next t) = Some e →
  l_tick (e_links e) <= t_tick t → t_tick t <= target →
  ∃ t1 t2 ch', unlink t (e_links e) (t_next t) = Done t1 ∧
    remove_entry t1 (t_next t) = Done (e_state e, t2) ∧
    poll_result target t (Some (e_state e)) t2 ch' ∧
    content t2 = delete (token_val (t_next t)) (content t).
Proof.
  intros Hg Hn Ee Hle Htg. pose proof Hg as [Hi Ht Hc].
  destruct (detach_spec _ _ _ _ Hi Ee)
    as (t1 & t2 & Eu & Er & Ck & Ec & _ & Hi2 & Ev & Ew).
  pose proof Ck as [? ? Etk ? ?].
  exists t1, t2, (remove_key (t_next t) ch). split; [done|]. split; [done|].
  split; [|done]. split; [by split_and!|]. split; [by eapply detach_good|].
  pose proof (ents_content _ _ _ Ee) as Ecn.
  exists (token_val (t_next t)), (l_tick (e_links e)).
  split_and!; [done|lia|lia| |done|].
  - intros HM. destruct (Ht _ _ _ Ecn HM) as [Hd _]. lia.
  - intros x' d' s' E' HM. destruct (Ht _ _ _ E' HM) as [Hd _]. lia.
Qed.

(** No timeout is due by [target] and the cursor is past it. *)
Definition exhausted t ch (target : Tick) : Prop :=
  t_tick t = target + 1 ∧ covers [] t ch ∧
  ∀ x d s, content t !! x = Some (d, s) → ¬ M x → target < d.

(** One iteration either goes on from a state closer to the end, or returns. *)
Definition progress t ch (target : Tick) : Prop :=
  (∃ t2, (∀ fuel, poll_loop (S fuel) target t = poll_loop fuel target t2) ∧
     good t2 ch ∧ content t2 = content t ∧ same_setup t t2 ∧
     (iterations t2 ch target < iterations t ch target)%nat ∧
     (t_tick t2 <= target ∨ exhausted t2 ch target) ∧
     (∀ k, k ∈ to_visit t2 ch → k ∈ to_visit t ch ∨ k ∈ ch (slot_for t (t_tick t2))
        ∧ t_tick t < t_tick t2) ∧
     t_tick t <= t_tick t2 <= target + 1) ∨
  (∃ s t' ch', (∀ fuel, poll_loop (S fuel) target t = Done (Some s, t')) ∧
     poll_result target t (Some s) t' ch' ∧
     ∃ k, k ∈ to_visit t ch ∧ content t' = delete (token_val k) (content t)).

Lemma progress_empty t ch target :
  good t ch → target < u64_max → t_tick t <= target → t_next t = EMPTY →
  progress t ch target.
Proof.
  intros Hg Htg Hle En. pose proof (g_inv _ _ Hg) as Hi.
  destruct (step_empty t ch Hg En)
    as (w & t2 & Ew & E2 & Hi2 & Ht2 & Hc2 & Ees & Etk & Hss & Ev); [lia|].
  pose proof (content_entries _ _ Ees) as Ec.
  pose proof (to_visit_EMPTY _ _ Hi En) as Hv.
  left. exists t2.
  split; [|split; [split; [done|done|]|split; [done|split; [done|split; [|split]]]]].
  - intros fuel. cbn [poll_loop]. rewrite (proj2 (N.leb_le _ _)) by done.
    rewrite bool_decide_eq_true_2 by done.
    rewrite add64_ok by lia. cbn [mbind exec_bind]. rewrite Ew. cbn [mbind exec_bind].
    change (t_next (with_next _ ?k)) with k. by rewrite E2.
  - eapply covers_weaken; [|exact Hc2]. set_solver.
  - unfold iterations. rewrite Ev, Ec, Etk, Hv. cbn [length].
    pose proof (chain_length t ch (slot_for (with_tick t (t_tick t + 1)) (t_tick t + 1)) Hi).
    cbn [t_tick with_tick] in *.
    replace (N.to_nat (target + 1 - t_tick t))
      with (S (N.to_nat (target + 1 - (t_tick t + 1)))) by lia. lia.
  - rewrite Etk. destruct (decide (t_tick t + 1 <= target)); [by left|right].
    split; [lia|]. split; [done|]. intros x d s E HM. rewrite Ec in E.
    destruct (g_timely _ _ Hg x d s E HM) as [Hd Hcur]. rewrite Hv in Hcur.
    destruct (decide (d = t_tick t)) as [->|]; [|lia]. specialize (Hcur eq_refl). set_solver.
  - rewrite Ev, Etk. split; [|lia]. intros k Hk. right. split; [exact Hk|lia].
Qed.

Lemma progress_visit t ch target :
  good t ch → t_tick t <= target → t_next t ≠ EMPTY → progress t ch target.
Proof.
  intros Hg Hle En.
  destruct (cursor_entry t ch (g_inv _ _ Hg) En) as (e & l1 & l2 & w & Ee & _ & Ew & _).
  destruct (step_reset t ch w Hg En Ew) as (t1 & E1 & Hg1 & Ees1 & Etk1 & Enx1 & Hss1).
  assert (ents t1 = ents t) as Ens1 by (unfold ents; by rewrite Ees1).
  assert (cur_slot t1 = cur_slot t) as Ecs.
  { unfold cur_slot. rewrite Etk1. apply slot_for_clock. by destruct Hss1 as (_ & _ & ? & _). }
  assert (∀ fuel, poll_loop (S fuel) target t =
    if l_tick (e_links e) <=? t_tick t1
    then unlink t1 (e_links e) (t_next t1) ≫= λ t, remove_entry t (t_next t1) ≫=
         λ '(state, t), Done (Some state, t)
    else wheel_at t1 (cur_slot t1) ≫= λ w,
         set_next_tick t1 (cur_slot t1) (N.min (w_next_tick w) (l_tick (e_links e))) ≫=
         λ t, poll_loop fuel target (with_next t (l_next (e_links e)))) as Eloop.
  { intros fuel. cbn [poll_loop]. rewrite (proj2 (N.leb_le _ _)) by done.
    rewrite bool_decide_eq_false_2 by done. fold (cur_slot t).
    rewrite (wheel_at_Done _ _ _ Ew). cbn [mbind exec_bind]. rewrite E1. cbn [mbind exec_bind].
    rewrite <- Ens1 in Ee. rewrite (entry_at_Done _ _ _ Ee). cbn [mbind exec_bind].
    by rewrite Enx1, Ecs. }
  rewrite <- Enx1, <- Ens1 in Ee. rewrite <- Enx1 in En.
  assert (to_visit t ch = to_visit t1 ch) as Evt
    by (unfold to_visit; rewrite Enx1; fold (cur_slot t1) (cur_slot t); by rewrite Ecs).
  destruct (l_tick (e_links e) <=? t_tick t1) eqn:Edue; nbool.
  - right. destruct (step_expire t1 ch e target Hg1 En Ee Edue)
      as (t2 & t3 & ch' & Eu & Er & Hr & Ecd); [lia|].
    exists (e_state e), t3, ch'. split.
    + intros fuel. rewrite Eloop, Eu. cbn [mbind exec_bind]. by rewrite Er.
    + split; [eapply poll_result_trans; [done|by apply content_entries|done]|].
      exists (t_next t1). split; [rewrite Evt; apply cursor_visit; [exact (g_inv _ _ Hg1)|exact En]|].
      by rewrite Ecd, (content_entries _ _ Ees1).
  - left. destruct (step_advance t1 ch e Hg1 En Ee Edue)
      as (w1 & t2 & Ew1 & E2 & Hg2 & Ees2 & Etk2 & Hss2 & Ev2).
    exists (with_next t2 (l_next (e_links e))).
    pose proof (content_entries _ _ Ees1) as Ec1. pose proof (content_entries _ _ Ees2) as Ec2.
    split; [|split; [done|split; [congruence|split; [|split; [|split; [|split]]]]]].
    + intros fuel. rewrite Eloop, Ew1. cbn [mbind exec_bind]. by rewrite E2.
    + destruct Hss1 as (?&?&?&?), Hss2 as (?&?&?&?). split_and!; congruence.
    + unfold iterations. rewrite Ec2, Ec1, Etk2, Etk1.
      rewrite Evt, Ev2. cbn [length]. lia.
    + left. rewrite Etk2, Etk1. done.
    + intros k Hk. left. rewrite Evt, Ev2. set_solver.
    + lia.
Qed.

Lemma poll_loop_spec fuel t ch target :
  good t ch → target < u64_max →
  (t_tick t <= target ∨ exhausted t ch target) →
  (iterations t ch target < fuel)%nat →
  ∃ r t' ch', poll_loop fuel target t = Done (r, t') ∧ poll_result target t r t' ch'.
Proof.
  revert t. induction fuel as [|fuel IH]; intros t Hg Htg Hpos Hfuel; [lia|].
  destruct (decide (t_tick t <= target)) as [Hle|Hgt].
  - assert (progress t ch target)
      as [(t2 & E & Hg2 & Ec & Hss & Hit & Hp & _)|(s & t' & ch' & E & Hr & _)].
    { destruct (decide (t_next t = EMPTY)); [by apply progress_empty|by apply progress_visit]. }
    + destruct (IH t2 Hg2 Htg Hp) as (r & t' & ch' & E2 & Hr); [lia|].
      exists r, t', ch'. rewrite E. split; [done|]. by eapply poll_result_trans.
    + exists (Some s), t', ch'. by rewrite E.
  - destruct Hpos as [|(E & Hc & Hd)]; [done|].
    exists None, t, ch. cbn [poll_loop]. rewrite (proj2 (N.leb_gt _ _)) by lia.
    split; [done|]. by split_and!.
Qed.

(** An entry outside the slots the cursor goes through is left pending. *)
Lemma poll_loop_skips fuel t ch target k r t' :
  good t ch → target < u64_max →
  (t_tick t <= target ∨ exhausted t ch target) →
  k ∉ to_visit t ch →
  (∀ x, t_tick t < x → x <= target + 1 → k ∉ ch (slot_for t x)) →
  poll_loop fuel target t = Done (r, t') →
  content t' !! token_val k = content t !! token_val k.
Proof.
  revert t. induction fuel as [|fuel IH]; intros t Hg Htg Hpos Hk Hsl E; [done|].
  destruct (decide (t_tick t <= target)) as [Hle|Hgt].
  - assert (progress t ch target)
      as [(t2 & El & Hg2 & Ec & Hss & _ & Hp & Hv & Hlo & Hhi)|
          (s & t2 & ch' & El & _ & k' & Hk' & Ec)].
    { destruct (decide (t_next t = EMPTY)); [by apply progress_empty|by apply progress_visit]. }
    + rewrite El in E. destruct Hss as (_ & _ & Em & _). rewrite <- Ec.
      apply (IH t2); try done.
      * intros [Hin|[Hin Hlt]]%Hv; [done|]. by apply (Hsl (t_tick t2)).
      * intros x Hx Hxt. rewrite (slot_for_clock t t2 _ Em). apply Hsl; lia.
    + rewrite El in E. injection E as <- <-. rewrite Ec. apply lookup_delete_ne.
      intros ?%token_val_inj. by subst.
  - cbn [poll_loop] in E. rewrite (proj2 (N.leb_gt _ _)) in E by lia. by injection E as <- <-.
Qed.
End TimerSpec.
