(* ===== verification/TimerProps.v ===== *)
(** * The timer wheel: properties of its operations

    The theorems about [Timer] a client relies on, stated on its [content].
    [ok M t] says that [t] is well formed and that only the entries whose keys
    are in [M] were inserted behind the cursor. *)
From S2P Require Import Prelude EventSet Duration LazyCell Interfaces.
From S2P Require Import Timer DList TimerInv TimerSpec.

Section TimerProps.
Context {slab : Type → Type} {SO : SlabOps slab} {SL : SlabLaws slab}.
Context {W H : Type} {RO : ReadinessOps W H} {RL : ReadinessLaws W H}.
Context {T : Type}.
Implicit Types (t : Timer slab H T) (ch : N → list Token) (k : Token) (e : Entry T).
Implicit Types (M : N → Prop) (w : W).

Definition ok M t : Prop := ∃ ch, good M t ch.

(** The registration of a registered timer is live. *)
Definition world_ok t w : Prop :=
  match t_inner t with Some i => rd_live w (i_handle i) | None => True end.

(** ** [schedule_readiness] *)

(** Lowering the wakeup word to [tick]. *)
Definition lower (tick : Tick) (i : Inner H) : Inner H :=
  if i_wakeup_state i <=? tick then i else mkInner (i_handle i) tick true.

Lemma schedule_readiness_Done t tick :
  schedule_readiness t tick = Done (with_inner t (lower tick <$> t_inner t)).
Proof.
  unfold schedule_readiness, borrow, lower. destruct t as [? ? ? ? ? ? ? [i|]]; cbn; [|done].
  destruct (_ <=? _); [done|]. by rewrite N.eqb_refl.
Qed.

Lemma lower_le tick i :
  i_wakeup_state (lower tick i) = N.min tick (i_wakeup_state i) ∧
  i_handle (lower tick i) = i_handle i.
Proof. unfold lower. destruct (_ <=? _) eqn:E; nbool; cbn; split; lia || done. Qed.

Lemma good_with_inner M t ch i : good M t ch → good M (with_inner t i) ch.
Proof. intros [[? ? ? ? ? ?] ? ?]. split; [by split|done..]. Qed.

Lemma world_ok_lower t w tick :
  world_ok t w → world_ok (with_inner t (lower tick <$> t_inner t)) w.
Proof.
  unfold world_ok. cbn. destruct (t_inner t) as [i|]; cbn; [|done].
  by rewrite (proj2 (lower_le _ _)).
Qed.

(** ** [next_tick] *)

Lemma foldr_min_le (x : N) xs y : y = x ∨ y ∈ xs → foldr N.min x xs <= y.
Proof.
  induction xs as [|z zs IH]; cbn.
  - intros [->|Hy]; [done|set_solver].
  - intros [->|[->|Hy]%elem_of_cons]; [specialize (IH (or_introl eq_refl))| |
      specialize (IH (or_intror Hy))]; lia.
Qed.

Lemma wheel_min_le t m i we :
  wheel_min t = Some m → nth64 (t_wheel t) i = Some we → m <= w_next_tick we.
Proof.
  unfold wheel_min, nth64. intros Em Ew.
  assert (w_next_tick we ∈ w_next_tick <$> t_wheel t) as Hin.
  { apply list_elem_of_fmap. exists we. split; [done|]. by eapply list_elem_of_lookup_2. }
  destruct (w_next_tick <$> t_wheel t) as [|x xs]; [done|]. injection Em as <-.
  apply foldr_min_le. by apply elem_of_cons in Hin.
Qed.

Lemma wheel_min_Some M t ch : good M t ch → is_Some (wheel_min t).
Proof.
  intros [Hi _ _]. pose proof (slot_lt t ch 0 Hi). unfold wheel_min.
  destruct (t_wheel t); cbn in *; [lia|eauto].
Qed.

(** When every slot is covered, [next_tick] bounds every pending deadline. *)
Lemma next_tick_spec M t ch :
  good M t ch → covers [] t ch →
  ∃ m, next_tick t = Done (Some m) ∧
       ∀ x d s, content t !! x = Some (d, s) → ¬ M x → m <= d.
Proof.
  intros Hg Hc. destruct (wheel_min_Some _ _ _ Hg) as [m Em].
  pose proof (g_inv _ _ _ Hg) as Hi.
  assert (∀ x d s, content t !! x = Some (d, s) → m <= d) as Hm.
  { intros x d s E. destruct (slot_wheel t ch d Hi) as [we Ew].
    etransitivity; [by eapply wheel_min_le|].
    eapply (Hc _ we (mkToken x) d s); [done| |done|set_solver].
    apply (wi_mem _ _ Hi). by exists d, s. }
  unfold next_tick. rewrite Em. case_bool_decide as En; [|by eauto].
  destruct (cursor_entry _ _ Hi En) as (e & l1 & l2 & we & Ee & Esl & Ew & _).
  rewrite (entry_at_Done _ _ _ Ee). cbn [mbind exec_bind]. rewrite <- Esl.
  rewrite (wheel_at_Done _ _ _ Ew). cbn [mbind exec_bind].
  destruct (w_next_tick we =? t_tick t); [|by eauto].
  exists (t_tick t). split; [done|]. intros x d s E HM.
  by apply (g_timely _ _ _ Hg x d s).
Qed.

(** ** The end of a poll *)

(** What an idle poll does to the registration: the readiness is cleared and
    the wakeup word is at most every pending deadline. *)
Definition armed M t t' (w' : W) : Prop :=
  match t_inner t, t_inner t' with
  | Some i, Some i' =>
      i_handle i' = i_handle i ∧ rd_readiness w' (i_handle i') = Ready.empty ∧
      i_wakeup_state i' <= i_wakeup_state i ∧
      ∀ x d s, content t !! x = Some (d, s) → ¬ M x → i_wakeup_state i' <= d
  | None, None => True
  | _, _ => False
  end.

Lemma poll_idle_spec M t ch w :
  good M t ch → covers [] t ch → world_ok t w →
  ∃ t' w', poll_idle t w = Done (t', w') ∧ good M t' ch ∧ world_ok t' w' ∧
    content t' = content t ∧ t_tick t' = t_tick t ∧ armed M t t' w'.
Proof.
  intros Hg Hc Hw. unfold poll_idle, borrow, world_ok, armed in *.
  destruct (t_inner t) as [i|] eqn:Ei; [|exists t, w; rewrite Ei; by split_and!].
  destruct (rd_set_live w (i_handle i) Ready.empty Hw) as (w' & -> & Hl & Hr); [done|].
  cbn [mbind exec_bind].
  destruct (next_tick_spec _ _ _ Hg Hc) as (m & -> & Hm). cbn [mbind exec_bind].
  rewrite schedule_readiness_Done, Ei. cbn [fmap option_fmap option_map mbind exec_bind].
  destruct (lower_le m i) as [E1 E2].
  exists (with_inner t (Some (lower m i))), w'. split; [done|].
  split; [by apply good_with_inner|]. cbn. rewrite E1, E2.
  split_and!; try done; [lia|]. intros x d s E HM. specialize (Hm x d s E HM). lia.
Qed.

(** ** Polling *)

Definition poll_target t (target : Tick) : Tick :=
  if target <? t_tick t then t_tick t else target.

Lemma poll_target_max t target : poll_target t target = N.max target (t_tick t).
Proof. unfold poll_target. destruct (_ <? _) eqn:E; nbool; lia. Qed.

(** Iterations that are enough for a poll: one per tick to go through and one
    per pending timeout in each of the slots. *)
Definition poll_fuel t (target : Tick) : nat :=
  N.to_nat (N.max target (t_tick t) + 2 - t_tick t) * S (size (content t)).

Lemma iterations_bound M t ch target :
  good M t ch → (iterations t ch (poll_target t target) < poll_fuel t target)%nat.
Proof.
  intros [Hi _ _]. unfold iterations, poll_fuel. rewrite poll_target_max.
  assert (length (to_visit t ch) <= size (content t))%nat.
  { etransitivity; [|by apply (chain_length t ch (slot_for t (t_tick t)))].
    unfold to_visit. generalize (ch (slot_for t (t_tick t))).
    induction l as [|x xs IH]; cbn; [lia|]. case_decide; cbn; lia. }
  replace (N.to_nat (N.max target (t_tick t) + 2 - t_tick t))
    with (S (N.to_nat (N.max target (t_tick t) + 1 - t_tick t))) by lia. lia.
Qed.

Lemma poll_to_spec M fuel t ch w target :
  good M t ch → world_ok t w → N.max target (t_tick t) < u64_max →
  (poll_fuel t target <= fuel)%nat →
  ∃ r t1 t' w' ch', poll_loop fuel (poll_target t target) t = Done (r, t1) ∧
    poll_to fuel t w target = Done (r, t', w') ∧
    poll_result M (poll_target t target) t r t1 ch' ∧
    good M t' ch' ∧ world_ok t' w' ∧ content t' = content t1 ∧ t_tick t' = t_tick t1 ∧
    match r with
    | Some _ => t' = t1 ∧ w' = w
    | None => armed M t1 t' w'
    end.
Proof.
  intros Hg Hw Htg Hfuel. pose proof (iterations_bound M t ch target Hg) as Hit.
  pose proof (poll_target_max t target) as Emax.
  destruct (poll_loop_spec M fuel t ch (poll_target t target) Hg)
    as (r & t1 & ch' & E & Hr); [lia|left; lia|lia|].
  pose proof Hr as ((? & ? & ? & Ein) & Hg' & Hm).
  assert (world_ok t1 w) as Hw1 by (unfold world_ok in *; by rewrite Ein).
  unfold poll_to. fold (poll_target t target). rewrite E. cbn [mbind exec_bind].
  destruct r as [s|].
  - exists (Some s), t1, t1, w, ch'. by split_and!.
  - destruct Hm as (Ec & Et & Hc & Hd).
    destruct (poll_idle_spec M t1 ch' w Hg' Hc Hw1) as (t' & w' & E' & ? & ? & ? & ? & ?).
    rewrite E'. exists None, t1, t', w', ch'. by split_and!.
Qed.

(** ** Cancelling *)

(** [cancel_timeout] removes the timeout it names and gives its state
    back; a handle whose entry is gone, or whose key was reused for another
    deadline, cancels nothing and changes nothing. *)
Lemma cancel_ok M t to :
  ok M t →
  ∃ r t', cancel_timeout t to = Done (r, t') ∧ ok M t' ∧ t_inner t' = t_inner t ∧
    t_tick t' = t_tick t ∧
    match content t !! token_val (timeout_token to) with
    | Some (d, s) =>
        if d =? timeout_tick to
        then r = Some s ∧ content t' = delete (token_val (timeout_token to)) (content t)
        else r = None ∧ t' = t
    | None => r = None ∧ t' = t
    end.
Proof.
  intros [ch Hg]. unfold cancel_timeout, token_into_usize. rewrite slab_map_get.
  set (k := timeout_token to). change (slab_map (t_entries t)) with (ents t).
  rewrite lookup_content. destruct (ents t !! token_val k) as [e|] eqn:Ee; cbn.
  2:{ exists None, t. split_and!; try done. by exists ch. }
  destruct (l_tick (e_links e) =? timeout_tick to) eqn:Etk; nbool.
  2:{ rewrite bool_decide_eq_true_2 by done. exists None, t. split_and!; try done. by exists ch. }
  rewrite bool_decide_eq_false_2 by tauto.
  destruct (detach_spec t ch k e (g_inv _ _ _ Hg) Ee)
    as (t1 & t2 & Eu & Er & [? ? ? ? ?] & Ec & _ & Hi2 & Ev & Ew).
  rewrite Eu. cbn [mbind exec_bind]. rewrite Er. cbn [mbind exec_bind].
  exists (Some (e_state e)), t2. split_and!; try done.
  exists (remove_key k ch). by eapply detach_good.
Qed.

(** ** Inserting *)

(** A new entry is missed when its deadline is not ahead of the cursor. *)
Definition missed_after t (tick : Tick) (key : N) M : N → Prop :=
  λ x, if decide (x = key) then tick <= t_tick t else M x.

Lemma good_push M t ch t2 tick (state : T) key :
  good M t ch → wheel_inv t2 (push_key (slot_for t tick) (mkToken key) ch) →
  t_tick t2 = t_tick t → t_mask t2 = t_mask t →
  content t2 = <[key := (tick, state)]> (content t) →
  to_visit t2 (push_key (slot_for t tick) (mkToken key) ch) = to_visit t ch →
  (∀ i we2, nth64 (t_wheel t2) i = Some we2 →
      ∃ we, nth64 (t_wheel t) i = Some we ∧
           w_next_tick we2 = if decide (i = slot_for t tick)
                            then N.min tick (w_next_tick we) else w_next_tick we) →
  good (missed_after t tick key M) t2 (push_key (slot_for t tick) (mkToken key) ch).
Proof.
  intros [Hi Ht Hc] Hi2 Etk Emk Ec Ev Ew. unfold missed_after. split; [done| |].
  - intros x d s E HM. rewrite Ec in E. rewrite Etk, Ev.
    destruct (decide (x = key)) as [->|Hne].
    + rewrite lookup_insert_eq in E. injection E as <- <-. lia.
    + rewrite lookup_insert_ne in E by done. by apply (Ht x d s).
  - intros i we2 k d s (we & Ew' & ->)%Ew Hk E Hv. rewrite Ev in Hv.
    destruct (decide (token_val k = key)) as [Ek|Hne].
    + destruct (wi_mem _ _ Hi2 i k) as [Hm _]. destruct (Hm Hk) as (d' & s' & E' & Es).
      rewrite Ec, Ek, lookup_insert_eq in E, E'. injection E as <- <-. injection E' as <- <-.
      rewrite (slot_for_clock t t2) in Es by done. rewrite decide_True by done. lia.
    + rewrite Ec, lookup_insert_ne in E by done. unfold push_key in Hk.
      assert (k ∈ ch i) as Hk'.
      { destruct (decide (i = _)); [|done]. apply elem_of_cons in Hk as [->|]; done. }
      specialize (Hc i we k d s Ew' Hk' E Hv). destruct (decide _); lia.
Qed.

(** [insert] allocates a vacant key, adds exactly the new deadline to the
    content, lowers the wakeup word to it, and is on time exactly when the
    deadline is ahead of the cursor; it fails only when the slab is full. *)
Lemma insert_good M t ch tick (state : T) :
  good M t ch →
  (∃ key t', insert t tick state = Done (mkTimeout (mkToken key) tick, t') ∧
     content t !! key = None ∧ content t' = <[key := (tick, state)]> (content t) ∧
     t_tick t' = t_tick t ∧ t_mask t' = t_mask t ∧ t_inner t' = lower tick <$> t_inner t ∧
     good (missed_after t tick key M) t' (push_key (slot_for t tick) (mkToken key) ch) ∧
     to_visit t' (push_key (slot_for t tick) (mkToken key) ch) = to_visit t ch) ∨
  (insert t tick state = Panic POverflow ∧
   ∃ e, slab_insert (t_entries t) e = None).
Proof.
  intros Hg. pose proof (g_inv _ _ _ Hg) as Hi.
  destruct (slot_wheel t ch tick Hi) as [we Ew].
  destruct (slab_insert (t_entries t) (Entry_new state tick (w_head we)))
    as [[key es]|] eqn:Eins.
  - left. destruct (insert_entry_spec _ _ _ _ _ _ _ Hi Ew Eins)
      as (t2 & E2 & [? ? ? ? Ein] & En & Hn & Ec & Hi2 & Ev & Ew2).
    rewrite insert_unfold, E2. cbn [mbind exec_bind].
    rewrite schedule_readiness_Done, Ein. cbn [mbind exec_bind].
    exists key, (with_inner t2 (lower tick <$> t_inner t)).
    split; [done|]. split_and!; try done.
    apply good_with_inner. by eapply good_push.
  - right. split; [|by eexists]. rewrite insert_unfold. unfold insert_entry.
    rewrite N.land_comm. fold (slot_for t tick). rewrite (wheel_at_Done _ _ _ Ew).
    cbn [mbind exec_bind]. by rewrite Eins.
Qed.

Lemma insert_ok M t tick (state : T) to t' :
  ok M t → insert t tick state = Done (to, t') →
  to = mkTimeout (timeout_token to) tick ∧
  content t !! token_val (timeout_token to) = None ∧
  content t' = <[token_val (timeout_token to) := (tick, state)]> (content t) ∧
  t_tick t' = t_tick t ∧ t_inner t' = lower tick <$> t_inner t ∧
  ok (missed_after t tick (token_val (timeout_token to)) M) t'.
Proof.
  intros [ch Hg] E. destruct (insert_good M t ch tick state Hg)
    as [(key & t1 & E1 & Hn & Ec & Et & _ & Ein & Hg1 & _)|[E1 _]]; rewrite E1 in E; [|done].
  injection E as <- <-. split_and!; try done. by exists (push_key (slot_for t tick) (mkToken key) ch).
Qed.

(** A timer is on time for fewer keys than it is known to be. *)
Lemma good_weaken M M' t ch : (∀ x, M x → M' x) → good M t ch → good M' t ch.
Proof.
  intros HM [Hi Ht Hc]. split; [done| |done]. intros x d s E Hx. apply (Ht x d s E). auto.
Qed.

Lemma ok_weaken M M' t : (∀ x, M x → M' x) → ok M t → ok M' t.
Proof. intros HM [ch Hg]. exists ch. by eapply good_weaken. Qed.

(** A deadline ahead of the cursor is not missed. *)
Lemma insert_ahead_ok M t tick (state : T) to t' :
  ok M t → insert t tick state = Done (to, t') → t_tick t < tick →
  ok (λ x, x ≠ token_val (timeout_token to) ∧ M x) t'.
Proof.
  intros Hok E Hlt. destruct (insert_ok _ _ _ _ _ _ Hok E) as (_ & _ & _ & _ & _ & Hok').
  eapply ok_weaken; [|exact Hok']. intros x. unfold missed_after. case_decide; [lia|tauto].
Qed.

(** ** Registering *)

Lemma register_ok M t w token interest opts :
  ok M t → world_ok t w → rd_ok w → ready_0 interest <= 15 → opt_0 opts <= 15 →
  ∃ r t' w', register t w token interest opts = Done (r, t', w') ∧
    ok M t' ∧ world_ok t' w' ∧ content t' = content t ∧ t_tick t' = t_tick t ∧
    t_tick_ms t' = t_tick_ms t ∧
    match t_inner t with
    | Some _ => r = IoErr (OtherError 0) ∧ t' = t ∧ w' = w
    | None => r = IoOk () ∧ is_Some (t_inner t')
    end.
Proof.
  intros Hok Hw Hrd Hr Ho. unfold register, filled, borrow.
  destruct (t_inner t) as [i|] eqn:Ei.
  { exists (IoErr (OtherError 0)), t, w. by rewrite bool_decide_eq_true_2 by eauto. }
  rewrite bool_decide_eq_false_2 by (by intros [? ?]).
  destruct (rd_new_live w token interest opts Hrd Hr Ho) as (h & w' & -> & Hl).
  cbn [mbind exec_bind fill]. destruct Hok as [ch Hg].
  set (t1 := with_inner t (Some (mkInner h usize_max false))).
  assert (good M t1 ch) as Hg1 by by apply good_with_inner.
  assert (∃ m, next_tick t1 = Done (Some m)) as [m ->].
  { destruct (wheel_min_Some _ _ _ Hg1) as [m Em]. pose proof (g_inv _ _ _ Hg1) as Hi.
    unfold next_tick. rewrite Em. case_bool_decide as En; [|by eauto].
    destruct (cursor_entry _ _ Hi En) as (e & l1 & l2 & we & Ee & Esl & Ew & _).
    rewrite (entry_at_Done _ _ _ Ee). cbn [mbind exec_bind]. rewrite <- Esl.
    rewrite (wheel_at_Done _ _ _ Ew). cbn [mbind exec_bind]. destruct (_ =? _); eauto. }
  cbn [mbind exec_bind]. rewrite schedule_readiness_Done. cbn [mbind exec_bind].
  eexists (IoOk ()), _, w'. split; [reflexivity|].
  split; [exists ch; by apply good_with_inner|].
  split; [by apply world_ok_lower|]. split_and!; try done.
Qed.

(** ** Setting a timeout *)

Lemma duration_to_tick_Done d tick_ms :
  wf_duration d → tick_ms ≠ 0 → ∃ tick, duration_to_tick d tick_ms = Done tick ∧ tick <= u64_max.
Proof.
  intros Hd Ht. destruct (millis_Done d Hd) as (ms & E & Hms).
  unfold duration_to_tick. rewrite E. cbn [mbind exec_bind].
  rewrite div64_ok by done. eexists; split; [done|].
  apply N.Div0.div_le_upper_bound. unfold sat_add64.
  assert (1 * u64_max <= tick_ms * u64_max); [apply N.mul_le_mono_r|]; lia.
Qed.

(** The deadline [set_timeout_at] chooses. *)
Definition chosen_tick t (tick : Tick) : Tick :=
  if tick <? t_tick t then t_tick t + 1 else tick.

(** ** Creation *)

Lemma next_power_of_two_Done x :
  x <= 2 ^ 63 → next_power_of_two x = Done (2 ^ N.log2_up x) ∧ N.log2_up x <= 63 ∧
                x <= 2 ^ N.log2_up x.
Proof.
  intros Hx. assert (N.log2_up x <= 63) as Hl.
  { transitivity (N.log2_up (2 ^ 63)); [by apply N.log2_up_le_mono|].
    by rewrite N.log2_up_pow2. }
  split; [|split; [done|]].
  - unfold next_power_of_two. rewrite (proj2 (N.leb_le _ _)); [done|].
    transitivity (2 ^ 63); [by apply N.pow_le_mono_r|by vm_compute].
  - destruct (decide (1 < x)) as [H1|H1].
    + by apply N.log2_up_spec.
    + transitivity 1; [lia|]. apply N.lt_pred_le. cbn.
      apply N.neq_0_lt_0, N.pow_nonzero. lia.
Qed.

(** A new timer has a wheel of the next power of two of slots, no pending
    timeout, and satisfies the invariant. *)
Lemma Timer_new_ok tick_ms num_slots capacity start :
  num_slots <= 2 ^ 63 → capacity <= 2 ^ 63 →
  ∃ t, Timer_new tick_ms num_slots capacity start = Done t ∧
    ok (λ _, False) t ∧ content t = ∅ ∧ t_tick t = 0 ∧ t_inner t = None ∧
    t_start t = start ∧ t_tick_ms t = tick_ms ∧
    N.of_nat (length (t_wheel t)) = 2 ^ N.log2_up num_slots ∧
    num_slots <= N.of_nat (length (t_wheel t)).
Proof.
  intros Hs Hc. destruct (next_power_of_two_Done _ Hs) as (E1 & Hl & Hle).
  destruct (next_power_of_two_Done _ Hc) as (E2 & _ & _).
  unfold Timer_new. rewrite E1. cbn [mbind exec_bind]. rewrite E2. cbn [mbind exec_bind].
  assert (1 <= 2 ^ N.log2_up num_slots) as H1.
  { pose proof (N.pow_nonzero 2 (N.log2_up num_slots)). lia. }
  unfold sub64. rewrite (proj2 (N.leb_le _ _)) by done. cbn [mbind exec_bind].
  set (t := mkTimer _ _ _ _ _ _ _ _). exists t. split; [done|].
  assert (content t = ∅) as Hcont.
  { unfold content, ents. cbn. by rewrite slab_map_with_capacity, fmap_empty. }
  assert (N.of_nat (length (t_wheel t)) = 2 ^ N.log2_up num_slots) as Hlen.
  { cbn. rewrite length_replicate. lia. }
  split_and!; try done; [|lia].
  exists (λ _, []). split; [split| |].
  - exists (N.log2_up num_slots). split; [|done]. cbn. rewrite N.ones_equiv. lia.
  - intros i we Ew. exists EMPTY. cbn in Ew. apply lookup_replicate in Ew as [-> _]. done.
  - intros i. constructor.
  - intros i k. split; [intros Hk; by apply not_elem_of_nil in Hk|].
    intros (d & s & E & _). by rewrite Hcont, lookup_empty in E.
  - intros x. rewrite Hcont, lookup_empty. by intros [? ?].
  - by left.
  - intros x d s E. by rewrite Hcont, lookup_empty in E.
  - intros i we k d s _ Hk. by apply not_elem_of_nil in Hk.
Qed.
End TimerProps.
