(* ===== verification/TimerTheorems.v ===== *)
(** * The timer wheel: what its clients rely on

    The properties of [Timer] as theorems about its [content], with the
    concrete timers that instantiate them. *)
From Stdlib Require Import Sorting.Sorted.
From S2P Require Import Prelude EventSet Duration LazyCell Interfaces.
From S2P Require Import Timer DList TimerInv TimerSpec TimerProps.

Section TimerTheorems.
Context {slab : Type → Type} {SO : SlabOps slab} {SL : SlabLaws slab}.
Context {W H : Type} {RO : ReadinessOps W H} {RL : ReadinessLaws W H}.
Context {T : Type}.
Implicit Types (t : Timer slab H T) (ch : N → list Token) (k : Token) (e : Entry T).
Implicit Types (M : N → Prop) (w : W).

(** ** Polling *)

(** C30 let [M] hold of the timeouts that were set for a tick the cursor had
    reached, which no poll finds before the cursor comes around again
    ([timeout_at_cursor_is_missed]).  A poll that returns a timeout removes
    exactly it; it is due, no pending timeout outside [M] is earlier, and the
    cursor stands at its tick if it is outside [M] itself.  A poll that returns
    none leaves the timeouts as they are and moves the cursor past its target,
    and every pending timeout outside [M] is later than the target.  It neither
    panics nor runs out of the stated fuel. *)
Theorem poll_to_earliest_due M fuel t w target :
  ok M t → world_ok t w → N.max target (t_tick t) < u64_max →
  (poll_fuel t target <= fuel)%nat →
  ∃ r t' w', poll_to fuel t w target = Done (r, t', w') ∧ ok M t' ∧ world_ok t' w' ∧
    match r with
    | Some s => ∃ x d, content t !! x = Some (d, s) ∧ d <= N.max target (t_tick t) ∧
        content t' = delete x (content t) ∧ (¬ M x → t_tick t' = d) ∧
        ∀ x' d' s', content t !! x' = Some (d', s') → ¬ M x' → d <= d'
    | None => content t' = content t ∧ t_tick t' = N.max target (t_tick t) + 1 ∧
        ∀ x d s, content t !! x = Some (d, s) → ¬ M x → N.max target (t_tick t) < d
    end.
Proof.
  intros [ch Hg] Hw Htg Hfuel.
  destruct (poll_to_spec M fuel t ch w target Hg Hw Htg Hfuel)
    as (r & t1 & t' & w' & ch' & _ & E & (_ & _ & Hr) & Hg' & Hw' & Ec & Et & _).
  rewrite poll_target_max in Hr.
  exists r, t', w'. split; [done|]. split; [by exists ch'|]. split; [done|].
  destruct r as [s|].
  - destruct Hr as (x & d & Ex & Hd & _ & Ht & Ed & Hmin).
    exists x, d. rewrite Ec, Et. by split_and!.
  - destruct Hr as (E1 & E2 & _ & Hd). rewrite Ec, Et. by split_and!.
Qed.

(** No lost wakeup: when a poll of a registered timer finds nothing due,
    it clears the readiness of the registration and leaves a wakeup word that
    is at most the deadline of every pending timeout. *)
Theorem idle_poll_arms_wakeup M fuel t w target t' w' i :
  ok M t → world_ok t w → N.max target (t_tick t) < u64_max →
  (poll_fuel t target <= fuel)%nat → t_inner t = Some i →
  poll_to fuel t w target = Done (None, t', w') →
  ∃ i', t_inner t' = Some i' ∧ rd_readiness w' (i_handle i') = Ready.empty ∧
    i_wakeup_state i' <= i_wakeup_state i ∧
    ∀ x d s, content t' !! x = Some (d, s) → ¬ M x → i_wakeup_state i' <= d.
Proof.
  intros [ch Hg] Hw Htg Hfuel Ein E.
  destruct (poll_to_spec M fuel t ch w target Hg Hw Htg Hfuel)
    as (r & t1 & t2 & w2 & ch' & _ & E' & ((_ & _ & _ & Ein1) & _ & Hr) & _ & _ & Ec & _ & Ha).
  rewrite E in E'. injection E' as <- <- <-. unfold armed in Ha. rewrite Ein1, Ein in Ha.
  destruct (t_inner t') as [i'|]; [|done]. exists i'. rewrite Ec.
  destruct Ha as (? & ? & ? & Hd). by split_and!.
Qed.

(** ** Cancelling and setting *)

(** [cancel_timeout] removes the timeout it names and gives its state
    back; a handle whose entry is gone, or whose key was reused for another
    deadline, cancels nothing and changes nothing.  A handle cancels at most
    once. *)
Theorem cancel_timeout_spec M t to :
  ok M t →
  ∃ r t', cancel_timeout t to = Done (r, t') ∧ ok M t' ∧ t_inner t' = t_inner t ∧
    t_tick t' = t_tick t ∧ cancel_timeout t' to = Done (None, t') ∧
    match content t !! token_val (timeout_token to) with
    | Some (d, s) =>
        if d =? timeout_tick to
        then r = Some s ∧ content t' = delete (token_val (timeout_token to)) (content t)
        else r = None ∧ t' = t
    | None => r = None ∧ t' = t
    end.
Proof.
  intros Hok. destruct (cancel_ok M t to Hok) as (r & t' & E & Hok' & Ei & Et & Hm).
  exists r, t'. split_and!; try done.
  destruct (content t !! token_val (timeout_token to)) as [[d s]|] eqn:Ec.
  - destruct (d =? timeout_tick to) eqn:Ed; destruct Hm as [-> Ec']; [|by subst].
    destruct (cancel_ok M t' to Hok') as (r2 & t2 & E2 & _ & _ & _ & Hm2).
    rewrite Ec', lookup_delete_eq in Hm2. by destruct Hm2 as [-> ->].
  - by destruct Hm as [-> ->].
Qed.

(** Cancelling a timeout right after setting it gives the state back and
    restores the content of the timer. *)
Lemma insert_cancel_roundtrip M t tick (state : T) to t1 :
  ok M t → insert t tick state = Done (to, t1) →
  ∃ t2, cancel_timeout t1 to = Done (Some state, t2) ∧ content t2 = content t ∧
        ok (missed_after t tick (token_val (timeout_token to)) M) t2.
Proof.
  intros Hok E.
  destruct (insert_ok M t tick state to t1 Hok E) as (Eto & Hn & Ec & _ & _ & Hok1).
  destruct (cancel_ok _ t1 to Hok1) as (r & t2 & E2 & Hok2 & _ & _ & Hr).
  rewrite Ec, lookup_insert_eq in Hr.
  assert (timeout_tick to = tick) as Etk by (by rewrite Eto).
  rewrite Etk, N.eqb_refl in Hr. destruct Hr as [-> Ec2].
  exists t2. split; [done|]. split; [|done]. rewrite Ec2. by apply delete_insert_id.
Qed.

Lemma set_timeout_at_insert t delay (state : T) tick :
  t_tick t < u64_max → duration_to_tick delay (t_tick_ms t) = Done tick →
  set_timeout_at t delay state = insert t (chosen_tick t tick) state.
Proof.
  intros Hlt Etick. unfold set_timeout_at. rewrite Etick. cbn [mbind exec_bind].
  unfold chosen_tick. destruct (tick <? t_tick t); [|done]. by rewrite add64_ok by lia.
Qed.

(** C39 [set_timeout_at] rounds the delay to ticks, moves a deadline behind the
    cursor to the next tick and inserts there, fails only when the slab is
    full, and the timeout is on time unless it is rounded to the tick of the
    cursor itself; cancelling it right away gives the state back and restores
    the content of the timer. *)
Theorem set_timeout_at_spec M t delay (state : T) tick :
  ok M t → t_tick t < u64_max → duration_to_tick delay (t_tick_ms t) = Done tick →
  (∃ to t', set_timeout_at t delay state = Done (to, t') ∧
    timeout_tick to = chosen_tick t tick ∧
    content t !! token_val (timeout_token to) = None ∧
    content t' = <[token_val (timeout_token to) := (chosen_tick t tick, state)]> (content t) ∧
    t_inner t' = lower (chosen_tick t tick) <$> t_inner t ∧
    (tick ≠ t_tick t →
     t_tick t < chosen_tick t tick ∧ ok (λ x, x ≠ token_val (timeout_token to) ∧ M x) t') ∧
    ∃ t2, cancel_timeout t' to = Done (Some state, t2) ∧ content t2 = content t) ∨
  (set_timeout_at t delay state = Panic POverflow ∧
   ∃ e, slab_insert (t_entries t) e = None).
Proof.
  intros Hok Hlt Etick. rewrite (set_timeout_at_insert t delay state tick Hlt Etick).
  pose proof Hok as [ch Hg].
  destruct (insert_good M t ch (chosen_tick t tick) state Hg)
    as [(key & t1 & E & _)|[E He]]; [left|by right].
  destruct (insert_ok _ _ _ _ _ _ Hok E) as (_ & Hn & Ec & _ & Ei & _).
  destruct (insert_cancel_roundtrip M t _ state _ t1 Hok E) as (t2 & E2 & Ec2 & _).
  exists (mkTimeout (mkToken key) (chosen_tick t tick)), t1. split_and!; [done..| |by exists t2].
  intros Hne. assert (t_tick t < chosen_tick t tick) as Hahead.
  { unfold chosen_tick. destruct (tick <? t_tick t) eqn:El; nbool; lia. }
  split; [done|]. by eapply insert_ahead_ok.
Qed.

(** A timeout rounded to the tick the cursor is at is missed: although it
    is due at once, no poll returns it until the cursor has gone around the
    whole wheel. *)
Theorem timeout_at_cursor_is_missed fuel t w delay (state : T) to t1 target r t' w' :
  ok (λ _, False) t → t_tick t < u64_max →
  duration_to_tick delay (t_tick_ms t) = Done (t_tick t) →
  set_timeout_at t delay state = Done (to, t1) → world_ok t1 w →
  t_tick t <= target → target + 1 < t_tick t + N.of_nat (length (t_wheel t)) →
  target < u64_max → (poll_fuel t1 target <= fuel)%nat →
  poll_to fuel t1 w target = Done (r, t', w') →
  content t' !! token_val (timeout_token to) = Some (t_tick t, state).
Proof.
  intros [ch Hg] Hlt Ed E Hw Hle Hrev Htg Hfuel Ep.
  rewrite (set_timeout_at_insert t delay state _ Hlt Ed) in E. unfold chosen_tick in E.
  rewrite N.ltb_irrefl in E.
  destruct (insert_good _ t ch (t_tick t) state Hg)
    as [(key & t2 & E1 & Hn & Ec & Et & Em & Ein & Hg1 & Ev)|[E1 _]]; rewrite E1 in E; [|done].
  injection E as <- <-. cbn [timeout_token token_val].
  assert (∀ i, mkToken key ∉ ch i) as Hnew.
  { intros i (d & s & Es & _)%(wi_mem _ _ (g_inv _ _ _ Hg)). cbn in Es. congruence. }
  destruct (wi_size _ _ (g_inv _ _ _ Hg)) as (n & Emask & Elen).
  destruct (poll_to_spec _ fuel t2 _ w target Hg1 Hw)
    as (r' & t3 & t4 & w4 & ch' & El & Ep' & _ & _ & _ & Ec4 & _); [lia|done|].
  rewrite Ep in Ep'. injection Ep' as <- <- <-. rewrite Ec4.
  transitivity (content t2 !! token_val (mkToken key));
    [|by rewrite Ec; apply lookup_insert_eq].
  apply (poll_loop_skips _ fuel t2 _ (poll_target t2 target) (mkToken key) r t3 Hg1);
    [..|done]; rewrite ?poll_target_max, ?Et.
  - lia.
  - left. lia.
  - rewrite Ev. intros Hin%from_sub. by apply Hnew in Hin.
  - intros x Hx Hxt. unfold push_key. rewrite decide_False; [done|].
    rewrite (slot_for_clock t t2 x Em). unfold slot_for. rewrite Emask, !land_ones_l.
    intros Heq. assert (2 ^ n ≠ 0) as H2 by by apply N.pow_nonzero.
    pose proof (N.div_mod x (2 ^ n) H2). pose proof (N.div_mod (t_tick t) (2 ^ n) H2).
    assert (x / 2 ^ n <= t_tick t / 2 ^ n ∨ t_tick t / 2 ^ n + 1 <= x / 2 ^ n)
      as [Hq|Hq] by lia; nia.
Qed.

(** ** Draining *)

(** A client that polls until no timeout is left. *)
Fixpoint drain (n fuel : nat) t w (target : Tick) : exec (list T * Timer slab H T * W) :=
  match n with
  | O => NoFuel
  | S n =>
      poll_to fuel t w target ≫= λ '(r, t, w),
      match r with
      | Some s => drain n fuel t w target ≫= λ '(l, t, w), Done (s :: l, t, w)
      | None => Done ([], t, w)
      end
  end.

Definition due (target : Tick) (c : gmap N (Tick * T)) : gmap N (Tick * T) :=
  filter (λ p, p.2.1 <= target) c.
Definition later (target : Tick) (c : gmap N (Tick * T)) : gmap N (Tick * T) :=
  filter (λ p, ¬ p.2.1 <= target) c.

Definition by_deadline (p q : N * (Tick * T)) : Prop := p.2.1 <= q.2.1.

Lemma due_cons target t t' x d (s : T) :
  content t !! x = Some (d, s) → d <= target → content t' = delete x (content t) →
  (x, (d, s)) :: map_to_list (due target (content t')) ≡ₚ
    map_to_list (due target (content t)) ∧
  later target (content t') = later target (content t).
Proof.
  intros Ex Hd Ec. assert (content t = <[x := (d, s)]> (content t')) as -> by (by rewrite Ec, insert_delete_id).
  assert (content t' !! x = None) as Hn by (by rewrite Ec, lookup_delete_eq).
  unfold due, later. split.
  - rewrite map_filter_insert_True by done. rewrite map_to_list_insert; [done|].
    by apply map_lookup_filter_None_2; left.
  - rewrite map_filter_insert_False by (cbn; tauto). by rewrite delete_id.
Qed.

Lemma due_nothing target (c : gmap N (Tick * T)) :
  (∀ x d s, c !! x = Some (d, s) → target < d) → due target c = ∅ ∧ later target c = c.
Proof.
  intros Hc. unfold due, later. split.
  - apply map_empty_filter_2. intros x [d s] E. specialize (Hc x d s E). cbn. lia.
  - apply map_filter_id. intros x [d s] E. specialize (Hc x d s E). cbn. lia.
Qed.

(** Polling until no timeout is left returns exactly the timeouts due by
    the target, in the order of their deadlines, and keeps exactly the later
    ones, when no timeout was set behind the cursor. *)
Theorem drain_sorted n fuel t w target :
  ok (λ _, False) t → world_ok t w → target < u64_max → t_tick t <= target →
  (poll_fuel t target <= fuel)%nat → (size (content t) < n)%nat →
  ∃ l t' w', drain n fuel t w target = Done ((λ p, p.2.2) <$> l, t', w') ∧
    StronglySorted by_deadline l ∧ l ≡ₚ map_to_list (due target (content t)) ∧
    content t' = later target (content t) ∧ t_tick t' = target + 1 ∧
    ok (λ _, False) t' ∧ world_ok t' w'.
Proof.
  revert t w. induction n as [|n IH]; intros t w [ch Hg] Hw Htg Hle Hfuel Hn; [lia|].
  destruct (poll_to_spec _ fuel t ch w target Hg Hw)
    as (r & t1 & t' & w' & ch' & _ & E & (_ & Hg1 & Hr) & Hg' & Hw' & Ec & Et & Hs);
    [lia|done|].
  rewrite poll_target_max, N.max_l in Hr by done.
  cbn [drain]. rewrite E. cbn [mbind exec_bind]. destruct r as [s|].
  - destruct Hr as (x & d & Ex & Hd & _ & Hnow & Ed & Hmin). specialize (Hnow id).
    destruct Hs as [-> ->]. destruct (g_timely _ _ _ Hg x d s Ex id) as [Hge _].
    assert (S (size (content t1)) = size (content t)) as Hsz.
    { rewrite Ed, map_size_delete_Some by eauto. apply Nat.succ_pred.
      eapply map_size_ne_0_lookup_2. eauto. }
    destruct (due_cons target t t1 x d s Ex Hd Ed) as [Hp Hl].
    destruct (IH t1 w) as (l & t2 & w2 & E2 & Hsort & Hperm & Ec2 & Et2 & Hok2 & Hw2);
      [by exists ch'|done|done|lia| |lia|].
    { etransitivity; [|exact Hfuel]. unfold poll_fuel. rewrite Hnow. apply Nat.mul_le_mono; lia. }
    exists ((x, (d, s)) :: l), t2, w2. rewrite E2. split; [done|].
    split; [constructor; [done|]|split; [by rewrite Hperm|split; [congruence|done]]].
    apply Forall_forall. intros [x' [d' s']]. rewrite Hperm, elem_of_map_to_list. unfold due.
    intros [Ex' _]%map_lookup_filter_Some. rewrite Ed in Ex'.
    apply lookup_delete_Some in Ex' as [_ Ex']. exact (Hmin x' d' s' Ex' id).
  - destruct Hr as (E1 & E2 & _ & Hd). destruct (due_nothing target (content t)) as [Ed El].
    { intros x d s E'. exact (Hd x d s E' id). }
    exists [], t', w'. rewrite Ed, El, map_to_list_empty, Ec, Et. split; [done|].
    split_and!; try done; [constructor|by exists ch'].
Qed.

(** ** Creation and registration *)

(** [Builder::build] turns the tick into milliseconds and makes a timer
    with at least the slots asked for, a power of two of them, no pending
    timeout and the cursor at tick 0; the timer is well formed. *)
Theorem build_spec (b : Builder) now :
  wf_duration (b_tick b) → b_num_slots b <= 2 ^ 63 → b_capacity b <= 2 ^ 63 →
  ∃ ms (t : Timer slab H T), millis (b_tick b) = Done ms ∧ build b now = Done t ∧
    ok (λ _, False) t ∧ content t = ∅ ∧ t_tick t = 0 ∧ t_inner t = None ∧
    t_start t = now ∧ t_tick_ms t = ms ∧
    N.of_nat (length (t_wheel t)) = 2 ^ N.log2_up (b_num_slots b) ∧
    b_num_slots b <= N.of_nat (length (t_wheel t)).
Proof.
  intros Hd Hs Hc. destruct (millis_Done _ Hd) as (ms & E & _).
  destruct (Timer_new_ok (slab:=slab) (H:=H) (T:=T) ms (b_num_slots b) (b_capacity b) now Hs Hc)
    as (t & Et & ? & ? & ? & ? & ? & ? & ? & ?).
  exists ms, t. unfold build. rewrite E. cbn [mbind exec_bind]. by split_and!.
Qed.

(** A timer is registered at most once: the first [register] makes a live
    registration and keeps every timeout, a second one fails and changes
    neither the timer nor the poll. *)
Theorem register_once M t w token interest opts :
  ok M t → world_ok t w → rd_ok w → ready_0 interest <= 15 → opt_0 opts <= 15 →
  t_inner t = None →
  ∃ t' w', register t w token interest opts = Done (IoOk (), t', w') ∧
    ok M t' ∧ world_ok t' w' ∧ content t' = content t ∧ t_tick t' = t_tick t ∧
    is_Some (t_inner t') ∧
    ∀ w2 token2 interest2 opts2,
      register t' w2 token2 interest2 opts2 = Done (IoErr (OtherError 0), t', w2).
Proof.
  intros Hok Hw Hrd Hi Ho En.
  destruct (register_ok M t w token interest opts Hok Hw Hrd Hi Ho)
    as (r & t' & w' & E & Hok' & Hw' & Ec & Et & _ & Hm).
  rewrite En in Hm. destruct Hm as [-> [i Ei]]. exists t', w'. split_and!; try done.
  intros. unfold register, filled, borrow. by rewrite Ei, bool_decide_eq_true_2 by eauto.
Qed.
End TimerTheorems.

(** ** Concrete timers *)

Module Demo.
Abbreviation DemoTimer := (Timer VecSlab.t unit nat).
Definition start : Instant := mkInstant 0.

(** A timer of four slots and a tick of 100 ms. *)
Definition fresh : DemoTimer :=
  mkTimer 100 [] (replicate 4 (mkWheel TICK_MAX EMPTY)) start 0 EMPTY 3 None.

Definition registered : DemoTimer :=
  match register (W:=Ready) fresh Ready.empty (mkTokenEntry TimersEvent (mkToken 0))
          Ready.readable PollOpt.edge with
  | Done (_, t, _) => t
  | _ => fresh
  end.

Definition add {H} (t : Timer VecSlab.t H nat) (tick : Tick) (state : nat)
    : Timer VecSlab.t H nat :=
  match insert t tick state with Done (_, t) => t | _ => t end.

(** The timer with the deadlines 3, 6 and 2; 2 and 6 share a slot. *)
Definition three : DemoTimer := add (add (add registered 3 30%nat) 6 60%nat) 2 20%nat.

Lemma fresh_ok : ok (λ _, False) fresh.
Proof.
  destruct (Timer_new_ok (slab:=VecSlab.t) (H:=unit) (T:=nat) 100 4 4 start)
    as (t & E & Hok & _); [by vm_compute..|].
  assert (t = fresh) as -> by (vm_compute in E; vm_compute; congruence). exact Hok.
Qed.

Lemma registered_ok : ok (λ _, False) registered.
Proof.
  destruct (register_ok (W:=Ready) _ fresh Ready.empty (mkTokenEntry TimersEvent (mkToken 0))
    Ready.readable PollOpt.edge fresh_ok) as (r & t & w & E & Hok & _);
    [by vm_compute..|].
  unfold registered. by rewrite E.
Qed.

Lemma add_ok {H} (t : Timer VecSlab.t H nat) tick state to t' :
  ok (λ _, False) t → insert t tick state = Done (to, t') → t_tick t < tick →
  ok (λ _, False) (add t tick state).
Proof.
  intros Hok E Hlt. unfold add. rewrite E.
  eapply ok_weaken; [|by eapply insert_ahead_ok]. by intros x [_ ?].
Qed.

Lemma three_ok : ok (λ _, False) three.
Proof.
  unfold three. eapply add_ok; [|by vm_compute|by vm_compute].
  eapply add_ok; [|by vm_compute|by vm_compute].
  eapply add_ok; [apply registered_ok|by vm_compute|by vm_compute].
Qed.
End Demo.

(** ** Instances of the theorems *)

Lemma poll_to_earliest_due_witness :
  ∃ r t' w', poll_to 60 Demo.three Ready.readable 4 = Done (r, t', w') ∧
    ok (λ _, False) t' ∧ world_ok t' w' ∧
    match r with
    | Some s => ∃ x d, content Demo.three !! x = Some (d, s) ∧ d <= N.max 4 (t_tick Demo.three) ∧
        content t' = delete x (content Demo.three) ∧ (¬ False → t_tick t' = d) ∧
        ∀ x' d' s', content Demo.three !! x' = Some (d', s') → ¬ False → d <= d'
    | None => content t' = content Demo.three ∧ t_tick t' = N.max 4 (t_tick Demo.three) + 1 ∧
        ∀ x d s, content Demo.three !! x = Some (d, s) → ¬ False → N.max 4 (t_tick Demo.three) < d
    end.
Proof.
  apply (poll_to_earliest_due (λ _, False)); [apply Demo.three_ok|exact I|by vm_compute|].
  apply Nat.leb_le. by vm_compute.
Defined.

Lemma idle_poll_arms_wakeup_witness :
  ∃ t' w', poll_to 60 Demo.three Ready.readable 1 = Done (None, t', w') ∧
  ∃ i', t_inner t' = Some i' ∧ rd_readiness w' (i_handle i') = Ready.empty ∧
    i_wakeup_state i' <= 2 ∧
    ∀ x d s, content t' !! x = Some (d, s) → ¬ False → i_wakeup_state i' <= d.
Proof.
  eexists _, _. split; [vm_compute; reflexivity|].
  apply (idle_poll_arms_wakeup (λ _, False) 60 Demo.three Ready.readable 1 _ _ (mkInner tt 2 true));
    [apply Demo.three_ok|exact I|by vm_compute|apply Nat.leb_le; by vm_compute|by vm_compute|by vm_compute].
Defined.

Lemma cancel_timeout_spec_witness :
  content Demo.three !! 1 = Some (6, 60%nat) ∧
  ∃ r t', cancel_timeout Demo.three (mkTimeout (mkToken 1) 6) = Done (r, t') ∧
    ok (λ _, False) t' ∧ t_inner t' = t_inner Demo.three ∧
    t_tick t' = t_tick Demo.three ∧
    cancel_timeout t' (mkTimeout (mkToken 1) 6) = Done (None, t') ∧
    match content Demo.three !! 1 with
    | Some (d, s) =>
        if d =? 6 then r = Some s ∧ content t' = delete 1 (content Demo.three)
        else r = None ∧ t' = Demo.three
    | None => r = None ∧ t' = Demo.three
    end.
Proof.
  split; [by vm_compute|].
  apply (cancel_timeout_spec (λ _, False) Demo.three (mkTimeout (mkToken 1) 6)), Demo.three_ok.
Defined.

Lemma insert_cancel_roundtrip_witness :
  ∃ t1, insert Demo.three 5 50%nat = Done (mkTimeout (mkToken 3) 5, t1) ∧
  ∃ t2, cancel_timeout t1 (mkTimeout (mkToken 3) 5) = Done (Some 50%nat, t2) ∧
    content t2 = content Demo.three ∧ ok (missed_after Demo.three 5 3 (λ _, False)) t2.
Proof.
  eexists. split; [vm_compute; reflexivity|].
  apply (insert_cancel_roundtrip (λ _, False) Demo.three 5 50%nat);
    [apply Demo.three_ok|by vm_compute].
Defined.

Lemma set_timeout_at_spec_witness :
  (∃ to t', set_timeout_at Demo.three (from_millis 440) 40%nat = Done (to, t') ∧
    timeout_tick to = chosen_tick Demo.three 4 ∧
    content Demo.three !! token_val (timeout_token to) = None ∧
    content t' = <[token_val (timeout_token to) := (chosen_tick Demo.three 4, 40%nat)]>
      (content Demo.three) ∧
    t_inner t' = lower (chosen_tick Demo.three 4) <$> t_inner Demo.three ∧
    (4 ≠ t_tick Demo.three →
     t_tick Demo.three < chosen_tick Demo.three 4 ∧
     ok (λ x, x ≠ token_val (timeout_token to) ∧ False) t') ∧
    ∃ t2, cancel_timeout t' to = Done (Some 40%nat, t2) ∧ content t2 = content Demo.three) ∨
  (set_timeout_at Demo.three (from_millis 440) 40%nat = Panic POverflow ∧
   ∃ e, slab_insert (t_entries Demo.three) e = None).
Proof.
  apply (set_timeout_at_spec (λ _, False)); [apply Demo.three_ok|by vm_compute..].
Defined.

Lemma timeout_at_cursor_is_missed_witness :
  ∃ t1 r t' w',
    set_timeout_at Demo.registered (from_millis 20) 7%nat = Done (mkTimeout (mkToken 0) 0, t1) ∧
    poll_to 60 t1 Ready.readable 2 = Done (r, t', w') ∧
    content t' !! 0 = Some (0, 7%nat).
Proof.
  eexists _, _, _, _. split; [vm_compute; reflexivity|]. split; [vm_compute; reflexivity|].
  eapply (timeout_at_cursor_is_missed 60 Demo.registered Ready.readable (from_millis 20) 7%nat
    (mkTimeout (mkToken 0) 0) _ 2);
    [apply Demo.registered_ok|by vm_compute|by vm_compute|by vm_compute|exact I|by vm_compute|
     by vm_compute|by vm_compute|apply Nat.leb_le; by vm_compute|by vm_compute].
Defined.

Lemma drain_sorted_witness :
  ∃ l t' w', drain 5 60 Demo.three Ready.readable 5 = Done ((λ p, p.2.2) <$> l, t', w') ∧
    StronglySorted by_deadline l ∧ l ≡ₚ map_to_list (due 5 (content Demo.three)) ∧
    content t' = later 5 (content Demo.three) ∧ t_tick t' = 5 + 1 ∧
    ok (λ _, False) t' ∧ world_ok t' w'.
Proof.
  apply drain_sorted; [apply Demo.three_ok|exact I|by vm_compute|by vm_compute|apply Nat.leb_le; by vm_compute|].
  apply Nat.leb_le. by vm_compute.
Defined.

Lemma build_spec_witness :
  ∃ ms (t : Demo.DemoTimer), millis (from_millis 100) = Done ms ∧
    build Builder_default Demo.start = Done t ∧
    ok (λ _, False) t ∧ content t = ∅ ∧ t_tick t = 0 ∧ t_inner t = None ∧
    t_start t = Demo.start ∧ t_tick_ms t = ms ∧
    N.of_nat (length (t_wheel t)) = 2 ^ N.log2_up 256 ∧
    256 <= N.of_nat (length (t_wheel t)).
Proof. apply (build_spec Builder_default); [by apply wf_from_millis|by vm_compute..]. Defined.

Lemma register_once_witness :
  ∃ t' w', register (W:=Ready) Demo.fresh Ready.empty (mkTokenEntry TimersEvent (mkToken 0))
      Ready.readable PollOpt.edge = Done (IoOk (), t', w') ∧
    ok (λ _, False) t' ∧ world_ok t' w' ∧ content t' = content Demo.fresh ∧
    t_tick t' = t_tick Demo.fresh ∧ is_Some (t_inner t') ∧
    ∀ w2 token2 interest2 opts2,
      register t' w2 token2 interest2 opts2 = Done (IoErr (OtherError 0), t', w2).
Proof.
  apply (register_once (λ _, False)); [apply Demo.fresh_ok|by vm_compute..].
Defined.
