(* ===== verification/PollReadiness.v ===== *)
(** * Registrations implement the timer's interface

    The readiness handles of [Interfaces] over the readiness queue of a poll:
    the timer's theorems hold of timers registered with it. *)
From S2P Require Import Prelude EventSet ReadinessState Awakener Duration Selector.
From S2P Require Import ReadinessQueue Registration QueueInv QueueSpec RegistrationSpec HandleSpec.
From S2P Require Import QueueProps LazyCell Interfaces Timer DList TimerInv TimerSpec TimerProps.

Section PollReadiness.
Context {J : Type} (null_job : J) {P : Type} {PO : PipeOps P} {PL : PipeLaws P}.
Context (q : qid).
#[local] Abbreviation W := (World (J:=J) (P:=P)).
Implicit Types (w : W) (p : ptr).

(** The allocator: any address that is not in use. *)
Definition free_address w : ptr := fresh (dom (w_nodes w) : gset ptr).

Definition poll_new w (tok : TokenEntry) (r : Ready) (o : PollOpt) : exec (ptr * W) :=
  match new null_job q (free_address w) tok r o w with
  | Done ((p, _), w) => Done (p, w)
  | Panic e => Panic e
  | NoFuel => NoFuel
  end.
Definition poll_set w p (r : Ready) : exec W :=
  match set_readiness p r w with
  | Done (_, w) => Done w
  | Panic e => Panic e
  | NoFuel => NoFuel
  end.
Definition poll_readiness w p : Ready :=
  match readiness p w with Done (r, _) => r | _ => Ready.empty end.

Definition poll_update w p (tok : TokenEntry) (r : Ready) (o : PollOpt)
    : exec (io_result unit * W) := update p q tok r o null_job w.
Definition poll_deregister w p : exec (io_result unit * W) := Registration.deregister null_job p q w.

#[local] Instance poll_ops : ReadinessOps W ptr := {|
  rd_new := poll_new;
  rd_set := poll_set;
  rd_readiness := poll_readiness;
  rd_update := poll_update;
  rd_deregister := poll_deregister;
|}.

Definition poll_ok w : Prop :=
  (∃ x st d refs, inv w q x st d refs) ∧ N.of_nat (size (w_nodes w)) < 2 ^ 63.
Definition live w p : Prop :=
  ∃ x st d refs n, inv w q x st d refs ∧ contents w !! p = Some n ∧ p ∉ markers x ∧
    dropped n = false ∧ n_readiness_queue n = Some q.

Lemma poll_new_live w tok r o :
  poll_ok w → ready_0 r <= 15 → opt_0 o <= 15 →
  ∃ p w', poll_new w tok r o = Done (p, w') ∧ live w' p.
Proof.
  intros [(x & st & d & refs & Hi) Hsz] Hr Ho. pose proof (strong_size _ _ _ _ _ _ Hi).
  assert (contents w !! free_address w = None) as Hf.
  { rewrite contents_lookup. assert (w_nodes w !! free_address w = None) as ->; [|done].
    unfold free_address. apply (not_elem_of_dom (D:=gset ptr)), is_fresh. }
  destruct (fresh_refs _ _ _ _ _ _ _ Hi Hf) as (_ & Hm & _).
  destruct (new_ok null_job w q x st d refs _ tok r o Hi Hf)
    as (n & w' & x' & E & Hi' & Ec & Em & _ & _ & Hq & Hd & _); [lia|done|done|].
  exists (free_address w), w'. unfold poll_new. rewrite E. split; [done|].
  eexists x', st, d, _, n. split; [exact Hi'|]. rewrite Ec, lookup_insert_eq, Em. by split_and!.
Qed.

Lemma poll_set_live w p r :
  live w p → ready_0 r <= 15 →
  ∃ w', poll_set w p r = Done w' ∧ live w' p ∧ poll_readiness w' p = r.
Proof.
  intros (x & st & d & refs & n & Hi & En & Hm & Hd & Hq) Hr.
  assert (ready_0 r < 2 ^ 4) as Hr' by (change (2 ^ 4) with 16; lia).
  destruct (set_readiness_ok w q x st d refs p n r Hi En Hm Hd (or_intror Hq) Hr')
    as (res & w' & x' & E & Hi' & Ec & Em & _).
  pose proof (no_word _ _ _ _ (iv_nodes _ _ _ _ _ _ Hi p n En Hm)) as Hwf.
  destruct (readied_spec (n_state n) r Hwf Hr' Hd) as [_ Ef].
  assert (contents w' !! p = Some (with_state (readied (n_state n) r) n)) as Ep
    by (by rewrite Ec, lookup_insert_eq).
  exists w'. unfold poll_set. rewrite E. split; [done|]. split.
  - eexists x', st, _, refs, _. split; [exact Hi'|]. split; [exact Ep|]. rewrite Em.
    split; [done|]. split; [|done]. apply (f_equal f_dropped) in Ef. unfold dropped. cbn in Ef |- *.
    by rewrite Ef.
  - apply contents_node in Ep as (m & Em' & Est). unfold poll_readiness, readiness, load_state.
    erewrite stm_step.
    2:{ step by by apply node_at_Done. reflexivity. }
    cbn. assert (n_state m = readied (n_state n) r) as -> by (exact (f_equal n_state Est)).
    apply Ready_ext. by apply (f_equal f_readiness) in Ef.
Qed.

Lemma poll_update_live w p tok r o :
  poll_ok w → live w p → ready_0 r <= 15 → opt_0 o <= 15 →
  ∃ res w', poll_update w p tok r o = Done (res, w') ∧ live w' p.
Proof.
  intros [_ Hsz] (x & st & d & refs & n & Hi & En & Hm & Hd & Hq) Hr Ho.
  pose proof (strong_size _ _ _ _ _ _ Hi).
  destruct (update_ok w q x st d refs p n tok r o null_job Hi En Hm Hd)
    as [_ (n' & res & w' & x' & E & Hn & Hq' & _ & Ec & Hi' & _ & Em)];
    [lia|change (2 ^ 4) with 16; lia|change (2 ^ 4) with 16; lia|by right|].
  exists res, w'. split; [exact E|]. eexists x', st, _, refs, n'. split; [exact Hi'|].
  rewrite Ec, lookup_insert_eq, Em. split; [done|]. split; [done|].
  split; [|done]. by rewrite (un_dropped _ _ _ _ _ _ Hn).
Qed.

#[local] Instance poll_laws : ReadinessLaws W ptr.
Proof.
  refine {| rd_ok := poll_ok; rd_live := live |}; [apply poll_new_live|apply poll_set_live
    |apply poll_update_live|].
  intros w p Hok Hl.
  apply (poll_update_live w p null_token Ready.empty PollOpt.empty Hok Hl); apply N.leb_le; reflexivity.
Defined.

Context {slab : Type → Type} {SO : SlabOps slab} {SL : SlabLaws slab} {T : Type}.

(** A timer registered with a poll: the registration makes a live node of
    the poll's readiness queue, and an idle poll of the timer clears the
    readiness of that very node and arms the wakeup word with a bound of every
    pending deadline. *)
Theorem timer_registered_with_poll fuel (t : Timer slab ptr T) w tok interest opts target :
  ok (λ _, False) t → poll_ok w → t_inner t = None →
  ready_0 interest <= 15 → opt_0 opts <= 15 → N.max target (t_tick t) < u64_max →
  (poll_fuel t target <= fuel)%nat →
  ∃ t1 w1 i1, register t w tok interest opts = Done (IoOk (), t1, w1) ∧
    t_inner t1 = Some i1 ∧ live w1 (i_handle i1) ∧
    ∃ r t2 w2, poll_to fuel t1 w1 target = Done (r, t2, w2) ∧
      (r = None → ∃ i2, t_inner t2 = Some i2 ∧ i_handle i2 = i_handle i1 ∧
         live w2 (i_handle i2) ∧ poll_readiness w2 (i_handle i2) = Ready.empty ∧
         ∀ x d s, content t2 !! x = Some (d, s) → i_wakeup_state i2 <= d).
Proof.
  intros Hok Hp Hn Hint Hopt Htg Hfuel.
  assert (world_ok t w) as Hw0 by (unfold world_ok; by rewrite Hn).
  destruct (register_ok _ t w tok interest opts Hok Hw0 Hp Hint Hopt)
    as (r & t1 & w1 & E & Hok1 & Hw1 & Ec1 & Et1 & _ & Hm).
  rewrite Hn in Hm. destruct Hm as [-> [i1 Ei1]]. exists t1, w1, i1.
  split; [done|]. split; [done|]. unfold world_ok in Hw1. rewrite Ei1 in Hw1. split; [exact Hw1|].
  destruct Hok1 as [ch Hg]. assert (world_ok t1 w1) as Hw1' by (unfold world_ok; by rewrite Ei1).
  destruct (poll_to_spec _ fuel t1 ch w1 target Hg Hw1')
    as (r & t3 & t2 & w2 & ch' & _ & E2 & ((_ & _ & _ & Ein) & _) & _ & Hw2 & Ec2 & _ & Ha).
  { by rewrite Et1. }
  { unfold poll_fuel in *. by rewrite Et1, Ec1. }
  exists r, t2, w2. split; [done|]. intros ->. unfold armed in Ha. rewrite Ein, Ei1 in Ha.
  unfold world_ok in Hw2. destruct (t_inner t2) as [i2|]; [|done]. exists i2.
  destruct Ha as (Eh & Er & _ & Hd). split_and!; try done. rewrite Ec2. intros y d s Ed.
  exact (Hd y d s Ed id).
Qed.
End PollReadiness.

Lemma timer_registered_with_poll_witness :
  poll_ok 0 QueueDemo.w0 ∧
  ∃ t (t1 : Timer VecSlab.t ptr nat) w1 i1, Timer_new 100 4 4 (mkInstant 0) = Done t ∧
    @Timer.register VecSlab.t VecSlab.ops _ _ (poll_ops 0%nat 0) nat t QueueDemo.w0
      (mkTokenEntry TimersEvent (mkToken 0)) Ready.readable PollOpt.edge = Done (IoOk (), t1, w1) ∧
    t_inner t1 = Some i1 ∧ live 0 w1 (i_handle i1) ∧
    ∃ r t2 w2, @poll_to VecSlab.t VecSlab.ops _ _ (poll_ops 0%nat 0) nat 10 t1 w1 1 = Done (r, t2, w2) ∧
      (r = None → ∃ i2, t_inner t2 = Some i2 ∧ i_handle i2 = i_handle i1 ∧
         live 0 w2 (i_handle i2) ∧ poll_readiness w2 (i_handle i2) = Ready.empty ∧
         ∀ x d s, content t2 !! x = Some (d, s) → i_wakeup_state i2 <= d).
Proof.
  assert (poll_ok 0 QueueDemo.w0) as Hp.
  { split; [|by vm_compute]. destruct QueueDemo.w0_inv as (x & Hi & _). eauto. }
  split; [exact Hp|].
  destruct (TimerProps.Timer_new_ok (slab:=VecSlab.t) (H:=ptr) (T:=nat) 100 4 4 (mkInstant 0))
    as (t & Et & Hok & Ec & Ek & Ei & _ & _ & _); [by vm_compute..|].
  destruct (timer_registered_with_poll 0%nat 0 10 t QueueDemo.w0 (mkTokenEntry TimersEvent (mkToken 0))
    Ready.readable PollOpt.edge 1 Hok Hp Ei) as (t1 & w1 & i1 & H);
    [by vm_compute|by vm_compute|by rewrite Ek; vm_compute| |].
  - unfold poll_fuel. rewrite Ek, Ec, map_size_empty. apply Nat.leb_le. by vm_compute.
  - exists t, t1, w1, i1. split; [exact Et|]. exact H.
Defined.
