(* ===== verification/Wakeup.v ===== *)
(** * The wakeup thread of a timer

    [spawn_wakeup_thread] of [src/src/timer.rs] as a state machine: the thread
    takes at most one access to the outside per step (the load or the exchange
    of the shared word, the clock, [park], [set_readiness]), and so do any
    number of writers, the threads in [schedule_readiness] or in the drop of
    [Inner] (the load, the exchange or the store of the word, [unpark]).  They
    are interleaved with each other, with the client clearing the readiness,
    with spurious returns of [park], and with the passing of time. *)
From S2P Require Import Prelude EventSet Duration LazyCell Interfaces Timer.

(** The program counter: before the load of the wakeup word; at the head of the
    loop; about to park for a time; inside [park] or [park_timeout]; about to
    exchange the word; after a successful exchange and before [set_readiness];
    returned. *)
Inductive pc : Set :=
  | Loading
  | Running
  | Parking (duration : option N)
  | Parked (until : option N)
  | Exchanging
  | Firing
  | Exited.

(** A writer: not in a call; in [schedule_readiness] before the load, or before
    the exchange with the word it last saw; in the drop of [Inner] before the
    store; after its write and before [unpark]. *)
Inductive wpc : Set :=
  | WIdle
  | WLoad (tick : Tick)
  | WCas (tick curr : N)
  | WStore
  | WUnpark.

Record Wakeup := mkWakeup {
  wk_word : N;            (** the shared [WakeupState] *)
  wk_token : bool;        (** the park token of the thread *)
  wk_ready : bool;        (** the readiness of the registration *)
  wk_sleep : Tick;        (** the local [sleep_until_tick] *)
  wk_pc : pc;
  wk_now : N;             (** milliseconds since [start] *)
  wk_writers : list wpc;
}.

Definition with_pc c s :=
  mkWakeup (wk_word s) (wk_token s) (wk_ready s) (wk_sleep s) c (wk_now s) (wk_writers s).
Definition with_token b s :=
  mkWakeup (wk_word s) b (wk_ready s) (wk_sleep s) (wk_pc s) (wk_now s) (wk_writers s).
Definition with_ready b s :=
  mkWakeup (wk_word s) (wk_token s) b (wk_sleep s) (wk_pc s) (wk_now s) (wk_writers s).
Definition with_sleep v s :=
  mkWakeup (wk_word s) (wk_token s) (wk_ready s) v (wk_pc s) (wk_now s) (wk_writers s).
Definition with_word v s :=
  mkWakeup v (wk_token s) (wk_ready s) (wk_sleep s) (wk_pc s) (wk_now s) (wk_writers s).
Definition with_now n s :=
  mkWakeup (wk_word s) (wk_token s) (wk_ready s) (wk_sleep s) (wk_pc s) n (wk_writers s).
(** The writer [i] goes to [c]. *)
Definition with_writer i c s :=
  mkWakeup (wk_word s) (wk_token s) (wk_ready s) (wk_sleep s) (wk_pc s) (wk_now s)
    (<[i := c]> (wk_writers s)).

Section Wakeup.
Context (tick_ms : N).

(** The head of the loop: the test for termination and the clock. *)
Definition loop_head (s : Wakeup) : exec Wakeup :=
  if wk_sleep s =? TERMINATE_THREAD then Done (with_pc Exited s)
  else
    duration_to_tick (from_millis (wk_now s)) tick_ms ≫= λ now_tick,
    if now_tick <? wk_sleep s then
      Done (with_pc (Parking (checked_mul64 tick_ms (wk_sleep s - now_tick))) s)
    else Done (with_pc Exchanging s).

(** [state.compare_exchange(sleep_until_tick, usize::MAX)]. *)
Definition exchange (s : Wakeup) : Wakeup :=
  if wk_word s =? wk_sleep s then with_pc Firing (with_word usize_max s)
  else with_pc Running (with_sleep (wk_word s) s).

Definition thread_step (s : Wakeup) : exec Wakeup :=
  match wk_pc s with
  | Loading => Done (with_pc Running (with_sleep (wk_word s) s))
  | Running => loop_head s
  | Parking d =>
      Done (if wk_token s then with_pc Loading (with_token false s)
            else with_pc (Parked (N.add (wk_now s) <$> d)) s)
  | Parked until =>
      Done (if wk_token s then with_pc Loading (with_token false s)
            else if from_option (λ u, u <=? wk_now s) false until then with_pc Loading s
            else s)
  | Exchanging => Done (exchange s)
  | Firing => Done (with_pc Running (with_sleep usize_max (with_ready true s)))
  | Exited => Done s
  end.

(** [n] steps of the thread, with nobody else running. *)
Fixpoint thread_run (n : nat) (s : Wakeup) : exec Wakeup :=
  match n with
  | O => Done s
  | S n => thread_step s ≫= thread_run n
  end.

(** The test at the head of the loop of [schedule_readiness], on the word the
    load or the failed exchange returned. *)
Definition schedule_test (tick : Tick) (curr : N) : wpc :=
  if curr <=? tick then WIdle else WCas tick curr.

(** [compare_exchange(curr, tick)] of [schedule_readiness]. *)
Definition schedule_cas (i : nat) (tick curr : N) (s : Wakeup) : Wakeup :=
  if wk_word s =? curr then with_writer i WUnpark (with_word tick s)
  else with_writer i (schedule_test tick (wk_word s)) s.

(** [store(TERMINATE_THREAD)] of the drop. *)
Definition terminate (i : nat) (s : Wakeup) : Wakeup :=
  with_writer i WUnpark (with_word TERMINATE_THREAD s).

(** One access of the writer [i]. *)
Definition writer_step (i : nat) (s : Wakeup) : Wakeup :=
  match wk_writers s !! i with
  | Some (WLoad tick) => with_writer i (schedule_test tick (wk_word s)) s
  | Some (WCas tick curr) => schedule_cas i tick curr s
  | Some WStore => terminate i s
  | Some WUnpark => with_writer i WIdle (with_token true s)
  | Some WIdle | None => s
  end.

(** The state of a thread just spawned by [register], with room for [n] threads
    in a call. *)
Definition spawned (n : nat) (now : N) : Wakeup :=
  mkWakeup usize_max false false 0 Loading now (replicate n WIdle).

Inductive step : Wakeup → Wakeup → Prop :=
  | step_thread s s' : thread_step s = Done s' → step s s'
  | step_spurious s u : wk_pc s = Parked u → step s (with_pc Loading s)
  | step_schedule s i tick :
      wk_writers s !! i = Some WIdle → tick <= u64_max → step s (with_writer i (WLoad tick) s)
  | step_drop s i : wk_writers s !! i = Some WIdle → step s (with_writer i WStore s)
  | step_writer s i : step s (writer_step i s)
  | step_clear s : step s (with_ready false s)
  | step_time s ms : wk_now s + ms <= u64_max → step s (with_now (wk_now s + ms) s).

Inductive reachable : Wakeup → Prop :=
  | reach_spawn n now : now <= u64_max → reachable (spawned n now)
  | reach_step s s' : reachable s → step s s' → reachable s'.

(** A writer has changed the word and is about to unpark the thread. *)
Definition unparking (s : Wakeup) : Prop := ∃ i, wk_writers s !! i = Some WUnpark.

(** The tick at a time of the clock. *)
Definition tick_at (ms : N) : Tick := sat_add64 ms (tick_ms / 2) / tick_ms.

(** The thread is in [park], or committed to it, and nothing will wake it
    before the end of its timeout. *)
Definition asleep (s : Wakeup) : Prop :=
  wk_token s = false
  ∧ match wk_pc s with
    | Parking _ => True
    | Parked until => from_option (λ u, wk_now s < u) True until
    | _ => False
    end.
End Wakeup.

(** ** The invariant *)
Section WakeupProps.
Context (tick_ms : N) (Htick : 0 < tick_ms).
#[local] Abbreviation tick_at := (tick_at tick_ms).
#[local] Abbreviation thread_step := (thread_step tick_ms).
#[local] Abbreviation thread_run := (thread_run tick_ms).
#[local] Abbreviation step := (step tick_ms).
#[local] Abbreviation reachable := (reachable tick_ms).

(** A token is waiting, or on its way. *)
Definition awaited (s : Wakeup) : Prop := wk_token s = true ∨ unparking s.

(** The local copy is not later than the word, or the thread will hear of it. *)
Definition fresh (s : Wakeup) : Prop := awaited s ∨ wk_sleep s <= wk_word s.

Definition wpc_inv (c : wpc) : Prop :=
  match c with WCas tick curr => tick < curr | _ => True end.

Definition pc_inv (s : Wakeup) : Prop :=
  match wk_pc s with
  | Loading => True
  | Running => fresh s ∧ (wk_sleep s = 0 → wk_word s = 0)
  | Parking d | Parked d =>
      fresh s ∧ wk_sleep s ≠ 0 ∧ (d = None → u64_max < tick_ms * wk_sleep s)
  | Exchanging => fresh s ∧ 0 < wk_sleep s <= tick_at (wk_now s)
  | Firing =>
      (awaited s ∨ wk_word s = usize_max) ∧ 0 < wk_sleep s <= tick_at (wk_now s)
  | Exited => wk_word s = 0
  end.

Record wakeup_inv (s : Wakeup) : Prop := {
  inv_now : wk_now s <= u64_max;
  inv_word : wk_word s <= usize_max;
  inv_pc : pc_inv s;
  inv_writers : Forall wpc_inv (wk_writers s);
}.

Lemma tick_at_Done ms :
  ms <= u64_max → duration_to_tick (from_millis ms) tick_ms = Done (tick_at ms).
Proof using Htick.
  intros Hms. unfold duration_to_tick. rewrite millis_from_millis by done.
  cbn [mbind exec_bind]. by rewrite div64_ok by lia.
Qed.

Lemma tick_at_mono a b : a <= b → tick_at a <= tick_at b.
Proof using Htick.
  intros H. apply N.Div0.div_le_mono. unfold sat_add64. lia.
Qed.

Lemma loop_head_Done s :
  wk_now s <= u64_max →
  loop_head tick_ms s =
    Done (if wk_sleep s =? 0 then with_pc Exited s
          else if tick_at (wk_now s) <? wk_sleep s then
            with_pc (Parking (checked_mul64 tick_ms (wk_sleep s - tick_at (wk_now s)))) s
          else with_pc Exchanging s).
Proof using Htick.
  intros Hn. unfold loop_head, TERMINATE_THREAD. destruct (wk_sleep s =? 0); [done|].
  rewrite tick_at_Done by done. cbn [mbind exec_bind]. by destruct (_ <? _).
Qed.


Lemma thread_step_writers s s' :
  wk_now s <= u64_max → thread_step s = Done s' → wk_writers s' = wk_writers s.
Proof using Htick.
  intros Hn Hs. unfold Wakeup.thread_step in Hs. destruct (wk_pc s).
  2: { rewrite loop_head_Done in Hs by exact Hn. injection Hs as <-.
       destruct (_ =? _); [done|]. by destruct (_ <? _). }
  all: injection Hs as <-; unfold exchange; repeat case_match; done.
Qed.

Lemma thread_step_inv s s' : wakeup_inv s → thread_step s = Done s' → wakeup_inv s'.
Proof using Htick.
  intros [Hn Hw Hp Hws] Hs. pose proof (thread_step_writers s s' Hn Hs) as Ews.
  unfold Wakeup.thread_step in Hs. unfold pc_inv in Hp.
  assert (∀ r, wk_writers r = wk_writers s → wk_now r = wk_now s → wk_word r <= usize_max → pc_inv r →
    wakeup_inv r) as Hi by (intros r E1 E2 E3 E4; split; [rewrite E2; exact Hn|exact E3|exact E4|rewrite E1; exact Hws]).
  destruct (wk_pc s) as [| |d|u| | |] eqn:E.
  - injection Hs as <-. apply Hi; [reflexivity|reflexivity|exact Hw|].
    split; [right; apply N.le_refl|exact (λ H, H)].
  - rewrite loop_head_Done in Hs by exact Hn. destruct (wk_sleep s =? 0) eqn:E0; nbool.
    { injection Hs as <-. apply Hi; [reflexivity|reflexivity|exact Hw|]. exact (proj2 Hp E0). }
    destruct (_ <? _) eqn:E1; nbool; injection Hs as <-; (apply Hi; [reflexivity|reflexivity|exact Hw|]).
    + split; [exact (proj1 Hp)|]. split; [exact E0|]. cbn.
      unfold checked_mul64. destruct (_ <=? _) eqn:E2; [done|]; nbool. nia.
    + split; [exact (proj1 Hp)|]. cbn. lia.
  - destruct (wk_token s) eqn:Et; injection Hs as <-; (apply Hi; [reflexivity|reflexivity|exact Hw|]); [exact I|].
    split; [exact (proj1 Hp)|]. split; [exact (proj1 (proj2 Hp))|].
    intros Hd. apply Hp. by destruct d.
  - destruct (wk_token s) eqn:Et; [|destruct (from_option _ _ _)]; injection Hs as <-;
      (apply Hi; [reflexivity|reflexivity|exact Hw|]); [exact I..|]. unfold pc_inv. by rewrite E.
  - injection Hs as <-. unfold exchange in *. destruct (_ =? _) eqn:Eq; nbool;
      (apply Hi; [reflexivity|reflexivity| |]); [apply N.le_refl|split; [by right|exact (proj2 Hp)]|exact Hw|].
    split; [right; apply N.le_refl|exact (λ H, H)].
  - injection Hs as <-. apply Hi; [reflexivity|reflexivity|exact Hw|]. split; [|done].
    destruct Hp as [[Ht|Ht] _]; [by left|right; cbn [wk_word wk_sleep with_pc with_sleep with_ready]].
    rewrite Ht. apply N.le_refl.
  - injection Hs as <-. apply Hi; [reflexivity|reflexivity|exact Hw|]. unfold pc_inv. by rewrite E.
Qed.

(** What a writer does: it lowers the word and will unpark the thread, or leaves
    the word and what the thread is to hear of. *)
Definition written (s s' : Wakeup) : Prop :=
  wk_sleep s' = wk_sleep s ∧ wk_pc s' = wk_pc s ∧ wk_now s' = wk_now s ∧ wk_ready s' = wk_ready s ∧
  wk_word s' <= wk_word s ∧ (wk_word s' = wk_word s ∨ unparking s') ∧ (awaited s → awaited s').

Lemma unparking_insert i s : (i < length (wk_writers s))%nat → unparking (with_writer i WUnpark s).
Proof. intros Hl. exists i. by apply list_lookup_insert_eq. Qed.

Lemma awaited_insert i c s :
  wk_writers s !! i ≠ Some WUnpark → awaited s → awaited (with_writer i c s).
Proof.
  intros Hi [Ht|[j Hj]]; [by left|right]. exists j. cbn. rewrite list_lookup_insert_ne; [done|].
  by intros ->.
Qed.

Lemma written_inv s s' : wakeup_inv s → written s s' → Forall wpc_inv (wk_writers s') → wakeup_inv s'.
Proof using Htick.
  intros [Hn Hw Hp _] (E1 & E2 & E3 & _ & Hle & Hor & Haw) Hws.
  split; [rewrite E3; exact Hn|exact (N.le_trans _ _ _ Hle Hw)| |exact Hws].
  assert (∀ X X' : Prop, (wk_word s' = wk_word s → X → X') → awaited s ∨ X → awaited s' ∨ X') as Hm.
  { intros X X' HX [?|Hx]; [left; by apply Haw|]. destruct Hor as [Ew|Hu]; [right; by apply HX|left; by right]. }
  assert (fresh s → fresh s') as Hf by (apply Hm; intros ->; by rewrite E1).
  assert (wk_word s = 0 → wk_word s' = 0) as H0 by lia.
  unfold pc_inv in *. rewrite E1, E2, E3. destruct (wk_pc s); [done|..].
  - split; [apply Hf, Hp|intros Hz; apply H0, Hp, Hz].
  - split; [apply Hf, Hp|apply Hp].
  - split; [apply Hf, Hp|apply Hp].
  - split; [apply Hf, Hp|apply Hp].
  - split; [|apply Hp]. eapply Hm; [|apply Hp]. by intros ->.
  - by apply H0.
Qed.

Lemma writer_step_ok i s :
  wakeup_inv s → written s (writer_step i s) ∧ Forall wpc_inv (wk_writers (writer_step i s)).
Proof using Htick.
  intros [Hn Hw Hp Hws]. unfold writer_step.
  destruct (wk_writers s !! i) as [c|] eqn:Ei.
  2: { split; [|done]. split_and!; [done..|lia|by left|done]. }
  pose proof (Forall_lookup_1 _ _ _ _ Hws Ei) as Hc. pose proof (lookup_lt_Some _ _ _ Ei) as Hl.
  assert (∀ tick, wpc_inv (schedule_test tick (wk_word s))) as Ht.
  { intros tick. unfold schedule_test. destruct (_ <=? _) eqn:El; [done|]. nbool. exact El. }
  assert (∀ c', c ≠ WUnpark → written s (with_writer i c' s)) as Hq.
  { intros c' Hne. split_and!; [done..|reflexivity|by left|]. apply awaited_insert. rewrite Ei. congruence. }
  assert (∀ w, w <= wk_word s → written s (with_writer i WUnpark (with_word w s))) as Hu.
  { intros w Hle. assert (unparking (with_writer i WUnpark (with_word w s))) as Hp' by (by apply unparking_insert).
    split_and!; [done..|exact Hle|by right|by right]. }
  destruct c as [|tick|tick curr| |].
  - split; [|done]. split_and!; [done..|lia|by left|done].
  - split; [by apply Hq|by apply Forall_insert].
  - unfold schedule_cas. cbn in Hc. destruct (N.eqb_spec (wk_word s) curr) as [Ew|_].
    + split; [apply Hu; lia|by apply Forall_insert].
    + split; [by apply Hq|by apply Forall_insert].
  - split; [apply Hu, N.le_0_l|by apply Forall_insert].
  - split; [|by apply Forall_insert]. split_and!; [done..|reflexivity|by left|by left].
Qed.

Lemma writer_step_inv i s : wakeup_inv s → wakeup_inv (writer_step i s).
Proof using Htick. intros Hi. destruct (writer_step_ok i s Hi). by eapply written_inv. Qed.

(** A thread that is in no call enters one. *)
Lemma call_inv s i c :
  wakeup_inv s → wk_writers s !! i = Some WIdle → wpc_inv c → wakeup_inv (with_writer i c s).
Proof using Htick.
  intros Hi Ei Hc. apply (written_inv s); [exact Hi| |].
  - split_and!; [done..|reflexivity|by left|]. apply awaited_insert. by rewrite Ei.
  - apply Forall_insert; [apply Hi|done].
Qed.

Lemma time_inv s ms :
  wakeup_inv s → wk_now s + ms <= u64_max → wakeup_inv (with_now (wk_now s + ms) s).
Proof using Htick.
  intros [Hn Hw Hp Hws] Hms. split; [exact Hms|exact Hw| |exact Hws].
  pose proof (tick_at_mono (wk_now s) (wk_now s + ms) ltac:(lia)).
  unfold pc_inv in *. cbn [wk_pc with_now wk_word wk_sleep wk_now].
  destruct (wk_pc s); try exact Hp; (split; [exact (proj1 Hp)|lia]).
Qed.

Lemma step_inv s s' : wakeup_inv s → step s s' → wakeup_inv s'.
Proof using Htick.
  intros Hi Hs. destruct Hs as [s s' Hs|s u E|s i tick Ei Ht|s i Ei|s i|s|s ms Hms].
  - by eapply thread_step_inv.
  - destruct Hi as [Hn Hw Hp Hws]. split; [exact Hn|exact Hw|exact I|exact Hws].
  - by apply call_inv.
  - by apply call_inv.
  - by apply writer_step_inv.
  - destruct Hi as [Hn Hw Hp Hws]. split; [exact Hn|exact Hw|exact Hp|exact Hws].
  - exact (time_inv s ms Hi Hms).
Qed.

Lemma reachable_inv s : reachable s → wakeup_inv s.
Proof using Htick.
  induction 1 as [n now Hn|s s' _ IH Hs]; [|by eapply step_inv].
  split; [exact Hn|apply N.le_refl|exact I|]. by apply Forall_replicate.
Qed.

(** ** The thread on its own *)


Lemma run_more (P : Wakeup → Prop) n s s1 :
  thread_step s = Done s1 →
  (∃ m s', (m <= n)%nat ∧ thread_run m s1 = Done s' ∧ P s') →
  ∃ m s', (m <= S n)%nat ∧ thread_run m s = Done s' ∧ P s'.
Proof.
  intros E (m & s' & Hm & Hr & HP). exists (S m), s'. split; [lia|]. split; [|exact HP].
  cbn [Wakeup.thread_run]. rewrite E. exact Hr.
Qed.

Lemma run_weaken (P : Wakeup → Prop) n n' s :
  (n <= n')%nat →
  (∃ m s', (m <= n)%nat ∧ thread_run m s = Done s' ∧ P s') →
  ∃ m s', (m <= n')%nat ∧ thread_run m s = Done s' ∧ P s'.
Proof. intros Hn (m & s' & Hm & H). exists m, s'. split; [lia|exact H]. Qed.

Ltac thread := unfold Wakeup.thread_step;
  cbn [wk_pc wk_word wk_token wk_sleep wk_now wk_ready
    with_pc with_token with_ready with_sleep with_word].








(** Within [n] steps of its own the thread has returned. *)
Definition exits (n : nat) (s : Wakeup) : Prop :=
  ∃ m s', (m <= n)%nat ∧ thread_run m s = Done s' ∧ wk_pc s' = Exited.

Lemma exits_running t r now ws : now <= u64_max → exits 1 (mkWakeup 0 t r 0 Running now ws).
Proof using Htick.
  intros Hn. eexists 1%nat, _. split; [lia|]. cbn [Wakeup.thread_run].
  thread. rewrite loop_head_Done by exact Hn. split; reflexivity.
Qed.

Lemma exits_loading t r k now ws : now <= u64_max → exits 2 (mkWakeup 0 t r k Loading now ws).
Proof using Htick.
  intros Hn. eapply run_more; [thread; reflexivity|]. by apply exits_running.
Qed.

Lemma exits_exchanging t r k now ws :
  now <= u64_max → k ≠ 0 → exits 2 (mkWakeup 0 t r k Exchanging now ws).
Proof using Htick.
  intros Hn Hk. eapply run_more; [thread; reflexivity|]. unfold exchange.
  cbn [wk_word wk_sleep]. destruct (N.eqb_spec 0 k); [congruence|]. by apply exits_running.
Qed.

Lemma exits_woken r k now ws c :
  now <= u64_max → match c with Parking _ | Parked _ => True | _ => False end →
  exits 3 (mkWakeup 0 true r k c now ws).
Proof using Htick.
  intros Hn Hc. destruct c; try done;
    (eapply run_more; [thread; reflexivity|by apply exits_loading]).
Qed.

Lemma exits_any t r k now ws :
  now <= u64_max → t = true ∨ k = 0 → exits 4 (mkWakeup 0 t r k Running now ws).
Proof using Htick.
  intros Hn Hk.
  eapply run_more; [thread; rewrite loop_head_Done by exact Hn; reflexivity|].
  cbn [wk_sleep wk_now]. destruct (N.eqb_spec k 0).
  { eexists 0%nat, _. split; [lia|]. split; reflexivity. }
  destruct (N.ltb_spec (tick_at now) k).
  - destruct Hk as [->|?]; [by apply exits_woken|done].
  - eapply run_weaken; [|by apply exits_exchanging]. lia.
Qed.


(** In a reachable state nobody is awaited by the thread in vain. *)
Lemma heard s : wakeup_inv s → fresh s → wk_token s = true ∨ ¬ unparking s → wk_token s = true ∨ wk_sleep s <= wk_word s.
Proof. intros _ [[?|?]|?] [?|?]; tauto. Qed.

(** ** The properties *)


(** When the tick the thread waits for is in the future it parks, for
    exactly the time after which the clock shows that tick (if that time can
    be represented), and forever otherwise. *)
Theorem parks_until_due s :
  reachable s → wk_pc s = Running → wk_token s = false → tick_at (wk_now s) < wk_sleep s →
  ∃ s', thread_run 2 s = Done s' ∧ wk_sleep s' = wk_sleep s
    ∧ (unparking s' ∨ wk_sleep s' <= wk_word s')
    ∧ let u := wk_now s + tick_ms * (wk_sleep s - tick_at (wk_now s)) in
      if tick_ms * (wk_sleep s - tick_at (wk_now s)) <=? u64_max then
        wk_pc s' = Parked (Some u) ∧ wk_now s < u
        ∧ (u + tick_ms / 2 <= u64_max → tick_at u = wk_sleep s)
      else wk_pc s' = Parked None.
Proof using Htick.
  intros Hr Hc Ht Hlt. pose proof (reachable_inv s Hr) as [Hn Hw Hp].
  destruct s as [w t r k c now ws].
  cbn [wk_pc wk_token wk_sleep wk_now wk_word] in *. subst c t.
  cbn [Wakeup.thread_run]. thread. rewrite loop_head_Done by exact Hn.
  cbn [wk_sleep wk_now]. destruct (N.eqb_spec k 0); [lia|].
  destruct (N.ltb_spec (tick_at now) k); [|lia].
  eexists; split; [reflexivity|].
  cbn [wk_pc wk_token wk_sleep wk_now wk_word with_pc].
  split; [done|]. split; [by destruct Hp as [[[?|?]|?] _]; [|left|right]|].
  unfold checked_mul64. cbv zeta. destruct (_ <=? _); [|done]. split; [done|].
  split; [nia|]. intros Hu.
  assert (now + tick_ms / 2 <= u64_max) as Hnow.
  { etransitivity; [|exact Hu]. apply N.add_le_mono_r, N.le_add_r. }
  unfold Wakeup.tick_at, sat_add64 in Hu, Hlt |- *.
  rewrite (N.min_l _ _ Hnow) in Hu, Hlt |- *. rewrite (N.min_l _ _ Hu).
  set (q := (now + tick_ms / 2) / tick_ms) in *.
  replace (now + tick_ms * (k - q) + tick_ms / 2)
    with (now + tick_ms / 2 + (k - q) * tick_ms) by lia.
  rewrite N.div_add by lia. fold q. lia.
Qed.



(** A thread that has heard of the word 0 returns. *)
Lemma zero_exits s :
  wakeup_inv s → wk_word s = 0 → wk_token s = true ∨ ¬ unparking s → ¬ asleep s ∧ exits 5 s.
Proof using Htick.
  intros Hi H0 Hu. pose proof (heard s Hi) as Hh. destruct Hi as [Hn Hw Hp _].
  destruct s as [w t r k c now ws]. unfold pc_inv, asleep in *.
  cbn [wk_pc wk_token wk_sleep wk_now wk_word] in *. subst w.
  assert (k ≠ 0 → fresh (mkWakeup 0 t r k c now ws) → t = true) as Ht.
  { intros Hk Hf. destruct (Hh Hf Hu) as [?|?]; [done|lia]. }
  split; [destruct c; intros [-> Ha]; try done; by specialize (Ht (proj1 (proj2 Hp)) (proj1 Hp))|].
  destruct c as [| |d|u| | |].
  - eapply run_weaken; [|by apply exits_loading]. lia.
  - eapply run_weaken; [|apply exits_any; [done|]]; [lia|].
    destruct (decide (k = 0)) as [?|Hk]; [by right|left]. exact (Ht Hk (proj1 Hp)).
  - rewrite (Ht (proj1 (proj2 Hp)) (proj1 Hp)). eapply run_weaken; [|by apply exits_woken]. lia.
  - rewrite (Ht (proj1 (proj2 Hp)) (proj1 Hp)). eapply run_weaken; [|by apply exits_woken]. lia.
  - eapply run_weaken; [|apply exits_exchanging; [done|lia]]. lia.
  - eapply (run_more _ 4); [thread; reflexivity|]. apply exits_any; [done|].
    left. destruct Hp as [[[Hx|Hx]|?] _]; [exact Hx|by destruct Hu|done].
  - eexists 0%nat, _. split; [lia|]. split; reflexivity.
Qed.

(** The word 0 is final: it is what [drop] stores, and also what a timeout
    of tick 0 stores; once it is there and nobody still has to unpark the
    thread, the thread is not asleep and returns within five of its steps, and
    one that has returned never reports anything again, whatever is scheduled. *)
Theorem word_zero_is_final s :
  reachable s →
  (∀ i, wk_word (terminate i s) = TERMINATE_THREAD)
  ∧ (∀ i, wk_writers s !! i = Some (WCas 0 (wk_word s)) → wk_word (writer_step i s) = TERMINATE_THREAD)
  ∧ (wk_word s = TERMINATE_THREAD → wk_token s = true ∨ ¬ unparking s →
       ¬ asleep s
       ∧ ∃ n s', (n <= 5)%nat ∧ thread_run n s = Done s' ∧ wk_pc s' = Exited)
  ∧ (wk_pc s = Exited → ∀ s', step s s' →
       wk_pc s' = Exited ∧ wk_word s' = TERMINATE_THREAD
       ∧ (wk_ready s' = true → wk_ready s = true)).
Proof using Htick.
  intros Hr. pose proof (reachable_inv s Hr) as Hi.
  split; [done|]. split.
  { intros i Ei. unfold writer_step, schedule_cas. by rewrite Ei, N.eqb_refl. }
  split; [exact (zero_exits s Hi)|].
  intros He s' Hs. pose proof (inv_pc _ Hi) as Hp. unfold pc_inv in Hp. rewrite He in Hp.
  destruct Hs as [s s' Hs|s u E|s i tick Ei Ht|s i Ei|s i|s|s ms Hms]; cbn; try done; try congruence.
  - unfold Wakeup.thread_step in Hs. rewrite He in Hs. injection Hs as <-. done.
  - destruct (writer_step_ok i s Hi) as [(_ & E & _ & Er & Hle & _) _].
    split; [congruence|]. split; [unfold TERMINATE_THREAD; lia|congruence].
Qed.
End WakeupProps.

(** ** The timer schedules its thread as a writer does *)

(** [n] accesses of the writer [i], with nobody else running. *)
Fixpoint writer_run (n i : nat) (s : Wakeup) : Wakeup :=
  match n with
  | O => s
  | S n => writer_run n i (writer_step i s)
  end.

Section Schedule.
Context {slab : Type → Type} {SO : SlabOps slab} {H T : Type}.

(** [schedule_readiness] on a registered timer acts on the shared word and
    the park token as a writer that nobody interrupts, three accesses long at
    most, changes nothing else, and never runs out of its two rounds; the
    thread cannot see a difference. *)
Theorem schedule_readiness_refines (t : Timer slab H T) (i : Inner H) s j tick :
  t_inner t = Some i → i_wakeup_state i = wk_word s → i_park_token i = wk_token s →
  wk_writers s !! j = Some WIdle →
  let s' := writer_run 3 j (with_writer j (WLoad tick) s) in
  ∃ i', schedule_readiness t tick = Done (with_inner t (Some i'))
    ∧ i_handle i' = i_handle i
    ∧ i_wakeup_state i' = wk_word s' ∧ i_park_token i' = wk_token s'
    ∧ wk_writers s' = wk_writers s
    ∧ wk_pc s' = wk_pc s ∧ wk_ready s' = wk_ready s
    ∧ i_wakeup_state i' = N.min tick (i_wakeup_state i).
Proof.
  intros Hi Hw Ht Hj. pose proof (lookup_lt_Some _ _ _ Hj) as Hl.
  assert (∀ c s1, wk_writers s1 = <[j := c]> (wk_writers s) → wk_writers s1 !! j = Some c) as Hc
    by (intros c s1 ->; by apply list_lookup_insert_eq).
  cbn [writer_run]. set (s0 := with_writer j (WLoad tick) s).
  unfold schedule_readiness. rewrite Hi. cbn.
  assert (writer_step j s0 = with_writer j (schedule_test tick (wk_word s)) s) as ->.
  { unfold writer_step. rewrite (Hc (WLoad tick)) by done. unfold with_writer. cbn.
    by rewrite list_insert_insert_eq. }
  unfold schedule_test. rewrite <- Hw. destruct (N.leb_spec (i_wakeup_state i) tick).
  - set (s1 := with_writer j WIdle s).
    assert (writer_step j s1 = s1) as Es by (unfold writer_step; by rewrite (Hc WIdle)). rewrite !Es.
    exists i. cbn. rewrite N.min_r, list_insert_id by done. done.
  - rewrite N.eqb_refl. set (s1 := with_writer j (WCas _ _) s).
    assert (writer_step j s1 = with_writer j WUnpark (with_word tick s)) as ->.
    { unfold writer_step, schedule_cas. rewrite (Hc (WCas tick (i_wakeup_state i))) by done.
      change (wk_word s1) with (wk_word s). rewrite <- Hw, N.eqb_refl. unfold with_writer, with_word. cbn.
      by rewrite list_insert_insert_eq. }
    unfold writer_step. rewrite (Hc WUnpark) by done.
    eexists; split; [reflexivity|]. cbn. rewrite N.min_l, list_insert_insert_eq, list_insert_id by lia || done. done.
Qed.
End Schedule.

(** ** Concrete runs: ticks of 100 ms *)
Module WakeupDemo.
(** A registered timer whose only client schedules a timeout at tick 3, at time
    0. *)
Definition s0 : Wakeup := writer_run 3 0 (with_writer 0 (WLoad 3) (spawned 1 0)).
(** The thread after it has gone to sleep: load, loop, park. *)
Definition s1 : Wakeup := mkWakeup 3 false false 3 (Parked (Some 300)) 0 [WIdle].

Lemma run_reachable n s s' :
  reachable 100 s → thread_run 100 n s = Done s' → reachable 100 s'.
Proof.
  revert s. induction n as [|n IH]; cbn; intros s Hr E; [congruence|].
  destruct (thread_step 100 s) as [s1| |] eqn:E1; try done.
  eapply IH; [|exact E]. eapply reach_step; [exact Hr|]. by apply step_thread.
Qed.

Lemma writes_reachable n i s : reachable 100 s → reachable 100 (writer_run n i s).
Proof.
  revert s. induction n as [|n IH]; cbn; intros s Hr; [done|].
  apply IH. eapply reach_step; [exact Hr|]. apply step_writer.
Qed.

Lemma scheduled_reachable n tick s :
  reachable 100 s → wk_writers s !! 0%nat = Some WIdle → tick <= u64_max →
  reachable 100 (writer_run n 0 (with_writer 0 (WLoad tick) s)).
Proof. intros Hr Hi Ht. apply writes_reachable. eapply reach_step; [exact Hr|]. by apply step_schedule. Qed.

Lemma s0_reachable : reachable 100 s0.
Proof. by apply scheduled_reachable; [apply reach_spawn| |]. Qed.






(** The thread that has loaded the word again. *)
Definition s3 : Wakeup := mkWakeup 3 false false 3 Running 0 [WIdle].
Lemma s3_reachable : reachable 100 s3.
Proof. apply (run_reachable 4 s0); [apply s0_reachable|by vm_compute]. Qed.

Lemma parks_until_due_witness :
  ∃ s', thread_run 100 2 s3 = Done s' ∧ wk_pc s' = Parked (Some 300).
Proof.
  destruct (parks_until_due 100 eq_refl s3 s3_reachable eq_refl eq_refl eq_refl)
    as (s' & E & _ & _ & H). exists s'. split; [exact E|]. vm_compute in H. exact (proj1 H).
Defined.

(** A timeout at tick 0 ends the thread. *)
Definition s4 : Wakeup := writer_run 3 0 (with_writer 0 (WLoad 0) (spawned 1 0)).
Lemma s4_reachable : reachable 100 s4.
Proof. by apply scheduled_reachable; [apply reach_spawn| |]. Qed.

Lemma word_zero_is_final_witness :
  wk_word s4 = TERMINATE_THREAD
  ∧ ∃ n s', (n <= 5)%nat ∧ thread_run 100 n s4 = Done s' ∧ wk_pc s' = Exited.
Proof.
  split; [done|].
  exact (proj2 (proj1 (proj2 (proj2 (word_zero_is_final 100 eq_refl _ s4_reachable))) eq_refl (or_introl eq_refl))).
Defined.

Definition timer0 : Timer VecSlab.t unit nat :=
  mkTimer 100 (slab_with_capacity 4) [mkWheel TICK_MAX EMPTY] (mkInstant 0) 0 EMPTY 0
    (Some (mkInner tt 7 false)).

Lemma schedule_readiness_refines_witness :
  ∃ i', schedule_readiness timer0 3 = Done (with_inner timer0 (Some i'))
    ∧ i_wakeup_state i' = 3 ∧ i_park_token i' = true.
Proof.
  destruct (schedule_readiness_refines timer0 (mkInner tt 7 false)
    (mkWakeup 7 false false 7 Running 0 [WIdle]) 0 3 eq_refl eq_refl eq_refl eq_refl)
    as (i' & E & _ & Hw & Ht & _). exists i'. split; [exact E|]. split; [exact Hw|exact Ht].
Defined.
End WakeupDemo.
