(* ===== verification/Net.v ===== *)
(** * Non-blocking reads and writes over byte buffers

    [src/src/net/mod.rs]: [map_non_block] and the traits [TryRead] and
    [TryWrite].  The buffers are those of the crate [bytes] and the sockets are
    the kernel's: [BytesOps] and [StreamOps] are what the code calls of them,
    [BytesLaws] and [StreamLaws] what their documentation promises. *)
From Stdlib Require Import Strings.Byte Strings.String.
From S2P Require Import Prelude.

(** ** Buffers *)

(** [BytesMut]: [chunk_mut] may reserve room, and returns its size; the caller
    writes bytes there and [advance_mut] makes them part of the buffer, which
    [bytes_fill] does in one step. *)
Class BytesOps (B : Type) := {
  bytes_with_capacity : N → B;
  bytes_data : B → list byte;
  bytes_chunk_mut : B → N * B;
  bytes_fill : B → list byte → B;
  bytes_split : B → B * B;
  bytes_put : B → B → B;
  bytes_advance : B → N → exec B;
}.

Definition bytes_len {B} `{BytesOps B} (b : B) : N := N.of_nat (length (bytes_data b)).

Class BytesLaws (B : Type) `{BytesOps B} := {
  data_with_capacity : ∀ n, bytes_data (bytes_with_capacity n) = [];
  data_chunk_mut : ∀ b,
    0 < (bytes_chunk_mut b).1 ∧ bytes_data (bytes_chunk_mut b).2 = bytes_data b;
  data_fill : ∀ b bs, bytes_data (bytes_fill b bs) = bytes_data b ++ bs;
  (** [split] returns the content and leaves the buffer empty. *)
  data_split : ∀ b,
    bytes_data (bytes_split b).1 = [] ∧ bytes_data (bytes_split b).2 = bytes_data b;
  data_put : ∀ b c, bytes_data (bytes_put b c) = bytes_data b ++ bytes_data c;
  data_advance : ∀ b n,
    n <= bytes_len b →
    ∃ b', bytes_advance b n = Done b' ∧ bytes_data b' = drop (N.to_nat n) (bytes_data b);
}.

(** [BytesMut::from] of a slice, and the slices of string literals. *)
Definition bytes_from {B} `{BytesOps B} (bs : list byte) : B :=
  bytes_fill (bytes_with_capacity (N.of_nat (length bs))) bs.
Definition crlf : list byte := [x0d; x0a].
Definition text (s : string) : list byte := list_byte_of_string s.

Lemma data_bytes_from {B} `{BytesLaws B} bs : bytes_data (bytes_from bs) = bs.
Proof. unfold bytes_from. by rewrite data_fill, data_with_capacity. Qed.

(** A list of bytes that always finds room for 64 more. *)
Module ListBytes.
Definition t : Type := list byte.

#[global] Instance ops : BytesOps t := {|
  bytes_with_capacity := λ _, [];
  bytes_data := λ b, b;
  bytes_chunk_mut := λ b, (64, b);
  bytes_fill := λ b bs, b ++ bs;
  bytes_split := λ b, ([], b);
  bytes_put := λ b c, b ++ c;
  bytes_advance := λ b n,
    if n <=? N.of_nat (length b) then Done (drop (N.to_nat n) b) else Panic PAssert;
|}.

#[global] Instance laws : BytesLaws t.
Proof.
  split; try done. intros b n Hn. unfold bytes_len in Hn. cbn in *.
  exists (drop (N.to_nat n) b). by apply N.leb_le in Hn as ->.
Defined.
End ListBytes.

(** ** Sockets *)

Inductive Shutdown : Set := ShutRead | ShutWrite | ShutBoth.

#[export] Instance Shutdown_eq_dec : EqDecision Shutdown.
Proof. solve_decision. Defined.

(** The world [E] a connection lives in, with its sockets named by their
    descriptors: a read into a buffer of a given size returns the bytes it
    stored, a write the number of bytes it took. *)
Class StreamOps (E : Type) := {
  stream_read : E → N → N → io_result (list byte) * E;
  stream_write : E → N → list byte → io_result N * E;
  stream_shutdown : E → N → Shutdown → io_result unit * E;
  (** [EventLoop::deregister] of the socket. *)
  stream_deregister : E → N → exec (io_result unit * E);
}.

(** [rx] and [tx] are the bytes a socket has handed out and taken so far, and
    [pend] bounds the reads that still return bytes. *)
Class StreamLaws (E : Type) `{StreamOps E} := {
  rx : E → N → list byte;
  tx : E → N → list byte;
  pend : E → N → nat;
  read_law : ∀ e s n,
    0 < n →
    match stream_read e s n with
    | (IoOk bs, e') =>
        N.of_nat (length bs) <= n ∧ rx e' s = rx e s ++ bs
        ∧ (bs ≠ [] → (pend e' s < pend e s)%nat)
    | (IoErr WouldBlock, e') => e' = e
    | (IoErr _, e') => rx e' s = rx e s
    end;
  write_law : ∀ e s bs,
    bs ≠ [] →
    match stream_write e s bs with
    | (IoOk k, e') =>
        k <= N.of_nat (length bs) ∧ tx e' s = tx e s ++ take (N.to_nat k) bs
    | (IoErr _, e') => tx e' s = tx e s
    end;
}.

(** ** The helpers of the module *)

(** [MapNonBlock::map_non_block]. *)
Definition map_non_block {A} (r : io_result A) : io_result (option A) :=
  match r with
  | IoOk value => IoOk (Some value)
  | IoErr WouldBlock => IoOk None
  | IoErr err => IoErr err
  end.

Section Net.
Context {E B : Type} {SO : StreamOps E} {BO : BytesOps B}.

(** [TryRead::try_read] and [TryWrite::try_write] of a reader and a writer. *)
Definition try_read (e : E) (s n : N) : io_result (option (list byte)) * E :=
  let '(r, e) := stream_read e s n in (map_non_block r, e).

Definition try_write (e : E) (s : N) (src : list byte) : io_result (option N) * E :=
  let '(r, e) := stream_write e s src in (map_non_block r, e).

(** [try_read_buf]: the number of bytes added to the buffer. *)
Definition try_read_buf (e : E) (s : N) (buf : B) : io_result (option N) * B * E :=
  let '(n, buf) := bytes_chunk_mut buf in
  match try_read e s n with
  | (IoOk (Some bs), e) => (IoOk (Some (N.of_nat (length bs))), bytes_fill buf bs, e)
  | (IoOk None, e) => (IoOk None, buf, e)
  | (IoErr err, e) => (IoErr err, buf, e)
  end.

(** [try_write_buf]: the number of bytes taken from the buffer. *)
Definition try_write_buf (e : E) (s : N) (buf : B)
    : exec (io_result (option N) * B * E) :=
  match try_write e s (bytes_data buf) with
  | (IoOk (Some cnt), e) =>
      bytes_advance buf cnt ≫= λ buf, Done (IoOk (Some cnt), buf, e)
  | (IoOk None, e) => Done (IoOk None, buf, e)
  | (IoErr err, e) => Done (IoErr err, buf, e)
  end.

Context {SL : StreamLaws E} {BL : BytesLaws B}.

(** What a read does to the buffer and the socket. *)
Lemma try_read_buf_law e s buf :
  match try_read_buf e s buf with
  | (IoOk (Some r), buf', e') =>
      ∃ bs, r = N.of_nat (length bs) ∧ bytes_data buf' = bytes_data buf ++ bs
        ∧ rx e' s = rx e s ++ bs ∧ (bs ≠ [] → (pend e' s < pend e s)%nat)
  | (IoOk None, buf', e') =>
      bytes_data buf' = bytes_data buf ∧ e' = e
      ∧ ∃ n, 0 < n ∧ stream_read e s n = (IoErr WouldBlock, e)
  | (IoErr _, buf', e') => bytes_data buf' = bytes_data buf ∧ rx e' s = rx e s
  end.
Proof using SL BL.
  unfold try_read_buf, try_read. destruct (data_chunk_mut buf) as [Hn Hd].
  destruct (bytes_chunk_mut buf) as [n buf1]. cbn [fst snd] in *.
  pose proof (read_law e s n Hn) as HR.
  destruct (stream_read e s n) as [[bs|err] e'] eqn:ER; cbn [map_non_block].
  - exists bs. rewrite data_fill, Hd. naive_solver.
  - destruct err; [naive_solver| |naive_solver].
    subst e'. split; [exact Hd|]. split; [done|]. by exists n.
Qed.

(** What a write does. *)
Lemma try_write_buf_law e s buf :
  bytes_data buf ≠ [] →
  ∃ r buf' e', try_write_buf e s buf = Done (r, buf', e')
    ∧ match r with
      | IoOk (Some k) =>
          k <= bytes_len buf ∧ stream_write e s (bytes_data buf) = (IoOk k, e')
          ∧ bytes_data buf' = drop (N.to_nat k) (bytes_data buf)
          ∧ tx e' s = tx e s ++ take (N.to_nat k) (bytes_data buf)
      | IoOk None =>
          bytes_data buf' = bytes_data buf ∧ tx e' s = tx e s
          ∧ stream_write e s (bytes_data buf) = (IoErr WouldBlock, e')
      | IoErr err =>
          bytes_data buf' = bytes_data buf ∧ tx e' s = tx e s ∧ err ≠ WouldBlock
          ∧ stream_write e s (bytes_data buf) = (IoErr err, e')
      end.
Proof using SL BL.
  intros Hne. unfold try_write_buf, try_write. pose proof (write_law e s _ Hne) as HW.
  destruct (stream_write e s (bytes_data buf)) as [[k|err] e'] eqn:EW; cbn [map_non_block].
  - destruct HW as [Hk Htx]. destruct (data_advance buf k Hk) as (buf' & EA & HA).
    rewrite EA. eexists _, _, _. split; [reflexivity|]. naive_solver.
  - destruct err; eexists _, _, _; (split; [reflexivity|]); naive_solver.
Qed.
End Net.
