(* ===== verification/Connection.v ===== *)
(** * TCP connections

    [src/src/net/connection.rs]: the connection a readiness event drives.  The
    jobs are the closures the user installs: functions on the world [E], in
    which the socket and the event loop are, that may panic. *)
From Stdlib Require Import Strings.Byte.
From S2P Require Import Prelude EventSet Net.

Section Connection.
Context {E B : Type} {SO : StreamOps E} {BO : BytesOps B}.

Record TcpConnection := mkConn {
  tcp_stream : N;
  read_buffer : option B;
  write_buffer_sending : option B;
  write_buffer_waiting : option B;
  read_job : B → E → exec (B * E);
  writ_job : E → exec (bool * E);
  close_job : E → exec E;
  read_enabled : bool;
  write_enabled : bool;
  read_triggered : bool;
  write_triggered : bool;
  closed : bool;
}.
Implicit Types (c : TcpConnection) (e : E).

Definition with_read_buffer v c := mkConn (tcp_stream c) v (write_buffer_sending c)
  (write_buffer_waiting c) (read_job c) (writ_job c) (close_job c) (read_enabled c)
  (write_enabled c) (read_triggered c) (write_triggered c) (closed c).
Definition with_sending v c := mkConn (tcp_stream c) (read_buffer c) v
  (write_buffer_waiting c) (read_job c) (writ_job c) (close_job c) (read_enabled c)
  (write_enabled c) (read_triggered c) (write_triggered c) (closed c).
Definition with_waiting v c := mkConn (tcp_stream c) (read_buffer c)
  (write_buffer_sending c) v (read_job c) (writ_job c) (close_job c) (read_enabled c)
  (write_enabled c) (read_triggered c) (write_triggered c) (closed c).
Definition with_jobs r w k c := mkConn (tcp_stream c) (read_buffer c)
  (write_buffer_sending c) (write_buffer_waiting c) r w k (read_enabled c)
  (write_enabled c) (read_triggered c) (write_triggered c) (closed c).
Definition with_enabled r w c := mkConn (tcp_stream c) (read_buffer c)
  (write_buffer_sending c) (write_buffer_waiting c) (read_job c) (writ_job c)
  (close_job c) r w (read_triggered c) (write_triggered c) (closed c).
Definition with_triggered r w c := mkConn (tcp_stream c) (read_buffer c)
  (write_buffer_sending c) (write_buffer_waiting c) (read_job c) (writ_job c)
  (close_job c) (read_enabled c) (write_enabled c) r w (closed c).
Definition with_closed v c := mkConn (tcp_stream c) (read_buffer c)
  (write_buffer_sending c) (write_buffer_waiting c) (read_job c) (writ_job c)
  (close_job c) (read_enabled c) (write_enabled c) (read_triggered c)
  (write_triggered c) v.

(** [TcpConnection::new]: three empty buffers and jobs that only log. *)
Definition TcpConnection_new (tcp_stream : N) : TcpConnection :=
  mkConn tcp_stream (Some (bytes_with_capacity 1024)) (Some (bytes_with_capacity 1024))
    (Some (bytes_with_capacity 1024)) (λ b e, Done (b, e)) (λ e, Done (true, e)) Done
    true true false false false.

Definition connected c : bool := read_triggered c || write_triggered c.

Definition set_read_job c job : TcpConnection := with_jobs job (writ_job c) (close_job c) c.
Definition set_writ_job c job : TcpConnection := with_jobs (read_job c) job (close_job c) c.
Definition set_close_job c job : TcpConnection := with_jobs (read_job c) (writ_job c) job c.
Definition set_enabled c (enable : bool) : TcpConnection := with_enabled enable enable c.

Definition close_stream c e : exec E :=
  stream_deregister e (tcp_stream c) ≫= λ '(r, e),
  match r with
  | IoOk _ => Done e
  | IoErr _ => Panic PUnwrap
  end.

Definition handle_close c e : exec (TcpConnection * E) :=
  if closed c then Done (c, e)
  else
    let c := set_enabled c false in
    let c := with_closed true c in
    close_job c e ≫= λ e,
    close_stream c e ≫= λ e,
    Done (c, e).

(** The loop of [handle_read] ends when a read would block, returns no bytes
    or fails. *)
Fixpoint handle_read (fuel : nat) c e : exec (TcpConnection * E) :=
  match fuel with
  | O => NoFuel
  | S fuel =>
      unwrap PUnwrap (read_buffer c) ≫= λ buf,
      match try_read_buf e (tcp_stream c) buf with
      | (IoOk None, buf, e) =>
          let c := with_read_buffer (Some buf) c in
          Done (with_triggered false (write_triggered c) c, e)
      | (IoOk (Some r), buf, e) =>
          if 0 <? r then
            read_job c buf e ≫= λ '(buf, e),
            handle_read fuel (with_read_buffer (Some buf) c) e
          else
            read_job c buf e ≫= λ '(buf, e),
            let c := with_read_buffer (Some buf) c in
            let c := with_triggered false (write_triggered c) c in
            handle_close c e
      | (IoErr _, buf, e) =>
          let c := with_read_buffer (Some buf) c in
          let c := with_triggered false (write_triggered c) c in
          handle_close c e
      end
  end.

(** The buffer [write_data] sends: the content of [write_buffer_sending], or
    else of [write_buffer_waiting]; [None] when both are empty. *)
Definition take_buffer c : exec (option B * TcpConnection) :=
  unwrap PUnwrap (write_buffer_sending c) ≫= λ buf_snd,
  let '(buf_snd, buf_tmp) :=
    if 0 <? bytes_len buf_snd then bytes_split buf_snd
    else (buf_snd, bytes_with_capacity 1024) in
  let c := with_sending (Some buf_snd) c in
  if bytes_len buf_tmp =? 0 then
    unwrap PUnwrap (write_buffer_waiting c) ≫= λ buf,
    if 0 <? bytes_len buf then
      let '(buf, buf_tmp) := bytes_split buf in
      Done (Some buf_tmp, with_waiting (Some buf) c)
    else Done (None, c)
  else Done (Some buf_tmp, c).

Definition write_data c e : exec (TcpConnection * E) :=
  take_buffer c ≫= λ '(o, c),
  match o with
  | None => Done (c, e)
  | Some buf =>
      try_write_buf e (tcp_stream c) buf ≫= λ '(r, buf, e),
      match r with
      | IoOk None => Done (with_triggered (read_triggered c) false c, e)
      | IoOk (Some _) =>
          if 0 <? bytes_len buf then Done (c, e)
          else
            let c := with_triggered (read_triggered c) false c in
            writ_job c e ≫= λ '(ret, e),
            if negb ret then handle_close c e else Done (c, e)
      | IoErr _ => handle_close (with_triggered (read_triggered c) false c) e
      end
  end.

(** [send] always returns [Ok]: the number of bytes it was given, or 0. *)
Definition send c (bytes : B) e : exec (N * TcpConnection * E) :=
  if negb (write_enabled c) then Done (0, c, e)
  else
    let len := bytes_len bytes in
    if len =? 0 then Done (0, c, e)
    else
      unwrap PUnwrap (write_buffer_waiting c) ≫= λ buffer,
      write_data (with_waiting (Some (bytes_put buffer bytes)) c) e ≫= λ '(c, e),
      Done (len, c, e).

Definition handle_write c e : exec (TcpConnection * E) :=
  unwrap PUnwrap (write_buffer_waiting c) ≫= λ waiting,
  unwrap PUnwrap (write_buffer_sending c) ≫= λ sending,
  if (bytes_len waiting =? 0) && (bytes_len sending =? 0) then Done (c, e)
  else write_data c e.

Definition handle_event (fuel : nat) c (event : N) e : exec (TcpConnection * E) :=
  let ready := ready_from_usize event in
  (if Ready.is_readable ready
   then handle_read fuel (with_triggered true (write_triggered c) c) e
   else Done (c, e)) ≫= λ '(c, e),
  (if Ready.is_writable ready
   then handle_write (with_triggered (read_triggered c) true c) e
   else Done (c, e)) ≫= λ '(c, e),
  if Ready.is_error ready || Ready.is_hup ready
  then handle_close (with_triggered true true c) e
  else Done (c, e).

Definition shutdown c (how : Shutdown) e : io_result unit * TcpConnection * E :=
  let c :=
    if bool_decide (how = ShutRead) then with_enabled false (write_enabled c) c
    else if bool_decide (how = ShutWrite) then with_enabled (read_enabled c) false c
    else set_enabled c false in
  let '(r, e) := stream_shutdown e (tcp_stream c) how in
  (r, c, e).
End Connection.
Arguments TcpConnection E B : clear implicits.
