(* ===== verification/ConnectionProps.v ===== *)
(** * TCP connections: properties

    The read path, the write path and the life of a connection of [Connection],
    over any world with the laws of [Net], and a world with one socket in which
    the witnesses run. *)
From Stdlib Require Import Strings.Byte.
From S2P Require Import Prelude EventSet Net Connection.

(** ** The read path *)
Section ReadPath.
Context {E B : Type} {SO : StreamOps E} {BO : BytesOps B}.
Context {SL : StreamLaws E} {BL : BytesLaws B}.
(** The bytes the user has taken out of the read buffer. *)
Context (delivered : E → list byte).
(** A read of a socket delivers nothing. *)
Context (delivered_read : ∀ e s n, delivered (stream_read e s n).2 = delivered e).
(** The worlds in which the jobs return; a read keeps to them. *)
Context (good : E → Prop).
Context (good_read : ∀ e s n, good e → good (stream_read e s n).2).
Implicit Types (c : TcpConnection E B) (e : E).

Lemma delivered_try_read e s (buf : B) :
  delivered (try_read_buf e s buf).2 = delivered e.
Proof using delivered_read.
  unfold try_read_buf, try_read. destruct (bytes_chunk_mut buf) as [n buf1].
  pose proof (delivered_read e s n) as H.
  by destruct (stream_read e s n) as [[bs|[]] e'].
Qed.

Lemma good_try_read e s (buf : B) : good e → good (try_read_buf e s buf).2.
Proof using good_read.
  intros Hg. unfold try_read_buf, try_read. destruct (bytes_chunk_mut buf) as [n buf1].
  pose proof (good_read e s n Hg) as H.
  by destruct (stream_read e s n) as [[bs|[]] e'].
Qed.

(** A read job returns, takes a prefix of the buffer, and does not read the
    socket of the connection itself. *)
Definition takes_prefix c : Prop := ∀ buf e, good e → ∃ buf' e',
  read_job c buf e = Done (buf', e') ∧ good e'
  ∧ delivered e' ++ bytes_data buf' = delivered e ++ bytes_data buf
  ∧ rx e' (tcp_stream c) = rx e (tcp_stream c)
  ∧ (pend e' (tcp_stream c) <= pend e (tcp_stream c))%nat.

(** Closing returns and delivers nothing. *)
Definition closes_quietly c : Prop := ∀ e, good e → ∃ e',
  (close_job c e ≫= λ e, close_stream c e) = Done e'
  ∧ delivered e' = delivered e ∧ rx e' (tcp_stream c) = rx e (tcp_stream c).

(** Every byte the socket handed out was delivered or is in the read buffer. *)
Definition lossless c e : Prop := ∃ buf,
  read_buffer c = Some buf ∧ delivered e ++ bytes_data buf = rx e (tcp_stream c).

Lemma handle_close_lossless c e :
  closes_quietly c → good e → lossless c e →
  ∃ c' e', handle_close c e = Done (c', e') ∧ lossless c' e' ∧ closed c' = true
    ∧ read_triggered c' = read_triggered c ∧ tcp_stream c' = tcp_stream c.
Proof using.
  intros Hc Hg (buf & Hb & Hl). unfold handle_close. destruct (closed c) eqn:Ec.
  { exists c, e. split; [done|]. split; [by exists buf|done]. }
  destruct (Hc e Hg) as (e' & E1 & Hd & Hr).
  destruct (close_job c e) as [e1| |] eqn:EJ; try done. cbn [mbind exec_bind] in E1.
  cbn [close_job with_closed set_enabled with_enabled]. rewrite EJ. cbn [mbind exec_bind].
  change (close_stream (with_closed true (set_enabled c false)) e1) with (close_stream c e1).
  rewrite E1. eexists _, _. split; [reflexivity|]. split; [|done].
  exists buf. split; [done|]. cbn [tcp_stream with_closed set_enabled with_enabled].
  by rewrite Hd, Hr.
Qed.

Lemma handle_read_full fuel c e :
  takes_prefix c → closes_quietly c → good e → lossless c e →
  (pend e (tcp_stream c) < fuel)%nat →
  ∃ c' e', handle_read fuel c e = Done (c', e') ∧ lossless c' e'
    ∧ read_triggered c' = false ∧ tcp_stream c' = tcp_stream c
    ∧ (closed c' = true
       ∨ good e' ∧ ∃ n, 0 < n ∧ stream_read e' (tcp_stream c) n = (IoErr WouldBlock, e')).
Proof using SL BL delivered_read good_read.
  revert c e. induction fuel as [|fuel IH]; intros c e Ht Hc Hg (buf & Hb & Hl) Hf; [lia|].
  cbn [handle_read]. rewrite Hb. cbn [unwrap mbind exec_bind].
  pose proof (try_read_buf_law e (tcp_stream c) buf) as HR.
  pose proof (delivered_try_read e (tcp_stream c) buf) as He.
  pose proof (good_try_read e (tcp_stream c) buf Hg) as Hg1.
  destruct (try_read_buf e (tcp_stream c) buf) as [[[[r|]|err] buf1] e1]; cbn [snd] in He, Hg1.
  - destruct HR as (bs & -> & Hd & Hx & Hp).
    destruct (Ht buf1 e1 Hg1) as (buf2 & e2 & E2 & Hg2 & Hd2 & Hx2 & Hp2).
    assert (delivered e2 ++ bytes_data buf2 = rx e2 (tcp_stream c)) as Hl2.
    { by rewrite Hd2, Hx2, Hd, Hx, <- Hl, He, app_assoc. }
    rewrite E2. cbn [mbind exec_bind]. destruct (N.ltb_spec 0 (N.of_nat (length bs))).
    + apply (IH (with_read_buffer (Some buf2) c) e2); [exact Ht|exact Hc|exact Hg2|by exists buf2|].
      cbn [tcp_stream with_read_buffer].
      assert (bs ≠ []) as Hbs by (destruct bs; [cbn in *; lia|done]). specialize (Hp Hbs). lia.
    + destruct (handle_close_lossless
        (with_triggered false (write_triggered c) (with_read_buffer (Some buf2) c)) e2)
        as (c' & e' & E3 & Hl3 & Hcl & Hrt & Hs); [exact Hc|exact Hg2|by exists buf2|].
      exists c', e'. split; [exact E3|]. split; [exact Hl3|]. split; [exact Hrt|].
      split; [exact Hs|by left].
  - destruct HR as (Hd & -> & n & Hn & HW). eexists _, _. split; [reflexivity|].
    split; [exists buf1; split; [done|by rewrite Hd]|]. split; [done|]. split; [done|].
    right. split; [exact Hg1|by exists n].
  - destruct HR as (Hd & Hx).
    destruct (handle_close_lossless
      (with_triggered false (write_triggered c) (with_read_buffer (Some buf1) c)) e1)
      as (c' & e' & E3 & Hl3 & Hcl & Hrt & Hs); [exact Hc|exact Hg1|exists buf1; split; [done|]|].
    { cbn [tcp_stream with_triggered with_read_buffer]. rewrite Hd, Hx.
      by rewrite He. }
    exists c', e'. split; [exact E3|]. split; [exact Hl3|]. split; [exact Hrt|].
    split; [exact Hs|by left].
Qed.

Lemma handle_read_ok fuel c e :
  takes_prefix c → closes_quietly c → good e → lossless c e →
  (pend e (tcp_stream c) < fuel)%nat →
  ∃ c' e', handle_read fuel c e = Done (c', e') ∧ lossless c' e'
    ∧ read_triggered c' = false ∧ tcp_stream c' = tcp_stream c
    ∧ (closed c' = true
       ∨ ∃ n, 0 < n ∧ stream_read e' (tcp_stream c) n = (IoErr WouldBlock, e')).
Proof using SL BL delivered_read good_read.
  intros Ht Hc Hg Hl Hf. destruct (handle_read_full fuel c e Ht Hc Hg Hl Hf)
    as (c' & e' & E1 & Hl' & Hr & Hs & Hend). exists c', e'. destruct Hend as [?|[_ ?]]; naive_solver.
Qed.

(** C24 The read path loses, duplicates and reorders nothing, and reads an
    edge-triggered socket to the end: if the jobs return, [handle_read] returns,
    every byte handed out by the socket has been passed to the read job or is in
    the read buffer, in order, and either the connection is closed or the socket
    would block. *)
Theorem handle_read_lossless fuel c e :
  takes_prefix c → closes_quietly c → good e → lossless c e →
  (pend e (tcp_stream c) < fuel)%nat →
  ∃ c' e', handle_read fuel c e = Done (c', e') ∧ lossless c' e'
    ∧ read_triggered c' = false ∧ tcp_stream c' = tcp_stream c
    ∧ (closed c' = true
       ∨ ∃ n, 0 < n ∧ stream_read e' (tcp_stream c) n = (IoErr WouldBlock, e')).
Proof using SL BL delivered_read good_read. apply handle_read_ok. Qed.
End ReadPath.

(** Reading leaves the write buffers and the jobs alone. *)
Section ReadFields.
Context {E B : Type} {SO : StreamOps E} {BO : BytesOps B}.
Implicit Types (c : TcpConnection E B) (e : E).

Definition same_writes c c' : Prop :=
  write_buffer_waiting c' = write_buffer_waiting c ∧
  write_buffer_sending c' = write_buffer_sending c ∧
  writ_job c' = writ_job c ∧ close_job c' = close_job c.

Lemma handle_close_writes c e c' e' : handle_close c e = Done (c', e') → same_writes c c'.
Proof.
  unfold handle_close. destruct (closed c); [by intros [= <- <-]|].
  rewrite bind_Done. intros (e1 & _ & H). apply bind_Done in H as (e2 & _ & H).
  by injection H as <- <-.
Qed.

Lemma handle_read_writes fuel c e c' e' :
  handle_read fuel c e = Done (c', e') → same_writes c c'.
Proof.
  revert c e. induction fuel as [|fuel IH]; intros c e; [done|]. cbn [handle_read].
  destruct (read_buffer c) as [buf|]; cbn [unwrap mbind exec_bind]; [|done].
  destruct (try_read_buf _ _ _) as [[[[r|]|err] buf1] e1].
  - destruct (0 <? r); rewrite bind_Done; intros ([b2 e2] & _ & H).
    + exact (IH _ _ H).
    + exact (handle_close_writes _ _ _ _ H).
  - by intros [= <- <-].
  - intros H. exact (handle_close_writes _ _ _ _ H).
Qed.
End ReadFields.

(** ** The write path *)
Section WritePath.
Context {E B : Type} {SO : StreamOps E} {BO : BytesOps B}.
Context {SL : StreamLaws E} {BL : BytesLaws B}.
Implicit Types (c : TcpConnection E B) (e : E).

(** Nothing ever fills [write_buffer_sending]. *)
Definition writable_conn c (waiting : list byte) : Prop := ∃ snd wait,
  write_buffer_sending c = Some snd ∧ bytes_data snd = []
  ∧ write_buffer_waiting c = Some wait ∧ bytes_data wait = waiting.

(** [c1] is [c] with nothing left in its write buffers. *)
Definition drained c c1 : Prop := ∃ snd wait,
  c1 = with_sending (Some snd) (with_waiting (Some wait) c)
  ∧ bytes_data snd = [] ∧ bytes_data wait = [].

Lemma drained_writable c c1 : drained c c1 → writable_conn c1 [].
Proof. intros (snd & wait & -> & Hs & Hw). by exists snd, wait. Qed.

Lemma bytes_len_nil (b : B) : bytes_data b = [] → bytes_len b = 0.
Proof. intros H. unfold bytes_len. by rewrite H. Qed.

Lemma bytes_len_pos (b : B) : bytes_data b ≠ [] → 0 < bytes_len b.
Proof. intros H. unfold bytes_len. destruct (bytes_data b); [done|cbn; lia]. Qed.

Lemma take_buffer_ok c payload :
  writable_conn c payload → payload ≠ [] →
  ∃ c1 buf, take_buffer c = Done (Some buf, c1) ∧ bytes_data buf = payload
    ∧ drained c c1.
Proof using BL.
  intros (snd & wait & Hs & Hsd & Hw & Hwd) Hne. unfold take_buffer. rewrite Hs.
  cbn [unwrap mbind exec_bind]. rewrite (bytes_len_nil _ Hsd). cbn [N.ltb N.compare].
  rewrite (bytes_len_nil _ (data_with_capacity _)). cbn [N.eqb].
  cbn [write_buffer_waiting with_sending]. rewrite Hw. cbn [unwrap mbind exec_bind].
  destruct (N.ltb_spec 0 (bytes_len wait)) as [_|H].
  2:{ pose proof (bytes_len_pos wait ltac:(congruence)). lia. }
  destruct (data_split wait) as [Hr Ht]. destruct (bytes_split wait) as [rest out].
  eexists _, _. split; [reflexivity|]. split; [cbn in Ht; congruence|].
  exists snd, rest. by destruct c.
Qed.

(** What [write_data] does with a payload. *)
Lemma write_data_ok c e payload :
  writable_conn c payload → payload ≠ [] →
  ∃ c1, drained c c1 ∧
    let quiet := with_triggered (read_triggered c) false c1 in
    write_data c e =
      match stream_write e (tcp_stream c) payload with
      | (IoOk k, e1) =>
          if k <? N.of_nat (length payload) then Done (c1, e1)
          else
            writ_job c e1 ≫= λ '(ret, e2),
            if negb ret then handle_close quiet e2 else Done (quiet, e2)
      | (IoErr WouldBlock, e1) => Done (quiet, e1)
      | (IoErr _, e1) => handle_close quiet e1
      end.
Proof using SL BL.
  intros Hc Hne. destruct (take_buffer_ok c payload Hc Hne) as (c1 & buf & ET & Hb & Hd).
  exists c1. split; [exact Hd|]. unfold write_data. rewrite ET. cbn [mbind exec_bind].
  destruct Hd as (snd & wait & -> & Hs & Hw). cbn [tcp_stream with_sending with_waiting].
  destruct (try_write_buf_law e (tcp_stream c) buf) as (r & buf' & e1 & EW & HW).
  { by rewrite Hb. }
  rewrite EW. cbn [mbind exec_bind]. rewrite Hb in HW. destruct r as [[k|]|err].
  - destruct HW as (Hk & -> & Hd & _). unfold bytes_len in Hk |- *. rewrite Hb in Hk.
    rewrite Hd, length_drop.
    destruct (N.ltb_spec k (N.of_nat (length payload)));
      destruct (N.ltb_spec 0 (N.of_nat (length payload - N.to_nat k))); try lia; done.
  - destruct HW as (_ & _ & ->). done.
  - destruct HW as (_ & _ & He & ->). by destruct err.
Qed.

(** [send] on every branch: it does nothing when writing is disabled or
    there is nothing to send; otherwise it passes what waits followed by the
    new bytes to the socket in one write, leaves both write buffers empty
    whatever the socket took, calls the write job exactly when the socket took
    everything, closes on an error or when that job says so, and reports the
    length it was given. *)
Theorem send_spec c e (bytes : B) waiting :
  writable_conn c waiting →
  let payload := waiting ++ bytes_data bytes in
  if negb (write_enabled c) || bool_decide (bytes_data bytes = []) then
    send c bytes e = Done (0, c, e)
  else
    ∃ c1, drained c c1 ∧
      let quiet := with_triggered (read_triggered c) false c1 in
      send c bytes e =
        (match stream_write e (tcp_stream c) payload with
         | (IoOk k, e1) =>
             if k <? N.of_nat (length payload) then Done (c1, e1)
             else
               writ_job c e1 ≫= λ '(ret, e2),
               if negb ret then handle_close quiet e2 else Done (quiet, e2)
         | (IoErr WouldBlock, e1) => Done (quiet, e1)
         | (IoErr _, e1) => handle_close quiet e1
         end) ≫= λ '(c', e'), Done (bytes_len bytes, c', e').
Proof using SL BL.
  intros (snd & wait & Hs & Hsd & Hw & Hwd). cbv zeta. unfold send.
  destruct (write_enabled c) eqn:Ew; cbn [negb orb]; [|done].
  destruct (decide (bytes_data bytes = [])) as [Hn|Hn].
  { rewrite bool_decide_eq_true_2 by done. by rewrite (bytes_len_nil _ Hn). }
  rewrite bool_decide_eq_false_2 by done. pose proof (bytes_len_pos _ Hn).
  destruct (N.eqb_spec (bytes_len bytes) 0); [lia|]. rewrite Hw. cbn [unwrap mbind exec_bind].
  destruct (write_data_ok (with_waiting (Some (bytes_put wait bytes)) c) e
    (waiting ++ bytes_data bytes)) as (c1 & Hd & E1).
  { exists snd, (bytes_put wait bytes). by rewrite data_put, Hwd. }
  { intros [_ ?]%app_nil. done. }
  exists c1. split.
  { destruct Hd as (snd' & wait' & -> & Hd). exists snd', wait'. by destruct c. }
  rewrite E1. by cbn [tcp_stream read_triggered with_waiting writ_job].
Qed.

(** Unsent bytes are lost: when the socket takes only [k] of the bytes, or
    none because it would block, [send] still reports all of them, and the
    connection keeps nothing to send when it becomes writable again. *)
Theorem partial_write_loses_bytes c e (bytes : B) r e1 :
  writable_conn c [] → write_enabled c = true → bytes_data bytes ≠ [] →
  stream_write e (tcp_stream c) (bytes_data bytes) = (r, e1) →
  match r with IoOk k => k < bytes_len bytes | IoErr err => err = WouldBlock end →
  ∃ c1, send c bytes e = Done (bytes_len bytes, c1, e1)
    ∧ (tx e1 (tcp_stream c) = tx e (tcp_stream c) ++
         match r with IoOk k => take (N.to_nat k) (bytes_data bytes) | IoErr _ => [] end)
    ∧ ∀ e2, handle_write c1 e2 = Done (c1, e2).
Proof using SL BL.
  intros Hc Hen Hne EW Hr.
  destruct Hc as (snd & wait & Hs & Hsd & Hw & Hwd).
  destruct (write_data_ok (with_waiting (Some (bytes_put wait bytes)) c) e
    (bytes_data bytes)) as (c1 & Hd & E1); [|done|].
  { exists snd, (bytes_put wait bytes). by rewrite data_put, Hwd. }
  cbn [tcp_stream with_waiting] in E1. rewrite EW in E1.
  assert (∃ c2, write_data (with_waiting (Some (bytes_put wait bytes)) c) e = Done (c2, e1)
    ∧ writable_conn c2 []) as (c2 & E2 & H2).
  { pose proof (drained_writable _ _ Hd) as Hd'. destruct r as [k|err].
    - exists c1. split; [|exact Hd'].
      destruct (N.ltb_spec k (N.of_nat (length (bytes_data bytes)))); [done|].
      unfold bytes_len in Hr. lia.
    - subst err. eexists. split; [exact E1|exact Hd']. }
  exists c2. split; [|split].
  - unfold send. rewrite Hen. cbn [negb]. pose proof (bytes_len_pos _ Hne).
    destruct (N.eqb_spec (bytes_len bytes) 0); [lia|]. rewrite Hw.
    cbn [unwrap mbind exec_bind]. by rewrite E2.
  - pose proof (write_law e (tcp_stream c) _ Hne) as HW. rewrite EW in HW.
    destruct r; [apply HW|by rewrite app_nil_r].
  - intros e2. destruct H2 as (snd' & wait' & Hs' & Hsd' & Hw' & Hwd').
    unfold handle_write. rewrite Hw', Hs'. cbn [unwrap mbind exec_bind].
    by rewrite (bytes_len_nil _ Hsd'), (bytes_len_nil _ Hwd').
Qed.
End WritePath.

(** ** An event, after its reads *)
Section EventPath.
Context {E B : Type} {SO : StreamOps E} {BO : BytesOps B}.
Context {SL : StreamLaws E} {BL : BytesLaws B}.
Context (delivered : E → list byte) (good : E → Prop).
(** A write of the socket delivers nothing, and reads nothing. *)
Context (quiet_write : ∀ e s bs, let e' := (stream_write e s bs).2 in
  delivered e' = delivered e ∧ rx e' s = rx e s ∧ (good e → good e')).
Implicit Types (c : TcpConnection E B) (e : E).
#[local] Abbreviation lossless := (lossless (B:=B) delivered).
#[local] Abbreviation closes_quietly := (closes_quietly (B:=B) delivered good).

(** The write job returns and delivers nothing. *)
Definition writes_quietly c : Prop := ∀ e, ∃ b e', writ_job c e = Done (b, e') ∧
  delivered e' = delivered e ∧ rx e' (tcp_stream c) = rx e (tcp_stream c) ∧ (good e → good e').

(** What the rest of an event keeps: nothing is lost or read, and the connection
    is closed, or in a good world. *)
Record settles c e c' e' : Prop := {
  st_lossless : lossless c e → lossless c' e';
  st_rx : rx e' (tcp_stream c) = rx e (tcp_stream c);
  st_stream : tcp_stream c' = tcp_stream c;
  st_closes : close_job c' = close_job c;
  st_closed : closed c = true → closed c' = true;
  st_good : closed c' = true ∨ (good e → good e');
}.

Lemma settles_refl c e : settles c e c e.
Proof. split; auto. Qed.

Lemma settles_trans c e c1 e1 c2 e2 : settles c e c1 e1 → settles c1 e1 c2 e2 → settles c e c2 e2.
Proof.
  intros [A1 A2 A3 A4 A5 A6] [B1 B2 B3 B4 B5 B6]. rewrite A3 in B2.
  split; [auto|congruence|congruence|congruence|auto|]. destruct A6, B6; auto.
Qed.

Lemma closes_quietly_same c c' :
  tcp_stream c' = tcp_stream c → close_job c' = close_job c → closes_quietly c → closes_quietly c'.
Proof.
  intros Es Ej H e Hg. unfold close_stream. rewrite Es, Ej. exact (H e Hg).
Qed.

Lemma handle_close_settles c e :
  closes_quietly c → closed c = true ∨ good e →
  ∃ c' e', handle_close c e = Done (c', e') ∧ settles c e c' e' ∧ closed c' = true.
Proof.
  intros Hc Hg. unfold handle_close. destruct (closed c) eqn:Ec.
  { exists c, e. split; [done|]. split; [apply settles_refl|done]. }
  destruct Hg as [?|Hg]; [done|]. destruct (Hc e Hg) as (e' & E1 & Hd & Hr).
  destruct (close_job c e) as [e1| |] eqn:EJ; try done. cbn [mbind exec_bind] in E1.
  cbn [close_job with_closed set_enabled with_enabled]. rewrite EJ. cbn [mbind exec_bind].
  change (close_stream (with_closed true (set_enabled c false)) e1) with (close_stream c e1).
  rewrite E1. eexists _, _. split; [reflexivity|]. split; [|done]. split; try done; [|by left].
  intros (buf & Hb & Hl). exists buf. split; [done|]. cbn [tcp_stream with_closed set_enabled with_enabled].
  by rewrite Hd, Hr.
Qed.

(** A change of the buffers and flags that concern writing. *)
Lemma settles_writes c c1 e e1 :
  read_buffer c1 = read_buffer c → tcp_stream c1 = tcp_stream c → close_job c1 = close_job c →
  closed c1 = closed c → delivered e1 = delivered e → rx e1 (tcp_stream c) = rx e (tcp_stream c) →
  (good e → good e1) → settles c e c1 e1.
Proof.
  intros Eb Es Ej Ec Ed Er Hg. split; [|done|done|done|by rewrite Ec|by right].
  intros (buf & Hb & Hl). exists buf. split; [by rewrite Eb|]. by rewrite Es, Ed, Er.
Qed.

Lemma write_data_settles c e payload :
  writable_conn c payload → payload ≠ [] → writes_quietly c → closes_quietly c →
  closed c = true ∨ good e →
  ∃ c' e', write_data c e = Done (c', e') ∧ settles c e c' e'.
Proof using SL BL quiet_write.
  intros Hw Hne Hj Hc Hg. destruct (write_data_ok c e payload Hw Hne) as (c1 & (sd & wait & -> & _) & ->).
  set (quiet := with_triggered _ false _).
  pose proof (quiet_write e (tcp_stream c) payload) as Hq. cbv zeta in Hq.
  destruct (stream_write e (tcp_stream c) payload) as [r e1]. cbn [snd] in Hq. destruct Hq as (Ed & Er & Hg1).
  assert (settles c e quiet e1) as Hs1 by by apply settles_writes.
  assert (settles c e (with_sending (Some sd) (with_waiting (Some wait) c)) e1) as Hs0 by by apply settles_writes.
  assert (closed c = true ∨ good e1) as Hg' by (destruct Hg; auto).
  destruct r as [k|err].
  - destruct (k <? _); [by eexists _, _|]. cbn [writ_job with_sending with_waiting].
    destruct (Hj e1) as (b & e2 & -> & Ed2 & Er2 & Hg2). cbn [mbind exec_bind].
    assert (settles c e quiet e2) as Hs2 by (apply settles_writes; [done..|congruence|congruence|auto]).
    destruct (negb b); [|by eexists _, _].
    destruct (handle_close_settles quiet e2) as (c' & e' & Ec' & Hs' & _).
    + by apply (closes_quietly_same c).
    + destruct Hg'; [by left|right; auto].
    + exists c', e'. split; [exact Ec'|]. exact (settles_trans _ _ _ _ _ _ Hs2 Hs').
  - destruct err; [|by eexists _, _|];
      (destruct (handle_close_settles quiet e1) as (c' & e' & Ec' & Hs' & _);
       [by apply (closes_quietly_same c)|exact Hg'|];
       exists c', e'; split; [exact Ec'|exact (settles_trans _ _ _ _ _ _ Hs1 Hs')]).
Qed.

Lemma handle_write_settles c e payload :
  writable_conn c payload → writes_quietly c → closes_quietly c → closed c = true ∨ good e →
  ∃ c' e', handle_write c e = Done (c', e') ∧ settles c e c' e'.
Proof using SL BL quiet_write.
  intros Hw Hj Hc Hg. pose proof Hw as (snd & wait & Es & Hs & Ew & Hwt).
  unfold handle_write. rewrite Ew, Es. cbn [unwrap mbind exec_bind].
  rewrite (bytes_len_nil snd Hs), andb_true_r. destruct (N.eqb_spec (bytes_len wait) 0) as [H0|Hne].
  - exists c, e. split; [done|apply settles_refl].
  - apply (write_data_settles c e payload); try done. intros ->. by rewrite (bytes_len_nil wait Hwt) in Hne.
Qed.

(** A readable event: the reads come first, and what follows them loses and
    reads nothing. *)
Lemma handle_event_ok fuel c r e tc e1 payload :
  ready_0 r < 2 ^ 64 → Ready.is_readable r = true →
  handle_read fuel (with_triggered true (write_triggered c) c) e = Done (tc, e1) →
  writable_conn c payload → tcp_stream tc = tcp_stream c → writes_quietly c → closes_quietly c →
  closed tc = true ∨ good e1 →
  ∃ c' e', handle_event fuel c (ready_as_usize r) e = Done (c', e') ∧ settles tc e1 c' e' ∧
    (Ready.is_error r || Ready.is_hup r = true → closed c' = true).
Proof using SL BL quiet_write.
  intros H64 Hr E1 Hw Es Hj Hc Hg. unfold handle_event.
  change (ready_from_usize (ready_as_usize r)) with (mkReady (ready_0 r)).
  assert (mkReady (ready_0 r) = r) as -> by by destruct r. rewrite Hr, E1. cbn [mbind exec_bind].
  destruct (handle_read_writes _ _ _ _ _ E1) as (Ew1 & Ew2 & Ew3 & Ew4).
  assert (closes_quietly tc) as Hct by by apply (closes_quietly_same c).
  assert (∃ c2 e2, (if Ready.is_writable r then handle_write (with_triggered (read_triggered tc) true tc) e1
    else Done (tc, e1)) = Done (c2, e2) ∧ settles tc e1 c2 e2) as (c2 & e2 & -> & Hs2).
  { destruct (Ready.is_writable r); [|by exists tc, e1; split; [done|apply settles_refl]].
    destruct (handle_write_settles (with_triggered (read_triggered tc) true tc) e1 payload)
      as (c2 & e2 & E2 & Hs2); [| |exact Hct|exact Hg|].
    - destruct Hw as (snd & wait & A1 & A2 & A3 & A4). exists snd, wait. cbn. rewrite Ew1, Ew2. by split_and!.
    - intros e2. cbn [writ_job tcp_stream with_triggered]. rewrite Ew3, Es. apply Hj.
    - exists c2, e2. split; [exact E2|]. destruct Hs2 as [A1 A2 A3 A4 A5 A6]. by split. }
  cbn [mbind exec_bind]. destruct (Ready.is_error r || Ready.is_hup r).
  - destruct (handle_close_settles (with_triggered true true c2) e2) as (c3 & e3 & E3 & Hs3 & Hcl).
    + apply (closes_quietly_same tc); [apply Hs2|apply Hs2|exact Hct].
    + destruct (st_good _ _ _ _ Hs2) as [?|Hg2]; [by left|]. destruct Hg as [Hcl|?]; [|by right; auto].
      left. by apply (st_closed _ _ _ _ Hs2).
    + exists c3, e3. split; [exact E3|]. split; [|done]. apply (settles_trans _ _ _ _ _ _ Hs2).
      destruct Hs3 as [A1 A2 A3 A4 A5 A6]. by split.
  - exists c2, e2. by split.
Qed.
End EventPath.

(** ** The life of a connection *)
Section Lifecycle.
Context {E B : Type} {SO : StreamOps E} {BO : BytesOps B}.
Context (rj : B → E → exec (B * E)) (wj : E → exec (bool * E)) (cj : E → exec E).
(** How often the close job of the connection has run. *)
Context (closes : E → nat).
Context (closes_read : ∀ e s n, closes (stream_read e s n).2 = closes e).
Context (closes_write : ∀ e s bs, closes (stream_write e s bs).2 = closes e).
Context (closes_shutdown : ∀ e s h, closes (stream_shutdown e s h).2 = closes e).
Context (closes_deregister : ∀ e s r e',
  stream_deregister e s = Done (r, e') → closes e' = closes e).
Context (closes_rj : ∀ b e b' e', rj b e = Done (b', e') → closes e' = closes e).
Context (closes_wj : ∀ e b e', wj e = Done (b, e') → closes e' = closes e).
Context (closes_cj : ∀ e e', cj e = Done e' → closes e' = S (closes e)).
Implicit Types (c : TcpConnection E B) (e : E).

(** The calls the event loop and the user make. *)
Inductive conn_op :=
  | OpEvent (fuel : nat) (event : N)
  | OpSend (bytes : B)
  | OpShutdown (how : Shutdown).

Definition run_conn_op (o : conn_op) c e : exec (TcpConnection E B * E) :=
  match o with
  | OpEvent fuel event => handle_event fuel c event e
  | OpSend bytes => send c bytes e ≫= λ '(_, c, e), Done (c, e)
  | OpShutdown how => let '(_, c, e) := shutdown c how e in Done (c, e)
  end.

Definition fresh_conn (s : N) : TcpConnection E B :=
  set_close_job (set_writ_job (set_read_job (TcpConnection_new s) rj) wj) cj.

Inductive conn_reachable (s : N) (e0 : E) : TcpConnection E B → E → Prop :=
  | conn_start : conn_reachable s e0 (fresh_conn s) e0
  | conn_step c e o c' e' :
      conn_reachable s e0 c e → run_conn_op o c e = Done (c', e') →
      conn_reachable s e0 c' e'.

Record conn_inv (n : nat) c e : Prop := {
  inv_rj : read_job c = rj;
  inv_wj : writ_job c = wj;
  inv_cj : close_job c = cj;
  inv_closed : closed c = true → write_enabled c = false ∧ read_enabled c = false;
  inv_closes : closes e = (n + if closed c then 1 else 0)%nat;
}.

(** Calls that keep the invariant. *)
Definition keeps (n : nat) (m : exec (TcpConnection E B * E)) : Prop :=
  ∀ c' e', m = Done (c', e') → conn_inv n c' e'.

Lemma keeps_done n c e : conn_inv n c e → keeps n (Done (c, e)).
Proof using. by intros H c' e' [= <- <-]. Qed.

Lemma keeps_bind n m f :
  keeps n m → (∀ c e, conn_inv n c e → keeps n (f (c, e))) → keeps n (m ≫= f).
Proof using.
  intros Hm Hf. destruct m as [[c e]| |]; cbn; try done. by apply Hf, Hm.
Qed.

Lemma inv_change n c c1 e e1 :
  conn_inv n c e → closes e1 = closes e →
  read_job c1 = read_job c → writ_job c1 = writ_job c → close_job c1 = close_job c →
  closed c1 = closed c → (write_enabled c = false → write_enabled c1 = false) →
  (read_enabled c = false → read_enabled c1 = false) → conn_inv n c1 e1.
Proof using.
  intros [H1 H2 H3 H4 H5] He E1 E2 E3 E4 Hw Hr. split; try congruence.
  - rewrite E4. intros Hc. destruct (H4 Hc). split; auto.
  - by rewrite He, E4.
Qed.

Ltac same := eapply inv_change; [eassumption|try done..].

Lemma handle_close_keeps n c e : conn_inv n c e → keeps n (handle_close c e).
Proof using closes_cj closes_deregister.
  intros Hi. unfold handle_close. destruct (closed c) eqn:Ec; [by apply keeps_done|].
  intros c' e'. destruct Hi as [H1 H2 H3 H4 H5].
  cbn [close_job with_closed set_enabled with_enabled]. rewrite H3.
  destruct (cj e) as [e1| |] eqn:EJ; cbn [mbind exec_bind]; try done.
  unfold close_stream. cbn [tcp_stream with_closed set_enabled with_enabled].
  destruct (stream_deregister e1 (tcp_stream c)) as [[[[]|] e2]| |] eqn:ED;
    cbn [mbind exec_bind]; try done.
  apply closes_deregister in ED as HD.
  intros [= <- <-]. split; try done. cbn [closed with_closed].
  rewrite HD, (closes_cj _ _ EJ), H5, Ec. lia.
Qed.

Lemma handle_read_keeps n fuel c e : conn_inv n c e → keeps n (handle_read fuel c e).
Proof using closes_cj closes_deregister closes_read closes_rj.
  revert c e. induction fuel as [|fuel IH]; intros c e Hi; [done|].
  cbn [handle_read]. destruct (read_buffer c) as [buf|]; cbn [unwrap mbind exec_bind]; [|done].
  unfold try_read_buf, try_read. destruct (bytes_chunk_mut buf) as [m buf1].
  pose proof (closes_read e (tcp_stream c) m) as HR.
  destruct (stream_read e (tcp_stream c) m) as [[bs|err] e1]; cbn [snd map_non_block] in *.
  - destruct (read_job c (bytes_fill buf1 bs) e1) as [[b2 e2]| |] eqn:EJ;
      destruct (0 <? _); cbn [mbind exec_bind]; try done.
    + rewrite (inv_rj _ _ _ Hi) in EJ. apply closes_rj in EJ. apply IH. same. congruence.
    + rewrite (inv_rj _ _ _ Hi) in EJ. apply closes_rj in EJ.
      apply handle_close_keeps. same. congruence.
  - destruct err; [apply handle_close_keeps|apply keeps_done|apply handle_close_keeps]; same.
Qed.

Lemma take_buffer_fields c o c1 :
  take_buffer c = Done (o, c1) → ∃ snd wait, c1 = with_sending snd (with_waiting wait c).
Proof using.
  unfold take_buffer. destruct (write_buffer_sending c) as [b|]; cbn [unwrap mbind exec_bind]; [|done].
  destruct (if 0 <? bytes_len b then _ else _) as [b1 tmp].
  destruct (_ =? _).
  - cbn [write_buffer_waiting with_sending].
    destruct (write_buffer_waiting c) as [w|] eqn:Ew; cbn [unwrap mbind exec_bind]; [|done].
    destruct (0 <? _).
    + destruct (bytes_split w) as [r out]. intros [= <- <-]. exists (Some b1), (Some r). by destruct c.
    + intros [= <- <-]. exists (Some b1), (Some w). destruct c; cbn in *. by subst.
  - intros [= <- <-]. exists (Some b1), (write_buffer_waiting c). by destruct c.
Qed.

Lemma write_data_keeps n c e : conn_inv n c e → keeps n (write_data c e).
Proof using closes_cj closes_deregister closes_write closes_wj.
  intros Hi. unfold write_data. destruct (take_buffer c) as [[o c1]| |] eqn:ET;
    cbn [mbind exec_bind]; try done.
  destruct (take_buffer_fields _ _ _ ET) as (s & w & ->).
  assert (conn_inv n (with_sending s (with_waiting w c)) e) as Hi1 by same.
  destruct o as [buf|]; [|by apply keeps_done].
  unfold try_write_buf, try_write.
  pose proof (closes_write e (tcp_stream (with_sending s (with_waiting w c))) (bytes_data buf)) as HW.
  destruct (stream_write _ _ _) as [[k|err] e1]; cbn [snd map_non_block] in *.
  - destruct (bytes_advance buf k) as [buf'| |]; cbn [mbind exec_bind]; try done.
    destruct (0 <? _); [apply keeps_done; same|].
    cbn [writ_job with_triggered with_sending with_waiting].
    rewrite (inv_wj _ _ _ Hi). destruct (wj e1) as [[ret e2]| |] eqn:EJ;
      cbn [mbind exec_bind]; try done.
    apply closes_wj in EJ. destruct ret; cbn [negb];
      [apply keeps_done|apply handle_close_keeps]; same; congruence.
  - destruct err; cbn [mbind exec_bind];
      [apply handle_close_keeps|apply keeps_done|apply handle_close_keeps]; same.
Qed.

Lemma run_conn_op_keeps n o c e : conn_inv n c e → keeps n (run_conn_op o c e).
Proof using closes_cj closes_deregister closes_read closes_rj closes_shutdown closes_wj closes_write.
  intros Hi. destruct o as [fuel event|bytes|how]; cbn [run_conn_op].
  - unfold handle_event. apply keeps_bind.
    { destruct (Ready.is_readable _); [apply handle_read_keeps; same|by apply keeps_done]. }
    intros c1 e1 Hi1. apply keeps_bind.
    { destruct (Ready.is_writable _); [|by apply keeps_done]. unfold handle_write.
      destruct (write_buffer_waiting _); cbn [unwrap mbind exec_bind]; [|done].
      destruct (write_buffer_sending _); cbn [unwrap mbind exec_bind]; [|done].
      destruct (_ && _); [apply keeps_done|apply write_data_keeps]; same. }
    intros c2 e2 Hi2. destruct (_ || _); [apply handle_close_keeps; same|by apply keeps_done].
  - unfold send. destruct (negb _); [by apply keeps_done|]. destruct (_ =? _); [by apply keeps_done|].
    destruct (write_buffer_waiting c); cbn [unwrap mbind exec_bind]; [|done].
    pose proof (write_data_keeps n (with_waiting (Some (bytes_put b bytes)) c) e ltac:(same)) as HK.
    destruct (write_data _ _) as [[c1 e1]| |]; cbn [mbind exec_bind]; [|done..].
    apply keeps_done. by apply HK.
  - unfold shutdown. pose proof (closes_shutdown e) as HS.
    repeat destruct (bool_decide _);
      match goal with |- context [stream_shutdown ?a ?b ?h] =>
        specialize (HS b h); destruct (stream_shutdown a b h) as [r e1] end;
      apply keeps_done; same.
Qed.

(** C25 A connection is closed at most once: whatever events, sends and
    shutdowns follow, its close job has run exactly once if it is closed and
    never otherwise; a closed connection accepts nothing to send, and closing it
    again does nothing. *)
Theorem close_job_runs_once s e0 c e :
  conn_reachable s e0 c e →
  closes e = (closes e0 + if closed c then 1 else 0)%nat
  ∧ (closed c = true →
       (∀ bytes e1, send c bytes e1 = Done (0, c, e1))
       ∧ ∀ e1, handle_close c e1 = Done (c, e1)).
Proof using closes_cj closes_deregister closes_read closes_rj closes_shutdown closes_wj closes_write.
  intros Hr. assert (conn_inv (closes e0) c e) as [_ _ _ Hc Hn].
  { induction Hr as [|c e o c' e' _ IH Ho]; [split; try done; cbn; lia|].
    by eapply run_conn_op_keeps. }
  split; [exact Hn|]. intros Ec. destruct (Hc Ec) as [Hw _]. split.
  - intros bytes e1. unfold send. by rewrite Hw.
  - intros e1. unfold handle_close. by rewrite Ec.
Qed.
End Lifecycle.

(** ** A world with one socket *)
Module ScriptSocket.
(** The batches the peer sends, the bytes handed out, the room in the send
    buffer, the bytes taken, what the user got, and how often he was told of a
    close. *)
Record t := mk {
  inbox : list (list byte);
  got : list byte;
  room : N;
  sent : list byte;
  user : list byte;
  told : nat;
}.

Definition read (e : t) (n : N) : io_result (list byte) * t :=
  match inbox e with
  | [] => (IoErr WouldBlock, e)
  | bs :: rest =>
      let out := take (N.to_nat n) bs in
      (IoOk out, mk rest (got e ++ out) (room e) (sent e) (user e) (told e))
  end.

Definition write (e : t) (bs : list byte) : io_result N * t :=
  if room e =? 0 then (IoErr WouldBlock, e)
  else
    let k := N.min (room e) (N.of_nat (length bs)) in
    (IoOk k, mk (inbox e) (got e) (room e - k) (sent e ++ take (N.to_nat k) bs) (user e) (told e)).

#[global] Instance ops : StreamOps t := {|
  stream_read := λ e _ n, read e n;
  stream_write := λ e _ bs, write e bs;
  stream_shutdown := λ e _ _, (IoOk (), e);
  stream_deregister := λ e _, Done (IoOk (), e);
|}.

#[global] Instance laws : StreamLaws t.
Proof.
  refine {| rx := λ e _, got e; tx := λ e _, sent e; pend := λ e _, length (inbox e) |}.
  - intros e s n Hn. cbn. unfold read. destruct (inbox e) as [|bs rest]; [done|].
    cbn. rewrite length_take. split; [lia|]. split; [done|lia].
  - intros e s bs Hne. cbn. unfold write. destruct (room e =? 0); [done|].
    cbn. split; [lia|done].
Defined.

(** The user takes everything he is shown, and is told of a close. *)
Definition take_all (b : ListBytes.t) (e : t) : exec (ListBytes.t * t) :=
  Done ([], mk (inbox e) (got e) (room e) (sent e) (user e ++ b) (told e)).
Definition go_on (e : t) : exec (bool * t) := Done (true, e).
Definition tell (e : t) : exec t :=
  Done (mk (inbox e) (got e) (room e) (sent e) (user e) (S (told e))).
End ScriptSocket.

Module ConnDemo.
Import ScriptSocket.
Definition conn : TcpConnection t ListBytes.t := fresh_conn take_all go_on tell 7.
Definition world : t := mk [[x01; x02]; [x03]] [] 2 [] [] 0.

Lemma user_read (e : t) s n : user (stream_read e s n).2 = user e.
Proof. cbn. unfold read. by destruct (inbox e). Qed.
Lemma told_read (e : t) s n : told (stream_read e s n).2 = told e.
Proof. cbn. unfold read. by destruct (inbox e). Qed.
Lemma told_write (e : t) s bs : told (stream_write e s bs).2 = told e.
Proof. cbn. unfold write. by destruct (room e =? 0). Qed.

Lemma handle_read_lossless_witness :
  ∃ c' e', handle_read 3 conn world = Done (c', e') ∧ user e' = [x01; x02; x03].
Proof.
  destruct (handle_read_lossless user user_read (λ _, True) ltac:(done) 3 conn world)
    as (c' & e' & E & (buf & Hb & Hl) & _).
  - intros b e _. eexists _, _. split; [reflexivity|]. cbn. by rewrite app_nil_r.
  - intros e _. eexists. split; [reflexivity|done].
  - done.
  - by exists [].
  - apply Nat.ltb_lt. by vm_compute.
  - exists c', e'. split; [exact E|]. vm_compute in E. injection E as <- <-.
    by vm_compute.
Defined.

Lemma send_spec_witness :
  ∃ c1, drained conn c1
    ∧ send conn [x05; x06] world = Done (2, with_triggered false false c1,
        mk [[x01; x02]; [x03]] [] 0 [x05; x06] [] 0).
Proof.
  assert (writable_conn conn []) as Hc by (eexists _, _; done).
  destruct (send_spec conn world [x05; x06] [] Hc) as (c1 & Hd & E).
  exists c1. split; [exact Hd|]. rewrite E.
  destruct Hd as (snd & wait & -> & _). reflexivity.
Defined.

Lemma partial_write_loses_bytes_witness :
  ∃ c1 e1, send conn [x05; x06; x07] world = Done (3, c1, e1) ∧ sent e1 = [x05; x06].
Proof.
  assert (writable_conn conn []) as Hc by (eexists _, _; done).
  destruct (partial_write_loses_bytes conn world [x05; x06; x07] (IoOk 2)
    (mk [[x01; x02]; [x03]] [] 0 [x05; x06] [] 0) Hc eq_refl ltac:(done) eq_refl
    ltac:(by vm_compute)) as (c1 & E & Ht & _).
  eexists c1, _. split; [exact E|exact Ht].
Defined.

Definition closed_conn : exec (TcpConnection t ListBytes.t * t) :=
  handle_event 3 conn 8 world.

Lemma close_job_runs_once_witness :
  ∃ c e, closed_conn = Done (c, e) ∧ told e = 1%nat.
Proof.
  destruct closed_conn as [[c e]| |] eqn:E; [|by vm_compute in E..].
  exists c, e. split; [done|].
  assert (closed c = true) as Hc by (vm_compute in E; by injection E as <- <-).
  pose proof (close_job_runs_once take_all go_on tell told told_read told_write
    ltac:(done) ltac:(by intros e1 s r e' [= <- <-])
    ltac:(by intros b e1 b' e' [= <- <-]) ltac:(by intros e1 b e' [= <- <-])
    ltac:(by intros e1 e' [= <-]) 7 world c e) as H.
  destruct H as [H _].
  - eapply conn_step with (o := OpEvent 3 8); [apply conn_start|exact E].
  - rewrite H, Hc. reflexivity.
Defined.
End ConnDemo.
