(* ===== verification/PollLock.v ===== *)
(** * The lock of [Poll::poll1]

    [poll1] of [src/src/poll.rs]: a word whose lowest bit says that some thread
    polls and whose other bits count the threads that wait for it, a mutex and
    a condition variable.  Any number of threads call [poll1]; each takes one
    access to the shared state per step, in any order.  A condition variable
    may wake a thread that nobody notified, and a wait with a timeout ends after
    any time. *)
From S2P Require Import Prelude Duration.

Definition zero : option Duration := Some (from_millis 0).

(** Where a thread is: outside; before the first exchange; before locking the
    mutex with the word it saw; at the head of the loop with [curr], [inc] and
    [timeout]; before waiting; waiting; woken, before locking the mutex again;
    before loading the word again; out of the loop with the lock; in [poll2];
    after the word was unlocked and somebody waits; before [notify_one]; about
    to release the mutex and return. *)
Inductive pc : Set :=
  | Idle
  | Entry (timeout : option Duration)
  | Locking (curr : N) (timeout : option Duration)
  | Loop (curr : N) (inc : bool) (timeout : option Duration)
  | Sleeping (timeout : option Duration)
  | Waiting (timeout : option Duration)
  | Relock (timeout : option Duration)
  | Reload (timeout : option Duration)
  | Leaving (timeout : option Duration)
  | Polling (timeout : option Duration)
  | NotifyLock
  | Notify
  | Quitting.

#[export] Instance pc_eq_dec : EqDecision pc.
Proof. solve_decision. Defined.

Record Shared := mkShared {
  lock_state : N;
  mutex : option nat;
}.

(** The timeout left after a wait. *)
Definition remaining (timeout : option Duration) (elapsed : Duration) : exec (option Duration) :=
  match timeout with
  | Some to => if duration_geb elapsed to then Done zero else Some <$> duration_sub to elapsed
  | None => Done None
  end.

(** [compare_exchange] on the word: the value it had. *)
Definition cas_lock (s : Shared) (current new : N) : N * Shared :=
  (lock_state s, if lock_state s =? current then mkShared new (mutex s) else s).

Definition lock_mutex (i : nat) (s : Shared) : option Shared :=
  match mutex s with
  | None => Some (mkShared (lock_state s) (Some i))
  | Some _ => None
  end.
Definition unlock_mutex (s : Shared) : Shared := mkShared (lock_state s) None.

(** The head of the loop. *)
Definition loop_step (curr : N) (inc : bool) (timeout : option Duration) (s : Shared)
    : exec (pc * Shared) :=
  if N.land curr 1 =? 0 then
    let next := N.lor curr 1 in
    (if inc then sub64 next 2 else Done next) ≫= λ next,
    let '(actual, s) := cas_lock s curr next in
    Done (if negb (actual =? curr) then Loop actual inc timeout else Leaving timeout, s)
  else if bool_decide (timeout = zero) then
    Done (Quitting, if inc then mkShared ((lock_state s + (2 ^ word_bits - 2)) mod 2 ^ word_bits) (mutex s) else s)
  else if negb inc then
    add64 curr 2 ≫= λ next,
    let '(actual, s) := cas_lock s curr next in
    Done (if negb (actual =? curr) then Loop actual inc timeout else Sleeping timeout, s)
  else Done (Sleeping timeout, s).

(** A step of thread [i] on its own; [None] when it is blocked. *)
Definition thread_step (i : nat) (s : Shared) (l : pc) : exec (option (pc * Shared)) :=
  match l with
  | Entry timeout =>
      let '(curr, s) := cas_lock s 0 1 in
      Done (Some (if negb (0 =? curr) then Locking curr timeout else Polling timeout, s))
  | Locking curr timeout =>
      Done ((λ s, (Loop curr false timeout, s)) <$> lock_mutex i s)
  | Loop curr inc timeout => Some <$> loop_step curr inc timeout s
  | Sleeping timeout => Done (Some (Waiting timeout, unlock_mutex s))
  | Relock timeout => Done ((λ s, (Reload timeout, s)) <$> lock_mutex i s)
  | Reload timeout => Done (Some (Loop (lock_state s) true timeout, s))
  | Leaving timeout => Done (Some (Polling timeout, unlock_mutex s))
  | Polling _ =>
      let old := lock_state s in
      let s := mkShared (N.land old (not64 1)) (mutex s) in
      Done (Some (if negb (1 =? old) then NotifyLock else Idle, s))
  | NotifyLock => Done ((λ s, (Notify, s)) <$> lock_mutex i s)
  | Quitting => Done (Some (Idle, unlock_mutex s))
  | Idle | Waiting _ | Notify => Done None
  end.

(** A timeout is a well-formed duration, or none. *)
Definition wf_timeout (timeout : option Duration) : Prop :=
  match timeout with Some d => wf_duration d | None => True end.

Record System := mkSystem { shared : Shared; threads : list pc }.

Definition with_thread (i : nat) (l : pc) (x : System) : System :=
  mkSystem (shared x) (<[i := l]> (threads x)).

Inductive step : System → System → Prop :=
  | step_call x i timeout :
      threads x !! i = Some Idle → wf_timeout timeout → step x (with_thread i (Entry timeout) x)
  | step_thread x i l l' s' :
      threads x !! i = Some l → thread_step i (shared x) l = Done (Some (l', s')) →
      step x (mkSystem s' (<[i := l']> (threads x)))
  | step_wake x i timeout elapsed timeout' :
      threads x !! i = Some (Waiting timeout) → wf_duration elapsed →
      remaining timeout elapsed = Done timeout' →
      step x (with_thread i (Relock timeout') x)
  (** [notify_one] wakes one of the threads that wait. *)
  | step_notify x i j timeout elapsed timeout' :
      threads x !! i = Some Notify → threads x !! j = Some (Waiting timeout) →
      wf_duration elapsed → remaining timeout elapsed = Done timeout' →
      step x (with_thread i Quitting (with_thread j (Relock timeout') x))
  | step_notify_none x i :
      threads x !! i = Some Notify → (∀ j timeout, threads x !! j ≠ Some (Waiting timeout)) →
      step x (with_thread i Quitting x).

Definition initial (n : nat) : System := mkSystem (mkShared 0 None) (replicate n Idle).

Inductive reachable (n : nat) : System → Prop :=
  | reach_initial : reachable n (initial n)
  | reach_step x x' : reachable n x → step x x' → reachable n x'.

(** Threads that own the lowest bit of the word, that are counted in the rest
    of it, and that hold the mutex. *)
Definition owns (l : pc) : bool :=
  match l with Leaving _ | Polling _ => true | _ => false end.
Definition counted (l : pc) : bool :=
  match l with
  | Loop _ inc _ => inc
  | Sleeping _ | Waiting _ | Relock _ | Reload _ => true
  | _ => false
  end.
Definition holds (l : pc) : bool :=
  match l with
  | Loop _ _ _ | Sleeping _ | Reload _ | Leaving _ | Notify | Quitting => true
  | _ => false
  end.

(** ** The invariant *)

(** A thread that has to be woken when nobody polls, and a thread that will see
    to it that somebody polls or is woken. *)
Definition needs (l : pc) : bool :=
  match l with
  | Waiting _ | Sleeping _ => true
  | Loop curr inc _ => inc && negb (N.land curr 1 =? 0)
  | _ => false
  end.
Definition obliged (l : pc) : bool :=
  match l with
  | NotifyLock | Notify | Relock _ | Reload _ => true
  | Loop curr inc _ => inc && (N.land curr 1 =? 0)
  | _ => false
  end.

Definition some_thread (f : pc → bool) (ls : list pc) : Prop :=
  ∃ i l, ls !! i = Some l ∧ f l = true.

Definition handoff (ls : list pc) : Prop :=
  count owns ls = 0 → some_thread needs ls → some_thread obliged ls.

Definition local_ok (n : nat) (l : pc) : Prop :=
  match l with
  | Loop curr inc _ => (inc = true → 2 <= curr) ∧ curr <= 2 * N.of_nat n + 1
  | Locking curr _ => curr <= 2 * N.of_nat n + 1
  | _ => True
  end.

Record lock_inv (n : nat) (x : System) : Prop := {
  li_length : length (threads x) = n;
  li_word : lock_state (shared x) = 2 * count counted (threads x) + count owns (threads x);
  li_owner : count owns (threads x) <= 1;
  li_holder : ∀ i l, threads x !! i = Some l → holds l = true → mutex (shared x) = Some i;
  li_mutex : ∀ i, mutex (shared x) = Some i → ∃ l, threads x !! i = Some l ∧ holds l = true;
  li_local : ∀ i l, threads x !! i = Some l → local_ok n l;
  li_handoff : handoff (threads x);
}.

Lemma some_insert f ls i l l' :
  ls !! i = Some l → f l' = true → some_thread f (<[i := l']> ls).
Proof.
  intros Hi Hf. exists i, l'. split; [|done].
  apply list_lookup_insert_eq. by eapply lookup_lt_Some.
Qed.

(** A witness other than [i] survives, and one in the new list that is not [i]
    was there. *)
Lemma some_insert_keep f ls i l l' :
  ls !! i = Some l → f l = false → some_thread f ls → some_thread f (<[i := l']> ls).
Proof.
  intros Hi Hf (j & m & Hj & Hm). exists j, m. split; [|done].
  rewrite list_lookup_insert_ne; [done|]. intros ->. congruence.
Qed.

Lemma some_insert_inv f ls i l l' :
  ls !! i = Some l → some_thread f (<[i := l']> ls) → f l' = true ∨ some_thread f ls.
Proof.
  intros Hi (j & m & Hj & Hm). destruct (decide (i = j)) as [<-|Hne].
  - rewrite list_lookup_insert_eq in Hj by (by eapply lookup_lt_Some). left. congruence.
  - rewrite list_lookup_insert_ne in Hj by done. right. by exists j, m.
Qed.

(** The ways a step keeps the handoff. *)
Lemma handoff_obliged ls i l l' :
  ls !! i = Some l → obliged l' = true → handoff (<[i := l']> ls).
Proof. intros Hi Ho _ _. by eapply some_insert. Qed.

Lemma handoff_owned ls i l l' :
  ls !! i = Some l → 1 <= count owns ls + bit (owns l') - bit (owns l) →
  handoff (<[i := l']> ls).
Proof.
  intros Hi Ho H0. pose proof (count_insert owns _ _ _ l' Hi). unfold bit in *.
  destruct (owns l), (owns l'); lia.
Qed.

Lemma handoff_keep ls i l l' :
  ls !! i = Some l → handoff ls → owns l' = owns l → obliged l = false →
  (needs l' = true → needs l = true) → handoff (<[i := l']> ls).
Proof.
  intros Hi Hh Ho Hl Hn H0 Hs. eapply some_insert_keep; [done..|]. apply Hh.
  - pose proof (count_insert owns _ _ _ l' Hi). rewrite Ho in *. lia.
  - destruct (some_insert_inv _ _ _ _ _ Hi Hs) as [H|H]; [|done].
    exists i, l. split; [done|auto].
Qed.

(** A step of one thread: what has to be shown of it. *)
Lemma inv_step n x i l l' s' :
  lock_inv n x → threads x !! i = Some l →
  lock_state s' + 2 * bit (counted l) + bit (owns l) =
    lock_state (shared x) + 2 * bit (counted l') + bit (owns l') →
  count owns (threads x) + bit (owns l') <= 1 + bit (owns l) →
  (holds l = holds l' ∧ mutex s' = mutex (shared x)
   ∨ holds l' = true ∧ mutex (shared x) = None ∧ mutex s' = Some i
   ∨ holds l = true ∧ holds l' = false ∧ mutex s' = None) →
  local_ok n l' → handoff (<[i := l']> (threads x)) →
  lock_inv n (mkSystem s' (<[i := l']> (threads x))).
Proof.
  intros [Hlen Hw Ho Hh Hm Hl _] Hi Ew Eo Em El Hf.
  pose proof (lookup_lt_Some _ _ _ Hi) as Hlt.
  split; cbn [shared threads]; [by rewrite length_insert| | | | | |exact Hf].
  - pose proof (count_insert counted _ _ _ l' Hi). pose proof (count_insert owns _ _ _ l' Hi). lia.
  - pose proof (count_insert owns _ _ _ l' Hi). lia.
  - intros j m Hj Hjm. destruct (decide (i = j)) as [<-|Hne].
    + rewrite list_lookup_insert_eq in Hj by done. injection Hj as <-.
      destruct Em as [[E1 E2]|[(_ & _ & E)|(_ & E & _)]]; [|done|congruence].
      rewrite E2. apply (Hh i l Hi). congruence.
    + rewrite list_lookup_insert_ne in Hj by done. pose proof (Hh j m Hj Hjm) as Hmj.
      destruct Em as [[_ E2]|[(_ & E & _)|(E & _ & _)]]; [congruence..|].
      pose proof (Hh i l Hi E). congruence.
  - intros j Hj. destruct (decide (i = j)) as [<-|Hne].
    + rewrite list_lookup_insert_eq by done. exists l'. split; [done|].
      destruct Em as [[E1 E2]|[(E & _ & _)|(_ & _ & E)]]; [|done|congruence].
      rewrite E2 in Hj. destruct (Hm i Hj) as (m & Hm1 & Hm2). congruence.
    + rewrite list_lookup_insert_ne by done.
      destruct Em as [[_ E2]|[(_ & _ & E)|(_ & _ & E)]]; [|congruence..].
      apply Hm. congruence.
  - intros j m Hj. destruct (decide (i = j)) as [<-|Hne].
    + rewrite list_lookup_insert_eq in Hj by done. congruence.
    + rewrite list_lookup_insert_ne in Hj by done. by eapply Hl.
Qed.

(** ** The bits of the word *)

Lemma land_1 x : N.land x 1 = x mod 2.
Proof. exact (N.land_ones x 1). Qed.

Lemma lor_1 k : N.lor (2 * k) 1 = 2 * k + 1.
Proof. by destruct k. Qed.

Lemma clear_bit k : 2 * k + 1 <= u64_max → N.land (2 * k + 1) (not64 1) = 2 * k.
Proof.
  intros Hk. apply N.bits_inj_iff. intros i. rewrite N.land_spec, not64_testbit.
  destruct (decide (i = 0)) as [->|Hi].
  - rewrite N.testbit_odd_0, N.testbit_even_0. done.
  - replace i with (N.succ (N.pred i)) by lia.
    rewrite N.testbit_odd_succ, N.testbit_even_succ by lia.
    replace (N.testbit 1 (N.succ (N.pred i))) with false by (by destruct (N.pred i)).
    rewrite xorb_false_l. destruct (N.ltb_spec (N.succ (N.pred i)) word_bits); [by rewrite andb_true_r|].
    rewrite andb_false_r. symmetry.
    rewrite <- (N.testbit_odd_succ k (N.pred i)) by lia.
    by apply fits64_testbit.
Qed.

Lemma mod2_word c o : o <= 1 → (2 * c + o) mod 2 = o.
Proof. intros H. replace (2 * c + o) with (o + c * 2) by lia. rewrite N.Div0.mod_add. apply N.mod_small. lia. Qed.

(** ** Timeouts *)

Lemma remaining_ok timeout elapsed :
  wf_timeout timeout → wf_duration elapsed →
  ∃ timeout', remaining timeout elapsed = Done timeout' ∧ wf_timeout timeout'.
Proof.
  intros Ht He. destruct timeout as [to|]; [|by exists None]. cbn [remaining].
  rewrite duration_geb_nanos by done. destruct (N.leb_spec (nanos to) (nanos elapsed)) as [_|Hlt].
  - exists zero. split; [done|]. by apply (wf_from_millis 0).
  - unfold duration_sub. rewrite (proj2 (N.leb_le _ _)) by lia. eexists. split; [reflexivity|].
    destruct Ht as [Hs Hns]. unfold wf_timeout, wf_duration. cbn [as_secs subsec_nanos].
    split; [|by apply N.mod_lt]. transitivity (as_secs to); [|done].
    apply N.lt_succ_r, N.Div0.div_lt_upper_bound. unfold nanos in *. lia.
Qed.

Definition timeout_of (l : pc) : option Duration :=
  match l with
  | Entry t | Locking _ t | Loop _ _ t | Sleeping t | Waiting t | Relock t | Reload t
  | Leaving t | Polling t => t
  | _ => None
  end.

(** A step of a thread keeps its timeout, or forgets it. *)
Lemma thread_step_timeout i s l l' s' :
  thread_step i s l = Done (Some (l', s')) → timeout_of l' = timeout_of l ∨ timeout_of l' = None.
Proof.
  destruct l as [|to|curr to|curr inc to|to|to|to|to|to|to| | |]; cbn [thread_step]; try done.
  - destruct (cas_lock s 0 1) as [c s1]. intros [= <- <-]. left. by destruct (negb _).
  - destruct (lock_mutex i s); [|done]. intros [= <- <-]. by left.
  - unfold loop_step. destruct (_ =? 0); [destruct inc|destruct (bool_decide _); [|destruct inc]];
      cbn [negb]; unfold sub64, add64; try (destruct (_ <=? _)); cbn [mbind exec_bind fmap exec_fmap];
      intros E; try discriminate; unfold cas_lock in E; injection E as <- <-;
      try (by left); try (by right); destruct (negb _); by left.
  - intros [= <- <-]. by left.
  - destruct (lock_mutex i s); [|done]. intros [= <- <-]. by left.
  - intros [= <- <-]. by left.
  - intros [= <- <-]. by left.
  - intros [= <- <-]. right. by destruct (negb _).
  - destruct (lock_mutex i s); [|done]. intros [= <- <-]. by right.
  - intros [= <- <-]. by right.
Qed.

Lemma insert_timeouts (ls : list pc) i l :
  (∀ j m, ls !! j = Some m → wf_timeout (timeout_of m)) → wf_timeout (timeout_of l) →
  ∀ j m, <[i := l]> ls !! j = Some m → wf_timeout (timeout_of m).
Proof.
  intros Hls Hl j m [(<- & <- & _)|[_ Hj]]%list_lookup_insert_Some; [done|by eapply Hls].
Qed.

Lemma timeouts_wf n x : reachable n x → ∀ i l, threads x !! i = Some l → wf_timeout (timeout_of l).
Proof.
  induction 1 as [|x x' _ IH Hs].
  - intros i l [-> _]%lookup_replicate. exact I.
  - destruct Hs as [x i to _ Hto|x i l l' s' Hi E|x i to el to' Hi He E|x i j to el to' _ Hj He E|x i _ _];
      cbn [with_thread threads]; repeat (apply insert_timeouts; [|try exact I]); try exact IH.
    + exact Hto.
    + pose proof (IH i l Hi). by destruct (thread_step_timeout _ _ _ _ _ E) as [->| ->].
    + destruct (remaining_ok to el (IH i _ Hi) He) as (t' & E' & Ht). rewrite E in E'. by injection E' as <-.
    + destruct (remaining_ok to el (IH j _ Hj) He) as (t' & E' & Ht). rewrite E in E'. by injection E' as <-.
Qed.

Section Inv.
Context (n : nat) (Hn : 2 * N.of_nat n + 3 <= u64_max).

(** What the word says about the threads. *)
Lemma word_bound x : lock_inv n x → lock_state (shared x) <= 2 * N.of_nat n + 1.
Proof using Hn.
  intros Hx. rewrite (li_word _ _ Hx). pose proof (li_owner _ _ Hx).
  pose proof (count_le counted (threads x)). rewrite (li_length _ _ Hx) in *. lia.
Qed.

Lemma word_owner x : lock_inv n x → N.land (lock_state (shared x)) 1 = count owns (threads x).
Proof using Hn.
  intros Hx. rewrite land_1, (li_word _ _ Hx). apply mod2_word, (li_owner _ _ Hx).
Qed.

Lemma word_counted x i l :
  lock_inv n x → threads x !! i = Some l → counted l = true → 2 <= lock_state (shared x).
Proof using Hn.
  intros Hx Hi Hc. rewrite (li_word _ _ Hx). pose proof (count_pos _ _ _ _ Hi Hc). lia.
Qed.

(** A counted thread, or one that nobody relies on, goes to the head of the loop
    with the word as it is. *)
Lemma retry_inv x i l curr inc timeout :
  lock_inv n x → threads x !! i = Some l → curr = lock_state (shared x) →
  counted l = inc → owns l = false → holds l = true → (inc = false → obliged l = false) →
  lock_inv n (mkSystem (shared x) (<[i := Loop curr inc timeout]> (threads x))).
Proof using Hn.
  intros Hx Hi -> Hc Ho Hh Hb. pose proof (li_owner _ _ Hx).
  apply (inv_step n x i _ _ _ Hx Hi).
  - rewrite Hc, Ho. cbn [owns counted]. lia.
  - cbn [owns bit]. lia.
  - left. by rewrite Hh.
  - split; [intros ->; by apply (word_counted x i _ Hx Hi)|by apply word_bound].
  - pose proof (word_owner x Hx) as Hw. destruct inc.
    + destruct (decide (count owns (threads x) = 0)) as [H0|H0].
      * eapply handoff_obliged; [exact Hi|]. cbn. by rewrite Hw, H0.
      * eapply handoff_owned; [exact Hi|]. rewrite Ho. cbn. lia.
    + by eapply handoff_keep; [exact Hi|exact (li_handoff _ _ Hx)|rewrite Ho|apply Hb|].
Qed.

(** The head of the loop finds the word unlocked. *)
Lemma loop_free_inv x i curr inc timeout :
  lock_inv n x → threads x !! i = Some (Loop curr inc timeout) → N.land curr 1 = 0 →
  ∃ l' s', loop_step curr inc timeout (shared x) = Done (l', s')
    ∧ lock_inv n (mkSystem s' (<[i := l']> (threads x))).
Proof using Hn.
  intros Hx Hi Hc. unfold loop_step. rewrite Hc. cbn [N.eqb].
  destruct (li_local _ _ Hx _ _ Hi) as [Hinc _].
  assert (N.lor curr 1 = curr + 1) as ->.
  { rewrite land_1 in Hc. apply N.Div0.mod_divides in Hc as [k ->]. apply lor_1. }
  assert ((if inc then sub64 (curr + 1) 2 else Done (curr + 1)) =
    Done (curr + 1 - 2 * bit inc)) as ->.
  { destruct inc; cbn [bit]; [|f_equal; lia]. unfold sub64. specialize (Hinc eq_refl).
    destruct (N.leb_spec 2 (curr + 1)); [f_equal; lia|lia]. }
  cbn [mbind exec_bind]. unfold cas_lock.
  destruct (N.eqb_spec (lock_state (shared x)) curr) as [E|E]; cbn [negb].
  2:{ eexists _, _. split; [reflexivity|]. eapply retry_inv; try done. by destruct inc. }
  eexists _, _. split; [reflexivity|].
  pose proof (word_owner x Hx) as Hw. rewrite E, Hc in Hw.
  apply (inv_step n x i _ _ _ Hx Hi); cbn [owns counted holds bit lock_state mutex].
  - unfold bit in *. destruct inc; [specialize (Hinc eq_refl)|]; lia.
  - lia.
  - by left.
  - exact I.
  - eapply handoff_owned; [exact Hi|]. cbn. lia.
Qed.

(** The head of the loop finds the word locked. *)
Lemma loop_busy_inv x i curr inc timeout :
  lock_inv n x → threads x !! i = Some (Loop curr inc timeout) → N.land curr 1 ≠ 0 →
  ∃ l' s', loop_step curr inc timeout (shared x) = Done (l', s')
    ∧ lock_inv n (mkSystem s' (<[i := l']> (threads x))).
Proof using Hn.
  intros Hx Hi Hc. unfold loop_step. apply N.eqb_neq in Hc as Hc'. rewrite Hc'.
  pose proof (li_owner _ _ Hx) as Ho. pose proof (word_bound x Hx) as Hb.
  destruct (decide (timeout = zero)) as [Hz|Hz].
  { rewrite bool_decide_eq_true_2 by done. eexists _, _. split; [reflexivity|].
    apply (inv_step n x i _ _ _ Hx Hi); cbn [owns counted holds bit]; [|lia| |exact I|].
    - destruct inc; [|done]. pose proof (word_counted x i _ Hx Hi eq_refl). cbn [lock_state].
      replace (lock_state (shared x) + (2 ^ word_bits - 2))
        with (lock_state (shared x) - 2 + 1 * 2 ^ word_bits).
      2:{ assert (2 <= 2 ^ word_bits) by (by apply N.leb_le). lia. }
      rewrite N.Div0.mod_add, N.mod_small; [unfold bit; lia|].
      assert (u64_max < 2 ^ word_bits) by (by apply N.ltb_lt). lia.
    - left. by destruct inc.
    - eapply handoff_keep; [exact Hi|exact (li_handoff _ _ Hx)|done| |done].
      cbn. by rewrite Hc', andb_false_r. }
  rewrite bool_decide_eq_false_2 by done. destruct inc; cbn [negb].
  { eexists _, _. split; [reflexivity|].
    apply (inv_step n x i _ _ _ Hx Hi); cbn [owns counted holds bit]; [lia|lia|by left|exact I|].
    eapply handoff_keep; [exact Hi|exact (li_handoff _ _ Hx)|done|cbn; by rewrite Hc'|].
    intros _. cbn. by rewrite Hc'. }
  destruct (li_local _ _ Hx _ _ Hi) as [_ Hcb].
  rewrite add64_ok by lia. cbn [mbind exec_bind]. unfold cas_lock.
  destruct (N.eqb_spec (lock_state (shared x)) curr) as [E|E]; cbn [negb].
  2:{ eexists _, _. split; [reflexivity|]. by eapply retry_inv. }
  eexists _, _. split; [reflexivity|].
  apply (inv_step n x i _ _ _ Hx Hi); cbn [owns counted holds bit lock_state mutex];
    [unfold bit; lia|lia|by left|exact I|].
  eapply handoff_owned; [exact Hi|]. rewrite <- E, (word_owner x Hx) in Hc. cbn. lia.
Qed.

(** A step that leaves the word and the counts alone. *)
Lemma quiet_inv x i l l' s' :
  lock_inv n x → threads x !! i = Some l → lock_state s' = lock_state (shared x) →
  counted l' = counted l → owns l' = owns l →
  (holds l = holds l' ∧ mutex s' = mutex (shared x)
   ∨ holds l' = true ∧ mutex (shared x) = None ∧ mutex s' = Some i
   ∨ holds l = true ∧ holds l' = false ∧ mutex s' = None) →
  local_ok n l' →
  obliged l' = true ∨ obliged l = false ∧ (needs l' = true → needs l = true) →
  lock_inv n (mkSystem s' (<[i := l']> (threads x))).
Proof using Hn.
  intros Hx Hi Ew Ec Eo Em El Eh. pose proof (li_owner _ _ Hx).
  apply (inv_step n x i _ _ _ Hx Hi); [rewrite Ec, Eo; lia|rewrite Eo; lia|exact Em|exact El|].
  destruct Eh as [Eh|[Eh1 Eh2]]; [by eapply handoff_obliged|].
  by eapply handoff_keep; [exact Hi|exact (li_handoff _ _ Hx)|..].
Qed.

Lemma entry_inv x i timeout l' s' :
  lock_inv n x → threads x !! i = Some (Entry timeout) →
  thread_step i (shared x) (Entry timeout) = Done (Some (l', s')) →
  lock_inv n (mkSystem s' (<[i := l']> (threads x))).
Proof using Hn.
  intros Hx Hi E. cbn [thread_step] in E. unfold cas_lock in E.
  destruct (N.eqb_spec (lock_state (shared x)) 0) as [E0|E0].
  - rewrite E0 in E. injection E as <- <-. pose proof (li_word _ _ Hx) as Hw. rewrite E0 in Hw.
    apply (inv_step n x i _ _ _ Hx Hi); cbn [owns counted holds bit lock_state mutex];
      [unfold bit; lia|lia|by left|exact I|].
    eapply handoff_owned; [exact Hi|]. cbn. lia.
  - destruct (N.eqb_spec 0 (lock_state (shared x))) as [E1|E1]; [by rewrite <- E1 in E0|].
    cbn [negb] in E. injection E as <- <-. eapply quiet_inv; try done; [by left|by apply word_bound|by right].
Qed.

Lemma polling_inv x i timeout l' s' :
  lock_inv n x → threads x !! i = Some (Polling timeout) →
  thread_step i (shared x) (Polling timeout) = Done (Some (l', s')) →
  lock_inv n (mkSystem s' (<[i := l']> (threads x))).
Proof using Hn.
  intros Hx Hi E. cbn [thread_step] in E. pose proof (word_bound x Hx) as Hb.
  pose proof (li_word _ _ Hx) as Hw. pose proof (li_owner _ _ Hx) as Ho.
  pose proof (count_pos owns _ _ _ Hi eq_refl) as Hp.
  assert (count owns (threads x) = 1) as H1 by lia. rewrite H1 in Hw.
  rewrite Hw, clear_bit in E by lia.
  set (l1 := if negb (1 =? _) then NotifyLock else Idle) in E. injection E as <- <-.
  apply (inv_step n x i _ _ _ Hx Hi); cbn [owns counted holds bit lock_state mutex].
  - subst l1. destruct (negb _); cbn [owns counted bit]; lia.
  - subst l1. destruct (negb _); cbn [owns bit]; lia.
  - left. split; [|done]. subst l1. by destruct (negb _).
  - subst l1. by destruct (negb _).
  - subst l1. destruct (N.eqb_spec 1 (2 * count counted (threads x) + 1)) as [E|E]; cbn [negb].
    + intros _ (j & m & Hj & Hm). destruct (decide (i = j)) as [<-|Hne].
      { rewrite list_lookup_insert_eq in Hj by (by eapply lookup_lt_Some).
        injection Hj as <-. done. }
      rewrite list_lookup_insert_ne in Hj by done.
      assert (count counted (threads x) = 0) as H0 by lia.
      pose proof (count_0 _ _ _ _ H0 Hj) as Hc.
      destruct m as [| | |curr inc t| | | | | | | | |]; try done. cbn in Hm, Hc. by rewrite Hc in Hm.
    + by eapply handoff_obliged.
Qed.

Lemma lock_thread_step_inv x i l :
  lock_inv n x → threads x !! i = Some l →
  ∃ o, thread_step i (shared x) l = Done o
    ∧ match o with
      | Some (l', s') => lock_inv n (mkSystem s' (<[i := l']> (threads x)))
      | None => True
      end.
Proof using Hn.
  intros Hx Hi. assert (∀ s', lock_mutex i (shared x) = Some s' →
    mutex (shared x) = None ∧ s' = mkShared (lock_state (shared x)) (Some i)) as Hlk.
  { unfold lock_mutex. intros s'. destruct (mutex (shared x)); [done|]. by intros [= <-]. }
  destruct l as [|to|curr to|curr inc to|to|to|to|to|to|to| | |]; cbn [thread_step].
  - by eexists.
  - destruct (cas_lock (shared x) 0 1) as [curr s'] eqn:E. eexists; split; [reflexivity|].
    eapply entry_inv; [exact Hx|exact Hi|]. cbn [thread_step]. by rewrite E.
  - eexists; split; [reflexivity|]. destruct (lock_mutex i (shared x)) as [s'|] eqn:E; cbn; [|done].
    destruct (Hlk s' eq_refl) as [Hm ->].
    eapply quiet_inv; try done; [by right; left| |by right].
    split; [done|]. exact (li_local _ _ Hx _ _ Hi).
  - destruct (decide (N.land curr 1 = 0)) as [H|H];
      [destruct (loop_free_inv x i _ _ _ Hx Hi H) as (l' & s' & E & Hi')
      |destruct (loop_busy_inv x i _ _ _ Hx Hi H) as (l' & s' & E & Hi')];
      rewrite E; by eexists.
  - eexists; split; [reflexivity|]. eapply quiet_inv; try done; [by right; right|by right].
  - by eexists.
  - eexists; split; [reflexivity|]. destruct (lock_mutex i (shared x)) as [s'|] eqn:E; cbn; [|done].
    destruct (Hlk s' eq_refl) as [Hm ->]. eapply quiet_inv; try done; [by right; left|by left].
  - eexists; split; [reflexivity|]. by eapply retry_inv.
  - eexists; split; [reflexivity|]. eapply quiet_inv; try done; [by right; right|by right].
  - eexists; split; [reflexivity|]. eapply polling_inv; try done.
  - eexists; split; [reflexivity|]. destruct (lock_mutex i (shared x)) as [s'|] eqn:E; cbn; [|done].
    destruct (Hlk s' eq_refl) as [Hm ->]. eapply quiet_inv; try done; [by right; left|by left].
  - by eexists.
  - eexists; split; [reflexivity|]. eapply quiet_inv; try done; [by right; right|by right].
Qed.

(** No thread of the list needs to be woken while [i] holds the mutex, if none
    waits. *)
Lemma notify_none_handoff x i :
  lock_inv n x → threads x !! i = Some Notify →
  (∀ j timeout, threads x !! j ≠ Some (Waiting timeout)) →
  handoff (<[i := Quitting]> (threads x)).
Proof using Hn.
  intros Hx Hi Hnw _ Hs. destruct (some_insert_inv _ _ _ _ _ Hi Hs) as [H|(j & m & Hj & Hm)]; [done|].
  exfalso. assert (holds m = true) as Hh.
  { destruct m; try done. by destruct (Hnw j timeout). }
  pose proof (li_holder _ _ Hx _ _ Hj Hh) as E1.
  pose proof (li_holder _ _ Hx _ _ Hi eq_refl) as E2.
  rewrite E1 in E2. injection E2 as ->. rewrite Hi in Hj. injection Hj as <-. done.
Qed.

Lemma notify_inv x i :
  lock_inv n x → threads x !! i = Some Notify → handoff (<[i := Quitting]> (threads x)) →
  lock_inv n (with_thread i Quitting x).
Proof using Hn.
  intros Hx Hi Hh. pose proof (li_owner _ _ Hx).
  apply (inv_step n x i _ _ _ Hx Hi); 
    [cbn [owns counted]; lia|cbn [owns]; lia|by left|exact I|exact Hh].
Qed.

Lemma wake_inv x i timeout timeout' :
  lock_inv n x → threads x !! i = Some (Waiting timeout) →
  lock_inv n (with_thread i (Relock timeout') x).
Proof using Hn.
  intros Hx Hi. apply (quiet_inv x i _ _ (shared x) Hx Hi); try done; by left.
Qed.

Lemma lock_step_inv x x' : lock_inv n x → step x x' → lock_inv n x'.
Proof using Hn.
  intros Hx Hs. destruct Hs as [x i to Hi _|x i l l' s' Hi E|x i to el to' Hi _ _|x i j to el to' Hi Hj _ _|x i Hi Hnw].
  - apply (quiet_inv x i _ _ (shared x) Hx Hi); try done; [by left|by right].
  - destruct (lock_thread_step_inv x i l Hx Hi) as (o & E' & Ho). rewrite E in E'.
    by injection E' as <-.
  - by eapply wake_inv.
  - assert (i ≠ j) as Hne by (intros ->; congruence).
    apply notify_inv; [by eapply wake_inv| |].
    + cbn. by rewrite list_lookup_insert_ne.
    + intros _ _. exists j, (Relock to'). split; [|done].
      rewrite list_lookup_insert_ne by done. apply list_lookup_insert_eq.
      by eapply lookup_lt_Some.
  - apply notify_inv; [done..|]. by apply notify_none_handoff.
Qed.

Lemma initial_inv : lock_inv n (initial n).
Proof using Hn.
  assert (∀ f, f Idle = false → count f (replicate n Idle) = 0) as H0.
  { intros f Hf. unfold count. clear Hn. induction n as [|k IH]; [done|].
    cbn [replicate]. rewrite filter_cons. case_decide; [congruence|exact IH]. }
  split; cbn [initial threads shared lock_state mutex];
    [apply length_replicate|by rewrite !H0|by rewrite H0| |done| |].
  - intros i l [-> _]%lookup_replicate. done.
  - intros i l [-> _]%lookup_replicate. exact I.
  - intros _ (i & l & [-> _]%lookup_replicate & H). done.
Qed.

Lemma lock_reachable_inv x : reachable n x → lock_inv n x.
Proof using Hn. induction 1; [apply initial_inv|by eapply lock_step_inv]. Qed.

Lemma owner_unique x i j l m :
  lock_inv n x → threads x !! i = Some l → threads x !! j = Some m →
  owns l = true → owns m = true → i = j.
Proof using Hn.
  intros Hx Hi Hj Hl Hm. destruct (decide (i = j)) as [|Hne]; [done|]. exfalso.
  pose proof (count_insert owns _ _ _ Idle Hi) as H. rewrite Hl in H. cbn [bit owns] in H.
  pose proof (li_owner _ _ Hx) as Ho.
  assert (<[i:=Idle]> (threads x) !! j = Some m) as Hj' by by rewrite list_lookup_insert_ne.
  pose proof (count_pos owns _ _ _ Hj' Hm). lia.
Qed.

(** ** The properties *)

(** C12 At most one thread is in [poll2] at a time, however the threads are
    scheduled; the word always is twice the number of threads that wait plus
    one if the lock is taken; and no thread panics: the subtraction and the
    checked addition on the word never leave its range, nor does the subtraction
    of the time a wait took from the timeout. *)
Theorem poll_lock_safe x :
  reachable n x →
  (∀ i j ti tj, threads x !! i = Some (Polling ti) → threads x !! j = Some (Polling tj) → i = j)
  ∧ lock_state (shared x) = 2 * count counted (threads x) + count owns (threads x)
  ∧ (∀ i l, threads x !! i = Some l → ∃ o, thread_step i (shared x) l = Done o)
  ∧ (∀ i timeout elapsed, threads x !! i = Some (Waiting timeout) → wf_duration elapsed →
     ∃ timeout', remaining timeout elapsed = Done timeout').
Proof using Hn.
  intros Hr. pose proof (lock_reachable_inv x Hr) as Hx. split; [|split; [|split]].
  - intros i j ti tj Hi Hj. by eapply owner_unique.
  - apply (li_word _ _ Hx).
  - intros i l Hi. destruct (lock_thread_step_inv x i l Hx Hi) as (o & E & _). by exists o.
  - intros i to el Hi He. destruct (remaining_ok to el (timeouts_wf n x Hr i _ Hi) He) as (t' & E & _). by exists t'.
Qed.

(** A thread that can go on by itself. *)
Definition runs (x : System) (i : nat) : Prop := ∃ l,
  threads x !! i = Some l
  ∧ (l = Notify ∨ ∃ l' s', thread_step i (shared x) l = Done (Some (l', s'))).

Lemma holder_runs x i :
  lock_inv n x → mutex (shared x) = Some i → runs x i.
Proof using Hn.
  intros Hx Hm. destruct (li_mutex _ _ Hx i Hm) as (l & Hi & Hh). exists l. split; [done|].
  destruct (lock_thread_step_inv x i l Hx Hi) as (o & E & _).
  destruct l as [|to|curr to|curr inc to|to|to|to|to|to|to| | |]; try done;
    try (right; eexists _, _; reflexivity); [|by left].
  right. cbn [thread_step] in *. destruct (loop_step _ _ _ _) as [[l' s']| |]; [|done..].
  by eexists _, _.
Qed.

(** C29 The lock is handed over and never lost: when nobody is in [poll2] and
    some thread is inside [poll1], a thread can go on by itself, without a
    timeout or a spurious wakeup; in particular a thread that waits while the
    lock is free has another one that holds the mutex or will notify. *)
Theorem poll_lock_no_deadlock x :
  reachable n x →
  (∀ i timeout, threads x !! i ≠ Some (Polling timeout)) →
  some_thread (λ l, negb (bool_decide (l = Idle))) (threads x) →
  ∃ i, runs x i.
Proof using Hn.
  intros Hr Hnp (i & l & Hi & Hl). pose proof (lock_reachable_inv x Hr) as Hx.
  destruct (mutex (shared x)) as [h|] eqn:Em; [exists h; by apply holder_runs|].
  assert (∀ j m, threads x !! j = Some m → holds m = false) as Hnh.
  { intros j m Hj. destruct (holds m) eqn:E; [|done].
    pose proof (li_holder _ _ Hx _ _ Hj E). congruence. }
  assert (∀ j, lock_mutex j (shared x) = Some (mkShared (lock_state (shared x)) (Some j))) as Hlk.
  { intros j. unfold lock_mutex. by rewrite Em. }
  assert (∀ j m, threads x !! j = Some m → m ≠ Idle → (∀ t, m ≠ Waiting t) → runs x j) as Hgo.
  { intros j m Hj Hi1 Hi2. exists m. split; [done|]. right.
    pose proof (Hnh j m Hj) as Hh.
    destruct m as [|to|curr to|curr inc to|to|to|to|to|to|to| | |]; try done;
      cbn [thread_step]; rewrite ?Hlk; try (by eexists _, _).
    by destruct (Hi2 to). }
  destruct l as [|to|curr to|curr inc to|to|to|to|to|to|to| | |]; try (exists i; by apply (Hgo i _ Hi)).
  destruct (li_handoff _ _ Hx) as (j & m & Hj & Hm).
  - destruct (decide (count owns (threads x) = 0)) as [|H0]; [done|].
    exfalso. unfold count in H0.
    destruct (filter (λ l, owns l = true) (threads x)) as [|m ls] eqn:E; [done|].
    assert (m ∈ filter (λ l, owns l = true) (threads x)) as Hin by (rewrite E; by left).
    apply list_elem_of_filter in Hin as [Hm Hin]. apply list_elem_of_lookup in Hin as [j Hj].
    pose proof (Hnh j m Hj) as Hh. destruct m as [| | | | | | | | |to'| | |]; try done.
    by destruct (Hnp j to').
  - by exists i, (Waiting to).
  - exists j. apply (Hgo j m Hj); destruct m; done.
Qed.
End Inv.

(** ** Two threads: the second waits for the first *)
Module LockDemo.
Definition go (i : nat) (x : System) : System :=
  match threads x !! i with
  | Some l =>
      match thread_step i (shared x) l with
      | Done (Some (l', s')) => mkSystem s' (<[i := l']> (threads x))
      | _ => x
      end
  | None => x
  end.

Lemma go_reachable n x i : reachable n x → reachable n (go i x).
Proof.
  intros Hr. unfold go. destruct (threads x !! i) as [l|] eqn:Hi; [|done].
  destruct (thread_step i (shared x) l) as [[[l' s']|]| |] eqn:E; try done.
  eapply reach_step; [exact Hr|]. by eapply step_thread.
Qed.

Lemma call_reachable n x i :
  reachable n x → threads x !! i = Some Idle → reachable n (with_thread i (Entry None) x).
Proof. intros Hr Hi. eapply reach_step; [exact Hr|]. by apply step_call. Qed.

(** Thread 0 polls; thread 1 has counted itself and waits. *)
Definition both : System :=
  with_thread 1 (Entry None) (with_thread 0 (Entry None) (initial 2)).
Definition contended : System := go 1 (go 1 (go 1 (go 1 (go 0 both)))).
(** Thread 0 has unlocked the word and is about to notify. *)
Definition handing_over : System := go 0 contended.

Lemma contended_threads : threads contended = [Polling None; Waiting None].
Proof. reflexivity. Qed.

Lemma contended_reachable : reachable 2 contended.
Proof.
  unfold contended. do 5 apply go_reachable.
  apply call_reachable; [|reflexivity]. apply call_reachable; [|reflexivity]. apply reach_initial.
Qed.

Lemma small : 2 * N.of_nat 2 + 3 <= u64_max.
Proof. apply N.leb_le. by vm_compute. Qed.

Lemma poll_lock_safe_witness :
  threads contended = [Polling None; Waiting None] ∧ lock_state (shared contended) = 3.
Proof.
  split; [reflexivity|].
  rewrite (proj1 (proj2 (poll_lock_safe 2 small contended contended_reachable))). reflexivity.
Defined.

Lemma poll_lock_no_deadlock_witness :
  threads handing_over = [NotifyLock; Waiting None] ∧ ∃ i, runs handing_over i.
Proof.
  split; [reflexivity|].
  apply (poll_lock_no_deadlock 2 small handing_over).
  - unfold handing_over. apply go_reachable, contended_reachable.
  - intros i t Hi. change (threads handing_over) with [NotifyLock; Waiting None] in Hi.
    by destruct i as [|[|i]].
  - by exists 0%nat, NotifyLock.
Defined.
End LockDemo.
