(* ===== verification/Poll.v ===== *)
(** * The poll

    [Poll], [Events] and [SelectorId] of [src/src/poll.rs]: the selector, the
    readiness queue and the lock put together.  [poll2] runs under the lock, so
    one call is a function of the state; the durations of its waits are the
    argument [elapsed].  [poll1] is the steps of a thread in [PollLock], with
    [poll2] in the middle, while no other thread polls ([PollLock] has any
    number of threads, and says nothing of what they do to the poll).  A handle registers itself through the interface [Evented]. *)
From S2P Require Import Prelude EventSet ReadinessState Duration Awakener Selector.
From S2P Require Import ReadinessQueue Registration PollLock.

Definition zero_timeout : option Duration := Some (from_millis 0).

Section Poll.
Context {J : Type} (null_job : J) (grow : N → N).
Context {P : Type} {PO : PipeOps P}.
Context {K : Type} {KO : EpollOps K}.

(** The queue is named by [p_queue] in the heap [p_world]; [p_lock] is the word
    and the mutex. *)
Record Poll := mkPoll {
  p_selector : Selector (J:=J) (K:=K);
  p_queue : qid;
  p_world : World (J:=J) (P:=P);
  p_lock : Shared;
}.
Implicit Types pl : Poll.

Definition with_selector s pl := mkPoll s (p_queue pl) (p_world pl) (p_lock pl).
Definition with_world w pl := mkPoll (p_selector pl) (p_queue pl) w (p_lock pl).
Definition with_lock s pl := mkPoll (p_selector pl) (p_queue pl) (p_world pl) s.

(** [lock_state: AtomicUsize::new(0)], [lock: Mutex::new(())] *)
Definition unlocked : Shared := mkShared 0 None.

(** A call on the queue, in the heap of the poll. *)
Definition on_queue {A} (m : stm (World (J:=J) (P:=P)) A) pl : exec (A * Poll) :=
  match m (p_world pl) with
  | Done (a, w) => Done (a, with_world w pl)
  | Panic p => Panic p
  | NoFuel => NoFuel
  end.

(** [Poll::new]: the reader of the awakener, the descriptor [reader], is
    registered for edge-triggered notifications. *)
Definition Poll_new (next_id : N) (create1 : option (io_result (Z * K)))
    (create : io_result (Z * K)) (awakener : io_result P) (reader : Z)
    (q : qid) (end_marker sleep_marker closed_marker : ptr)
    (w : World (J:=J) (P:=P)) : exec (io_result Poll * N) :=
  Selector_new next_id create1 create ≫= λ '(r, next_id),
  match r with
  | IoErr e => Done (IoErr e, next_id)
  | IoOk sel =>
      ReadinessQueue_new null_job awakener q end_marker sleep_marker closed_marker w
      ≫= λ '(r, w),
      match r with
      | IoErr e => Done (IoErr e, next_id)
      | IoOk q =>
          let '(r, sel) := register sel reader (mkTokenEntry NotifyEvent (mkToken 0))
            Ready.readable PollOpt.edge null_job in
          match r with
          | IoErr e => Done (IoErr e, next_id)
          | IoOk _ => Done (IoOk (mkPoll sel q w unlocked), next_id)
          end
      end
  end.

(** [self.readiness_queue.inner.awakener.cleanup()] *)
Definition queue_cleanup (fuel : nat) (q : qid) : stm (World (J:=J) (P:=P)) unit :=
  queue_at q ≫= λ x,
  lift (cleanup fuel (q_awakener x)) ≫= λ a,
  set_queue q (with_awakener a x).

(** The loop of [poll2]: [IoOk] when it breaks, with the poll and the events.
    [elapsed i] is the time the [i]-th wait took, [budget] the fuel of
    [cleanup]. *)
Fixpoint poll2_loop (fuel budget : nat) (elapsed : nat → Duration) (i : nat)
    (interruptible : bool) (timeout : option Duration) (events : Events (J:=J)) pl
    : exec (io_result unit * Poll * Events (J:=J)) :=
  match fuel with
  | O => NoFuel
  | S fuel =>
      select grow (p_selector pl) events timeout ≫= λ '(res, sel, events),
      let pl := with_selector sel pl in
      match res with
      | IoOk true =>
          on_queue (queue_cleanup budget (p_queue pl)) pl ≫= λ '(_, pl),
          Done (IoOk (), pl, events)
      | IoOk false => Done (IoOk (), pl, events)
      | IoErr e =>
          if bool_decide (e = Interrupted) && negb interruptible then
            match timeout with
            | Some to =>
                if duration_geb (elapsed i) to then Done (IoOk (), pl, events)
                else
                  duration_sub to (elapsed i) ≫= λ to,
                  poll2_loop fuel budget elapsed (S i) interruptible (Some to) events pl
            | None => poll2_loop fuel budget elapsed (S i) interruptible None events pl
            end
          else Done (IoErr e, pl, events)
      end
  end.

(** [poll2]: the number of events, and the events. *)
Definition poll2 (fuel : nat) (elapsed : nat → Duration) (interruptible : bool)
    (timeout : option Duration) (events : Events (J:=J)) pl
    : exec (io_result N * Poll * Events (J:=J)) :=
  (if bool_decide (timeout = zero_timeout) then Done (timeout, pl)
   else
     on_queue (prepare_for_sleep (p_queue pl)) pl ≫= λ '(b, pl),
     Done (if b : bool then timeout else zero_timeout, pl)) ≫= λ '(timeout, pl),
  poll2_loop fuel fuel elapsed 0 interruptible timeout events pl ≫= λ '(r, pl, events),
  match r with
  | IoErr e => Done (IoErr e, pl, events)
  | IoOk _ =>
      on_queue (queue_poll null_job grow fuel (p_queue pl) events) pl ≫= λ '(events, pl),
      Done (IoOk (Events_len events), pl, events)
  end.

(** [poll1] from where the thread [i] is, with the result it has so far; a
    thread that has to wait for another one gets no further here. *)
Fixpoint poll1_steps (steps : nat) (i fuel : nat) (elapsed : nat → Duration) (interruptible : bool)
    (l : pc) (ret : io_result N) (events : Events (J:=J)) pl
    : exec (io_result N * Poll * Events (J:=J)) :=
  match steps with
  | O => NoFuel
  | S steps =>
      match l with
      | Idle => Done (ret, pl, events)
      | Notify => poll1_steps steps i fuel elapsed interruptible Quitting ret events pl
      | _ =>
          match l with
          | Polling timeout => poll2 fuel elapsed interruptible timeout events pl
          | _ => Done (ret, pl, events)
          end ≫= λ '(ret, pl, events),
          thread_step i (p_lock pl) l ≫= λ o,
          match o with
          | Some (l, s) => poll1_steps steps i fuel elapsed interruptible l ret events (with_lock s pl)
          | None => NoFuel
          end
      end
  end.

(** [poll1] of one thread, which returns [Ok(0)] when it does not get the lock in
    time.  On its own it is there after at most nine steps, when it takes the lock
    from threads that wait. *)
Definition poll1 (fuel : nat) (elapsed : nat → Duration) (timeout : option Duration) (interruptible : bool)
    (events : Events (J:=J)) pl : exec (io_result N * Poll * Events (J:=J)) :=
  poll1_steps 10 0 fuel elapsed interruptible (Entry timeout) (IoOk 0) events pl.

Definition Poll_poll (fuel : nat) (elapsed : nat → Duration) (timeout : option Duration)
    (events : Events (J:=J)) pl : exec (io_result N * Poll * Events (J:=J)) :=
  poll1 fuel elapsed timeout false events pl.
Definition Poll_poll_interruptible (fuel : nat) (elapsed : nat → Duration) (timeout : option Duration)
    (events : Events (J:=J)) pl : exec (io_result N * Poll * Events (J:=J)) :=
  poll1 fuel elapsed timeout true events pl.
End Poll.
(** Unfolded last, since each step is a choice of many. *)
#[global] Strategy 1000 [poll1_steps poll1 Poll_poll Poll_poll_interruptible].
Arguments Poll J P K : clear implicits.
Arguments mkPoll {J P K} _ _ _ _.
Arguments p_selector {J P K} _.
Arguments p_queue {J P K} _.
Arguments p_world {J P K} _.
Arguments p_lock {J P K} _.
