(* ===== verification/PollProps.v ===== *)
(** * The poll: properties

    What [poll2] of [Poll] does with the answers of the kernel and the queue. *)
From S2P Require Import Prelude EventSet ReadinessState Duration Awakener Selector.
From S2P Require Import ReadinessQueue Registration QueueInv QueueSpec RegistrationSpec.
From S2P Require Import HandleSpec QueueProps Poll.

Section PollProps.
Context {J : Type} (null_job : J) (grow : N → N).
Context {P : Type} {PO : PipeOps P} {PL : PipeLaws P}.
Context {K : Type} {KO : EpollOps K} {KL : EpollLaws K}.
Implicit Types (pl : Poll J P K) (w : World (J:=J) (P:=P)) (q : qid) (d : list ptr).
Implicit Types x : ReadinessQueueInner (P:=P).

(** What the kernel answers to a call of [poll2] that waits with a timeout, and
    its state then: a wait that is interrupted is repeated with the time left,
    unless the call is interruptible; when no time is left there are no
    events.  The last number counts the repeated waits. *)
Inductive kernel_answer (elapsed : nat → Duration) (interruptible : bool) (room : N)
    : nat → option Duration → K → io_result (list epoll_event) → K → nat → Prop :=
  | answer_events i t ms k evs k' :
      select_timeout t = Done ms → epoll_wait k room ms = (IoOk evs, k') →
      kernel_answer elapsed interruptible room i t k (IoOk evs) k' 0
  | answer_error i t ms k e k' :
      select_timeout t = Done ms → epoll_wait k room ms = (IoErr e, k') →
      e ≠ Interrupted ∨ interruptible = true →
      kernel_answer elapsed interruptible room i t k (IoErr e) k' 0
  | answer_deadline i to ms k k' :
      select_timeout (Some to) = Done ms → epoll_wait k room ms = (IoErr Interrupted, k') →
      interruptible = false → duration_geb (elapsed i) to = true →
      kernel_answer elapsed interruptible room i (Some to) k (IoOk []) k' 0
  | answer_again_none i ms k k1 r k' n :
      select_timeout None = Done ms → epoll_wait k room ms = (IoErr Interrupted, k1) →
      interruptible = false →
      kernel_answer elapsed interruptible room (S i) None k1 r k' n →
      kernel_answer elapsed interruptible room i None k r k' (S n)
  | answer_again_some i to to' ms k k1 r k' n :
      select_timeout (Some to) = Done ms → epoll_wait k room ms = (IoErr Interrupted, k1) →
      interruptible = false → duration_geb (elapsed i) to = false →
      duration_sub to (elapsed i) = Done to' →
      kernel_answer elapsed interruptible room (S i) (Some to') k1 r k' n →
      kernel_answer elapsed interruptible room i (Some to) k r k' (S n).

(** A failed wait empties the buffer and changes only the kernel. *)
Lemma select_error s (evts : Events (J:=J)) t ms e k :
  select_timeout t = Done ms → epoll_wait (sel_kernel s) (ev_events_cap evts) ms = (IoErr e, k) →
  select grow s evts t = Done (IoErr e, with_kernel s k, Events_clear evts).
Proof. intros Et Ew. unfold select. rewrite Et. cbn [mbind exec_bind]. cbn. by rewrite Ew. Qed.

(** The pipe after [cleanup]. *)
Definition drained (a : P) : Prop :=
  pipe_len a = 0 ∨ ∃ e, pipe_read a 128 = (IoErr e, a) ∧ e ≠ WouldBlock.

Lemma queue_cleanup_ok budget w q x st d refs :
  inv w q x st d refs → (N.to_nat (pipe_len (q_awakener x)) < budget)%nat →
  ∃ w' a, queue_cleanup budget q w = Done (tt, w') ∧ drained a ∧ pipe_len a <= pipe_len (q_awakener x)
    ∧ inv w' q (with_awakener a x) st d refs ∧ contents w' = contents w.
Proof.
  intros Hi Hb. destruct (cleanup_drains (q_awakener x) budget Hb) as (a & Ea & Hle & Hd).
  pose proof (iv_queue _ _ _ _ _ _ Hi) as Hq.
  pose proof (lk_queue _ _ _ _ (qo_linked _ _ _ _ _ Hq)) as Hx.
  exists (mkWorld (w_nodes w) (<[q := with_awakener a x]> (w_queues w))), a.
  split; [|split; [exact Hd|split; [exact Hle|split; [|done]]]].
  - unfold queue_cleanup. step by by apply queue_at_Done. unfold lift. rewrite Ea. reflexivity.
  - destruct Hi as [_ H1 H2 H3 H4 H5 H6]. split; try done.
    destruct Hq as [[_ Hc Ht Hh Hnd] Hmk Hl Hdt]. split; try done. split; try done.
    cbn. by rewrite lookup_insert_eq.
Qed.

Lemma omap_length {A B} (f : A → option B) l : (length (omap f l) <= length l)%nat.
Proof. induction l as [|a l IH]; cbn; [lia|]. destruct (f a); cbn; lia. Qed.

Lemma select_caps s (evts : Events (J:=J)) t r s' evts' :
  select grow s evts t = Done (r, s', evts') →
  ev_events_cap evts' = ev_events_cap evts
  ∧ ev_entries_cap evts' = match r with
      | IoOk _ => entries_cap grow (ev_entries evts') (ev_entries_cap evts)
      | IoErr _ => ev_entries_cap evts
      end.
Proof.
  unfold select. destruct (select_timeout t) as [ms| |]; cbn [mbind exec_bind]; try done.
  destruct (epoll_wait _ _ _) as [[evs|e] k]; [|by intros [= <- <- <-]].
  destruct (select_loop _ _ _ _ _) as [[m es] [i|]]; by intros [= <- <- <-].
Qed.

(** The outcome of the loop of [poll2]. *)
Definition loop_outcome pl (r : io_result (list epoll_event)) k' st d refs (a : P)
    (events : Events (J:=J)) (o : exec (io_result unit * Poll J P K * Events (J:=J))) : Prop :=
  match r with
  | IoErr e => ∃ sel events',
      o = Done (IoErr e, with_selector sel pl, events')
      ∧ sel_kernel sel = k' ∧ sel_map sel = sel_map (p_selector pl)
  | IoOk evs => ∃ sel w x events',
      o = Done (IoOk (), mkPoll sel (p_queue pl) w (p_lock pl), events')
      ∧ ev_entries events' = omap (dispatch (sel_map (p_selector pl))) evs
      ∧ Events_len events' <= Events_capacity events'
      ∧ Events_capacity events' = Events_capacity events
      ∧ sel_kernel sel = k'
      ∧ registrations (sel_map sel) = registrations (sel_map (p_selector pl))
      ∧ inv w (p_queue pl) x st d refs ∧ contents w = contents (p_world pl)
      ∧ (existsb (is_notify (sel_map (p_selector pl))) evs = true → drained (q_awakener x))
      ∧ pipe_len (q_awakener x) <= pipe_len a
  end.

Lemma poll2_loop_events budget pl i t ms evs k' x st d refs fuel elapsed intr events :
  select_timeout t = Done ms →
  epoll_wait (sel_kernel (p_selector pl)) (ev_events_cap events) ms = (IoOk evs, k') →
  ev_events_cap events <= ev_entries_cap events →
  inv (p_world pl) (p_queue pl) x st d refs →
  (N.to_nat (pipe_len (q_awakener x)) < budget)%nat →
  loop_outcome pl (IoOk evs) k' st d refs (q_awakener x) events
    (poll2_loop grow (S fuel) budget elapsed i intr t events pl).
Proof.
  intros Et Ew Hcap Hi Hb.
  destruct (select_ok grow (p_selector pl) events t ms evs k' Et Ew)
    as (b & s' & evts' & E & (Een & Eb & Er & _) & Ek).
  destruct (select_caps _ _ _ _ _ _ E) as [_ Ec].
  assert (Events_len evts' <= Events_capacity evts' ∧ Events_capacity evts' = Events_capacity events)
    as [Hlen Hsame].
  { unfold Events_len, Events_capacity. rewrite Ec. unfold entries_cap.
    pose proof (wait_data (sel_kernel (p_selector pl)) (ev_events_cap events) ms) as Hw.
    rewrite Ew in Hw. destruct Hw as (_ & Hl & _).
    assert (N.of_nat (length (ev_entries evts')) <= ev_entries_cap events) as Hle.
    { rewrite Een. pose proof (omap_length (dispatch (sel_map (p_selector pl))) evs). lia. }
    by rewrite (proj2 (N.leb_le _ _) Hle). }
  cbn [loop_outcome poll2_loop]. rewrite E. cbn [mbind exec_bind].
  destruct b.
  - destruct (queue_cleanup_ok budget _ _ _ _ _ _ Hi Hb) as (w' & a & Ew' & Hd & Hle & Hi' & Hc).
    unfold on_queue. cbn [p_queue p_world with_selector]. rewrite Ew'. cbn [mbind exec_bind].
    eexists _, _, _, _. split; [reflexivity|]. split_and!; try done.
  - eexists _, _, _, _. split; [reflexivity|]. split_and!; try done. by rewrite <- Eb.
Qed.

Lemma poll2_loop_ok elapsed intr room i t k r k' n :
  kernel_answer elapsed intr room i t k r k' n →
  ∀ fuel budget pl events x st d refs,
    sel_kernel (p_selector pl) = k → ev_events_cap events = room → (n < fuel)%nat →
    room <= ev_entries_cap events →
    inv (p_world pl) (p_queue pl) x st d refs →
    (N.to_nat (pipe_len (q_awakener x)) < budget)%nat →
    loop_outcome pl r k' st d refs (q_awakener x) events
      (poll2_loop grow fuel budget elapsed i intr t events pl).
Proof.
  induction 1 as [i t ms k evs k' Et Ew|i t ms k e k' Et Ew Hne|i to ms k k' Et Ew -> Hd
    |i ms k k1 r k' n Et Ew -> _ IH|i to to' ms k k1 r k' n Et Ew -> Hd Es _ IH];
    intros fuel budget pl events x st d refs <- <- Hf Hcap Hi Hb;
    (destruct fuel as [|fuel]; [lia|]).
  - by eapply poll2_loop_events.
  - cbn [loop_outcome poll2_loop]. rewrite (select_error _ _ _ _ _ _ Et Ew). cbn [mbind exec_bind].
    assert (bool_decide (e = Interrupted) && negb intr = false) as ->.
    { destruct Hne as [Hne| ->]; [by rewrite bool_decide_eq_false_2|apply andb_false_r]. }
    by eexists _, _.
  - cbn [loop_outcome poll2_loop]. rewrite (select_error _ _ _ _ _ _ Et Ew). cbn [mbind exec_bind].
    rewrite bool_decide_eq_true_2 by done. cbn [negb andb]. rewrite Hd.
    eexists _, (p_world pl), x, _. split; [by destruct pl|]. split_and!; try done.
    unfold Events_len. cbn. lia.
  - pose proof (IH fuel budget (with_selector (with_kernel (p_selector pl) k1) pl)
      (Events_clear events) x st d refs eq_refl eq_refl ltac:(lia) Hcap Hi Hb) as HO.
    cbn [poll2_loop]. rewrite (select_error _ _ _ _ _ _ Et Ew). cbn [mbind exec_bind].
    rewrite bool_decide_eq_true_2 by done. cbn [negb andb]. exact HO.
  - pose proof (IH fuel budget (with_selector (with_kernel (p_selector pl) k1) pl)
      (Events_clear events) x st d refs eq_refl eq_refl ltac:(lia) Hcap Hi Hb) as HO.
    cbn [poll2_loop]. rewrite (select_error _ _ _ _ _ _ Et Ew). cbn [mbind exec_bind].
    rewrite bool_decide_eq_true_2 by done. cbn [negb andb]. rewrite Hd, Es. exact HO.
Qed.

(** The first part of [poll2]: the timeout of the wait. *)
Lemma prepare_ok pl x st d refs timeout :
  inv (p_world pl) (p_queue pl) x st d refs →
  ∃ pl' x' st',
    (if bool_decide (timeout = zero_timeout) then Done (timeout, pl)
     else
       on_queue (prepare_for_sleep (p_queue pl)) pl ≫= λ '(b, pl),
       Done (if b : bool then timeout else zero_timeout, pl))
      = Done (if decide (d = []) then timeout else zero_timeout, pl')
    ∧ p_selector pl' = p_selector pl ∧ p_queue pl' = p_queue pl
    ∧ inv (p_world pl') (p_queue pl) x' st' d refs
    ∧ contents (p_world pl') = contents (p_world pl) ∧ q_awakener x' = q_awakener x.
Proof.
  intros Hi. destruct (decide (timeout = zero_timeout)) as [Hz|Hz].
  - rewrite bool_decide_eq_true_2 by done. exists pl, x, st.
    split; [by destruct (decide (d = [])); rewrite ?Hz|]. by split_and!.
  - rewrite bool_decide_eq_false_2 by done.
    destruct (prepare_for_sleep_inv _ _ _ _ _ _ Hi)
      as (w' & x' & st' & E & Hi' & Hc & _ & Ha & _).
    unfold on_queue. rewrite E. cbn [mbind exec_bind].
    exists (with_world w' pl), x', st'. split; [|by split_and!].
    by destruct (decide (d = [])) as [->|Hd];
      [rewrite bool_decide_eq_true_2 by done|rewrite bool_decide_eq_false_2 by done].
Qed.

Lemma poll2_ok fuel elapsed intr timeout events pl x st d refs r k' n :
  inv (p_world pl) (p_queue pl) x st d refs →
  kernel_answer elapsed intr (ev_events_cap events) 0
    (if decide (d = []) then timeout else zero_timeout) (sel_kernel (p_selector pl)) r k' n →
  ev_events_cap events <= ev_entries_cap events →
  (n < fuel)%nat → (length d < fuel)%nat → (N.to_nat (pipe_len (q_awakener x)) < fuel)%nat →
  match r with
  | IoErr e => ∃ pl' events' x' st',
      poll2 null_job grow fuel elapsed intr timeout events pl = Done (IoErr e, pl', events')
      ∧ inv (p_world pl') (p_queue pl) x' st' d refs
      ∧ contents (p_world pl') = contents (p_world pl)
      ∧ sel_map (p_selector pl') = sel_map (p_selector pl)
  | IoOk evs => ∃ pl' events' x' st' polled rest, d = polled ++ rest ∧
      poll2 null_job grow fuel elapsed intr timeout events pl =
        Done (IoOk (Events_len events'), pl', events')
      ∧ ev_entries events' = omap (dispatch (sel_map (p_selector pl))) evs ++
          (report_entry <$> omap (reported (contents (p_world pl))) polled)
      ∧ (rest = [] ∨ Events_len events' = Events_capacity events)
      ∧ inv (p_world pl') (p_queue pl) x' st'
          (rest ++ filter (still (contents (p_world pl))) polled) refs
      ∧ registrations (sel_map (p_selector pl')) = registrations (sel_map (p_selector pl))
      ∧ sel_kernel (p_selector pl') = k'
      ∧ (existsb (is_notify (sel_map (p_selector pl))) evs = true → drained (q_awakener x'))
      ∧ polled_store null_job (contents (p_world pl)) polled (contents (p_world pl'))
      ∧ p_queue pl' = p_queue pl
      ∧ asleep st' (rest ++ filter (still (contents (p_world pl))) polled) = false
      ∧ pipe_len (q_awakener x') <= pipe_len (q_awakener x)
  end.
Proof.
  intros Hi Hk Hcap Hn Hd Hp.
  destruct (prepare_ok pl x st d refs timeout Hi) as (pl1 & x1 & st1 & E1 & Es & Eq & Hi1 & Hc1 & Ha1).
  unfold poll2. rewrite E1. cbn [mbind exec_bind]. rewrite <- Es, <- Eq in *.
  rewrite <- Ha1 in Hp.
  pose proof (poll2_loop_ok _ _ _ _ _ _ _ _ _ Hk fuel fuel pl1 events x1 st1 d refs
    eq_refl eq_refl Hn Hcap Hi1 Hp) as HO.
  destruct r as [evs|e]; cbn [loop_outcome] in HO.
  - destruct HO as (sel & w & x2 & events2 & E2 & Een & Hlen & Hcp & Ek & Er & Hi2 & Hc2 & Hdr & Hle).
    rewrite E2. cbn [mbind exec_bind].
    destruct (queue_poll_ok null_job grow fuel w (p_queue pl1) x2 st1 d refs events2 Hi2 Hd Hlen)
      as (dst & w' & x' & st' & pld & rest & Ed & E3 & Hi3 & Has3 & Een3 & Ecap3 & Hst3 & _ & Hend & _ & Ea3 & _).
    unfold on_queue. cbn [p_queue p_world]. rewrite E3. cbn [mbind exec_bind].
    rewrite Hc2, Hc1 in *. eexists _, dst, x', st', pld, rest. split; [exact Ed|].
    split; [reflexivity|]. split; [by rewrite Een3, Een|].
    split; [by rewrite <- Hcp|]. split; [exact Hi3|]. split; [exact Er|]. split; [exact Ek|].
    split; [by rewrite Ea3|]. split; [exact Hst3|]. split; [done|]. split; [exact Has3|by rewrite Ea3, <- Ha1].
  - destruct HO as (sel & events2 & E2 & Ek & Em). rewrite E2. cbn [mbind exec_bind].
    eexists _, events2, x1, st1. split; [reflexivity|]. by split_and!.
Qed.

(** C11 A poll as a whole: it waits with the timeout it was given only when the
    readiness queue is empty, and does not block otherwise; interrupted waits
    are repeated with the time left; an error of the kernel is returned and
    loses no queued node; and on success the events are those of the kernel,
    dispatched by descriptor, followed by those of the queue in order, until
    the queue is empty or the buffer is full, with the awakener emptied when it
    was what ended the wait; and then the queue does not take the thread for one
    that sleeps. *)
Theorem poll2_spec fuel elapsed intr timeout events pl x st d refs r k' n :
  inv (p_world pl) (p_queue pl) x st d refs →
  kernel_answer elapsed intr (ev_events_cap events) 0
    (if decide (d = []) then timeout else zero_timeout) (sel_kernel (p_selector pl)) r k' n →
  ev_events_cap events <= ev_entries_cap events →
  (n < fuel)%nat → (length d < fuel)%nat → (N.to_nat (pipe_len (q_awakener x)) < fuel)%nat →
  match r with
  | IoErr e => ∃ pl' events' x' st',
      poll2 null_job grow fuel elapsed intr timeout events pl = Done (IoErr e, pl', events')
      ∧ inv (p_world pl') (p_queue pl) x' st' d refs
      ∧ contents (p_world pl') = contents (p_world pl)
      ∧ sel_map (p_selector pl') = sel_map (p_selector pl)
  | IoOk evs => ∃ pl' events' x' st' polled rest, d = polled ++ rest ∧
      poll2 null_job grow fuel elapsed intr timeout events pl =
        Done (IoOk (Events_len events'), pl', events')
      ∧ ev_entries events' = omap (dispatch (sel_map (p_selector pl))) evs ++
          (report_entry <$> omap (reported (contents (p_world pl))) polled)
      ∧ (rest = [] ∨ Events_len events' = Events_capacity events)
      ∧ inv (p_world pl') (p_queue pl) x' st'
          (rest ++ filter (still (contents (p_world pl))) polled) refs
      ∧ registrations (sel_map (p_selector pl')) = registrations (sel_map (p_selector pl))
      ∧ sel_kernel (p_selector pl') = k'
      ∧ (existsb (is_notify (sel_map (p_selector pl))) evs = true → drained (q_awakener x'))
      ∧ asleep st' (rest ++ filter (still (contents (p_world pl))) polled) = false
  end.
Proof.
  intros Hi Hk Hcap Hn Hd Hp. pose proof (poll2_ok _ _ _ _ _ _ _ _ _ _ _ _ _ Hi Hk Hcap Hn Hd Hp) as H.
  destruct r as [evs|e]; [|exact H].
  destruct H as (pl' & events' & x' & st' & pld & rest & Ed & E & Een & Hend & Hi' & Er & Ek & Hdr & _ & _ & Has & _).
  by exists pl', events', x', st', pld, rest.
Qed.

Lemma poll_new_ok next_id create1 create (a : P) reader q e s c :
  e ≠ s → e ≠ c → s ≠ c → next_id < u64_max →
  (∀ epfd k, default create create1 = IoOk (epfd, k) → ep_data k = ∅) →
  ∃ r n', Poll_new (K:=K) null_job next_id create1 create (IoOk a) reader q e s c (mkWorld ∅ ∅)
            = Done (r, n') ∧
    match r with
    | IoOk pl =>
        n' = next_id + 1 ∧ sel_id (p_selector pl) = next_id + 1 ∧ p_queue pl = q
        ∧ coherent (p_selector pl)
        ∧ ep_data (sel_kernel (p_selector pl)) = {[reader := i32_as_u64 reader]}
        ∧ (∀ ev, ep_u64 ev = i32_as_u64 reader →
             is_notify (sel_map (p_selector pl)) ev = true
             ∧ dispatch (sel_map (p_selector pl)) ev = None)
        ∧ (size (w_nodes (p_world pl)) <= 3)%nat
        ∧ ∃ x, inv (p_world pl) q x SEnd [] (λ _, 0) ∧ q_awakener x = a
    | IoErr err =>
        default create create1 = IoErr err ∧ n' = next_id
        ∨ ∃ epfd k ev, default create create1 = IoOk (epfd, k)
            ∧ (epoll_ctl k EPOLL_CTL_ADD reader ev).1 = IoErr err
    end.
Proof.
  intros Hes Hec Hsc Hid Hfresh. unfold Poll_new, Selector_new.
  change (match create1 with Some r => r | None => create end) with (default create create1).
  destruct (default create create1) as [[epfd k]|err] eqn:Ec; cbn [mbind exec_bind];
    [|by eexists _, _; split; [reflexivity|left]].
  rewrite add64_ok by lia. cbn [mbind exec_bind].
  destruct (queue_new_ok null_job a q e s c Hes Hec Hsc) as (w & x & Ew & Hi & Ea & _ & _ & Hsz).
  rewrite Ew. cbn [mbind exec_bind]. specialize (Hfresh epfd k eq_refl).
  set (s0 := mkSelector (next_id + 1) epfd ∅ k).
  assert (coherent s0) as Hc0 by (intros fd u; cbn; by rewrite Hfresh).
  pose proof (fd_register_ok s0 reader (mkTokenEntry NotifyEvent (mkToken 0)) Ready.readable PollOpt.edge
    null_job Hc0) as Hr.
  destruct (register s0 reader _ _ _ _) as [[[]|err] s'] eqn:Er;
    (eexists _, _; split; [reflexivity|]).
  - destruct Hr as (Hc & Eid & Em & Hn & Ek & Erange). cbn [p_selector p_queue p_world].
    split; [apply N.mod_small; change (2 ^ word_bits) with (u64_max + 1); lia|].
    rewrite Eid, Em, Ek. cbn [sel_kernel sel_map sel_id s0].
    split; [done|]. split; [done|]. split; [exact Hc|]. rewrite Hfresh. split; [done|].
    split; [|split; [exact Hsz|by exists x]]. intros ev Ev. unfold is_notify, dispatch.
    by rewrite Ev, u64_as_i32_of_i32, lookup_insert_eq by done.
  - right. unfold register in Er. cbn [s0 with_map sel_kernel] in Er.
    destruct (epoll_ctl k EPOLL_CTL_ADD reader _) as [r k'] eqn:E. injection Er as -> _.
    eexists _, _, _. split; [done|]. by rewrite E.
Qed.

(** A new poll: on success its queue is empty and well formed, with the three
    markers as its nodes, its selector
    coherent with the reader of the awakener as its only descriptor, whose
    events are notifications and never reach the buffer; its identifier is one
    more than the counter was, so that polls are told apart.  An error of
    [epoll_create] or of registering the awakener is returned. *)
Theorem poll_new_spec next_id create1 create (a : P) reader q e s c :
  e ≠ s → e ≠ c → s ≠ c → next_id < u64_max →
  (∀ epfd k, default create create1 = IoOk (epfd, k) → ep_data k = ∅) →
  ∃ r n', Poll_new (K:=K) null_job next_id create1 create (IoOk a) reader q e s c (mkWorld ∅ ∅)
            = Done (r, n') ∧
    match r with
    | IoOk pl =>
        n' = next_id + 1 ∧ sel_id (p_selector pl) = next_id + 1 ∧ p_queue pl = q
        ∧ coherent (p_selector pl)
        ∧ ep_data (sel_kernel (p_selector pl)) = {[reader := i32_as_u64 reader]}
        ∧ (∀ ev, ep_u64 ev = i32_as_u64 reader →
             is_notify (sel_map (p_selector pl)) ev = true
             ∧ dispatch (sel_map (p_selector pl)) ev = None)
        ∧ (size (w_nodes (p_world pl)) <= 3)%nat
        ∧ ∃ x, inv (p_world pl) q x SEnd [] (λ _, 0) ∧ q_awakener x = a
    | IoErr err =>
        default create create1 = IoErr err ∧ n' = next_id
        ∨ ∃ epfd k ev, default create create1 = IoOk (epfd, k)
            ∧ (epoll_ctl k EPOLL_CTL_ADD reader ev).1 = IoErr err
    end.
Proof. exact (poll_new_ok next_id create1 create a reader q e s c). Qed.

End PollProps.

(** A poll whose queue holds the nodes 10 and 11 and whose kernel reports the
    descriptors 7, a socket, and 5, the awakener. *)
Module PollDemo.
Import QueueDemo.
Definition pl : Poll nat N ScriptEpoll.t := mkPoll SelectorDemo.sel 0 w4 unlocked.
Definition buffer : Events (J:=nat) := Events_with_capacity 16.
Definition evs : list epoll_event := [mkEpollEvent 1 7; mkEpollEvent 1 5].
Definition kernel' : ScriptEpoll.t := (epoll_wait (sel_kernel SelectorDemo.sel) 16 0).2.

Lemma answer : kernel_answer (λ _, from_millis 0) false 16 0 zero_timeout
  (sel_kernel SelectorDemo.sel) (IoOk evs) kernel' 0.
Proof. by apply (answer_events _ _ _ _ _ 0); vm_compute. Qed.

Lemma awakener_empty x d refs :
  inv w4 0 x SEnd d refs → (N.to_nat (pipe_len (q_awakener x)) < 3)%nat.
Proof.
  intros Hi. pose proof (lk_queue _ _ _ _ (qo_linked _ _ _ _ _ (iv_queue _ _ _ _ _ _ Hi))) as Hx.
  assert (q_awakener <$> w_queues w4 !! (0%N : qid) = Some 0) as E by by vm_compute.
  apply (f_equal (fmap q_awakener)) in Hx. apply Nat.ltb_lt. cbn [pipe_len CountPipe.laws].
  pose proof (eq_trans (eq_sym Hx) E) as [= ->]. by vm_compute.
Qed.
End PollDemo.
Import PollDemo.

Lemma poll2_spec_witness :
  ∃ x, inv (p_world pl) 0 x SEnd [10; 11] QueueDemo.refs2 ∧
  ∃ pl' events' x' st' polled rest, [10; 11] = polled ++ rest ∧
    poll2 0%nat SelectorDemo.grow 3 (λ _, from_millis 0) false None buffer pl =
      Done (IoOk (Events_len events'), pl', events')
    ∧ ev_entries events' = omap (dispatch (sel_map (p_selector pl))) evs ++
        (report_entry <$> omap (reported (contents (p_world pl))) polled)
    ∧ (rest = [] ∨ Events_len events' = Events_capacity buffer)
    ∧ inv (p_world pl') 0 x' st'
        (rest ++ filter (still (contents (p_world pl))) polled) QueueDemo.refs2
    ∧ registrations (sel_map (p_selector pl')) = registrations (sel_map (p_selector pl))
    ∧ sel_kernel (p_selector pl') = kernel'
    ∧ (existsb (is_notify (sel_map (p_selector pl))) evs = true → drained (q_awakener x'))
    ∧ asleep st' (rest ++ filter (still (contents (p_world pl))) polled) = false.
Proof.
  destruct QueueDemo.w4_inv as (x & Hi & _). exists x. split; [exact Hi|].
  apply (poll2_spec 0%nat SelectorDemo.grow 3 (λ _, from_millis 0) false None buffer pl x SEnd
    [10; 11] QueueDemo.refs2 (IoOk evs) kernel' 0 Hi answer);
    [by vm_compute|lia|cbn; lia|exact (awakener_empty x _ _ Hi)].
Defined.

Lemma poll_new_spec_witness :
  ∃ r n', Poll_new (K:=ScriptEpoll.t) 0%nat 3 None (IoOk (9%Z, ScriptEpoll.mk ∅ [])) (IoOk 0) 5 0 1 2 3
      (mkWorld ∅ ∅) = Done (r, n') ∧
    match r with
    | IoOk pl =>
        n' = 3 + 1 ∧ sel_id (p_selector pl) = 3 + 1 ∧ p_queue pl = 0
        ∧ coherent (p_selector pl)
        ∧ ep_data (sel_kernel (p_selector pl)) = {[5%Z := i32_as_u64 5]}
        ∧ (∀ ev, ep_u64 ev = i32_as_u64 5 →
             is_notify (sel_map (p_selector pl)) ev = true
             ∧ dispatch (sel_map (p_selector pl)) ev = None)
        ∧ (size (w_nodes (p_world pl)) <= 3)%nat
        ∧ ∃ x, inv (p_world pl) 0 x SEnd [] (λ _, 0) ∧ q_awakener x = 0
    | IoErr err =>
        default (IoOk (9%Z, ScriptEpoll.mk ∅ [])) None = IoErr err ∧ n' = 3
        ∨ ∃ epfd k ev, default (IoOk (9%Z, ScriptEpoll.mk ∅ [])) None = IoOk (epfd, k)
            ∧ (epoll_ctl k EPOLL_CTL_ADD 5 ev).1 = IoErr err
    end.
Proof.
  apply (poll_new_spec 0%nat 3 None (IoOk (9%Z, ScriptEpoll.mk ∅ [])) 0 5 0 1 2 3);
    [done..|by vm_compute|by intros epfd k [= <- <-]].
Defined.
