(* ===== verification/PollCalls.v ===== *)
(** * Calls of the poll under its lock

    [Poll::poll1] of [src/src/poll.rs]: what the steps of [PollLock] do around
    [poll2], for one thread, when the lock is free and when it is held. *)
From S2P Require Import Prelude EventSet ReadinessState Duration Awakener Selector.
From S2P Require Import ReadinessQueue Registration QueueInv QueueSpec RegistrationSpec.
From S2P Require Import HandleSpec QueueProps PollLock Poll PollProps.

Section Alone.
Context {J : Type} (null_job : J) (grow : N → N).
Context {P : Type} {PO : PipeOps P}.
Context {K : Type} {KO : EpollOps K}.
Implicit Types (pl : Poll J P K) (s : Shared) (events : Events (J:=J)).

(** A result on a poll whose lock is [s]. *)
Definition locked {A} s (r : A * Poll J P K) : A * Poll J P K := (r.1, with_lock s r.2).
Definition locked3 {A B} s (r : A * Poll J P K * B) : A * Poll J P K * B := (locked s r.1, r.2).

Lemma on_queue_lock {A} (m : stm (World (J:=J) (P:=P)) A) s pl :
  on_queue m (with_lock s pl) = locked s <$> on_queue m pl.
Proof. unfold on_queue. cbn. by destruct (m (p_world pl)) as [[a w]| |]. Qed.

Lemma poll2_loop_lock s fuel budget elapsed intr : ∀ i timeout events pl,
  poll2_loop grow fuel budget elapsed i intr timeout events (with_lock s pl) =
    locked3 s <$> poll2_loop grow fuel budget elapsed i intr timeout events pl.
Proof.
  induction fuel as [|fuel IH]; intros i timeout events pl; [done|]. cbn [poll2_loop].
  change (p_selector (with_lock s pl)) with (p_selector pl).
  destruct (select grow (p_selector pl) events timeout) as [[[res sel] evs]| |]; [|done..].
  cbn [mbind exec_bind]. change (with_selector sel (with_lock s pl)) with (with_lock s (with_selector sel pl)).
  destruct res as [[]|e]; [|done|].
  - rewrite on_queue_lock. cbn [p_queue with_lock].
    by destruct (on_queue _ (with_selector sel pl)) as [[[] pl1]| |].
  - destruct (_ && _); [|done]. destruct timeout as [to|]; [|apply IH].
    destruct (duration_geb _ _); [done|]. destruct (duration_sub _ _); [apply IH|done..].
Qed.

Lemma poll2_lock s fuel elapsed intr timeout events pl :
  poll2 null_job grow fuel elapsed intr timeout events (with_lock s pl) =
    locked3 s <$> poll2 null_job grow fuel elapsed intr timeout events pl.
Proof.
  unfold poll2. change (p_queue (with_lock s pl)) with (p_queue pl). rewrite on_queue_lock.
  set (a := if bool_decide _ then Done (timeout, with_lock s pl) else _).
  set (b := if bool_decide _ then Done (timeout, pl) else _).
  assert (a = locked s <$> b) as ->.
  { subst a b. destruct (bool_decide _); [done|]. by destruct (on_queue _ pl) as [[[] pl1]| |]. }
  destruct b as [[to pl1]| |]; [|done..]. cbn [fmap exec_fmap locked fst snd mbind exec_bind].
  rewrite poll2_loop_lock. destruct (poll2_loop _ _ _ _ _ _ _ _ pl1) as [[[[[]|e] pl2] ev2]| |]; [|done..].
  cbn [fmap exec_fmap locked3 locked fst snd mbind exec_bind]. rewrite on_queue_lock.
  change (p_queue (with_lock s pl2)) with (p_queue pl2).
  by destruct (on_queue _ pl2) as [[ev3 pl3]| |].
Qed.

(** [poll2] leaves the lock alone. *)
Lemma poll2_keeps_lock fuel elapsed intr timeout events pl r pl' events' :
  poll2 null_job grow fuel elapsed intr timeout events pl = Done (r, pl', events') → p_lock pl' = p_lock pl.
Proof.
  intros E. assert (with_lock (p_lock pl) pl = pl) as Epl by (by destruct pl).
  pose proof (poll2_lock (p_lock pl) fuel elapsed intr timeout events pl) as H.
  rewrite Epl, E in H. cbn in H. injection H as H. by rewrite H.
Qed.

(** The steps of a thread outside [poll2]. *)
Definition moves (l : pc) : bool :=
  match l with Idle | Notify | Polling _ => false | _ => true end.

Lemma poll1_move steps i fuel elapsed intr l ret events pl l' s :
  moves l = true → thread_step i (p_lock pl) l = Done (Some (l', s)) →
  poll1_steps null_job grow (S steps) i fuel elapsed intr l ret events pl =
    poll1_steps null_job grow steps i fuel elapsed intr l' ret events (with_lock s pl).
Proof. intros Hm E. destruct l; try discriminate Hm; cbn [poll1_steps]; cbn [mbind exec_bind]; by rewrite E. Qed.

Lemma poll1_polling steps i fuel elapsed intr timeout ret events pl :
  poll1_steps null_job grow (S steps) i fuel elapsed intr (Polling timeout) ret events pl =
    poll2 null_job grow fuel elapsed intr timeout events pl ≫= λ '(ret, pl, events),
    thread_step i (p_lock pl) (Polling timeout) ≫= λ o,
    match o with
    | Some (l, s) => poll1_steps null_job grow steps i fuel elapsed intr l ret events (with_lock s pl)
    | None => NoFuel
    end.
Proof. reflexivity. Qed.

Lemma poll1_idle steps i fuel elapsed intr ret events pl :
  poll1_steps null_job grow (S steps) i fuel elapsed intr Idle ret events pl = Done (ret, pl, events).
Proof. reflexivity. Qed.

(** A thread that finds the lock free. *)
Lemma poll1_free fuel elapsed timeout intr events pl :
  p_lock pl = unlocked →
  poll1 null_job grow fuel elapsed timeout intr events pl =
    poll2 null_job grow fuel elapsed intr timeout events pl.
Proof.
  intros Hl. unfold poll1. rewrite (poll1_move _ _ _ _ _ _ _ _ _ (Polling timeout) (mkShared 1 None));
    [|done|by rewrite Hl].
  rewrite poll1_polling, poll2_lock. destruct (poll2 _ _ _ _ _ _ _ pl) as [[[r pl'] ev']| |] eqn:E; [|done..].
  pose proof (poll2_keeps_lock _ _ _ _ _ _ _ _ _ E) as Hk. rewrite Hl in Hk.
  cbn [fmap exec_fmap locked3 locked fst snd mbind exec_bind].
  change (thread_step 0 (p_lock (with_lock (mkShared 1 None) pl')) (Polling timeout))
    with (Done (Some (Idle, unlocked))). cbn [mbind exec_bind].
  rewrite poll1_idle. destruct pl'. cbn in Hk. by rewrite Hk.
Qed.

(** A thread that finds another one in [poll2] and does not want to wait. *)
Lemma poll1_busy fuel elapsed intr events pl w :
  p_lock pl = mkShared w None → N.land w 1 ≠ 0 →
  poll1 null_job grow fuel elapsed zero intr events pl = Done (IoOk 0, pl, events).
Proof.
  intros Hl Hw. assert (w ≠ 0) as H0 by (by intros ->). unfold poll1.
  rewrite (poll1_move _ _ _ _ _ _ _ _ _ (Locking w zero) (mkShared w None)); [|done|].
  2:{ rewrite Hl. cbn [thread_step]. unfold cas_lock. cbn [lock_state]. rewrite (proj2 (N.eqb_neq w 0) H0).
      by rewrite (proj2 (N.eqb_neq 0 w)). }
  rewrite (poll1_move _ _ _ _ _ _ _ _ _ (Loop w false zero) (mkShared w (Some 0%nat))); [|done..].
  rewrite (poll1_move _ _ _ _ _ _ _ _ _ Quitting (mkShared w (Some 0%nat))); [|done|].
  2:{ cbn [thread_step p_lock with_lock]. unfold loop_step. rewrite (proj2 (N.eqb_neq _ _) Hw).
      by rewrite bool_decide_eq_true_2. }
  rewrite (poll1_move _ _ _ _ _ _ _ _ _ Idle (mkShared w None)); [|done..].
  rewrite poll1_idle. destruct pl. cbn in Hl. by rewrite Hl.
Qed.
End Alone.
