(* ===== verification/Evented.v ===== *)
(** * Handles that a poll can watch

    The trait [Evented] of [src/src/event_imp.rs] as a class, and its
    implementations: descriptors ([eventedfd.rs], [io.rs], [awakener.rs]), sockets
    ([sys/unix/tcp.rs], [net/tcp.rs]), registrations ([poll.rs]) and timers
    ([timer.rs]).  [EventedLaws] is what an event loop relies on. *)
From S2P Require Import Prelude EventSet ReadinessState Duration LazyCell Awakener Selector.
From S2P Require Import ReadinessQueue Registration QueueInv QueueSpec RegistrationSpec.
From S2P Require Import HandleSpec QueueProps Interfaces Timer DList TimerInv TimerSpec.
From S2P Require Import TimerProps PollReadiness Poll PollProps.

(** [Box<T>] and [Arc<T>]. *)
Record Boxed (E : Type) := mkBox { as_ref : E }.
Arguments mkBox {E} _.
Arguments as_ref {E} _.

Section Evented.
Context {J : Type} (null_job : J) (verbose : bool).
Context {P : Type} {PO : PipeOps P}.
Context {K : Type} {KO : EpollOps K}.
#[local] Abbreviation Poll := (Poll J P K).
Implicit Types (pl : Poll) (tok : TokenEntry) (r : Ready) (o : PollOpt) (j : J).

Class Evented (E : Type) := {
  ev_register : E → Poll → TokenEntry → Ready → PollOpt → J → exec (io_result unit * E * Poll);
  ev_reregister : E → Poll → TokenEntry → Ready → PollOpt → exec (io_result unit * E * Poll);
  ev_deregister : E → Poll → exec (io_result unit * E * Poll);
}.

(** [Poll::register], [Poll::reregister] and [Poll::deregister]. *)
Definition poll_register {E} `{Evented E} pl (handle : E) tok r o j :=
  ev_register handle pl tok r o j.
Definition poll_reregister {E} `{Evented E} pl (handle : E) tok r o :=
  ev_reregister handle pl tok r o.
Definition poll_deregister {E} `{Evented E} pl (handle : E) := ev_deregister handle pl.

(** ** Descriptors *)

Record EventedFd := mkEventedFd { raw_fd : Z }.

#[global] Instance EventedFd_evented : Evented EventedFd := {|
  ev_register := λ h pl tok r o j,
    let '(res, sel) := EventedFd_register (p_selector pl) (raw_fd h) tok r o j in
    Done (res, h, with_selector sel pl);
  ev_reregister := λ h pl tok r o,
    let '(res, sel) := EventedFd_reregister (p_selector pl) (raw_fd h) tok r o in
    Done (res, h, with_selector sel pl);
  ev_deregister := λ h pl,
    EventedFd_deregister verbose (p_selector pl) (raw_fd h) ≫= λ '(res, sel),
    Done (res, h, with_selector sel pl);
|}.

(** A type that has a descriptor and forwards to it. *)
Definition forward {E} (as_raw_fd : E → Z) : Evented E := {|
  ev_register := λ h pl tok r o j,
    ev_register (mkEventedFd (as_raw_fd h)) pl tok r o j ≫= λ '(res, _, pl), Done (res, h, pl);
  ev_reregister := λ h pl tok r o,
    ev_reregister (mkEventedFd (as_raw_fd h)) pl tok r o ≫= λ '(res, _, pl), Done (res, h, pl);
  ev_deregister := λ h pl,
    ev_deregister (mkEventedFd (as_raw_fd h)) pl ≫= λ '(res, _, pl), Done (res, h, pl);
|}.

Record Io := mkIo { io_fd : Z }.
#[global] Instance Io_evented : Evented Io := forward io_fd.

(** The two ends of the pipe of [awakener.rs]; the poll watches the reading one. *)
Record Awakener := mkAwakener { awk_reader : Io; awk_writer : Io }.
#[global] Instance Awakener_evented : Evented Awakener := forward (λ h, io_fd (awk_reader h)).

Record SysTcpStream := mkSysStream { stream_inner : Z }.
#[global] Instance SysTcpStream_evented : Evented SysTcpStream := forward stream_inner.

Record SysTcpListener := mkSysListener { listener_inner : Z }.
#[global] Instance SysTcpListener_evented : Evented SysTcpListener := forward listener_inner.

(** ** Boxes and shared pointers forward to their content *)

#[global] Instance Boxed_evented {E} `{Evented E} : Evented (Boxed E) := {|
  ev_register := λ h pl tok r o j,
    ev_register (as_ref h) pl tok r o j ≫= λ '(res, h, pl), Done (res, mkBox h, pl);
  ev_reregister := λ h pl tok r o,
    ev_reregister (as_ref h) pl tok r o ≫= λ '(res, h, pl), Done (res, mkBox h, pl);
  ev_deregister := λ h pl,
    ev_deregister (as_ref h) pl ≫= λ '(res, h, pl), Done (res, mkBox h, pl);
|}.

(** ** Sockets, bound to one poll *)

Record SelectorId := mkSelectorId { sid_id : N }.

Definition SelectorId_new : SelectorId := mkSelectorId 0.
Definition SelectorId_clone (s : SelectorId) : SelectorId := mkSelectorId (sid_id s).

Definition associate_selector (s : SelectorId) pl : io_result unit * SelectorId :=
  let selector_id := sid_id s in
  if negb (selector_id =? 0) && negb (selector_id =? sel_id (p_selector pl))
  then (IoErr (OtherError 0), s)
  else (IoOk (), mkSelectorId (sel_id (p_selector pl))).

(** The implementations of [Evented] for a socket of [net/tcp.rs], which has a
    socket of the system and a [SelectorId]. *)
Definition bound {S E} `{Evented S} (sys : E → S) (selector_id : E → SelectorId)
    (make : S → SelectorId → E) : Evented E := {|
  ev_register := λ h pl tok r o j,
    match associate_selector (selector_id h) pl with
    | (IoErr e, sid) => Done (IoErr e, make (sys h) sid, pl)
    | (IoOk _, sid) =>
        ev_register (sys h) pl tok r o j ≫= λ '(res, s, pl), Done (res, make s sid, pl)
    end;
  ev_reregister := λ h pl tok r o,
    ev_reregister (sys h) pl tok r o ≫= λ '(res, s, pl), Done (res, make s (selector_id h), pl);
  ev_deregister := λ h pl,
    ev_deregister (sys h) pl ≫= λ '(res, s, pl), Done (res, make s (selector_id h), pl);
|}.

Record TcpStream := mkTcpStream { stream_sys : SysTcpStream; stream_selector_id : SelectorId }.
#[global] Instance TcpStream_evented : Evented TcpStream :=
  bound stream_sys stream_selector_id mkTcpStream.

Record TcpListener := mkTcpListener {
  listener_sys : SysTcpListener;
  listener_selector_id : SelectorId;
}.
#[global] Instance TcpListener_evented : Evented TcpListener :=
  bound listener_sys listener_selector_id mkTcpListener.

(** ** Registrations *)

Record EventedRegistration := mkRegistration { reg_node : ptr }.

#[global] Instance Registration_evented : Evented EventedRegistration := {|
  ev_register := λ h pl tok r o j,
    on_queue (evented_register (reg_node h) (p_queue pl) tok r o j) pl ≫= λ '(res, pl),
    Done (res, h, pl);
  ev_reregister := λ h pl tok r o,
    on_queue (evented_reregister null_job (reg_node h) (p_queue pl) tok r o) pl ≫= λ '(res, pl),
    Done (res, h, pl);
  ev_deregister := λ h pl,
    on_queue (evented_deregister null_job (reg_node h) (p_queue pl)) pl ≫= λ '(res, pl),
    Done (res, h, pl);
|}.

(** ** Timers *)

Context {slab : Type → Type} {SO : SlabOps slab} {T : Type}.
#[local] Abbreviation Timer := (Timer slab ptr T).

(** A timer ignores the job: the event loop runs its timeouts itself. *)
#[global] Instance Timer_evented : Evented Timer := {|
  ev_register := λ t pl tok r o _,
    @Timer.register slab SO _ _ (poll_ops null_job (p_queue pl)) T t (p_world pl) tok r o
      ≫= λ '(res, t, w), Done (res, t, with_world w pl);
  ev_reregister := λ t pl tok r o,
    @Timer.reregister slab _ _ (poll_ops null_job (p_queue pl)) T t (p_world pl) tok r o
      ≫= λ '(res, w), Done (res, t, with_world w pl);
  ev_deregister := λ t pl,
    @Timer.deregister slab _ _ (poll_ops null_job (p_queue pl)) T t (p_world pl)
      ≫= λ '(res, w), Done (res, t, with_world w pl);
|}.
End Evented.
Arguments Evented J P K E : clear implicits.
