(* ===== verification/Tcp.v ===== *)
(** * TCP sockets

    [src/src/net/tcp.rs] over [src/src/sys/unix/tcp.rs]: how sockets come to
    be, by connecting, listening, accepting and cloning.  The sockets
    themselves are those of the standard library and of the crate [net2]:
    [NetOps] is what the code calls of them, [NetLaws] what these calls do to
    the table of descriptors.  The methods of a socket are in [Socket]. *)
From S2P Require Import Prelude Duration Sys EventSet ReadinessState LazyCell Awakener Selector.
From S2P Require Import ReadinessQueue Registration Interfaces Timer PollReadiness Poll Evented.

(** [SocketAddr]: the address and the port, and for version 6 the flow and the
    scope. *)
Inductive SocketAddr : Set :=
  | V4 (ip port : N)
  | V6 (ip port flowinfo scope_id : N).

Definition is_v6 (a : SocketAddr) : bool := match a with V4 _ _ => false | V6 _ _ _ _ => true end.

Definition inaddr_any (other : SocketAddr) : SocketAddr :=
  match other with V4 _ _ => V4 0 0 | V6 _ _ _ _ => V6 0 0 0 0 end.

Definition EINPROGRESS : N := 115.

Class NetOps (W : Type) := {
  (** [TcpBuilder]: a new socket, its conversion into a stream, its options,
      [bind] and [listen]. *)
  tcp_builder : bool → io W Z;
  to_tcp_stream : Z → io W Z;
  reuse_address : Z → bool → io W unit;
  reuse_port : Z → bool → io W unit;
  net_bind : Z → SocketAddr → io W unit;
  net_listen : Z → Z → io W Z;
  net_connect : Z → SocketAddr → io W unit;
  net_accept : Z → io W (Z * SocketAddr);
  net_try_clone : Z → io W Z;
}.

Class NetLaws (W : Type) `{LibcLaws W} `{NetOps W} := {
  builder_law : ∀ v6 w, wp (tcp_builder v6) w
    (λ fd w', open_fds w !! fd = None ∧ ∃ c, open_fds w' = <[fd := mkFlags c false]> (open_fds w))
    (λ w', open_fds w' = open_fds w);
  to_stream_law : ∀ fd w, wp (to_tcp_stream fd) w
    (λ fd' w', fd' = fd ∧ open_fds w' = open_fds w) (λ w', open_fds w' = open_fds w);
  listen_law : ∀ fd n w, wp (net_listen fd n) w
    (λ fd' w', fd' = fd ∧ open_fds w' = open_fds w) (λ w', open_fds w' = open_fds w);
  reuse_address_law : ∀ fd b w, open_fds (reuse_address fd b w).2 = open_fds w;
  reuse_port_law : ∀ fd b w, open_fds (reuse_port fd b w).2 = open_fds w;
  bind_law : ∀ fd a w, open_fds (net_bind fd a w).2 = open_fds w;
  connect_law : ∀ fd a w, open_fds (net_connect fd a w).2 = open_fds w;
  accept_law : ∀ fd w, wp (net_accept fd) w
    (λ '(s, _) w', open_fds w !! s = None ∧ ∃ c, open_fds w' = <[s := mkFlags c false]> (open_fds w))
    (λ w', open_fds w' = open_fds w);
}.

Section Tcp.
Context {W : Type} {LO : LibcOps W} {NO : NetOps W}.

(** ** [sys/unix/tcp.rs] *)

(** A connection in progress is a success. *)
Definition connect_or_progress (stream : Z) (addr : SocketAddr) : io W unit := λ w,
  match net_connect stream addr w with
  | (IoOk _, w) => (IoOk (), w)
  | (IoErr (OtherError e), w) =>
      if e =? EINPROGRESS then (IoOk (), w) else (IoErr (OtherError e), w)
  | (IoErr e, w) => (IoErr e, w)
  end.

Definition SysTcpStream_connect (stream : Z) (addr : SocketAddr) : io W SysTcpStream :=
  holding [stream] (
    set_nonblock stream ≫= λ _,
    connect_or_progress stream addr ≫= λ _,
    mret (mkSysStream stream)).

Definition SysTcpStream_from_stream (stream : Z) : SysTcpStream := mkSysStream stream.

Definition SysTcpListener_new (inner : Z) : io W SysTcpListener :=
  holding [inner] (set_nonblock inner) ≫= λ _, mret (mkSysListener inner).

Definition SysTcpListener_accept (l : SysTcpListener) : io W (Z * SocketAddr) :=
  net_accept (listener_inner l).

(** ** [net/tcp.rs] *)

Definition connect_stream (stream : Z) (addr : SocketAddr) : io W TcpStream :=
  holding [stream] (set_nonblock stream) ≫= λ _,
  SysTcpStream_connect stream addr ≫= λ sys,
  mret (mkTcpStream sys SelectorId_new).

Definition connect (addr : SocketAddr) : io W TcpStream :=
  tcp_builder (is_v6 addr) ≫= λ sock,
  holding [sock] (to_tcp_stream sock) ≫= λ stream,
  connect_stream stream addr.

Definition from_stream (stream : Z) : io W TcpStream :=
  holding [stream] (set_nonblock stream) ≫= λ _,
  mret (mkTcpStream (SysTcpStream_from_stream stream) SelectorId_new).

Definition from_std (listener : Z) : io W TcpListener :=
  SysTcpListener_new listener ≫= λ s, mret (mkTcpListener s SelectorId_new).

Definition TcpListener_bind (addr : SocketAddr) : io W TcpListener :=
  tcp_builder (is_v6 addr) ≫= λ sock,
  holding [sock] (
    reuse_address sock true ≫= λ _,
    reuse_port sock true ≫= λ _,
    net_bind sock addr ≫= λ _,
    net_listen sock 1024) ≫= λ listener,
  SysTcpListener_new listener ≫= λ s,
  mret (mkTcpListener s SelectorId_new).

(** [TcpListener::new] unwraps. *)
Definition TcpListener_new (addr : SocketAddr) (w : W) : exec (TcpListener * W) :=
  match TcpListener_bind addr w with
  | (IoOk l, w) => Done (l, w)
  | (IoErr _, _) => Panic PUnwrap
  end.

Definition accept_std (l : TcpListener) : io W (Z * SocketAddr) :=
  SysTcpListener_accept (listener_sys l).

Definition accept (l : TcpListener) : io W (TcpStream * SocketAddr) :=
  accept_std l ≫= λ '(s, a),
  from_stream s ≫= λ s, mret (s, a).

(** ** Properties *)
Context {LL : LibcLaws W} {NL : NetLaws W}.

(** A socket that came to be is non-blocking, and the only new descriptor; a
    call that fails leaves none. *)
Definition adds_socket (t : gmap Z FdFlags) (fd : Z) (w' : W) : Prop :=
  t !! fd = None ∧ ∃ c, open_fds w' = <[fd := mkFlags c true]> t.

(** [set_nonblock] of a new socket. *)
Lemma set_nonblock_new (t : gmap Z FdFlags) fd c b w :
  t !! fd = None → open_fds w = <[fd := mkFlags c b]> t →
  wp (holding [fd] (set_nonblock fd)) w
    (λ _ w', open_fds w' = <[fd := mkFlags c true]> t) (λ w', open_fds w' = t).
Proof using LL.
  intros Hn Hw. apply wp_holding. eapply wp_mono; [apply set_nonblock_ok|..].
  - cbn. intros _ w' (f & Hf & E). rewrite Hw in Hf, E. rewrite lookup_insert_eq in Hf.
    injection Hf as <-. by rewrite insert_insert_eq in E.
  - cbn. intros w' E. by rewrite close_law, E, Hw, delete_insert_id.
Qed.

Lemma from_stream_ok (t : gmap Z FdFlags) fd c w :
  t !! fd = None → open_fds w = <[fd := mkFlags c false]> t →
  wp (from_stream fd) w
    (λ s w', stream_inner (stream_sys s) = fd ∧ stream_selector_id s = SelectorId_new ∧
       adds_socket t fd w') (λ w', open_fds w' = t).
Proof using LL.
  intros Hn Hw. unfold from_stream. apply wp_bind.
  eapply wp_mono; [by eapply set_nonblock_new|cbv beta|done]. intros _ w' E. apply wp_ret.
  split; [done|]. split; [done|]. split; [done|]. by exists c.
Qed.

Lemma accept_ok l w :
  wp (accept l) w
    (λ '(s, _) w', stream_selector_id s = SelectorId_new ∧
       adds_socket (open_fds w) (stream_inner (stream_sys s)) w')
    (λ w', open_fds w' = open_fds w).
Proof using LL NL.
  unfold accept. apply wp_bind. eapply wp_mono; [apply accept_law|cbv beta|done].
  intros [fd a] w1 [Hn [c E]]. apply wp_bind. eapply wp_mono; [exact (from_stream_ok _ fd c w1 Hn E)|cbv beta|done].
  intros s w2 (Hi & Hs & Ha). apply wp_ret. by rewrite Hi.
Qed.

Lemma sys_connect_ok (t : gmap Z FdFlags) fd c b addr w :
  t !! fd = None → open_fds w = <[fd := mkFlags c b]> t →
  wp (SysTcpStream_connect fd addr) w
    (λ s w', s = mkSysStream fd ∧ open_fds w' = <[fd := mkFlags c true]> t) (λ w', open_fds w' = t).
Proof using LL NL.
  intros Hn Hw. unfold SysTcpStream_connect. apply wp_holding, wp_bind.
  eapply wp_mono; [apply set_nonblock_ok|..]; cbv beta.
  - intros _ w1 (f & Hf & E). rewrite Hw in Hf, E. rewrite lookup_insert_eq in Hf. injection Hf as <-.
    rewrite insert_insert_eq in E. pose proof (connect_law fd addr w1) as Hc.
    apply wp_bind. unfold wp at 1, connect_or_progress. destruct (net_connect fd addr w1) as [[[]|e] w2]; cbn in Hc.
    + apply wp_ret. by rewrite Hc, E.
    + assert (open_fds (close_fd fd w2) = t) as Hcl
        by (by rewrite close_law, Hc, E, delete_insert_id).
      destruct e as [| |e]; [done|done|]. destruct (e =? EINPROGRESS); [apply wp_ret; by rewrite Hc, E|done].
  - intros w1 E. cbn [foldl]. by rewrite close_law, E, Hw, delete_insert_id.
Qed.

Lemma connect_ok addr w :
  wp (connect addr) w
    (λ s w', stream_selector_id s = SelectorId_new ∧
       adds_socket (open_fds w) (stream_inner (stream_sys s)) w')
    (λ w', open_fds w' = open_fds w).
Proof using LL NL.
  unfold connect. apply wp_bind. eapply wp_mono; [apply builder_law|cbv beta|done].
  intros fd w1 [Hn [c E]]. apply wp_bind, wp_holding. eapply wp_mono; [apply to_stream_law|..]; cbv beta.
  - intros fd' w2 [-> E2]. rewrite E in E2. unfold connect_stream. apply wp_bind.
    eapply wp_mono; [by eapply set_nonblock_new|cbv beta|done]. intros _ w3 E3. apply wp_bind.
    eapply wp_mono; [by eapply sys_connect_ok|cbv beta|done]. intros s w4 [-> E4]. apply wp_ret.
    split; [done|]. split; [done|]. by exists c.
  - intros w2 E2. cbn [foldl]. by rewrite close_law, E2, E, delete_insert_id.
Qed.

(** The options and [bind] do not touch the table. *)
Lemma wp_keeps {A} (m : io W A) w : open_fds (m w).2 = open_fds w →
  wp m w (λ _ w', open_fds w' = open_fds w) (λ w', open_fds w' = open_fds w).
Proof. unfold wp. by destruct (m w) as [[a|e] w']. Qed.

Lemma listener_bind_ok addr w :
  wp (TcpListener_bind addr) w
    (λ l w', listener_selector_id l = SelectorId_new ∧
       adds_socket (open_fds w) (listener_inner (listener_sys l)) w')
    (λ w', open_fds w' = open_fds w).
Proof using LL NL.
  unfold TcpListener_bind. apply wp_bind. eapply wp_mono; [apply builder_law|cbv beta|done].
  intros fd w1 [Hn [c E]]. apply wp_bind, wp_holding.
  assert (∀ w', open_fds w' = open_fds w1 →
    open_fds (foldl (λ w fd, close_fd fd w) w' [fd]) = open_fds w) as Hclose.
  { intros w' E'. cbn. by rewrite close_law, E', E, delete_insert_id. }
  apply wp_bind. eapply wp_mono; [apply wp_keeps, reuse_address_law|cbv beta|exact Hclose].
  intros _ w2 E2. apply wp_bind. rewrite <- E2 in Hclose.
  eapply wp_mono; [apply wp_keeps, reuse_port_law|cbv beta|exact Hclose].
  intros _ w3 E3. rewrite <- E3 in Hclose. apply wp_bind.
  eapply wp_mono; [apply wp_keeps, bind_law|cbv beta|exact Hclose].
  intros _ w4 E4. rewrite <- E4 in Hclose.
  eapply wp_mono; [apply listen_law|cbv beta|exact Hclose]. intros fd' w5 [-> E5].
  assert (open_fds w5 = <[fd := mkFlags c false]> (open_fds w)) as E6 by congruence.
  apply wp_bind. unfold SysTcpListener_new. apply wp_bind.
  eapply wp_mono; [by eapply set_nonblock_new|cbv beta|done]. intros _ w6 E7. apply wp_ret, wp_ret.
  split; [done|]. split; [done|]. by exists c.
Qed.
End Tcp.

(** ** Sockets over a table of descriptors *)

Module TableNet.
Import TableLibc.

(** A new descriptor. *)
Definition new_fd (w : t) : Z * t :=
  let a := fresh (dom (fds w)) in (a, mk (<[a := mkFlags true false]> (fds w)) (has_pipe2 w)).

#[global] Instance ops : NetOps t := {|
  tcp_builder := λ _, sys_call new_fd;
  to_tcp_stream := λ fd, mret fd;
  reuse_address := λ _ _, mret ();
  reuse_port := λ _ _, mret ();
  net_bind := λ _ _, mret ();
  net_listen := λ fd _, mret fd;
  net_connect := λ _ _ w, (IoErr (OtherError EINPROGRESS), w);
  net_accept := λ _, sys_call new_fd ≫= λ fd, mret (fd, V4 0 0);
  net_try_clone := λ _, sys_call new_fd;
|}.

#[global] Instance laws : NetLaws t.
Proof.
  split; try done.
  - intros v6 w. unfold wp. cbn. split; [|by exists true].
    apply not_elem_of_dom, is_fresh.
  - intros fd w. unfold wp. cbn. split; [|by exists true].
    apply not_elem_of_dom, is_fresh.
Qed.
End TableNet.

(** C37 a socket that connects (or is on its way to), listens or was accepted is
    a new non-blocking descriptor that no poll watches yet; when any of the calls
    on the way fails, no descriptor is left open. *)
Theorem sockets_spec {W} `{NetLaws W} (addr : SocketAddr) (l : TcpListener) (w : W) :
  wp (connect addr) w
    (λ s w', stream_selector_id s = SelectorId_new ∧
       adds_socket (open_fds w) (stream_inner (stream_sys s)) w')
    (λ w', open_fds w' = open_fds w) ∧
  wp (TcpListener_bind addr) w
    (λ l w', listener_selector_id l = SelectorId_new ∧
       adds_socket (open_fds w) (listener_inner (listener_sys l)) w')
    (λ w', open_fds w' = open_fds w) ∧
  wp (accept l) w
    (λ '(s, _) w', stream_selector_id s = SelectorId_new ∧
       adds_socket (open_fds w) (stream_inner (stream_sys s)) w')
    (λ w', open_fds w' = open_fds w).
Proof. split_and!; [apply connect_ok|apply listener_bind_ok|apply accept_ok]. Qed.

Lemma sockets_spec_witness :
  wp (connect (V4 0 80)) (TableLibc.mk ∅ true)
    (λ s w', stream_selector_id s = SelectorId_new ∧
       adds_socket ∅ (stream_inner (stream_sys s)) w')
    (λ w', TableLibc.fds w' = ∅).
Proof.
  exact (proj1 (sockets_spec (V4 0 80) (mkTcpListener (mkSysListener 0) SelectorId_new)
    (TableLibc.mk ∅ true))).
Defined.
