(* ===== verification/Socket.v ===== *)
(** * The methods of a socket

    [src/src/net/tcp.rs], [src/src/sys/unix/tcp.rs] and the descriptors of
    [src/src/sys/unix/io.rs]: the options, the addresses, the reads and writes
    and the raw descriptors of a socket.  A method of [net/tcp.rs] calls the one
    of [sys/unix/tcp.rs], which calls the standard library or the crate [net2]:
    [SocketLib] and [SocketOps] are what the code calls there.  The theorems are
    in [SocketProps]. *)
From Stdlib Require Import Strings.Byte.
From S2P Require Import Prelude Duration Sys EventSet ReadinessState LazyCell Awakener Selector.
From S2P Require Import ReadinessQueue Registration Interfaces Timer PollReadiness Poll Evented Tcp Net.

(** ** What the standard library offers *)

(** The options, with the type of their value. *)
Inductive SockOpt : Type → Type :=
  | Nodelay : SockOpt bool
  | RecvBufferSize : SockOpt N
  | SendBufferSize : SockOpt N
  | Keepalive : SockOpt (option Duration)
  | Ttl : SockOpt N
  | OnlyV6 : SockOpt bool.

(** Reads and writes of a socket. *)
Class SocketOps (V : Type) := {
  sock_read : Z → N → V → io_result (list byte) * V;
  sock_write : Z → list byte → V → io_result N * V;
  sock_shutdown : Z → Shutdown → V → io_result unit * V;
}.

Class SocketLib (V : Type) := {
  std_set : ∀ {A}, SockOpt A → Z → A → io V unit;
  std_get : ∀ {A}, SockOpt A → Z → io V A;
  std_peer_addr : Z → io V SocketAddr;
  std_local_addr : Z → io V SocketAddr;
  std_take_error : Z → io V (option io_error);
  std_peek : Z → N → io V (list byte);
  (** [File]: its copy, its reads, writes and flushes. *)
  file_try_clone : Z → io V Z;
  file_read : Z → N → io V (list byte);
  file_write : Z → list byte → io V N;
  file_flush : Z → io V unit;
}.

Section Socket.
Context {V : Type} {LO : LibcOps V} {NO : NetOps V} {VO : SocketOps V} {SL : SocketLib V}.

(** ** [TcpStream] of [sys/unix/tcp.rs] *)

Implicit Types (s : SysTcpStream).
Definition SysTcpStream_peer_addr s : io V SocketAddr := std_peer_addr (stream_inner s).
Definition SysTcpStream_local_addr s : io V SocketAddr := std_local_addr (stream_inner s).
Definition SysTcpStream_try_clone s : io V SysTcpStream :=
  net_try_clone (stream_inner s) ≫= λ fd, mret (mkSysStream fd).
Definition SysTcpStream_shutdown s (how : Shutdown) : io V unit := sock_shutdown (stream_inner s) how.
Definition SysTcpStream_set_nodelay s (nodelay : bool) : io V unit := std_set Nodelay (stream_inner s) nodelay.
Definition SysTcpStream_nodelay s : io V bool := std_get Nodelay (stream_inner s).
Definition SysTcpStream_set_recv_buffer_size s (size : N) : io V unit :=
  std_set RecvBufferSize (stream_inner s) size.
Definition SysTcpStream_recv_buffer_size s : io V N := std_get RecvBufferSize (stream_inner s).
Definition SysTcpStream_set_send_buffer_size s (size : N) : io V unit :=
  std_set SendBufferSize (stream_inner s) size.
Definition SysTcpStream_send_buffer_size s : io V N := std_get SendBufferSize (stream_inner s).
Definition SysTcpStream_set_keepalive s (keepalive : option Duration) : io V unit :=
  std_set Keepalive (stream_inner s) keepalive.
Definition SysTcpStream_keepalive s : io V (option Duration) := std_get Keepalive (stream_inner s).
Definition SysTcpStream_set_ttl s (ttl : N) : io V unit := std_set Ttl (stream_inner s) ttl.
Definition SysTcpStream_ttl s : io V N := std_get Ttl (stream_inner s).
Definition SysTcpStream_set_only_v6 s (only_v6 : bool) : io V unit := std_set OnlyV6 (stream_inner s) only_v6.
Definition SysTcpStream_only_v6 s : io V bool := std_get OnlyV6 (stream_inner s).
Definition SysTcpStream_take_error s : io V (option io_error) := std_take_error (stream_inner s).
Definition SysTcpStream_peek s (len : N) : io V (list byte) := std_peek (stream_inner s) len.
(** [inner.readv]: the methods of [VecIo] for a type with a descriptor. *)
Definition SysTcpStream_readv s (bufs : list N) : io V N := readv (stream_inner s) bufs.
Definition SysTcpStream_writev s (bufs : list (list byte)) : io V N := writev (stream_inner s) bufs.
Definition SysTcpStream_read s (len : N) : io V (list byte) := sock_read (stream_inner s) len.
Definition SysTcpStream_write s (buf : list byte) : io V N := sock_write (stream_inner s) buf.
(** A socket of the standard library has nothing to flush. *)
Definition SysTcpStream_flush s : io V unit := mret ().
Definition SysTcpStream_from_raw_fd (fd : Z) : SysTcpStream := mkSysStream fd.
Definition SysTcpStream_into_raw_fd s : Z := stream_inner s.
Definition SysTcpStream_as_raw_fd s : Z := stream_inner s.

(** ** [TcpListener] of [sys/unix/tcp.rs] *)

Implicit Types (l : SysTcpListener).
Definition SysTcpListener_local_addr l : io V SocketAddr := std_local_addr (listener_inner l).
Definition SysTcpListener_try_clone l : io V SysTcpListener :=
  net_try_clone (listener_inner l) ≫= λ fd, mret (mkSysListener fd).
Definition SysTcpListener_set_ttl l (ttl : N) : io V unit := std_set Ttl (listener_inner l) ttl.
Definition SysTcpListener_ttl l : io V N := std_get Ttl (listener_inner l).
Definition SysTcpListener_take_error l : io V (option io_error) := std_take_error (listener_inner l).
Definition SysTcpListener_from_raw_fd (fd : Z) : SysTcpListener := mkSysListener fd.
Definition SysTcpListener_into_raw_fd l : Z := listener_inner l.
Definition SysTcpListener_as_raw_fd l : Z := listener_inner l.

(** ** [TcpStream] of [net/tcp.rs] *)

Implicit Types (t : TcpStream).
Definition TcpStream_peer_addr t : io V SocketAddr := SysTcpStream_peer_addr (stream_sys t).
Definition TcpStream_local_addr t : io V SocketAddr := SysTcpStream_local_addr (stream_sys t).
Definition TcpStream_try_clone t : io V TcpStream :=
  SysTcpStream_try_clone (stream_sys t) ≫= λ s,
  mret (mkTcpStream s (SelectorId_clone (stream_selector_id t))).
Definition TcpStream_shutdown t (how : Shutdown) : io V unit := SysTcpStream_shutdown (stream_sys t) how.
Definition TcpStream_set_nodelay t (nodelay : bool) : io V unit := SysTcpStream_set_nodelay (stream_sys t) nodelay.
Definition TcpStream_nodelay t : io V bool := SysTcpStream_nodelay (stream_sys t).
Definition TcpStream_set_recv_buffer_size t (size : N) : io V unit :=
  SysTcpStream_set_recv_buffer_size (stream_sys t) size.
Definition TcpStream_recv_buffer_size t : io V N := SysTcpStream_recv_buffer_size (stream_sys t).
Definition TcpStream_set_send_buffer_size t (size : N) : io V unit :=
  SysTcpStream_set_send_buffer_size (stream_sys t) size.
Definition TcpStream_send_buffer_size t : io V N := SysTcpStream_send_buffer_size (stream_sys t).
Definition TcpStream_set_keepalive t (keepalive : option Duration) : io V unit :=
  SysTcpStream_set_keepalive (stream_sys t) keepalive.
Definition TcpStream_keepalive t : io V (option Duration) := SysTcpStream_keepalive (stream_sys t).
Definition TcpStream_set_ttl t (ttl : N) : io V unit := SysTcpStream_set_ttl (stream_sys t) ttl.
Definition TcpStream_ttl t : io V N := SysTcpStream_ttl (stream_sys t).
(** [set_keepalive_ms] and [keepalive_ms]: the milliseconds are truncated to
    32 bits. *)
Definition set_keepalive_ms t (keepalive : option N) : io V unit :=
  TcpStream_set_keepalive t (from_millis <$> keepalive).
Definition keepalive_ms t (w : V) : exec (io_result (option N) * V) :=
  match TcpStream_keepalive t w with
  | (IoOk None, w) => Done (IoOk None, w)
  | (IoOk (Some v), w) => millis v ≫= λ ms, Done (IoOk (Some (ms mod 2 ^ 32)), w)
  | (IoErr e, w) => Done (IoErr e, w)
  end.
Definition TcpStream_take_error t : io V (option io_error) := SysTcpStream_take_error (stream_sys t).
Definition TcpStream_peek t (len : N) : io V (list byte) := SysTcpStream_peek (stream_sys t) len.
Definition TcpStream_read_bufs t (bufs : list N) : io V N := SysTcpStream_readv (stream_sys t) bufs.
Definition TcpStream_write_bufs t (bufs : list (list byte)) : io V N := SysTcpStream_writev (stream_sys t) bufs.
Definition TcpStream_read t (len : N) : io V (list byte) := SysTcpStream_read (stream_sys t) len.
Definition TcpStream_write t (buf : list byte) : io V N := SysTcpStream_write (stream_sys t) buf.
Definition TcpStream_flush t : io V unit := SysTcpStream_flush (stream_sys t).
Definition TcpStream_into_raw_fd t : Z := SysTcpStream_into_raw_fd (stream_sys t).
Definition TcpStream_as_raw_fd t : Z := SysTcpStream_as_raw_fd (stream_sys t).
Definition TcpStream_from_raw_fd (fd : Z) : TcpStream :=
  mkTcpStream (SysTcpStream_from_raw_fd fd) SelectorId_new.

(** ** [TcpListener] of [net/tcp.rs] *)

Implicit Types (tl : TcpListener).
Definition TcpListener_from_listener (listener : Z) (_ : SocketAddr) : io V TcpListener := from_std listener.
Definition TcpListener_local_addr tl : io V SocketAddr := SysTcpListener_local_addr (listener_sys tl).
Definition TcpListener_try_clone tl : io V TcpListener :=
  SysTcpListener_try_clone (listener_sys tl) ≫= λ l,
  mret (mkTcpListener l (SelectorId_clone (listener_selector_id tl))).
Definition TcpListener_set_ttl tl (ttl : N) : io V unit := SysTcpListener_set_ttl (listener_sys tl) ttl.
Definition TcpListener_ttl tl : io V N := SysTcpListener_ttl (listener_sys tl).
Definition TcpListener_take_error tl : io V (option io_error) := SysTcpListener_take_error (listener_sys tl).
Definition TcpListener_into_raw_fd tl : Z := SysTcpListener_into_raw_fd (listener_sys tl).
Definition TcpListener_as_raw_fd tl : Z := SysTcpListener_as_raw_fd (listener_sys tl).
Definition TcpListener_from_raw_fd (fd : Z) : TcpListener :=
  mkTcpListener (SysTcpListener_from_raw_fd fd) SelectorId_new.

(** ** [Io] of [sys/unix/io.rs] *)

Implicit Types (f : Io).
Definition Io_try_clone f : io V Io := file_try_clone (io_fd f) ≫= λ fd, mret (mkIo fd).
Definition Io_from_raw_fd (fd : Z) : Io := mkIo fd.
Definition Io_into_raw_fd f : Z := io_fd f.
Definition Io_as_raw_fd f : Z := io_fd f.
(** The read of an owned [Io] also prints its descriptor. *)
Definition Io_read f (len : N) : io V (list byte) := file_read (io_fd f) len.
Definition Io_write f (src : list byte) : io V N := file_write (io_fd f) src.
Definition Io_flush f : io V unit := file_flush (io_fd f).

(** ** The awakener of a poll *)

(** [Awakener::new], with the cell of the symbol that [pipe] looks up. *)
Definition Awakener_new (addr : N) (w : V) : exec (io_result Awakener * N * V) :=
  pipe addr w ≫= λ '(r, addr, w),
  Done (match r with
        | IoErr e => IoErr e
        | IoOk (rd, wr) => IoOk (mkAwakener (mkIo rd) (mkIo wr))
        end, addr, w).
End Socket.
