(* ===== verification/Layers.v ===== *)
(** * A system that is part of a larger state

    The programs over the sockets keep handlers and connectors beside the
    system: a [Layer] is a state with a system below, and a call of the system
    on such a state changes that part only. *)
From Stdlib Require Import Strings.Byte.
From S2P Require Import Prelude Duration Sys EventSet ReadinessState LazyCell Awakener Selector.
From S2P Require Import ReadinessQueue Registration Interfaces Timer PollReadiness Poll Evented Tcp Net Socket.

(** A state [W] that holds a system [V], and the calls of the system on it. *)
Record Layer (W V : Type) := mkLayer { under : W → V; over : V → W → W }.
Arguments mkLayer {W V} _ _.
Arguments under {W V} _ _.
Arguments over {W V} _ _ _.

Class LayerLaws {W V : Type} (l : Layer W V) : Prop := {
  under_over : ∀ v w, under l (over l v w) = v;
  over_under : ∀ w, over l (under l w) w = w;
  over_over : ∀ v v' w, over l v' (over l v w) = over l v' w;
}.

Section Layer.
Context {W V : Type} (l : Layer W V).

Definition through {A} (f : V → A * V) (w : W) : A * W :=
  let '(r, v) := f (under l w) in (r, over l v w).

Definition layer_libc `{LibcOps V} : LibcOps W := {|
  libc_fcntl := λ fd cmd arg, through (libc_fcntl fd cmd arg);
  libc_pipe := through libc_pipe;
  libc_pipe2 := λ flags, through (libc_pipe2 flags);
  libc_dlsym := λ name w, libc_dlsym name (under l w);
  libc_readv := λ fd bufs n, through (libc_readv fd bufs n);
  libc_writev := λ fd bufs n, through (libc_writev fd bufs n);
  last_os_error := λ w, last_os_error (under l w);
  close_fd := λ fd w, over l (close_fd fd (under l w)) w;
|}.
Definition layer_net `{NetOps V} : NetOps W := {|
  tcp_builder := λ v6, through (tcp_builder v6);
  to_tcp_stream := λ fd, through (to_tcp_stream fd);
  reuse_address := λ fd b, through (reuse_address fd b);
  reuse_port := λ fd b, through (reuse_port fd b);
  net_bind := λ fd a, through (net_bind fd a);
  net_listen := λ fd n, through (net_listen fd n);
  net_connect := λ fd a, through (net_connect fd a);
  net_accept := λ fd, through (net_accept fd);
  net_try_clone := λ fd, through (net_try_clone fd);
|}.
Definition layer_sockets `{SocketOps V} : SocketOps W := {|
  sock_read := λ fd n, through (sock_read fd n);
  sock_write := λ fd bs, through (sock_write fd bs);
  sock_shutdown := λ fd how, through (sock_shutdown fd how);
|}.
Definition layer_lib `{SocketLib V} : SocketLib W := {|
  std_set := λ A opt fd a, through (std_set opt fd a);
  std_get := λ A opt fd, through (std_get opt fd);
  std_peer_addr := λ fd, through (std_peer_addr fd);
  std_local_addr := λ fd, through (std_local_addr fd);
  std_take_error := λ fd, through (std_take_error fd);
  std_peek := λ fd n, through (std_peek fd n);
  file_try_clone := λ fd, through (file_try_clone fd);
  file_read := λ fd n, through (file_read fd n);
  file_write := λ fd bs, through (file_write fd bs);
  file_flush := λ fd, through (file_flush fd);
|}.
End Layer.

(** A call of the larger state that is one of the system below. *)
Section Lifted.
Context {W V : Type} (l : Layer W V) {LL : LayerLaws l}.
Context {LO : LibcOps V} {NO : NetOps V}.
#[local] Existing Instance layer_libc.
#[local] Existing Instance layer_net.

Definition lifted {A} (f : W → A * W) (g : V → A * V) : Prop := ∀ w, f w = through l g w.

Lemma lifted_bind {A C} (m : io W A) (f : A → io W C) (m' : io V A) (f' : A → io V C) :
  lifted m m' → (∀ a, lifted (f a) (f' a)) → lifted (m ≫= f) (m' ≫= f').
Proof using LL.
  intros Hm Hf w. unfold mbind, io_bind. rewrite Hm. unfold through.
  destruct (m' (under l w)) as [[a|e] v]; [|done]. rewrite Hf. unfold through. rewrite under_over.
  destruct (f' a v) as [r v']. by rewrite over_over.
Qed.
Lemma lifted_ret {A} (a : A) : lifted (mret a : io W A) (mret a : io V A).
Proof using LL. intros w. unfold through. cbn. by rewrite over_under. Qed.
Lemma lifted_call {A} (f : W → A * W) (g : V → A * V) : lifted f g → lifted (sys_call f) (sys_call g).
Proof. intros H w. unfold sys_call. rewrite H. unfold through. by destruct (g (under l w)). Qed.
Lemma lifted_cvt r : lifted (cvt (W := W) (LO := layer_libc l) r) (cvt r).
Proof using LL.
  intros w. unfold cvt, through. destruct (is_minus_one r); cbn; by rewrite over_under.
Qed.
Lemma lifted_holding {A} fds (m : io W A) (m' : io V A) :
  lifted m m' → lifted (holding (LO := layer_libc l) fds m) (holding fds m').
Proof using LL.
  intros H w. unfold holding. rewrite H. unfold through. destruct (m' (under l w)) as [[a|e] v]; [done|].
  assert (∀ v, foldl (λ w fd, over l (close_fd fd (under l w)) w) (over l v w) fds =
    over l (foldl (λ w fd, close_fd fd w) v fds) w) as Hc; [|by rewrite <- Hc].
  clear - LL. induction fds as [|fd fds IH]; intros v; cbn; [done|]. by rewrite under_over, over_over, IH.
Qed.

Lemma lifted_set_nonblock fd : lifted (set_nonblock (LO := layer_libc l) fd) (set_nonblock fd).
Proof using LL.
  unfold set_nonblock. apply lifted_bind; [by apply lifted_call|intros flags].
  apply lifted_bind; [by apply lifted_call|intros r]. apply lifted_bind; [apply lifted_cvt|intros _].
  apply lifted_ret.
Qed.

Lemma lifted_connect addr : lifted (connect (LO := layer_libc l) (NO := layer_net l) addr) (connect addr).
Proof using LL.
  unfold connect. apply lifted_bind; [done|intros sock].
  apply lifted_bind; [by apply lifted_holding|intros stream]. unfold connect_stream.
  apply lifted_bind; [apply lifted_holding, lifted_set_nonblock|intros _].
  apply lifted_bind; [|intros s; apply lifted_ret]. unfold SysTcpStream_connect.
  apply lifted_holding. apply lifted_bind; [apply lifted_set_nonblock|intros _].
  apply lifted_bind; [|intros _; apply lifted_ret]. intros w. unfold connect_or_progress.
  cbn [net_connect layer_net]. unfold through. destruct (net_connect stream addr (under l w)) as [[u|[| |e]] v]; try done.
  by destruct (e =? EINPROGRESS).
Qed.
End Lifted.
