(* ===== verification/SocketProps.v ===== *)
(** * The methods of a socket: properties

    [SocketLibLaws] is what setsockopt(2), getsockopt(2) and dup(2) promise of
    the options of a socket.  A setter and a getter name the same option and no
    other one, on every handle of a socket; a socket that goes through its raw
    descriptor is the same socket, but no poll is bound to it any more. *)
From Stdlib Require Import Strings.Byte.
From S2P Require Import Prelude Duration Sys EventSet ReadinessState LazyCell Awakener Selector.
From S2P Require Import ReadinessQueue Registration Interfaces Timer PollReadiness Poll Evented Tcp Net.
From S2P Require Import Socket.

(** ** The options of a socket *)

Record Options := mkOptions {
  o_nodelay : bool;
  o_recv : N;
  o_send : N;
  o_keepalive : option Duration;
  o_ttl : N;
  o_only_v6 : bool;
}.

Definition option_of {A} (o : SockOpt A) (x : Options) : A :=
  match o in SockOpt A return A with
  | Nodelay => o_nodelay x
  | RecvBufferSize => o_recv x
  | SendBufferSize => o_send x
  | Keepalive => o_keepalive x
  | Ttl => o_ttl x
  | OnlyV6 => o_only_v6 x
  end.
Definition with_option {A} (o : SockOpt A) (x : Options) : A → Options :=
  match o in SockOpt A return A → Options with
  | Nodelay => λ a, mkOptions a (o_recv x) (o_send x) (o_keepalive x) (o_ttl x) (o_only_v6 x)
  | RecvBufferSize => λ a, mkOptions (o_nodelay x) a (o_send x) (o_keepalive x) (o_ttl x) (o_only_v6 x)
  | SendBufferSize => λ a, mkOptions (o_nodelay x) (o_recv x) a (o_keepalive x) (o_ttl x) (o_only_v6 x)
  | Keepalive => λ a, mkOptions (o_nodelay x) (o_recv x) (o_send x) a (o_ttl x) (o_only_v6 x)
  | Ttl => λ a, mkOptions (o_nodelay x) (o_recv x) (o_send x) (o_keepalive x) a (o_only_v6 x)
  | OnlyV6 => λ a, mkOptions (o_nodelay x) (o_recv x) (o_send x) (o_keepalive x) (o_ttl x) a
  end.

(** Which option it is, whatever its type. *)
Definition opt_id {A} (o : SockOpt A) : N :=
  match o with Nodelay => 0 | RecvBufferSize => 1 | SendBufferSize => 2 | Keepalive => 3 | Ttl => 4 | OnlyV6 => 5 end.

Lemma option_same {A} (o : SockOpt A) x a : option_of o (with_option o x a) = a.
Proof. by destruct o. Qed.
Lemma option_other {A A'} (o : SockOpt A) (o' : SockOpt A') x a :
  opt_id o ≠ opt_id o' → option_of o' (with_option o x a) = option_of o' x.
Proof. destruct o, o'; done. Qed.

(** Descriptors name sockets, several may name the same one; the kernel may
    round a value. *)
Class SocketLibLaws (V : Type) `{LibcOps V} `{NetOps V} `{SocketLib V} := {
  socket_of : V → Z → N;
  options : V → N → Options;
  kept : ∀ {A}, SockOpt A → A → A;
  kept_exact : (∀ b, kept Nodelay b = b) ∧ (∀ n, kept Ttl n = n) ∧ (∀ b, kept OnlyV6 b = b);
  set_law : ∀ {A} (o : SockOpt A) fd a v,
    let '(r, v') := std_set o fd a v in
    socket_of v' = socket_of v ∧
    match r with
    | IoOk _ => options v' (socket_of v fd) = with_option o (options v (socket_of v fd)) (kept o a) ∧
        ∀ i, i ≠ socket_of v fd → options v' i = options v i
    | IoErr _ => options v' = options v
    end;
  get_law : ∀ {A} (o : SockOpt A) fd v,
    match (std_get o fd v).1 with
    | IoOk a => a = option_of o (options v (socket_of v fd))
    | IoErr _ => True
    end;
  dup_law : ∀ fd v,
    match net_try_clone fd v with
    | (IoOk fd', v') => fd' ≠ fd ∧ socket_of v' fd' = socket_of v fd ∧ options v' = options v ∧
        ∀ f, f ≠ fd' → socket_of v' f = socket_of v f
    | (IoErr _, v') => socket_of v' = socket_of v ∧ options v' = options v
    end;
}.

(** ** The setters and getters *)

Section SocketProps.
Context {V : Type} {LO : LibcOps V} {NO : NetOps V} {SL : SocketLib V} {LL : SocketLibLaws V}.
Implicit Types (t : TcpStream) (v : V).

(** The methods of a stream for an option; [only_v6] is that of its socket. *)
Definition setter {A} (o : SockOpt A) : TcpStream → A → io V unit :=
  match o in SockOpt A return TcpStream → A → io V unit with
  | Nodelay => TcpStream_set_nodelay
  | RecvBufferSize => TcpStream_set_recv_buffer_size
  | SendBufferSize => TcpStream_set_send_buffer_size
  | Keepalive => TcpStream_set_keepalive
  | Ttl => TcpStream_set_ttl
  | OnlyV6 => λ t, SysTcpStream_set_only_v6 (stream_sys t)
  end.
Definition getter {A} (o : SockOpt A) : TcpStream → io V A :=
  match o in SockOpt A return TcpStream → io V A with
  | Nodelay => TcpStream_nodelay
  | RecvBufferSize => TcpStream_recv_buffer_size
  | SendBufferSize => TcpStream_send_buffer_size
  | Keepalive => TcpStream_keepalive
  | Ttl => TcpStream_ttl
  | OnlyV6 => λ t, SysTcpStream_only_v6 (stream_sys t)
  end.

Lemma setter_std {A} (o : SockOpt A) t a : setter o t a = std_set o (TcpStream_as_raw_fd t) a.
Proof using Type. by destruct o. Qed.
Lemma getter_std {A} (o : SockOpt A) t : getter o t = std_get o (TcpStream_as_raw_fd t).
Proof using Type. by destruct o. Qed.

Definition names t v : N := socket_of v (TcpStream_as_raw_fd t).

(** A getter reports the value [a]. *)
Definition reports {A} (o : SockOpt A) t v (a : A) : Prop :=
  ∀ b v', getter o t v = (IoOk b, v') → b = a.

Lemma reports_options {A} (o : SockOpt A) t v : reports o t v (option_of o (options v (names t v))).
Proof using LL.
  intros b v' E. rewrite getter_std in E. pose proof (get_law o (TcpStream_as_raw_fd t) v) as H.
  by rewrite E in H.
Qed.

Lemma clone_ok t t' v v' : TcpStream_try_clone t v = (IoOk t', v') →
  stream_selector_id t' = stream_selector_id t ∧ names t' v' = names t v ∧ names t v' = names t v ∧
  options v' = options v.
Proof using LL.
  unfold TcpStream_try_clone, SysTcpStream_try_clone, mbind, io_bind, mret, io_ret.
  pose proof (dup_law (stream_inner (stream_sys t)) v) as H.
  destruct (net_try_clone _ v) as [[fd|e] v1]; [|done]. intros [= <- <-].
  destruct H as (Hf & Hs & Ho & Hr). split; [by destruct (stream_selector_id t)|].
  split; [exact Hs|]. split; [|exact Ho]. apply Hr. intros E. exact (Hf (eq_sym E)).
Qed.

(** The setter and the getter of an option of a socket belong together: a
    value that was set is what every handle of that socket reports (rounded as
    the kernel does), a clone of the handle included; the other options of the
    socket and the options of the other sockets are as before; a setter that
    fails changes nothing. *)
Theorem option_roundtrip {A} (o : SockOpt A) (a : A) t v r v' :
  setter o t a v = (r, v') →
  match r with
  | IoOk _ =>
      (∀ t', names t' v = names t v → reports o t' v' (kept o a)) ∧
      (∀ t' v'', TcpStream_try_clone t v' = (IoOk t', v'') → reports o t' v'' (kept o a)) ∧
      (∀ A' (o' : SockOpt A') t', opt_id o' ≠ opt_id o ∨ names t' v ≠ names t v →
         reports o' t' v' (option_of o' (options v (names t' v))))
  | IoErr _ =>
      ∀ A' (o' : SockOpt A') t', reports o' t' v' (option_of o' (options v (names t' v)))
  end.
Proof using LL.
  rewrite setter_std. intros E. pose proof (set_law o (TcpStream_as_raw_fd t) a v) as H. rewrite E in H.
  destruct H as [Hs H].
  assert (∀ t', names t' v' = names t' v) as Hn by (intros t'; unfold names; by rewrite Hs).
  destruct r as [u|e].
  - destruct H as [Hw Ho]. change (socket_of v (TcpStream_as_raw_fd t)) with (names t v) in Hw, Ho.
    assert (∀ t', names t' v = names t v → reports o t' v' (kept o a)) as Hsame.
    { intros t' Ht b v2 Eb. rewrite (reports_options o t' v' b v2 Eb), Hn, Ht, Hw. apply option_same. }
    split; [exact Hsame|]. split.
    + intros t' v2 Ec b v3 Eb. destruct (clone_ok _ _ _ _ Ec) as (_ & Et & _ & Eo).
      rewrite (reports_options o t' v2 b v3 Eb), Et, Hn, Eo, Hw. apply option_same.
    + intros A' o' t' Hd b v2 Eb. rewrite (reports_options o' t' v' b v2 Eb), Hn.
      destruct (decide (names t' v = names t v)) as [Ht|Ht]; [|by rewrite Ho].
      rewrite Ht, Hw. apply option_other. by destruct Hd as [Hd|Hd]; [intros Hi; apply Hd|].
  - intros A' o' t' b v2 Eb. by rewrite (reports_options o' t' v' b v2 Eb), Hn, H.
Qed.

(** The period that [set_keepalive_ms] sets is the one [keepalive_ms] reports,
    when the kernel keeps it. *)
Lemma keepalive_roundtrip t k v v1 v2 ms :
  k <= u32_max → kept Keepalive (Some (from_millis k)) = Some (from_millis k) →
  set_keepalive_ms t (Some k) v = (IoOk (), v1) → keepalive_ms t v1 = Done (IoOk ms, v2) →
  ms = Some k.
Proof using LL.
  intros Hk Hkept Es Eg. unfold set_keepalive_ms in Es. cbn [fmap option_fmap option_map] in Es.
  pose proof (set_law Keepalive (TcpStream_as_raw_fd t) (Some (from_millis k)) v) as H.
  change (std_set Keepalive (TcpStream_as_raw_fd t)) with (TcpStream_set_keepalive t) in H.
  rewrite Es in H. destruct H as (Hs & Hw & _).
  unfold keepalive_ms in Eg. destruct (TcpStream_keepalive t v1) as [[d|e] v3] eqn:Ek; [|discriminate Eg].
  pose proof (reports_options Keepalive t v1 d v3 Ek) as Hd. unfold names in Hd. rewrite Hs, Hw in Hd.
  cbn [option_of with_option o_keepalive] in Hd. rewrite Hkept in Hd. subst d.
  rewrite millis_from_millis in Eg by (apply (N.le_trans _ u32_max); [exact Hk|apply N.leb_le; reflexivity]).
  cbn [mbind exec_bind] in Eg. injection Eg as <- _. f_equal. apply N.mod_small.
  apply (N.le_lt_trans _ u32_max); [exact Hk|reflexivity].
Qed.
End SocketProps.

(** A new awakener has two new ends, non-blocking and closed on [exec]; when it
    cannot be made no descriptor is left open. *)
Lemma Awakener_new_ok {V} `{LibcLaws V} (addr : N) (w : V) :
  ∃ r addr' w', Awakener_new addr w = Done (r, addr', w') ∧
    match r with
    | IoOk a => let rd := io_fd (awk_reader a) in let wr := io_fd (awk_writer a) in
        rd ≠ wr ∧ open_fds w !! rd = None ∧ open_fds w !! wr = None ∧
        open_fds w' = ends (open_fds w) rd wr (mkFlags true true) (mkFlags true true)
    | IoErr _ => open_fds w' = open_fds w
    end.
Proof.
  destruct (pipe_ok addr w) as (r & addr' & w' & E & _ & Hp). unfold Awakener_new. rewrite E. cbn [mbind exec_bind].
  by destruct r as [[rd wr]|e]; eexists _, _, _.
Qed.

(** ** Raw descriptors and the poll of a socket *)

Section RawFd.
Context {J : Type} (verbose : bool).
Context {P : Type} {PO : PipeOps P}.
Context {K : Type} {KO : EpollOps K}.
Context {V : Type} {LO : LibcOps V} {NO : NetOps V} {VO : SocketOps V} {SL : SocketLib V}.
Implicit Types (t : TcpStream) (pl : Poll J P K).
#[local] Instance raw_stream : Evented J P K TcpStream := TcpStream_evented verbose.

(** A handle made anew from the descriptor of another one. *)
Definition rewrapped t : TcpStream := TcpStream_from_raw_fd (TcpStream_into_raw_fd t).

Lemma register_bound t pl tok r o j :
  sid_id (stream_selector_id t) ≠ 0 → sid_id (stream_selector_id t) ≠ sel_id (p_selector pl) →
  poll_register pl t tok r o j = Done (IoErr (OtherError 0), t, pl).
Proof.
  intros H1 H2. unfold poll_register, ev_register, raw_stream, TcpStream_evented, bound, associate_selector.
  rewrite (proj2 (N.eqb_neq _ _) H1), (proj2 (N.eqb_neq _ _) H2). cbn. by destruct t.
Qed.

(** The registration of a descriptor, by a handle that it binds to the poll. *)
Definition plain_register t pl tok r o j : exec (io_result unit * TcpStream * Poll J P K) :=
  let '(res, sel) := EventedFd_register (p_selector pl) (TcpStream_as_raw_fd t) tok r o j in
  Done (res, mkTcpStream (stream_sys t) (mkSelectorId (sel_id (p_selector pl))), with_selector sel pl).

Lemma register_unbound t pl tok r o j :
  sid_id (stream_selector_id t) = 0 → poll_register pl t tok r o j = plain_register t pl tok r o j.
Proof.
  intros H. unfold poll_register, ev_register, raw_stream, TcpStream_evented, bound, associate_selector.
  rewrite H. unfold ev_register, SysTcpStream_evented, forward, plain_register.
  unfold TcpStream_as_raw_fd, SysTcpStream_as_raw_fd, EventedFd_evented, ev_register. cbn [raw_fd].
  by destruct (EventedFd_register _ _ _ _ _ _) as [res sel].
Qed.

(** That a socket belongs to one poll is known to its handles only: the
    poll of another selector refuses a handle that is registered, and changes
    nothing; but a handle made anew from its descriptor ([into_raw_fd], then
    [from_raw_fd]), which reads, writes and has the options of the first one, is
    registered there like any descriptor; and so is a clone made before the
    first registration. *)
Theorem binding_is_per_handle t pl tok r o j :
  (sid_id (stream_selector_id t) ≠ 0 → sid_id (stream_selector_id t) ≠ sel_id (p_selector pl) →
   poll_register pl t tok r o j = Done (IoErr (OtherError 0), t, pl)) ∧
  poll_register pl (rewrapped t) tok r o j = plain_register (rewrapped t) pl tok r o j ∧
  TcpStream_as_raw_fd (rewrapped t) = TcpStream_as_raw_fd t ∧
  (∀ n, TcpStream_read (rewrapped t) n = TcpStream_read t n) ∧
  (∀ bs, TcpStream_write (rewrapped t) bs = TcpStream_write t bs) ∧
  (∀ A (o : SockOpt A), getter o (rewrapped t) = getter o t ∧ setter o (rewrapped t) = setter o t) ∧
  (∀ t' v v', sid_id (stream_selector_id t) = 0 → TcpStream_try_clone t v = (IoOk t', v') →
     poll_register pl t' tok r o j = plain_register t' pl tok r o j).
Proof.
  split; [apply register_bound|]. split; [by apply register_unbound|].
  split; [done|]. split; [done|]. split; [done|]. split; [by intros A []|].
  intros t' v v' H0 Ec. apply register_unbound.
  unfold TcpStream_try_clone, SysTcpStream_try_clone, mbind, io_bind, mret, io_ret in Ec.
  destruct (net_try_clone _ v) as [[fd|e] v2]; [|discriminate Ec]. by injection Ec as <- _.
Qed.
End RawFd.

(** ** A table of sockets *)

Module TableSockets.
(** The socket of every descriptor, and the options of every socket. *)
Record t := mk { table : gmap Z N; opts : gmap N Options }.

Definition default_options : Options := mkOptions false 87380 16384 None 64 false.
Definition names_of (w : t) (fd : Z) : N := default 0 (table w !! fd).
Definition options_of (w : t) (i : N) : Options := default default_options (opts w !! i).
(** Buffers are doubled, a period is in whole seconds. *)
Definition round {A} (o : SockOpt A) : A → A :=
  match o in SockOpt A return A → A with
  | RecvBufferSize | SendBufferSize => λ n, 2 * n
  | Keepalive => λ d, (λ d, mkDuration (as_secs d) 0) <$> d
  | _ => λ a, a
  end.

#[global] Instance libc : LibcOps t := {|
  libc_fcntl := λ _ _ _ w, (0%Z, w);
  libc_pipe := λ w, ((-1, (0, 0))%Z, w);
  libc_pipe2 := λ _ w, ((-1, (0, 0))%Z, w);
  libc_dlsym := λ _ _, 0;
  libc_readv := λ _ _ _ w, (0%Z, w);
  libc_writev := λ _ _ _ w, (0%Z, w);
  last_os_error := λ _, WouldBlock;
  close_fd := λ fd w, mk (delete fd (table w)) (opts w);
|}.
#[global] Instance net : NetOps t := {|
  tcp_builder := λ _ w, (IoErr WouldBlock, w);
  to_tcp_stream := λ fd, mret fd;
  reuse_address := λ _ _, mret ();
  reuse_port := λ _ _, mret ();
  net_bind := λ _ _, mret ();
  net_listen := λ fd _, mret fd;
  net_connect := λ _ _, mret ();
  net_accept := λ _ w, (IoErr WouldBlock, w);
  net_try_clone := λ fd w,
    let new := fresh ({[fd]} ∪ dom (table w)) in
    (IoOk new, mk (<[new := names_of w fd]> (table w)) (opts w));
|}.
#[global] Instance sockets : SocketOps t := {|
  sock_read := λ _ _ w, (IoErr WouldBlock, w);
  sock_write := λ _ _ w, (IoErr WouldBlock, w);
  sock_shutdown := λ _ _ w, (IoOk (), w);
|}.
#[global] Instance lib : SocketLib t := {|
  std_set := λ A o fd a w,
    (IoOk (), mk (table w)
       (<[names_of w fd := with_option o (options_of w (names_of w fd)) (round o a)]> (opts w)));
  std_get := λ A o fd w, (IoOk (option_of o (options_of w (names_of w fd))), w);
  std_peer_addr := λ _, mret (V4 0 0);
  std_local_addr := λ _, mret (V4 0 0);
  std_take_error := λ _, mret None;
  std_peek := λ _ _, mret [];
  file_try_clone := λ fd, mret fd;
  file_read := λ _ _, mret [];
  file_write := λ _ _, mret 0;
  file_flush := λ _, mret ();
|}.

#[global] Instance laws : SocketLibLaws t.
Proof.
  refine {| socket_of := names_of; options := options_of; kept := @round |}.
  - done.
  - intros A o fd a v. cbn. split; [done|]. split.
    + unfold options_of at 1. cbn. by rewrite lookup_insert_eq.
    + intros i Hi. unfold options_of. cbn. by rewrite lookup_insert_ne.
  - done.
  - intros fd v. cbn. pose proof (is_fresh ({[fd]} ∪ dom (table v))) as Hf.
    set (new := fresh _) in *. assert (new ≠ fd) as Hn by set_solver.
    split; [done|]. split; [unfold names_of; cbn; by rewrite lookup_insert_eq|].
    split; [done|]. intros f Hne. unfold names_of. cbn. by rewrite lookup_insert_ne.
Defined.
End TableSockets.

Lemma option_roundtrip_witness :
  let stream := mkTcpStream (mkSysStream 7) SelectorId_new in
  let v := TableSockets.mk {[7%Z := 1]} ∅ in
  reports SendBufferSize stream (setter SendBufferSize stream 1000 v).2 2000 ∧
  reports Ttl stream (setter SendBufferSize stream 1000 v).2 64.
Proof.
  intros stream v.
  assert (setter SendBufferSize stream 1000 v = (IoOk (), (setter SendBufferSize stream 1000 v).2)) as E
    by (vm_compute; reflexivity).
  destruct (option_roundtrip SendBufferSize 1000 stream v _ _ E) as (H1 & _ & H2).
  split; [exact (H1 stream eq_refl)|].
  refine (H2 _ Ttl stream _). left. discriminate.
Defined.
