(* ===== verification/EventedProps.v ===== *)
(** * Handles that a poll can watch: properties

    [EventedLaws] states what every implementation of [Evented] promises: to
    register or deregister a live handle never panics and leaves the poll well
    formed.  A socket is bound to the first poll it is registered with. *)
From S2P Require Import Prelude EventSet ReadinessState Duration LazyCell Awakener Selector.
From S2P Require Import ReadinessQueue Registration QueueInv QueueSpec RegistrationSpec.
From S2P Require Import HandleSpec QueueProps Interfaces Timer DList TimerInv TimerSpec.
From S2P Require Import TimerProps PollReadiness Poll PollProps Evented.

Section EventedProps.
Context {J : Type} (null_job : J) (verbose : bool).
Context {P : Type} {PO : PipeOps P} {PL : PipeLaws P}.
Context {K : Type} {KO : EpollOps K} {KL : EpollLaws K}.
#[local] Abbreviation Poll := (Poll J P K).
Implicit Types (pl : Poll) (tok : TokenEntry) (r : Ready) (o : PollOpt) (j : J).

(** The invariant of a poll; there is room for another reference to its queue. *)
Definition poll_good pl : Prop :=
  coherent (p_selector pl) ∧ ∃ x st d refs, inv (p_world pl) (p_queue pl) x st d refs.
Definition poll_room pl : Prop := N.of_nat (size (w_nodes (p_world pl))) < 2 ^ 63.
Definition same_poll pl pl' : Prop :=
  p_queue pl' = p_queue pl ∧ sel_id (p_selector pl') = sel_id (p_selector pl).

Class EventedLaws (E : Type) `{Evented J P K E} := {
  ev_live : Poll → E → Prop;
  register_law : ∀ h pl tok r o j,
    poll_good pl → poll_room pl → ev_live pl h → ready_0 r <= 15 → opt_0 o <= 15 →
    ∃ res h' pl', ev_register h pl tok r o j = Done (res, h', pl') ∧
      poll_good pl' ∧ same_poll pl pl' ∧ ev_live pl' h';
  deregister_law : ∀ h pl,
    poll_good pl → poll_room pl → ev_live pl h →
    ∃ res h' pl', ev_deregister h pl = Done (res, h', pl') ∧
      poll_good pl' ∧ same_poll pl pl' ∧ ev_live pl' h';
}.

(** ** Descriptors and sockets *)

#[local] Instance fd_ops : Evented J P K EventedFd := EventedFd_evented verbose.

#[global] Instance EventedFd_laws : EventedLaws EventedFd.
Proof using KL.
  refine {| ev_live := λ _ _, True |}.
  - intros h pl tok r o j [Hc Hq] _ _ _ _. cbn. unfold EventedFd_register.
    pose proof (Selector.fd_register_ok (p_selector pl) (raw_fd h) tok r o j Hc) as H.
    destruct (Selector.register _ _ _ _ _ _) as [res sel]. destruct H as (Hc' & Eid & _).
    by eexists _, _, _.
  - intros h pl [Hc Hq] _ _. cbn. unfold EventedFd_deregister.
    destruct (Selector.fd_deregister_ok verbose (p_selector pl) (raw_fd h) Hc) as (res & sel & E & Hc' & Eid & _).
    rewrite E. by eexists _, _, _.
Defined.

(** A type that forwards to a descriptor obeys the laws. *)
Lemma forward_laws {E} (fd : E → Z) : @EventedLaws E (forward verbose fd).
Proof using KL.
  unshelve refine {| ev_live := λ _ _, True |}.
  - intros h pl tok r o j Hg Hr _ Hi Ho.
    destruct (@register_law _ _ EventedFd_laws (mkEventedFd (fd h)) pl tok r o j Hg Hr I Hi Ho)
      as (res & h' & pl' & E' & Hg' & Hs & _).
    exists res, h, pl'. split; [|by split_and!].
    change (ev_register (mkEventedFd (fd h)) pl tok r o j ≫= (λ '(res, _, pl), Done (res, h, pl))
      = Done (res, h, pl')). by rewrite E'.
  - intros h pl Hg Hr _.
    destruct (@deregister_law _ _ EventedFd_laws (mkEventedFd (fd h)) pl Hg Hr I) as (res & h' & pl' & E' & Hg' & Hs & _).
    exists res, h, pl'. split; [|by split_and!].
    change (ev_deregister (mkEventedFd (fd h)) pl ≫= (λ '(res, _, pl), Done (res, h, pl))
      = Done (res, h, pl')). by rewrite E'.
Defined.

(** So does a pointer to a handle that obeys them. *)
#[global] Instance Boxed_laws {E} `{EE : Evented J P K E} (EvL : EventedLaws E) : EventedLaws (Boxed E).
Proof using Type.
  unshelve refine {| ev_live := λ pl h, ev_live pl (as_ref h) |}.
  - intros h pl tok r o j Hg Hr Hl Hi Ho. unfold ev_register at 1. cbn [Boxed_evented].
    destruct (register_law (as_ref h) pl tok r o j Hg Hr Hl Hi Ho) as (res & h' & pl' & E' & H).
    rewrite E'. by eexists _, _, _.
  - intros h pl Hg Hr Hl. unfold ev_deregister at 1. cbn [Boxed_evented].
    destruct (deregister_law (as_ref h) pl Hg Hr Hl) as (res & h' & pl' & E' & H).
    rewrite E'. by eexists _, _, _.
Defined.

(** So does a socket on top of a type that obeys them. *)
Lemma bound_laws {S E} {SE : Evented J P K S} (SL : EventedLaws S)
    (sys : E → S) (sid : E → SelectorId) (make : S → SelectorId → E) :
  (∀ s i, sys (make s i) = s) → @EventedLaws E (bound sys sid make).
Proof.
  intros Hs. unshelve refine {| ev_live := λ pl h, ev_live pl (sys h) |}.
  - intros h pl tok r o j Hg Hr Hl Hi Ho. unfold ev_register at 1. cbn [bound].
    destruct (associate_selector (sid h) pl) as [[[]|e] i].
    + destruct (register_law (sys h) pl tok r o j Hg Hr Hl Hi Ho) as (res & h' & pl' & E' & H).
      rewrite E'. eexists _, _, _. split; [reflexivity|]. by rewrite Hs.
    + eexists _, _, _. split; [reflexivity|]. by rewrite Hs.
  - intros h pl Hg Hr Hl. unfold ev_deregister at 1. cbn [bound].
    destruct (deregister_law (sys h) pl Hg Hr Hl) as (res & h' & pl' & E' & H).
    rewrite E'. eexists _, _, _. split; [reflexivity|]. by rewrite Hs.
Defined.

#[local] Instance awakener_ops : Evented J P K Awakener := Awakener_evented verbose.
#[local] Instance stream_ops : Evented J P K TcpStream := TcpStream_evented verbose.
#[local] Instance listener_ops : Evented J P K TcpListener := TcpListener_evented verbose.

#[global] Instance Awakener_laws : EventedLaws Awakener.
Proof using KL. exact (forward_laws _). Defined.
#[global] Instance TcpStream_laws : EventedLaws TcpStream.
Proof using KL. by apply (bound_laws (forward_laws stream_inner)). Defined.
#[global] Instance TcpListener_laws : EventedLaws TcpListener.
Proof using KL. by apply (bound_laws (forward_laws listener_inner)). Defined.

(** ** Registrations *)

#[local] Instance registration_ops : Evented J P K EventedRegistration :=
  Registration_evented null_job.

(** A node of this poll, or of no poll yet, whose registration is not dropped. *)
Definition reg_live pl (h : EventedRegistration) : Prop :=
  ∃ x st d refs n, inv (p_world pl) (p_queue pl) x st d refs ∧
    contents (p_world pl) !! reg_node h = Some n ∧ reg_node h ∉ markers x ∧
    dropped n = false ∧
    (n_readiness_queue n = None ∨ n_readiness_queue n = Some (p_queue pl)).

Lemma update_law h pl tok r o j :
  poll_good pl → poll_room pl → reg_live pl h → ready_0 r <= 15 → opt_0 o <= 15 →
  ∃ res pl', on_queue (update (reg_node h) (p_queue pl) tok r o j) pl = Done (res, pl') ∧
    poll_good pl' ∧ same_poll pl pl' ∧ reg_live pl' h.
Proof using PL.
  intros [Hc _] Hsz (x & st & d & refs & n & Hi & En & Hm & Hd & Hq) Hr Ho.
  pose proof (strong_size _ _ _ _ _ _ Hi). unfold poll_room in Hsz.
  destruct (update_ok (p_world pl) (p_queue pl) x st d refs (reg_node h) n tok r o j Hi En Hm Hd)
    as [_ (n' & res & w' & x' & E & Hn & Hq' & _ & Ec & Hi' & _ & Em)];
    [lia|change (2 ^ 4) with 16; lia|change (2 ^ 4) with 16; lia|exact Hq|].
  exists res, (with_world w' pl). split; [unfold on_queue; by rewrite E|].
  split; [split; [exact Hc|by eexists _, _, _, _]|]. split; [done|].
  eexists x', st, _, refs, n'. split; [exact Hi'|]. cbn [with_world p_world p_queue].
  rewrite Ec, lookup_insert_eq, Em. split; [done|]. split; [done|].
  split; [|by right]. by rewrite (un_dropped _ _ _ _ _ _ Hn).
Qed.

#[global] Instance Registration_laws : EventedLaws EventedRegistration.
Proof using PL.
  refine {| ev_live := reg_live |}.
  - intros h pl tok r o j Hg Hr Hl Hi Ho.
    destruct (update_law h pl tok r o j Hg Hr Hl Hi Ho) as (res & pl' & E & H).
    exists res, h, pl'. split; [|exact H]. cbn. unfold evented_register. by rewrite E.
  - intros h pl Hg Hr Hl.
    destruct (update_law h pl null_token Ready.empty PollOpt.empty null_job Hg Hr Hl)
      as (res & pl' & E & H); [by apply N.leb_le..|].
    exists res, h, pl'. split; [|exact H]. cbn. unfold evented_deregister. by rewrite E.
Defined.

(** ** Timers *)

Context {slab : Type → Type} {SO : SlabOps slab} {SL : SlabLaws slab} {T : Type}.
#[local] Abbreviation Timer := (Timer slab ptr T).
#[local] Instance timer_ops : Evented J P K Timer := Timer_evented null_job.

(** The timer is well formed, and registered with this poll if at all. *)
Definition timer_live pl (t : Timer) : Prop :=
  TimerProps.ok (λ _, False) t ∧
  world_ok (RL := poll_laws null_job (p_queue pl)) t (p_world pl).

(** A live registration is one of a well-formed queue. *)
Lemma live_good pl w p :
  coherent (p_selector pl) → live (p_queue pl) w p → poll_good (with_world w pl).
Proof.
  intros Hc (x & st & d & refs & n & Hi & _). split; [exact Hc|]. by eexists _, _, _, _.
Qed.

#[global] Instance Timer_laws : EventedLaws Timer.
Proof using SL.
  refine {| ev_live := timer_live |}.
  - intros t pl tok r o j Hg Hr [Hok Hw] Hi Ho. pose proof Hg as [Hc Hq].
    destruct (TimerProps.register_ok (RL := poll_laws null_job (p_queue pl)) _ t (p_world pl) tok r o
      Hok Hw (conj Hq Hr) Hi Ho) as (res & t' & w' & E & Hok' & Hw' & _ & _ & _ & Hm).
    exists res, t', (with_world w' pl). split; [unfold ev_register; cbn; by rewrite E|].
    split; [|by split; [|split]].
    destruct (t_inner t) as [i|].
    + destruct Hm as (_ & _ & ->). by destruct pl.
    + destruct Hm as [_ [i' Ei]]. unfold world_ok in Hw'. rewrite Ei in Hw'.
      exact (live_good pl w' (i_handle i') Hc Hw').
  - intros t pl Hg Hr [Hok Hw]. pose proof Hg as [Hc Hq].
    unfold ev_deregister. cbn. unfold Timer.deregister, borrow.
    unfold world_ok in Hw. destruct (t_inner t) as [i|] eqn:Ei.
    + destruct (@rd_deregister_live _ _ _ (poll_laws null_job (p_queue pl)) (p_world pl) (i_handle i)
        (conj Hq Hr) Hw)
        as (res & w' & E & Hl).
      eexists res, t, (with_world w' pl). split; [by rewrite E|].
      split; [exact (live_good pl w' (i_handle i) Hc Hl)|]. split; [done|]. split; [exact Hok|].
      unfold world_ok. by rewrite Ei.
    + eexists _, t, (with_world (p_world pl) pl). split; [reflexivity|].
      split; [by destruct pl|]. split; [done|]. split; [exact Hok|]. unfold world_ok. by rewrite Ei.
Defined.

(** ** Any handle *)

Inductive handle :=
  | HFd (h : EventedFd)
  | HAwakener (h : Awakener)
  | HStream (h : TcpStream)
  | HListener (h : TcpListener)
  | HRegistration (h : EventedRegistration)
  | HTimer (h : Timer).

(** [handle_case h f] is [f] of the handle, whatever its type. *)
Definition handle_case {A} (f : ∀ E, Evented J P K E → E → (E → handle) → A) (h : handle) : A :=
  match h with
  | HFd h => f _ fd_ops h HFd
  | HAwakener h => f _ awakener_ops h HAwakener
  | HStream h => f _ stream_ops h HStream
  | HListener h => f _ listener_ops h HListener
  | HRegistration h => f _ registration_ops h HRegistration
  | HTimer h => f _ timer_ops h HTimer
  end.

Definition register_handle (h : handle) pl tok r o j : exec (io_result unit * handle * Poll) :=
  handle_case (λ E EE x make,
    poll_register pl x tok r o j ≫= λ '(res, x, pl), Done (res, make x, pl)) h.
Definition deregister_handle (h : handle) pl : exec (io_result unit * handle * Poll) :=
  handle_case (λ E EE x make,
    poll_deregister pl x ≫= λ '(res, x, pl), Done (res, make x, pl)) h.

(** A registration and a timer have conditions, a descriptor has none. *)
Definition handle_live pl (h : handle) : Prop :=
  match h with
  | HRegistration h => reg_live pl h
  | HTimer t => timer_live pl t
  | _ => True
  end.

Lemma handle_laws h :
  (∀ pl tok r o j, poll_good pl → poll_room pl → handle_live pl h → ready_0 r <= 15 → opt_0 o <= 15 →
     ∃ res h' pl', register_handle h pl tok r o j = Done (res, h', pl') ∧
       poll_good pl' ∧ same_poll pl pl' ∧ handle_live pl' h') ∧
  (∀ pl, poll_good pl → poll_room pl → handle_live pl h →
     ∃ res h' pl', deregister_handle h pl = Done (res, h', pl') ∧
       poll_good pl' ∧ same_poll pl pl' ∧ handle_live pl' h').
Proof using KL PL SL.
  split; [intros pl tok r o j Hg Hr Hl Hi Ho|intros pl Hg Hr Hl].
  - destruct h as [h|h|h|h|h|h];
      [pose (L := EventedFd_laws)|pose (L := Awakener_laws)|pose (L := TcpStream_laws)|pose (L := TcpListener_laws)
      |pose (L := Registration_laws)|pose (L := Timer_laws)];
      destruct (@register_law _ _ L h pl tok r o j Hg Hr Hl Hi Ho) as (res & h' & pl' & E & H);
      unfold register_handle, handle_case, poll_register;
      rewrite E; (eexists _, _, _; split; [reflexivity|exact H]).
  - destruct h as [h|h|h|h|h|h];
      [pose (L := EventedFd_laws)|pose (L := Awakener_laws)|pose (L := TcpStream_laws)|pose (L := TcpListener_laws)
      |pose (L := Registration_laws)|pose (L := Timer_laws)];
      destruct (@deregister_law _ _ L h pl Hg Hr Hl) as (res & h' & pl' & E & H);
      unfold deregister_handle, handle_case, poll_deregister;
      rewrite E; (eexists _, _, _; split; [reflexivity|exact H]).
Qed.

(** C36 Whatever is registered with a poll - a descriptor, an awakener, a
    socket, a registration or a timer - a poll that is well formed stays well formed: to
    register and then deregister a live handle does not panic, keeps the
    selector coherent, the queue linked and counted and the identity of the
    poll, and the handle stays live. *)
Theorem evented_keeps_poll (h : handle) pl tok r o j :
  poll_good pl → poll_room pl → handle_live pl h → ready_0 r <= 15 → opt_0 o <= 15 →
  ∃ res h1 pl1, register_handle h pl tok r o j = Done (res, h1, pl1) ∧
    poll_good pl1 ∧ same_poll pl pl1 ∧ handle_live pl1 h1 ∧
    (poll_room pl1 →
     ∃ res' h2 pl2, deregister_handle h1 pl1 = Done (res', h2, pl2) ∧
       poll_good pl2 ∧ same_poll pl pl2 ∧ handle_live pl2 h2).
Proof using KL PL SL.
  intros Hg Hr Hl Hi Ho.
  destruct (proj1 (handle_laws h) pl tok r o j Hg Hr Hl Hi Ho)
    as (res & h1 & pl1 & E1 & Hg1 & Hs1 & Hl1).
  exists res, h1, pl1. split; [exact E1|]. split; [done|]. split; [done|]. split; [done|].
  intros Hr1. destruct (proj2 (handle_laws h1) pl1 Hg1 Hr1 Hl1)
    as (res' & h2 & pl2 & E2 & Hg2 & Hs2 & Hl2).
  exists res', h2, pl2. split; [exact E2|]. split; [done|]. split; [|done].
  destruct Hs1, Hs2. split; congruence.
Qed.

(** ** Sockets and polls *)

Lemma associate_again s pl :
  sid_id s = sel_id (p_selector pl) → associate_selector s pl = (IoOk (), s).
Proof.
  intros E. unfold associate_selector. rewrite <- E, N.eqb_refl, andb_false_r. by destruct s.
Qed.

Lemma stream_sys_deregister (s : TcpStream) pl res s' pl' :
  ev_deregister s pl = Done (res, s', pl') → s' = s.
Proof.
  intros E. unfold ev_deregister in E. cbn in E.
  destruct (EventedFd_deregister _ _ _) as [[r sel]| |]; [|done..].
  injection E as _ <- _. by destruct s as [[] []].
Qed.

(** A socket belongs to the first poll it is registered with: the attempt
    binds it, whether the kernel accepts the descriptor or not, and from then
    on, even after it was deregistered, it and the sockets cloned from it
    cannot be registered with a poll of another identity, which that changes
    nothing of, while its own poll accepts it again. *)
Theorem socket_bound_to_poll (s : TcpStream) pl tok r o j res s1 pl1 :
  sid_id (stream_selector_id s) = 0 → sel_id (p_selector pl) ≠ 0 →
  ev_register s pl tok r o j = Done (res, s1, pl1) →
  stream_sys s1 = stream_sys s ∧
  sid_id (SelectorId_clone (stream_selector_id s1)) = sel_id (p_selector pl) ∧
  ∀ res' s2 pl2, ev_deregister s1 pl1 = Done (res', s2, pl2) →
    (∀ other tok' r' o' j', sel_id (p_selector other) ≠ sel_id (p_selector pl) →
       ev_register s2 other tok' r' o' j' = Done (IoErr (OtherError 0), s2, other)) ∧
    (∀ tok' r' o' j', sel_id (p_selector pl2) = sel_id (p_selector pl) →
       ∃ sel, EventedFd_register (p_selector pl2) (stream_inner (stream_sys s)) tok' r' o' j' = sel ∧
         ev_register s2 pl2 tok' r' o' j' = Done (sel.1, s2, with_selector sel.2 pl2)).
Proof.
  intros Hid Hpl E. unfold ev_register in E. cbn in E. unfold associate_selector in E.
  rewrite Hid in E. cbn [N.eqb negb andb] in E.
  destruct (EventedFd_register _ _ _ _ _ _) as [r0 sel0]. injection E as <- <- <-.
  split; [by destruct s as [[] ?]|]. split; [done|]. intros res' s2 pl2 Ed.
  apply stream_sys_deregister in Ed as ->. split.
  - intros other tok' r' o' j' Hne. unfold ev_register. cbn. unfold associate_selector. cbn [sid_id].
    apply N.eqb_neq in Hpl as ->. rewrite N.eqb_sym. by apply N.eqb_neq in Hne as ->.
  - intros tok' r' o' j' Heq. eexists. split; [reflexivity|]. unfold ev_register. cbn.
    rewrite associate_again by (by rewrite Heq).
    by destruct (EventedFd_register _ _ _ _ _ _) as [r1 sel1].
Qed.
End EventedProps.

Module EventedDemo.
Definition pl : Poll.Poll nat N ScriptEpoll.t := PollDemo.pl.
Definition stream : TcpStream := mkTcpStream (mkSysStream 9) SelectorId_new.
Definition tok : TokenEntry := SelectorDemo.sock 3.

Lemma pl_good : poll_good pl.
Proof.
  split; [exact SelectorDemo.sel_coherent|].
  destruct QueueDemo.w4_inv as (x & Hi & _). by eexists x, _, _, _.
Qed.

Lemma not_marker_10 : (10 : ptr) ∉ [1; 2; 3].
Proof. set_solver. Qed.

Lemma node_live : reg_live pl (mkRegistration 10).
Proof.
  destruct QueueDemo.w4_inv as (x & Hi & Em).
  exists x, SEnd, [10; 11], QueueDemo.refs2, (QueueDemo.node QueueDemo.w4 10).
  split; [exact Hi|]. split; [by vm_compute|]. split; [rewrite Em; exact not_marker_10|].
  split; [by vm_compute|right; by vm_compute].
Qed.
End EventedDemo.
Import EventedDemo.

(** The node 10 of the queue, moved to another token. *)
Lemma evented_keeps_poll_witness :
  let h : handle (slab := VecSlab.t) (T := nat) := HRegistration (mkRegistration 10) in
  handle_live 0%nat pl h ∧
  ∃ res h1 pl1, register_handle 0%nat true h pl tok Ready.readable PollOpt.edge 5%nat
      = Done (res, h1, pl1) ∧
    poll_good pl1 ∧ same_poll pl pl1 ∧ handle_live 0%nat pl1 h1 ∧
    (poll_room pl1 →
     ∃ res' h2 pl2, deregister_handle 0%nat true h1 pl1 = Done (res', h2, pl2) ∧
       poll_good pl2 ∧ same_poll pl pl2 ∧ handle_live 0%nat pl2 h2).
Proof.
  split; [exact node_live|].
  apply (evented_keeps_poll 0%nat true (HRegistration (mkRegistration 10)) pl tok Ready.readable
    PollOpt.edge 5%nat pl_good); [by vm_compute|exact node_live|by apply N.leb_le..].
Defined.

Lemma socket_bound_to_poll_witness :
  ∃ res s1 pl1,
    ev_register (Evented := TcpStream_evented true) stream pl tok Ready.readable PollOpt.edge 5%nat
      = Done (res, s1, pl1) ∧
  stream_sys s1 = stream_sys stream ∧
  sid_id (SelectorId_clone (stream_selector_id s1)) = sel_id (p_selector pl) ∧
  ∀ res' s2 (pl2 : Poll.Poll nat N ScriptEpoll.t), ev_deregister (Evented := TcpStream_evented true) s1 pl1 = Done (res', s2, pl2) →
    (∀ (other : Poll.Poll nat N ScriptEpoll.t) tok' r' o' j', sel_id (p_selector other) ≠ sel_id (p_selector pl) →
       ev_register (Evented := TcpStream_evented true) s2 other tok' r' o' j'
         = Done (IoErr (OtherError 0), s2, other)) ∧
    (∀ tok' r' o' j', sel_id (p_selector pl2) = sel_id (p_selector pl) →
       ∃ sel, EventedFd_register (p_selector pl2) (stream_inner (stream_sys stream)) tok' r' o' j' = sel ∧
         ev_register (Evented := TcpStream_evented true) s2 pl2 tok' r' o' j'
           = Done (sel.1, s2, with_selector sel.2 pl2)).
Proof.
  eexists _, _, _. split; [reflexivity|].
  by eapply (socket_bound_to_poll true stream pl tok Ready.readable PollOpt.edge 5%nat).
Defined.
