(* ===== verification/EventLoop.v ===== *)
(** * The event loop

    [src/src/net/event_loop.rs].  A loop has a poll and a timer registered with
    it; its jobs are closures, which may change the loop, and the rest of the
    world [U], when they run: [run_job] and [run_timer] are the calls of a job
    (with its lock) and of a timeout, [drop_job] is what dropping a job does,
    [clock] reads the time. *)
From S2P Require Import Prelude EventSet ReadinessState Duration LazyCell Awakener Selector.
From S2P Require Import ReadinessQueue Registration Interfaces Timer PollReadiness Poll Evented.

(** ** Configuration *)

Record Config := mkConfig {
  c_notify_capacity : N;
  c_messages_per_tick : N;
  c_timer_tick : Duration;
  c_timer_wheel_size : N;
  c_timer_capacity : N;
}.

Definition Config_default : Config := mkConfig 4096 256 (from_millis 100) 1024 65536.

(** The setters of [EventLoopBuilder]. *)
Definition notify_capacity (c : Config) (capacity : N) : Config :=
  mkConfig capacity (c_messages_per_tick c) (c_timer_tick c) (c_timer_wheel_size c) (c_timer_capacity c).
Definition messages_per_tick (c : Config) (messages : N) : Config :=
  mkConfig (c_notify_capacity c) messages (c_timer_tick c) (c_timer_wheel_size c) (c_timer_capacity c).
Definition timer_tick (c : Config) (val : Duration) : Config :=
  mkConfig (c_notify_capacity c) (c_messages_per_tick c) val (c_timer_wheel_size c) (c_timer_capacity c).
Definition timer_wheel_size (c : Config) (size : N) : Config :=
  mkConfig (c_notify_capacity c) (c_messages_per_tick c) (c_timer_tick c) size (c_timer_capacity c).
Definition timer_capacity (c : Config) (cap : N) : Config :=
  mkConfig (c_notify_capacity c) (c_messages_per_tick c) (c_timer_tick c) (c_timer_wheel_size c) cap.

(** The casts between [usize] and [i64]. *)
Definition usize_as_i64 (n : N) : Z := if n <? 2 ^ 63 then Z.of_N n else (Z.of_N n - 2 ^ 64)%Z.
Definition i64_as_usize (z : Z) : N := Z.to_N (z mod 2 ^ 64).

Section EventLoop.
Context {J : Type} (null_job : J) (grow : N → N).
Context {P : Type} {PO : PipeOps P}.
Context {K : Type} {KO : EpollOps K}.
Context {slab : Type → Type} {SO : SlabOps slab} {T : Type}.

Record EventLoop := mkEventLoop {
  el_run : bool;
  el_poll : Poll J P K;
  el_timer : Timer slab ptr T;
}.
Implicit Types el : EventLoop.

Definition with_run b el := mkEventLoop b (el_poll el) (el_timer el).
Definition with_poll p el := mkEventLoop (el_run el) p (el_timer el).
Definition with_timer t el := mkEventLoop (el_run el) (el_poll el) t.
Definition el_queue el : qid := p_queue (el_poll el).
Definition el_world el : World (J:=J) (P:=P) := p_world (el_poll el).

(** [EventLoop::configured]: the poll, then the timer, registered for
    edge-triggered readiness with the token type [TimersEvent]. *)
Definition configured (config : Config) (next_id : N) (create1 : option (io_result (Z * K)))
    (create : io_result (Z * K)) (awakener : io_result P) (reader : Z)
    (q : qid) (end_marker sleep_marker closed_marker : ptr) (now : Instant)
    (w : World (J:=J) (P:=P)) : exec (io_result EventLoop * N) :=
  Poll_new null_job next_id create1 create awakener reader q end_marker sleep_marker closed_marker w
    ≫= λ '(r, next_id),
  match r with
  | IoErr e => Done (IoErr e, next_id)
  | IoOk poll =>
      let b := capacity (num_slots (tick_duration Builder_default (c_timer_tick config))
                 (c_timer_wheel_size config)) (c_timer_capacity config) in
      build b now ≫= λ timer,
      ev_register (Evented := Timer_evented null_job) timer poll
        (mkTokenEntry TimersEvent (mkToken 0)) Ready.readable PollOpt.edge null_job
        ≫= λ '(r, timer, poll),
      match r with
      | IoErr e => Done (IoErr e, next_id)
      | IoOk _ => Done (IoOk (mkEventLoop false poll timer), next_id)
      end
  end.

(** [EventLoop::new]. *)
Definition EventLoop_new : N → option (io_result (Z * K)) → io_result (Z * K) → io_result P → Z → qid →
    ptr → ptr → ptr → Instant → World (J:=J) (P:=P) → exec (io_result EventLoop * N) :=
  configured Config_default.

(** [timeout] and [clear_timeout]. *)
Definition timeout (now : Instant) (delay : Duration) (token : T) el : exec (Timeout * EventLoop) :=
  set_timeout (el_timer el) now delay token ≫= λ '(r, t), Done (r, with_timer t el).
Definition clear_timeout (to : Timeout) el : exec (bool * EventLoop) :=
  cancel_timeout (el_timer el) to ≫= λ '(r, t),
  Done (match r with Some _ => true | None => false end, with_timer t el).

(** [shutdown]: a compare-and-exchange of [true] for [false]. *)
Definition shutdown el : EventLoop := if el_run el then with_run false el else el.
Definition is_running el : bool := el_run el.

(** [register], [reregister] and [deregister]. *)
Definition loop_register {E} `{Evented J P K E} el (io : E) tok r o j
    : exec (io_result unit * E * EventLoop) :=
  poll_register (el_poll el) io tok r o j ≫= λ '(res, io, pl), Done (res, io, with_poll pl el).
Definition loop_reregister {E} `{Evented J P K E} el (io : E) tok r o
    : exec (io_result unit * E * EventLoop) :=
  poll_reregister (el_poll el) io tok r o ≫= λ '(res, io, pl), Done (res, io, with_poll pl el).
Definition loop_deregister {E} `{Evented J P K E} el (io : E)
    : exec (io_result unit * E * EventLoop) :=
  poll_deregister (el_poll el) io ≫= λ '(res, io, pl), Done (res, io, with_poll pl el).

(** [enqueue_job]: a registration at the address [p], made ready before it is
    registered; [wrap job] is the closure that holds its two handles and calls
    the job.  The results are unwrapped. *)
Definition enqueue_job (wrap : ptr → J → J) (p : ptr) (cb : J) el : exec EventLoop :=
  on_queue (new2 null_job p) (el_poll el) ≫= λ '((r, s), pl),
  let job := wrap p cb in
  on_queue (set_readiness s Ready.readable) pl ≫= λ '(res, pl),
  match res with
  | IoErr _ => Panic PUnwrap
  | IoOk _ =>
      let el := with_poll pl el in
      loop_register (H := Registration_evented null_job) el (mkRegistration r)
        (mkTokenEntry OtherEvent (mkToken 0)) Ready.readable PollOpt.edge job ≫= λ '(res, _, el),
      match res with
      | IoErr _ => Panic PUnwrap
      | IoOk _ => Done el
      end
  end.

(** ** Running *)

Context {U : Type}.
#[local] Abbreviation M := (stm (EventLoop * U)).
Context (run_job : J → Z → M unit) (drop_job : J → M unit) (run_timer : T → M unit).
Context (clock : U → Instant * U).

(** [timer.poll()] with the timer of the loop. *)
Definition timer_poll (budget : nat) : M (option T) := λ '(el, u),
  let '(now, u) := clock u in
  @Timer.poll slab SO _ _ (poll_ops null_job (el_queue el)) T budget (el_timer el) (el_world el) now
    ≫= λ '(r, t, w),
  Done (r, (with_timer t (with_poll (with_world w (el_poll el)) el), u)).

(** [while let Some(mut t) = timer.poll() { t(); }] *)
Fixpoint timer_jobs (fuel budget : nat) : M unit :=
  match fuel with
  | O => λ _, NoFuel
  | S fuel =>
      timer_poll budget ≫= λ r,
      match r with
      | Some t => run_timer t ≫= λ _, timer_jobs fuel budget
      | None => mret tt
      end
  end.

Definition process_entry (fuel : nat) (job_entry : JobEntry J) : M unit :=
  match ttype (token_entry job_entry) with
  | TimersEvent => timer_jobs fuel fuel
  | _ => run_job (job job_entry) (usize_as_i64 (ready_as_usize (ready job_entry)))
  end.

(** The [while] loop of [io_process], from [i] to [cnt] in [steps] steps. *)
Fixpoint io_loop (steps fuel : nat) (events : Events (J:=J)) (cnt i : N) : M unit :=
  match steps with
  | O => λ _, NoFuel
  | S steps =>
      if i <? cnt then
        match Events_get_mut events i with
        | Some job_entry => process_entry fuel job_entry
        | None => mret tt
        end ≫= λ _,
        io_loop steps fuel events cnt (i + 1)
      else mret tt
  end.

(** Clearing the events drops their jobs. *)
Fixpoint drop_entries (l : list (JobEntry J)) : M unit :=
  match l with
  | [] => mret tt
  | e :: l => drop_job (job e) ≫= λ _, drop_entries l
  end.

Definition io_process (fuel : nat) (events : Events (J:=J)) (cnt : N) : M (Events (J:=J)) :=
  io_loop (S (N.to_nat cnt)) fuel events cnt 0 ≫= λ _,
  drop_entries (ev_entries events) ≫= λ _,
  mret (Events_clear events).

Definition io_poll (fuel : nat) (elapsed : nat → Duration) (events : Events (J:=J))
    (timeout : option Duration) el : exec (io_result N * EventLoop * Events (J:=J)) :=
  Poll_poll null_job grow fuel elapsed timeout events (el_poll el) ≫= λ '(r, pl, events),
  Done (r, with_poll pl el, events).

(** [run_once]; [elapsed] as in [poll2]. *)
Definition run_once (fuel : nat) (elapsed : nat → Duration) (timeout : option Duration)
    : M (io_result unit) := λ '(el, u),
  let events := Events_with_capacity (1024 * 4) in
  io_poll fuel elapsed events timeout el ≫= λ '(r, el, events),
  match r with
  | IoOk e =>
      (io_process fuel events e ≫= λ _, mret (IoOk ())) (el, u)
  | IoErr Interrupted =>
      (io_process fuel events 0 ≫= λ _, mret (IoOk ())) (el, u)
  | IoErr err => Done (IoErr err, (el, u))
  end.

(** The [while] loop of [run]; [elapsed i] is for its [i]-th iteration. *)
Fixpoint run_loop (iterations fuel : nat) (elapsed : nat → nat → Duration) (i : nat)
    : M (io_result unit) :=
  match iterations with
  | O => λ _, NoFuel
  | S iterations => λ '(el, u),
      if el_run el then
        (run_once fuel (elapsed i) None ≫= λ r,
         match r with
         | IoErr e => mret (IoErr e)
         | IoOk _ => run_loop iterations fuel elapsed (S i)
         end) (el, u)
      else Done (IoOk (), (el, u))
  end.

(** [run] sets the flag, whatever it was. *)
Definition run (iterations fuel : nat) (elapsed : nat → nat → Duration) : M (io_result unit) :=
  λ '(el, u),
  let el := if el_run el then el else with_run true el in
  run_loop iterations fuel elapsed 0 (el, u).
End EventLoop.
Arguments EventLoop J P K slab T : clear implicits.
Arguments mkEventLoop {J P K slab T} _ _ _.
Arguments el_run {J P K slab T} _.
Arguments el_poll {J P K slab T} _.
Arguments el_timer {J P K slab T} _.
