(* ===== verification/EventLoopProps.v ===== *)
(** * The event loop: properties

    One pass of the loop of [EventLoop] runs the job of every event once and in
    order, its timer event runs the timeouts that are due, a job handed over
    by [enqueue_job] is run, and [run] stops at a shutdown. *)
From Stdlib Require Import Sorting.Sorted.
From S2P Require Import Prelude EventSet ReadinessState Duration LazyCell Awakener Selector.
From S2P Require Import ReadinessQueue Registration QueueInv QueueSpec RegistrationSpec.
From S2P Require Import HandleSpec QueueProps Interfaces Timer DList TimerInv TimerSpec.
From S2P Require Import TimerProps TimerTheorems PollReadiness Poll PollProps Evented EventedProps EventLoop.

Section EventLoopProps.
Context {J : Type} (null_job : J) (grow : N → N).
Context {P : Type} {PO : PipeOps P} {PL : PipeLaws P}.
Context {K : Type} {KO : EpollOps K} {KL : EpollLaws K}.
Context {slab : Type → Type} {SO : SlabOps slab} {SL : SlabLaws slab} {T U : Type}.
#[local] Abbreviation EL := (EventLoop J P K slab T).
#[local] Abbreviation M := (stm (EL * U)).
Context (run_job : J → Z → M unit) (drop_job : J → M unit) (run_timer : T → M unit).
Context (clock : U → Instant * U).
Implicit Types (el : EL) (u : U).
#[local] Abbreviation entry_job := (process_entry null_job run_job run_timer clock).

(** ** Processing the events *)

(** Running the entries one after the other: the reference for the loop. *)
Fixpoint run_entries (fuel : nat) (l : list (JobEntry J)) : M unit :=
  match l with
  | [] => mret tt
  | e :: l => entry_job fuel e ≫= λ _, run_entries fuel l
  end.

Lemma io_loop_entries fuel (events : Events (J:=J)) cnt steps i s :
  (N.to_nat cnt - i < steps)%nat →
  io_loop null_job run_job run_timer clock steps fuel events cnt (N.of_nat i) s
    = run_entries fuel (drop i (take (N.to_nat cnt) (ev_entries events))) s.
Proof.
  revert i s. induction steps as [|steps IH]; intros i s Hs; [lia|]. cbn [io_loop].
  destruct (N.ltb_spec (N.of_nat i) cnt) as [Hlt|Hge].
  - replace (N.of_nat i + 1) with (N.of_nat (S i)) by lia.
    assert (Events_get_mut events (N.of_nat i) = ev_entries events !! i) as ->.
    { unfold Events_get_mut, nth64. by rewrite Nat2N.id. }
    destruct (ev_entries events !! i) as [e|] eqn:Ee.
    + assert (take (N.to_nat cnt) (ev_entries events) !! i = Some e) as Et
        by (rewrite lookup_take_lt by lia; exact Ee).
      rewrite (drop_S _ _ _ Et). cbn [run_entries]. unfold mbind, stm_bind.
      destruct (entry_job fuel e s) as [[[] s']| |]; [|done..]. apply IH. lia.
    + unfold mbind, stm_bind, mret, stm_ret. rewrite IH by lia.
      apply lookup_ge_None in Ee. rewrite !drop_ge; [done|rewrite length_take; lia..].
  - rewrite drop_ge; [done|rewrite length_take; lia].
Qed.

Lemma io_process_entries fuel (events : Events (J:=J)) cnt s :
  io_process null_job run_job drop_job run_timer clock fuel events cnt s =
    (run_entries fuel (take (N.to_nat cnt) (ev_entries events)) ≫= λ _,
     drop_entries drop_job (ev_entries events) ≫= λ _,
     mret (Events_clear events)) s.
Proof.
  unfold io_process, mbind, stm_bind at 1.
  rewrite (io_loop_entries fuel events cnt _ 0) by lia. by rewrite drop_0.
Qed.

(** C27 [io_process] runs the events one after the other: its indexed loop over
    a buffer that lends one entry at a time is the left-to-right run of the
    first [cnt] entries, each exactly once whatever the jobs do to the loop,
    followed by the drop of every job of the buffer; the buffer is empty after. *)
Theorem io_process_in_order fuel (events : Events (J:=J)) cnt s :
  io_process null_job run_job drop_job run_timer clock fuel events cnt s =
    (run_entries fuel (take (N.to_nat cnt) (ev_entries events)) ≫= λ _,
     drop_entries drop_job (ev_entries events) ≫= λ _,
     mret (Events_clear events)) s.
Proof. apply io_process_entries. Qed.

(** ** Timeouts *)

(** The timer of the loop is well formed and registered with its poll, if at all. *)
Definition timer_ok el : Prop :=
  TimerProps.ok (λ _, False) (el_timer el) ∧
  world_ok (RL := poll_laws null_job (el_queue el)) (el_timer el) (el_world el).

Definition pending el : gmap N (Tick * T) := content (el_timer el).

(** A call that changes only the timer and the nodes of the queue. *)
Definition same_loop el el' : Prop :=
  el_run el' = el_run el ∧ el_queue el' = el_queue el ∧
  p_selector (el_poll el') = p_selector (el_poll el).

#[global] Instance same_loop_preorder : PreOrder same_loop.
Proof.
  split; [by intros el|]. intros el1 el2 el3 (?&?&?) (?&?&?). split_and!; by etransitivity.
Qed.

(** The wakeup word of a registered timer bounds its deadlines, and its
    readiness is cleared. *)
Definition loop_armed el : Prop :=
  match t_inner (el_timer el) with
  | Some i => poll_readiness (el_world el) (i_handle i) = Ready.empty ∧
      ∀ x d s, pending el !! x = Some (d, s) → i_wakeup_state i <= d
  | None => True
  end.

Lemma timer_poll_ok budget el u k :
  timer_ok el →
  current_tick (t_start (el_timer el)) (t_tick_ms (el_timer el)) (clock u).1 = Done k →
  N.max k (t_tick (el_timer el)) < u64_max → (poll_fuel (el_timer el) k <= budget)%nat →
  ∃ r el', timer_poll null_job clock budget (el, u) = Done (r, (el', (clock u).2)) ∧
    timer_ok el' ∧ same_loop el el' ∧
    match r with
    | Some s => ∃ x d, pending el !! x = Some (d, s) ∧ d <= N.max k (t_tick (el_timer el)) ∧
        t_tick (el_timer el') = d ∧ pending el' = delete x (pending el) ∧
        t_start (el_timer el') = t_start (el_timer el) ∧
        t_tick_ms (el_timer el') = t_tick_ms (el_timer el) ∧
        ∀ x' d' s', pending el !! x' = Some (d', s') → d <= d'
    | None => pending el' = pending el ∧ loop_armed el' ∧
        ∀ x d s, pending el !! x = Some (d, s) → k < d
    end.
Proof using SL.
  intros [[ch Hg] Hw] Ek Hk Hf.
  destruct (poll_to_spec (RL := poll_laws null_job (el_queue el)) _ budget (el_timer el) ch
    (el_world el) k Hg Hw Hk Hf)
    as (r & t1 & t' & w' & ch' & _ & E & (Hs & _ & Hr) & Hg' & Hw' & Ec & Et & Ha).
  exists r, (with_timer t' (with_poll (with_world w' (el_poll el)) el)).
  split.
  { unfold timer_poll. destruct (clock u) as [now u']. cbn [fst snd] in *. unfold Timer.poll.
    rewrite Ek. cbn [mbind exec_bind]. by rewrite E. }
  split; [by split; [exists ch'|]|]. split; [done|]. rewrite poll_target_max in Hr.
  unfold pending. cbn [el_timer with_timer]. destruct r as [s|].
  - destruct Hr as (x & d & Ex & Hd & _ & Hnow & Ed & Hmin). destruct Ha as [-> _].
    destruct Hs as (Em & Es & _). exists x, d. split; [exact Ex|]. split; [exact Hd|].
    split; [exact (Hnow id)|]. split; [exact Ed|]. split; [exact Es|]. split; [exact Em|].
    intros x' d' s' E'. exact (Hmin x' d' s' E' id).
  - destruct Hr as (E1 & _ & _ & Hd). rewrite Ec, E1. split; [done|]. split.
    + unfold loop_armed, armed, pending in *. cbn [el_timer with_timer]. rewrite Ec, E1 in *.
      destruct (t_inner t1) as [j|]; destruct (t_inner t') as [i|]; try done.
      destruct Ha as (_ & Hrd & _ & Hall). split; [exact Hrd|]. intros x d s Ex. exact (Hall x d s Ex id).
    + intros x d s Ex. assert (N.max k (t_tick (el_timer el)) < d) by (exact (Hd x d s Ex id)). lia.
Qed.

(** The clock is read, and the timeouts [l] run in turn with [eff] their effect
    on the rest of the world: the last reading and that world. *)
Fixpoint readings (eff : T → U → U) (l : list (N * (Tick * T))) u : Instant * U :=
  match l with
  | [] => clock u
  | (_, (_, t)) :: l => readings eff l (eff t (clock u).2)
  end.

(** The clock stays within [bound] ticks. *)
Definition clock_within el (bound : Tick) : Prop :=
  ∀ u, ∃ k, current_tick (t_start (el_timer el)) (t_tick_ms (el_timer el)) (clock u).1 = Done k
    ∧ k <= bound.

Lemma timer_jobs_ok (eff : T → U → U) bound budget n el u :
  (∀ t el u, run_timer t (el, u) = Done (tt, (el, eff t u))) →
  clock_within el bound → bound < u64_max → t_tick (el_timer el) <= bound →
  timer_ok el → (N.to_nat (bound + 2) * S (size (pending el)) <= budget)%nat →
  (size (pending el) < n)%nat →
  ∃ l el', timer_jobs null_job run_timer clock n budget (el, u) = Done (tt, (el', (readings eff l u).2)) ∧
    StronglySorted by_deadline l ∧
    map_to_list (pending el) ≡ₚ l ++ map_to_list (pending el') ∧
    timer_ok el' ∧ same_loop el el' ∧ loop_armed el' ∧
    ∃ k, current_tick (t_start (el_timer el)) (t_tick_ms (el_timer el)) (readings eff l u).1 = Done k ∧
      ∀ x d s, pending el' !! x = Some (d, s) → k < d.
Proof using SL.
  clear grow run_job drop_job.
  intros Hjob Hclk Hb. revert el u Hclk. induction n as [|n IH]; intros el u Hclk Htick Hok Hbud Hn; [lia|].
  destruct (Hclk u) as (k & Ek & Hk).
  destruct (timer_poll_ok budget el u k Hok Ek) as (r & el1 & E1 & Hok1 & Hs1 & Hr); [lia| |].
  { etransitivity; [|exact Hbud]. apply Nat.mul_le_mono_r. lia. }
  cbn [timer_jobs]. rewrite (stm_step _ _ _ _ _ E1). destruct r as [t|].
  - destruct Hr as (x & d & Ex & Hd & Et & Ed & Estart & Ems & Hmin).
    assert (S (size (pending el1)) = size (pending el)) as Hsz.
    { rewrite Ed, map_size_delete_Some by eauto. apply Nat.succ_pred.
      eapply map_size_ne_0_lookup_2. eauto. }
    rewrite (stm_step _ _ _ _ _ (Hjob t el1 (clock u).2)).
    destruct (IH el1 (eff t (clock u).2)) as (l & el' & E & Hsort & Hperm & Hok' & Hs' & Ha & k' & Ek' & Hl);
      [by intros u'; rewrite Estart, Ems|lia|done|nia|lia|].
    exists ((x, (d, t)) :: l), el'. rewrite E. split; [done|].
    assert (map_to_list (pending el) ≡ₚ (x, (d, t)) :: l ++ map_to_list (pending el')) as Hp.
    { rewrite <- Hperm, Ed. rewrite <- map_to_list_insert by apply lookup_delete_eq.
      by rewrite insert_delete_id. }
    split.
    { constructor; [done|]. apply Forall_forall. intros [x' [d' s']] Hin. apply (Hmin x' d' s').
      apply elem_of_map_to_list. rewrite Hp. set_solver. }
    split; [exact Hp|]. split; [done|]. split; [by etransitivity|]. split; [done|].
    exists k'. by rewrite Estart, Ems in Ek'.
  - destruct Hr as (Ep & Ha & Hd). exists [], el1. split; [done|]. split; [constructor|].
    rewrite Ep. split; [done|]. split; [done|]. split; [done|]. split; [done|].
    by exists k.
Qed.

(** The timer event runs what is due: with timeouts that do not touch the
    loop, the event runs a list of pending timeouts in the order of their
    deadlines, each once, the clock read before each; it terminates, what it
    ran is no longer pending and everything else still is, none of it due at
    the last reading of the clock; and the wakeup is armed for it. *)
Theorem timer_event_runs_due (eff : T → U → U) bound fuel el u (e : JobEntry J) :
  ttype (token_entry e) = TimersEvent →
  (∀ t el u, run_timer t (el, u) = Done (tt, (el, eff t u))) →
  clock_within el bound → bound < u64_max → t_tick (el_timer el) <= bound →
  timer_ok el → (N.to_nat (bound + 2) * S (size (pending el)) <= fuel)%nat →
  ∃ l el', entry_job fuel e (el, u) = Done (tt, (el', (readings eff l u).2)) ∧
    StronglySorted by_deadline l ∧
    map_to_list (pending el) ≡ₚ l ++ map_to_list (pending el') ∧
    timer_ok el' ∧ same_loop el el' ∧ loop_armed el' ∧
    ∃ k, current_tick (t_start (el_timer el)) (t_tick_ms (el_timer el)) (readings eff l u).1 = Done k ∧
      ∀ x d s, pending el' !! x = Some (d, s) → k < d.
Proof using SL.
  clear grow drop_job.
  intros Et Hjob Hclk Hb Htick Hok Hf. unfold process_entry. rewrite Et.
  apply (timer_jobs_ok eff bound fuel fuel el u Hjob Hclk Hb Htick Hok Hf). nia.
Qed.

(** ** A new loop *)

Lemma configured_ok config next_id create1 create (a : P) reader q e s c now :
  e ≠ s → e ≠ c → s ≠ c → next_id < u64_max →
  (∀ epfd k, default create create1 = IoOk (epfd, k) → ep_data k = ∅) →
  wf_duration (c_timer_tick config) →
  c_timer_wheel_size config <= 2 ^ 63 → c_timer_capacity config <= 2 ^ 63 →
  ∃ r n', configured (T := T) null_job config next_id create1 create (IoOk a) reader q e s c now
      (mkWorld ∅ ∅) = Done (r, n') ∧
    match r with
    | IoOk el =>
        is_running el = false ∧ n' = next_id + 1 ∧ el_queue el = q ∧
        sel_id (p_selector (el_poll el)) = next_id + 1 ∧
        poll_good (el_poll el) ∧ timer_ok el ∧ pending el = ∅ ∧
        millis (c_timer_tick config) = Done (t_tick_ms (el_timer el)) ∧
        is_Some (t_inner (el_timer el))
    | IoErr err =>
        default create create1 = IoErr err ∧ n' = next_id
        ∨ ∃ epfd k ev, default create create1 = IoOk (epfd, k)
            ∧ (epoll_ctl k EPOLL_CTL_ADD reader ev).1 = IoErr err
    end.
Proof using SL KL.
  intros Hes Hec Hsc Hid Hfresh Hd Hw Hcap.
  destruct (poll_new_ok null_job next_id create1 create a reader q e s c Hes Hec Hsc Hid Hfresh)
    as (r & n' & E & Hr).
  unfold configured. rewrite E. cbn [mbind exec_bind]. destruct r as [pl|err];
    [|by exists (IoErr err), n'].
  destruct Hr as (-> & Eid & Eq & Hc & _ & _ & Hsz & x & Hi & _).
  destruct (millis_Done _ Hd) as (ms & Ems & _).
  destruct (Timer_new_ok (slab:=slab) (H:=ptr) (T:=T) ms (c_timer_wheel_size config)
    (c_timer_capacity config) now Hw Hcap) as (t & Et & Hok & Ec & _ & Ei & _ & Etk & _).
  unfold build. cbn [b_tick b_num_slots b_capacity capacity num_slots tick_duration].
  rewrite Ems. cbn [mbind exec_bind]. rewrite Et. cbn [mbind exec_bind].
  assert (poll_ok (p_queue pl) (p_world pl)) as Hp by (rewrite Eq; split; [by eexists _, _, _, _|lia]).
  assert (world_ok (RL := poll_laws null_job (p_queue pl)) t (p_world pl)) as Hw0
    by (unfold world_ok; by rewrite Ei).
  destruct (TimerProps.register_ok (RL := poll_laws null_job (p_queue pl)) _ t (p_world pl)
    (mkTokenEntry TimersEvent (mkToken 0)) Ready.readable PollOpt.edge Hok Hw0 Hp)
    as (r & t1 & w1 & E1 & Hok1 & Hw1 & Ec1 & _ & Em1 & Hm); [by apply N.leb_le..|].
  rewrite Ei in Hm. destruct Hm as [-> [i Ei1]].
  eexists (IoOk _), _. split.
  { unfold ev_register. cbn [Timer_evented]. rewrite E1. reflexivity. }
  unfold is_running, el_queue. cbn [el_run el_poll el_timer with_world p_queue p_selector p_world].
  split; [done|]. split; [done|]. split; [exact Eq|]. split; [exact Eid|]. split.
  { unfold world_ok in Hw1. rewrite Ei1 in Hw1. exact (live_good pl w1 (i_handle i) Hc Hw1). }
  split; [by split|]. unfold pending. cbn [el_timer]. rewrite Ec1, Ec. split; [done|].
  rewrite Ei1. split; [|by eexists]. by rewrite Em1, Etk.
Qed.

(** A new event loop: when the kernel gives it a selector and takes the
    reader of the awakener, it is not running, its poll is well formed, its
    timer is empty, of the configured tick, and registered with the poll, and
    it wakes for nothing; otherwise the error is returned. *)
Theorem event_loop_new config next_id create1 create (a : P) reader q e s c now :
  e ≠ s → e ≠ c → s ≠ c → next_id < u64_max →
  (∀ epfd k, default create create1 = IoOk (epfd, k) → ep_data k = ∅) →
  wf_duration (c_timer_tick config) →
  c_timer_wheel_size config <= 2 ^ 63 → c_timer_capacity config <= 2 ^ 63 →
  ∃ r n', configured (T := T) null_job config next_id create1 create (IoOk a) reader q e s c now
      (mkWorld ∅ ∅) = Done (r, n') ∧
    match r with
    | IoOk el =>
        is_running el = false ∧ n' = next_id + 1 ∧ el_queue el = q ∧
        sel_id (p_selector (el_poll el)) = next_id + 1 ∧
        poll_good (el_poll el) ∧ timer_ok el ∧ pending el = ∅ ∧
        millis (c_timer_tick config) = Done (t_tick_ms (el_timer el)) ∧
        is_Some (t_inner (el_timer el))
    | IoErr err =>
        default create create1 = IoErr err ∧ n' = next_id
        ∨ ∃ epfd k ev, default create create1 = IoOk (epfd, k)
            ∧ (epoll_ctl k EPOLL_CTL_ADD reader ev).1 = IoErr err
    end.
Proof using SL KL. apply configured_ok. Qed.
End EventLoopProps.

(** The poll of [PollDemo] with a timer of a tick of 100 ms and the deadlines
    3, 9 and 2; the clock stands at tick 5, and the log holds what ran. *)
Module LoopDemo.
Definition log : Type := list (nat * Z).
Abbreviation Loop := (EventLoop nat N ScriptEpoll.t VecSlab.t nat).

Definition clock (u : log) : Instant * log := (mkInstant 500000000, u).
Definition run_job (j : nat) (z : Z) : stm (Loop * log) unit :=
  λ '(el, u), Done (tt, (el, u ++ [(j, z)])).
Definition drop_job (j : nat) : stm (Loop * log) unit := mret tt.
Definition note (t : nat) (u : log) : log := u ++ [(t, (-1)%Z)].
Definition run_timer (t : nat) : stm (Loop * log) unit :=
  λ '(el, u), Done (tt, (el, note t u)).

Definition fresh : Timer VecSlab.t ptr nat :=
  mkTimer 100 [] (replicate 4 (mkWheel TICK_MAX EMPTY)) (mkInstant 0) 0 EMPTY 3 None.
Definition three : Timer VecSlab.t ptr nat :=
  Demo.add (Demo.add (Demo.add fresh 3 30%nat) 9 90%nat) 2 20%nat.
Definition el : Loop := mkEventLoop true PollDemo.pl three.
Definition timers : JobEntry nat :=
  mkJobEntry (mkTokenEntry TimersEvent (mkToken 0)) 0%nat Ready.empty.

Lemma loop_fresh_ok : TimerProps.ok (λ _, False) fresh.
Proof.
  destruct (Timer_new_ok (slab:=VecSlab.t) (H:=ptr) (T:=nat) 100 4 4 (mkInstant 0))
    as (t & E & Hok & _); [by vm_compute..|].
  assert (t = fresh) as -> by (vm_compute in E; vm_compute; congruence). exact Hok.
Qed.

Lemma el_ok : timer_ok 0%nat el.
Proof.
  split; [|by vm_compute]. unfold el, three. cbn [el_timer].
  eapply Demo.add_ok; [|by vm_compute|by vm_compute].
  eapply Demo.add_ok; [|by vm_compute|by vm_compute].
  eapply Demo.add_ok; [apply loop_fresh_ok|by vm_compute|by vm_compute].
Qed.

Lemma el_clock : clock_within clock el 5.
Proof. intros u. exists 5. split; [by vm_compute|done]. Qed.

(** What the pass leaves in the log: the timeouts 2 and 3. *)
Example timers_run :
  match process_entry 0%nat run_job run_timer clock 100 timers (el, []) with
  | Done (_, (_, u)) => u = [(20%nat, (-1)%Z); (30%nat, (-1)%Z)]
  | _ => False
  end.
Proof. by vm_compute. Qed.
End LoopDemo.

Lemma timer_event_runs_due_witness :
  let el := LoopDemo.el in
  ∃ l el', process_entry 0%nat LoopDemo.run_job LoopDemo.run_timer LoopDemo.clock 100 LoopDemo.timers
      (el, []) = Done (tt, (el', (readings LoopDemo.clock LoopDemo.note l []).2)) ∧
    Sorted.StronglySorted by_deadline l ∧
    map_to_list (pending el) ≡ₚ l ++ map_to_list (pending el') ∧
    timer_ok 0%nat el' ∧ same_loop el el' ∧ loop_armed el' ∧
    ∃ k, current_tick (t_start (el_timer el)) (t_tick_ms (el_timer el))
        (readings LoopDemo.clock LoopDemo.note l []).1 = Done k ∧
      ∀ x d s, pending el' !! x = Some (d, s) → k < d.
Proof.
  apply (timer_event_runs_due 0%nat LoopDemo.run_job LoopDemo.run_timer LoopDemo.clock
    LoopDemo.note 5 100 LoopDemo.el [] LoopDemo.timers);
    [done|done|exact LoopDemo.el_clock|by vm_compute|by vm_compute|exact LoopDemo.el_ok|].
  apply Nat.leb_le. by vm_compute.
Defined.

Lemma event_loop_new_witness :
  ∃ r n', configured (slab := VecSlab.t) (T := nat) 0%nat Config_default 0 None
      (IoOk (9%Z, ScriptEpoll.mk ∅ [])) (IoOk 0) 5 0 1 2 3 (mkInstant 0) (mkWorld ∅ ∅) = Done (r, n') ∧
    match r with
    | IoOk el =>
        is_running el = false ∧ n' = 0 + 1 ∧ el_queue el = 0 ∧
        sel_id (p_selector (el_poll el)) = 0 + 1 ∧
        poll_good (el_poll el) ∧ timer_ok 0%nat el ∧ pending el = ∅ ∧
        millis (from_millis 100) = Done (t_tick_ms (el_timer el)) ∧
        is_Some (t_inner (el_timer el))
    | IoErr err =>
        default (IoOk (9%Z, ScriptEpoll.mk ∅ [])) None = IoErr err ∧ n' = 0
        ∨ ∃ epfd k ev, default (IoOk (9%Z, ScriptEpoll.mk ∅ [])) None = IoOk (epfd, k)
            ∧ (epoll_ctl k EPOLL_CTL_ADD 5 ev).1 = IoErr err
    end.
Proof.
  apply (event_loop_new 0%nat Config_default 0 None (IoOk (9%Z, ScriptEpoll.mk ∅ [])) 0 5 0 1 2 3
    (mkInstant 0)); [done|done|done|by vm_compute|by intros epfd k [= <- <-]| | |];
    [by apply wf_from_millis|by vm_compute..].
Defined.
