(* ===== verification/RunProps.v ===== *)
(** * Running the event loop: properties

    A pass of the loop from the kernel to the jobs, the hand-over of a job from
    elsewhere, and the end of [run]. *)
From S2P Require Import Prelude EventSet ReadinessState Duration LazyCell Awakener Selector.
From S2P Require Import ReadinessQueue Registration QueueInv QueueSpec RegistrationSpec.
From S2P Require Import HandleSpec QueueProps Interfaces Timer DList TimerInv TimerSpec.
From S2P Require Import TimerProps PollReadiness Poll PollProps PollCalls Evented EventedProps EventLoop.
From S2P Require Import EventLoopProps.

Section RunProps.
Context {J : Type} (null_job : J) (grow : N → N).
Context {P : Type} {PO : PipeOps P} {PL : PipeLaws P}.
Context {K : Type} {KO : EpollOps K} {KL : EpollLaws K}.
Context {slab : Type → Type} {SO : SlabOps slab} {SL : SlabLaws slab} {T U : Type}.
#[local] Abbreviation EL := (EventLoop J P K slab T).
#[local] Abbreviation M := (stm (EL * U)).
Context (run_job : J → Z → M unit) (drop_job : J → M unit) (run_timer : T → M unit).
Context (clock : U → Instant * U).
Implicit Types (el : EL) (u : U).
#[local] Abbreviation once := (run_once null_job grow run_job drop_job run_timer clock).
#[local] Abbreviation entries_run := (run_entries null_job run_job run_timer clock).

(** ** One pass *)

(** A wait that is not interruptible does not report an interruption. *)
Lemma answer_not_interrupted elapsed room i t k r k' n :
  kernel_answer elapsed false room i t k r k' n → r ≠ IoErr Interrupted.
Proof. induction 1 as [| ? ? ? ? e ? ? ? [Hne|]| | |]; try done. by intros [= ->]. Qed.

(** The jobs of the entries, then their drop. *)
Definition run_and_drop (fuel : nat) (l : list (JobEntry J)) : M (io_result unit) :=
  entries_run fuel l ≫= λ _, drop_entries drop_job l ≫= λ _, mret (IoOk ()).

Definition wait_timeout (d : list ptr) (t : option Duration) : option Duration :=
  if decide (d = []) then t else zero_timeout.

Lemma run_once_ok fuel elapsed t el u x st d refs r k' n :
  p_lock (el_poll el) = unlocked → inv (el_world el) (el_queue el) x st d refs →
  kernel_answer elapsed false 4096 0 (wait_timeout d t) (sel_kernel (p_selector (el_poll el))) r k' n →
  (n < fuel)%nat → (length d < fuel)%nat → (N.to_nat (pipe_len (q_awakener x)) < fuel)%nat →
  match r with
  | IoErr e => e ≠ Interrupted ∧ ∃ pl' x' st',
      once fuel elapsed t (el, u) = Done (IoErr e, (with_poll pl' el, u)) ∧
      p_lock pl' = unlocked ∧ inv (p_world pl') (el_queue el) x' st' d refs ∧
      contents (p_world pl') = contents (el_world el)
  | IoOk evs => ∃ pl' x' st' polled rest entries, d = polled ++ rest ∧
      entries = omap (dispatch (sel_map (p_selector (el_poll el)))) evs ++
        (report_entry <$> omap (reported (contents (el_world el))) polled) ∧
      (rest = [] ∨ N.of_nat (length entries) = 4096) ∧
      inv (p_world pl') (el_queue el) x' st'
        (rest ++ filter (still (contents (el_world el))) polled) refs ∧
      once fuel elapsed t (el, u) = run_and_drop fuel entries (with_poll pl' el, u) ∧
      registrations (sel_map (p_selector pl')) = registrations (sel_map (p_selector (el_poll el))) ∧
      sel_kernel (p_selector pl') = k' ∧
      polled_store null_job (contents (el_world el)) polled (contents (p_world pl')) ∧
      p_queue pl' = el_queue el ∧ p_lock pl' = unlocked ∧
      asleep st' (rest ++ filter (still (contents (el_world el))) polled) = false ∧
      pipe_len (q_awakener x') <= pipe_len (q_awakener x)
  end.
Proof.
  intros Hl Hi Hk Hn Hd Hp. pose proof (answer_not_interrupted _ _ _ _ _ _ _ _ Hk) as Hni.
  pose proof (poll2_ok null_job grow fuel elapsed false t (Events_with_capacity 4096) (el_poll el)
    x st d refs r k' n Hi Hk ltac:(reflexivity) Hn Hd Hp) as H.
  destruct r as [evs|e].
  - destruct H as (pl' & events' & x' & st' & pld & rest & Ed & E & Een & Hend & Hi' & Er & Ek & _ & Hst & Eq & Has & Hle).
    pose proof (poll2_keeps_lock _ _ _ _ _ _ _ _ _ _ _ E) as Hl'. rewrite Hl in Hl'.
    exists pl', x', st', pld, rest, (ev_entries events'). split; [exact Ed|]. split; [exact Een|].
    split; [exact Hend|]. split; [exact Hi'|]. split; [|done].
    unfold run_once, io_poll, Poll_poll. change (1024 * 4) with 4096. rewrite poll1_free by exact Hl.
    rewrite E. cbn [mbind exec_bind].
    unfold mbind, stm_bind at 1. rewrite (io_process_entries null_job run_job drop_job run_timer clock).
    unfold Events_len. rewrite Nat2N.id, firstn_all. unfold run_and_drop, mbind, stm_bind.
    destruct (entries_run fuel _ _) as [[[] z]| |]; [|done..].
    by destruct (drop_entries drop_job _ z) as [[[] z']| |].
  - destruct H as (pl' & events' & x' & st' & E & Hi' & Ec & _). split; [by intros ->|].
    pose proof (poll2_keeps_lock _ _ _ _ _ _ _ _ _ _ _ E) as Hl'. rewrite Hl in Hl'.
    exists pl', x', st'. split; [|by split].
    unfold run_once, io_poll, Poll_poll. change (1024 * 4) with 4096. rewrite poll1_free by exact Hl.
    rewrite E. cbn [mbind exec_bind].
    by destruct e.
Qed.

(** C14 One pass of the loop, which takes the lock of the poll and gives it back: it waits without blocking when the readiness
    queue is not empty; an error of the kernel is returned, with no job run and
    no queued node lost, and is never an interruption; otherwise the jobs that
    run are exactly those of the kernel's events, then those of the queued
    nodes in their order, each once, until the queue is empty or 4096 events
    were taken, and then they are dropped. *)
Theorem run_once_spec fuel elapsed t el u x st d refs r k' n :
  p_lock (el_poll el) = unlocked → inv (el_world el) (el_queue el) x st d refs →
  kernel_answer elapsed false 4096 0 (wait_timeout d t) (sel_kernel (p_selector (el_poll el))) r k' n →
  (n < fuel)%nat → (length d < fuel)%nat → (N.to_nat (pipe_len (q_awakener x)) < fuel)%nat →
  match r with
  | IoErr e => e ≠ Interrupted ∧ ∃ pl' x' st',
      once fuel elapsed t (el, u) = Done (IoErr e, (with_poll pl' el, u)) ∧
      p_lock pl' = unlocked ∧ inv (p_world pl') (el_queue el) x' st' d refs ∧
      contents (p_world pl') = contents (el_world el)
  | IoOk evs => ∃ pl' x' st' polled rest entries, d = polled ++ rest ∧
      entries = omap (dispatch (sel_map (p_selector (el_poll el)))) evs ++
        (report_entry <$> omap (reported (contents (el_world el))) polled) ∧
      (rest = [] ∨ N.of_nat (length entries) = 4096) ∧
      inv (p_world pl') (el_queue el) x' st'
        (rest ++ filter (still (contents (el_world el))) polled) refs ∧
      p_lock pl' = unlocked ∧
      once fuel elapsed t (el, u) = run_and_drop fuel entries (with_poll pl' el, u)
  end.
Proof.
  intros Hl Hi Hk Hn Hd Hp.
  pose proof (run_once_ok fuel elapsed t el u x st d refs r k' n Hl Hi Hk Hn Hd Hp) as H.
  destruct r as [evs|e]; [|exact H].
  destruct H as (pl' & x' & st' & pld & rest & entries & Ed & Een & Hend & Hi' & E & _ & _ & _ & _ & Hl' & _).
  by exists pl', x', st', pld, rest, entries.
Qed.

(** ** The loop *)

(** [n] passes, the first of them the [i]-th, each begun with the flag set. *)
Inductive passes (fuel : nat) (elapsed : nat → nat → Duration) : nat → nat → EL * U → EL * U → Prop :=
  | passes_none i z : passes fuel elapsed i 0 z z
  | passes_one i n z z1 z2 :
      el_run z.1 = true → once fuel (elapsed i) None z = Done (IoOk (), z1) →
      passes fuel elapsed (S i) n z1 z2 → passes fuel elapsed i (S n) z z2.

#[local] Abbreviation looping := (run_loop null_job grow run_job drop_job run_timer clock).
#[local] Abbreviation running := (run null_job grow run_job drop_job run_timer clock).

Lemma run_loop_passes fuel elapsed i n z z1 more :
  passes fuel elapsed i n z z1 → looping (n + more) fuel elapsed i z = looping more fuel elapsed (n + i) z1.
Proof.
  induction 1 as [|i n [el u] z1 z2 Hrun E _ IH]; [done|]. cbn [Nat.add run_loop fst] in *.
  rewrite Hrun. rewrite (stm_step _ _ _ _ _ E), IH. by rewrite Nat.add_succ_r.
Qed.

Lemma run_loop_inv iterations fuel elapsed i z r z2 :
  looping iterations fuel elapsed i z = Done (r, z2) →
  ∃ n z1, passes fuel elapsed i n z z1 ∧
    match r with
    | IoOk _ => z2 = z1 ∧ el_run z1.1 = false
    | IoErr _ => el_run z1.1 = true ∧ once fuel (elapsed (n + i)%nat) None z1 = Done (r, z2)
    end.
Proof.
  revert i z. induction iterations as [|it IH]; intros i [el u] E; [done|]. cbn [run_loop] in E.
  destruct (el_run el) eqn:Hrun.
  - unfold mbind, stm_bind in E. destruct (once fuel (elapsed i) None (el, u)) as [[[[]|e] z']| |] eqn:Eo; try done.
    + destruct (IH (S i) z' E) as (n & z1 & Hp & Hr). exists (S n), z1.
      split; [by eapply passes_one|]. by rewrite Nat.add_succ_r in Hr.
    + injection E as <- <-. exists 0%nat, (el, u). split; [constructor|]. by split.
  - injection E as <- <-. exists 0%nat, (el, u). split; [constructor|]. by split.
Qed.

(** C35 [run] ends exactly at a shutdown or an error: it returns after the first
    pass that leaves the flag cleared, with the state that pass left, or with
    the error of the first pass that fails, the flag still set; conversely it
    returns in no other way.  It sets the flag itself, so a shutdown that comes
    before it is without effect. *)
Theorem run_stops fuel elapsed el u :
  (∀ iterations n z1, passes fuel elapsed 0 n (with_run true el, u) z1 → (n < iterations)%nat →
     (el_run z1.1 = false → running iterations fuel elapsed (el, u) = Done (IoOk (), z1)) ∧
     (∀ e z2, el_run z1.1 = true → once fuel (elapsed n) None z1 = Done (IoErr e, z2) →
        running iterations fuel elapsed (el, u) = Done (IoErr e, z2))) ∧
  (∀ iterations r z2, running iterations fuel elapsed (el, u) = Done (r, z2) →
     ∃ n z1, passes fuel elapsed 0 n (with_run true el, u) z1 ∧
       match r with
       | IoOk _ => z2 = z1 ∧ el_run z1.1 = false
       | IoErr _ => el_run z1.1 = true ∧ once fuel (elapsed n) None z1 = Done (r, z2)
       end) ∧
  (∀ iterations, running iterations fuel elapsed (shutdown el, u) = running iterations fuel elapsed (el, u)).
Proof.
  assert (∀ it, running it fuel elapsed (el, u) = looping it fuel elapsed 0 (with_run true el, u)) as Hr.
  { intros it. unfold run. destruct el as [[] pl t]; done. }
  split; [|split].
  - intros it n z1 Hp Hn. rewrite Hr. replace it with (n + S (it - n - 1))%nat by lia.
    rewrite (run_loop_passes _ _ _ _ _ _ _ Hp), Nat.add_0_r. destruct z1 as [el1 u1]. cbn [run_loop fst].
    split; [by intros ->|]. intros e z2 -> E. by rewrite (stm_step _ _ _ _ _ E).
  - intros it r z2 E. rewrite Hr in E. destruct (run_loop_inv _ _ _ _ _ _ _ E) as (n & z1 & H).
    rewrite Nat.add_0_r in H. by exists n, z1.
  - intros it. unfold run, shutdown. destruct el as [[] pl t]; done.
Qed.

(** ** Handing a job over *)

Context (wrap : ptr → J → J).

(** The entry of a job handed over. *)
Definition job_entry p (cb : J) : JobEntry J :=
  mkJobEntry (mkTokenEntry OtherEvent (mkToken 0)) (wrap p cb) Ready.empty.

(** The node of a job handed over: it reports the job once. *)
Definition job_node p (cb : J) (n : ReadinessNode (J:=J)) : Prop :=
  report n = Some (Event_new Ready.readable (mkTokenEntry OtherEvent (mkToken 0)), wrap p cb) ∧
  dropped n = false ∧ stays n = false.

Lemma update_report (n : ReadinessNode (J:=J)) tok job n' :
  update_node n tok Ready.readable PollOpt.edge job n' →
  RS.readiness (n_state n) = Ready.readable → queued n = false → dropped n = false →
  report n' = Some (Event_new Ready.readable tok, job) ∧ dropped n' = false ∧ stays n' = false
  ∧ joins n (n_state n') = true.
Proof.
  intros Hu Hr Hq Hd. destruct Hu as [U1 U2 U3 U4 _ U6 U7 U8].
  assert (RS.effective_readiness (n_state n') = Ready.readable) as He.
  { unfold RS.effective_readiness. by rewrite U1, U2, Hr. }
  rewrite He in U6. assert (joins n (n_state n') = true) as Hj.
  { unfold joins. unfold queued in U6 at 1. by rewrite U6, Hq. }
  rewrite Hj in U7. split; [|split; [by rewrite U8|split; [|done]]].
  - unfold report. rewrite He, U4, U7. done.
  - unfold stays. by rewrite U3.
Qed.

Lemma enqueue_job_ok el x st d refs p cb :
  inv (el_world el) (el_queue el) x st d refs → contents (el_world el) !! p = None →
  N.of_nat (size (w_nodes (el_world el))) < 2 ^ 63 →
  ∃ n res a, job_node p cb n ∧ woken (asleep st d) (q_awakener x) res a ∧
    match res with
    | IoErr _ => enqueue_job null_job wrap p cb el = Panic PUnwrap
    | IoOk _ => ∃ w' x', enqueue_job null_job wrap p cb el =
          Done (with_poll (with_world w' (el_poll el)) el) ∧
        inv w' (el_queue el) x' st (d ++ [p]) (set_refs refs p 2) ∧ q_awakener x' = a ∧
        contents w' = <[p := n]> (contents (el_world el))
    end.
Proof.
  intros Hi Hp Hb. destruct (fresh_refs _ _ _ _ _ _ _ Hi Hp) as (_ & Hm & _).
  destruct (new2_ok null_job _ _ x st d refs p Hi Hp)
    as (n0 & w1 & E1 & Hi1 & Ec1 & _ & Hq0 & Hd0 & _ & Es0).
  assert (contents w1 !! p = Some n0) as Ep1 by (by rewrite Ec1, lookup_insert_eq).
  destruct (set_readiness_ok w1 (el_queue el) x st d _ p n0 Ready.readable Hi1 Ep1 Hm Hd0
    (or_introl Hq0)) as (res2 & w2 & x2 & E2 & Hi2 & Ec2 & Em2 & _ & Hw2); [by vm_compute|].
  assert (joins n0 (readied (n_state n0) Ready.readable) = false) as Hj.
  { unfold joins, queued. rewrite Es0. by vm_compute. }
  rewrite Hj in Hi2, Hw2. destruct Hw2 as [-> Ea2].
  set (n1 := with_state (readied (n_state n0) Ready.readable) n0) in *.
  assert (contents w2 !! p = Some n1) as Ep2 by (by rewrite Ec2, lookup_insert_eq).
  assert (RS.readiness (n_state n1) = Ready.readable ∧ queued n1 = false ∧ dropped n1 = false)
    as (Hr1 & Hqd1 & Hd1).
  { unfold n1, queued, dropped. cbn [n_state with_state]. rewrite Es0. by vm_compute. }
  assert (size (w_nodes w2) = S (size (w_nodes (el_world el)))) as Hsz.
  { rewrite <- !size_contents, Ec2, Ec1, insert_insert_eq. by rewrite map_size_insert_None. }
  pose proof (strong_size _ _ _ _ _ _ Hi2) as Hs2.
  assert (p ∉ markers x2) as Hm2 by (by rewrite Em2).
  assert (n_readiness_queue n1 = None) as Hq1 by exact Hq0.
  destruct (update_ok w2 (el_queue el) x2 st d _ p n1 (mkTokenEntry OtherEvent (mkToken 0))
    Ready.readable PollOpt.edge (wrap p cb) Hi2 Ep2 Hm2 Hd1)
    as [_ (n & res & w3 & x3 & E3 & Hu & _ & _ & Ec3 & Hi3 & Hw3 & _)];
    [lia|by vm_compute|by vm_compute|by left|].
  destruct (update_report n1 _ _ n Hu Hr1 Hqd1 Hd1) as (Hrep & Hdn & Hst & Hjn).
  rewrite Hjn in Hi3, Hw3. rewrite Ea2 in Hw3. cbn [andb] in Hw3.
  exists n, res, (q_awakener x3). split; [by split|]. split; [exact Hw3|].
  assert (enqueue_job null_job wrap p cb el =
    match res with
    | IoErr _ => Panic PUnwrap
    | IoOk _ => Done (with_poll (with_world w3 (el_poll el)) el)
    end) as ->.
  { unfold enqueue_job, on_queue. change (p_world (el_poll el)) with (el_world el). rewrite E1.
    cbn [mbind exec_bind with_world p_world]. rewrite E2. cbn [mbind exec_bind].
    unfold loop_register, poll_register, ev_register. cbn [Registration_evented].
    unfold evented_register, on_queue. cbn [reg_node p_queue with_world p_world with_poll el_poll].
    change (p_queue (el_poll el)) with (el_queue el). rewrite E3. cbn [mbind exec_bind].
    by destruct res. }
  destruct res; [|done]. exists w3, x3. split; [done|]. split; [exact Hi3|]. split; [done|].
  rewrite Ec3, Ec2, Ec1. by rewrite !insert_insert_eq.
Qed.

(** The jobs of the nodes of a store come from those of another. *)
Definition jobs_from (C C' : gmap ptr (ReadinessNode (J:=J))) : Prop := ∀ y n',
  C' !! y = Some n' → n_job n' = null_job ∨ ∃ n, C !! y = Some n ∧ n_job n' = n_job n.

Lemma jobs_from_trans C C1 C2 : jobs_from C C1 → jobs_from C1 C2 → jobs_from C C2.
Proof.
  intros H1 H2 y n2 E2. destruct (H2 y n2 E2) as [|(n1 & E1 & ->)]; [by left|]. by apply H1.
Qed.

Lemma jobs_from_insert C p n n' : C !! p = Some n → n_job n' = n_job n → jobs_from C (<[p := n']> C).
Proof.
  intros En Ej y m Ey. right. destruct (decide (y = p)) as [->|Hne].
  - rewrite lookup_insert_eq in Ey. injection Ey as <-. by exists n.
  - rewrite lookup_insert_ne in Ey by done. by exists m.
Qed.

Lemma jobs_from_released C p n : C !! p = Some n → jobs_from C (released C p n).
Proof.
  intros En. unfold released. destruct (_ =? 1); [|by apply (jobs_from_insert C p n)].
  intros y m [_ Ey]%lookup_delete_Some. right. by exists m.
Qed.

Lemma jobs_from_polled C l C' : polled_store null_job C l C' → jobs_from C C'.
Proof.
  intros Hp y m Ey. rewrite Hp in Ey. case_decide; [|right; by exists m].
  unfold poll_node in Ey. destruct (C !! y) as [n|] eqn:En; [|by rewrite En in Ey].
  destruct (dropped n).
  - destruct (jobs_from_released C y n En y m Ey) as [|(n1 & E1 & Ej)]; [by left|].
    right. rewrite En in E1. injection E1 as <-. by exists n.
  - rewrite lookup_insert_eq in Ey. injection Ey as <-. unfold after_poll.
    destruct (Ready.is_empty _); [right; by exists n|by left].
Qed.

(** What a poll reports of such a node, and makes of it. *)
Lemma polled_job (w : World (J:=J) (P:=P)) q x st d refs p cb n :
  inv w q x st d refs → p ∈ d → 0 < refs p → contents w !! p = Some n → job_node p cb n →
  reported (contents w) p = Some (Event_new Ready.readable (mkTokenEntry OtherEvent (mkToken 0)), wrap p cb) ∧
  still (contents w) p = false ∧
  poll_node null_job (contents w) p !! p = Some (after_poll null_job n) ∧
  dropped (after_poll null_job n) = false ∧ n_readiness_queue (after_poll null_job n) = Some q ∧
  n_job (after_poll null_job n) = null_job.
Proof.
  intros Hi Hd Hr En (Hrep & Hdn & Hst). unfold reported, still, poll_node. rewrite En, Hdn, Hst, lookup_insert_eq.
  destruct (iv_data _ _ _ _ _ _ Hi p Hd) as (n1 & En1 & Hq). rewrite En in En1. injection En1 as <-.
  destruct (iv_handles _ _ _ _ _ _ Hi p Hr) as [Hm _].
  pose proof (iv_nodes _ _ _ _ _ _ Hi p n En Hm) as Hok.
  destruct (no_owned _ _ _ _ Hok Hq) as (_ & _ & Ho). rewrite Hdn, bool_decide_eq_true_2 in Ho by done.
  destruct Ho as [_ Hqd]. destruct (after_poll_fields null_job n) as (Eas & Eaq & _).
  split; [exact Hrep|]. split; [done|]. split; [done|]. split; [|split; [by rewrite Eaq|]].
  - unfold dropped. rewrite Eas. by apply polled_queued; [apply (no_word _ _ _ _ Hok)|..].
  - unfold report in Hrep. unfold after_poll. by destruct (Ready.is_empty _).
Qed.

(** The job of a node handed over, in the next pass; what the pass leaves of the
    node, of the loop's descriptors, of the kernel and of the other jobs. *)
Lemma handed_job_runs fuel elapsed t el u el1 p cb x st d refs evs k' n :
  p_lock (el_poll el) = unlocked →
  inv (el_world el) (el_queue el) x st d refs → contents (el_world el) !! p = None →
  N.of_nat (size (w_nodes (el_world el))) < 2 ^ 63 →
  enqueue_job null_job wrap p cb el = Done el1 →
  kernel_answer elapsed false 4096 0 zero_timeout (sel_kernel (p_selector (el_poll el))) (IoOk evs) k' n →
  (n < fuel)%nat → (S (length d) < fuel)%nat → (length evs + length d < 4096)%nat →
  (∀ x1, w_queues (el_world el1) !! el_queue el = Some x1 →
     (N.to_nat (pipe_len (q_awakener x1)) < fuel)%nat) →
  ∃ pl' d' x' st' nd nd',
    once fuel elapsed t (el1, u) =
      run_and_drop fuel ((omap (dispatch (sel_map (p_selector (el_poll el)))) evs ++
        (report_entry <$> omap (reported (<[p := nd]> (contents (el_world el)))) d)) ++ [job_entry p cb])
        (with_poll pl' el1, u) ∧
    inv (p_world pl') (el_queue el) x' st' d' (set_refs refs p 2) ∧ p ∉ d' ∧
    (asleep st d = true →
     ∃ x1, w_queues (el_world el1) !! el_queue el = Some x1 ∧ 0 < pipe_len (q_awakener x1)) ∧
    contents (p_world pl') !! p = Some nd' ∧ dropped nd' = false ∧
    n_readiness_queue nd' = Some (el_queue el) ∧
    registrations (sel_map (p_selector pl')) = registrations (sel_map (p_selector (el_poll el))) ∧
    sel_kernel (p_selector pl') = k' ∧ p_queue pl' = el_queue el ∧ p_lock pl' = unlocked ∧
    jobs_from (contents (el_world el)) (contents (p_world pl')).
Proof.
  intros Hl Hi Hp Hroom Ej Hk Hn Hd Hlen Hpipe.
  destruct (enqueue_job_ok el x st d refs p cb Hi Hp Hroom) as (nd & res & a & (Hrep & Hdn & Hst) & Hw & Hm).
  destruct res as [[]|e]; [|by rewrite Ej in Hm].
  destruct Hm as (w' & x1 & Ej' & Hi1 & Ea & Ec). rewrite Ej in Ej'. injection Ej' as ->.
  set (el1 := with_poll (with_world w' (el_poll el)) el) in *.
  pose proof (lk_queue _ _ _ _ (qo_linked _ _ _ _ _ (iv_queue _ _ _ _ _ _ Hi1))) as Hx1.
  assert (wait_timeout (d ++ [p]) t = zero_timeout) as Hz.
  { unfold wait_timeout. rewrite decide_False; [done|]. by destruct d. }
  rewrite <- Hz in Hk.
  destruct (run_once_ok fuel elapsed t el1 u x1 st (d ++ [p]) _ _ k' n Hl Hi1 Hk Hn)
    as (pl' & x' & st' & pld & rest & entries & Ed & Een & Hend & Hi' & E & Er & Ek & Hps & Eq & Hl' & _);
    [rewrite length_app; cbn; lia|by apply Hpipe|].
  pose proof (omap_length (dispatch (sel_map (p_selector (el_poll el1)))) evs) as Hl1.
  pose proof (omap_length (reported (contents (el_world el1))) pld) as Hl2.
  assert (rest = []) as ->.
  { destruct Hend as [|Hfull]; [done|]. destruct rest as [|y rest]; [done|exfalso].
    apply (f_equal length) in Ed. rewrite Een, !length_app, length_fmap in *. cbn in Ed. lia. }
  rewrite app_nil_r in Ed. subst pld. rewrite app_nil_l in Hi'.
  change (el_world el1) with w' in *.
  assert (contents w' !! p = Some nd) as Ep by (by rewrite Ec, lookup_insert_eq).
  destruct (polled_job w' (el_queue el) x1 st (d ++ [p]) (set_refs refs p 2) p cb nd Hi1)
    as (Hr & Hsp & Hpp & Hdp & Hqp & Hjp); [set_solver|by rewrite set_refs_eq|exact Ep|by split|].
  rewrite omap_app, fmap_app in Een. cbn [omap list_omap] in Een. rewrite Hr, app_assoc in Een.
  pose proof (Hps p) as Hp'. rewrite decide_True, Hpp in Hp' by set_solver.
  exists pl', (filter (still (contents w')) (d ++ [p])), x', st', nd, (after_poll null_job nd).
  rewrite E, Een, <- Ec. split; [reflexivity|].
  split; [exact Hi'|]. split; [|split; [|split; [exact Hp'|split; [exact Hdp|split; [exact Hqp|]]]]].
  - intros [Hs _]%list_elem_of_filter. by rewrite Hsp in Hs.
  - intros Has. exists x1. split; [exact Hx1|]. rewrite Has in Hw. cbn in Hw. rewrite Ea.
    exact (proj1 (wakeup_ready _ _ _ Hw)).
  - repeat (split; [done|]). intros y m Ey.
    destruct (jobs_from_polled _ _ _ Hps y m Ey) as [|(m0 & E0 & Ej0)]; [by left|].
    rewrite Ec in E0. destruct (decide (y = p)) as [->|Hne].
    + left. rewrite Hp' in Ey. by injection Ey as <-.
    + rewrite lookup_insert_ne in E0 by done. right. by exists m0.
Qed.

(** A new node does not change what the others report. *)
Lemma reported_fresh w q x st d refs p (nd : ReadinessNode (J:=J)) :
  inv (P:=P) w q x st d refs → contents w !! p = None →
  omap (reported (<[p := nd]> (contents w))) d = omap (reported (contents w)) d.
Proof.
  intros Hi Hp. apply (polled_ext grow (<[p := nd]> (contents w)) (contents w) d). intros y Hy.
  rewrite lookup_insert_ne; [done|]. intros <-. destruct (iv_data _ _ _ _ _ _ Hi p Hy) as (n & En & _). congruence.
Qed.

(** C15 A job handed over to a loop runs in its next pass: [enqueue_job] panics
    when the loop sleeps and the awakener cannot be written, and otherwise
    returns, having written to the awakener exactly when the loop sleeps; the
    next pass then does not block, and runs the jobs of the descriptors that are
    ready, then those of the nodes that were queued before, in order, then this
    one, whose node it does not leave in the queue.  (The buffer is taken to
    have room for them all.) *)
Theorem enqueue_job_runs fuel elapsed t el u p cb x st d refs evs k' n :
  p_lock (el_poll el) = unlocked →
  inv (el_world el) (el_queue el) x st d refs → contents (el_world el) !! p = None →
  N.of_nat (size (w_nodes (el_world el))) < 2 ^ 63 →
  kernel_answer elapsed false 4096 0 zero_timeout (sel_kernel (p_selector (el_poll el))) (IoOk evs) k' n →
  (n < fuel)%nat → (S (length d) < fuel)%nat → (length evs + length d < 4096)%nat →
  let '(res, a) := if asleep st d then wakeup (q_awakener x) else (IoOk (), q_awakener x) in
  match res with
  | IoErr _ => enqueue_job null_job wrap p cb el = Panic PUnwrap
  | IoOk _ =>
      (N.to_nat (pipe_len a) < fuel)%nat →
      ∃ el1 x1 pl' d' x' st',
        enqueue_job null_job wrap p cb el = Done el1 ∧
        w_queues (el_world el1) !! el_queue el = Some x1 ∧ q_awakener x1 = a ∧
        (asleep st d = true → 0 < pipe_len a) ∧
        once fuel elapsed t (el1, u) =
          run_and_drop fuel
            (omap (dispatch (sel_map (p_selector (el_poll el)))) evs ++
             (report_entry <$> omap (reported (contents (el_world el))) d) ++
             [mkJobEntry (mkTokenEntry OtherEvent (mkToken 0)) (wrap p cb) Ready.empty])
            (with_poll pl' el1, u) ∧
        inv (p_world pl') (el_queue el) x' st' d' (set_refs refs p 2) ∧ p ∉ d'
  end.
Proof.
  intros Hl Hi Hp Hroom Hk Hn Hd Hlen.
  destruct (enqueue_job_ok el x st d refs p cb Hi Hp Hroom) as (nd & res & a & _ & Hw & Hm).
  assert ((if asleep st d then wakeup (q_awakener x) else (IoOk (), q_awakener x)) = (res, a)) as ->.
  { unfold woken in Hw. destruct (asleep st d); [exact Hw|by destruct Hw as [-> ->]]. }
  destruct res as [[]|err]; [|exact Hm]. destruct Hm as (w1 & x1 & Ej & Hi1 & Ea & _). intros Hpipe.
  set (el1 := with_poll (with_world w1 (el_poll el)) el) in *.
  pose proof (lk_queue _ _ _ _ (qo_linked _ _ _ _ _ (iv_queue _ _ _ _ _ _ Hi1))) as Hx1.
  destruct (handed_job_runs fuel elapsed t el u el1 p cb x st d refs evs k' n Hl Hi Hp Hroom Ej Hk Hn Hd Hlen)
    as (pl' & d' & x' & st' & nd1 & nd' & E & Hi' & Hnd & _).
  { intros x2 Ex2. change (w_queues w1 !! el_queue el = Some x2) in Ex2. rewrite Hx1 in Ex2.
    injection Ex2 as <-. by rewrite Ea. }
  exists el1, x1, pl', d', x', st'. split; [exact Ej|]. split; [exact Hx1|]. split; [exact Ea|]. split.
  { intros Has. rewrite Has in Hw. exact (proj1 (wakeup_ready _ _ _ Hw)). }
  split; [|by split]. rewrite E, (reported_fresh _ _ _ _ _ _ _ _ Hi Hp), <- app_assoc. done.
Qed.
End RunProps.

Module RunDemo.
Import LoopDemo.
Definition kernel' : ScriptEpoll.t :=
  (epoll_wait (sel_kernel (p_selector PollDemo.pl)) 4096 0).2.

Lemma pass_answer : kernel_answer (λ _, from_millis 0) false 4096 0 (Some (from_millis 0))
  (sel_kernel (p_selector (el_poll el))) (IoOk PollDemo.evs) kernel' 0.
Proof. by apply (answer_events _ _ _ _ _ 0); vm_compute. Qed.

(** The closure of a job [cb] handed over at [p]. *)
Definition wrap (p : ptr) (cb : nat) : nat := (1000 + cb)%nat.
Definition handed : Loop :=
  match enqueue_job 0%nat wrap 20 7%nat el with Done l => l | _ => el end.

(** The jobs of a pass of that loop, as the log shows them: the socket 70, the
    nodes 10 and 11, whose jobs were never set, and the job handed over. *)
Example pass :
  match run_once 0%nat SelectorDemo.grow run_job drop_job run_timer clock 6 (λ _, from_millis 0)
          None (handed, []) with
  | Done (IoOk _, (_, u)) => u = [(70%nat, 1%Z); (0%nat, 0%Z); (0%nat, 0%Z); (1007%nat, 0%Z)]
  | _ => False
  end.
Proof. by vm_compute. Qed.
End RunDemo.

Lemma run_once_spec_witness :
  let el := LoopDemo.el in
  ∃ x, inv (el_world el) (el_queue el) x SEnd [10; 11] QueueDemo.refs2 ∧
  ∃ pl' x' st' polled rest entries, [10; 11] = polled ++ rest ∧
    entries = omap (dispatch (sel_map (p_selector (el_poll el)))) PollDemo.evs ++
      (report_entry <$> omap (reported (contents (el_world el))) polled) ∧
    (rest = [] ∨ N.of_nat (length entries) = 4096) ∧
    inv (p_world pl') (el_queue el) x' st'
      (rest ++ filter (still (contents (el_world el))) polled) QueueDemo.refs2 ∧
    p_lock pl' = unlocked ∧
    run_once 0%nat SelectorDemo.grow LoopDemo.run_job LoopDemo.drop_job LoopDemo.run_timer
        LoopDemo.clock 3 (λ _, from_millis 0) None (el, []) =
      run_and_drop 0%nat LoopDemo.run_job LoopDemo.drop_job LoopDemo.run_timer LoopDemo.clock 3
        entries (with_poll pl' el, []).
Proof.
  destruct QueueDemo.w4_inv as (x & Hi & _). exists x. split; [exact Hi|].
  apply (run_once_spec 0%nat SelectorDemo.grow LoopDemo.run_job LoopDemo.drop_job LoopDemo.run_timer
    LoopDemo.clock 3 (λ _, from_millis 0) None LoopDemo.el [] x SEnd [10; 11] QueueDemo.refs2
    (IoOk PollDemo.evs) RunDemo.kernel' 0 eq_refl Hi RunDemo.pass_answer);
    [lia|cbn; lia|exact (PollDemo.awakener_empty x _ _ Hi)].
Defined.

Lemma enqueue_job_runs_witness :
  ∃ x, inv (el_world LoopDemo.el) (el_queue LoopDemo.el) x SEnd [10; 11] QueueDemo.refs2 ∧
  ∃ el1 pl' d' x' st',
    enqueue_job 0%nat RunDemo.wrap 20 7%nat LoopDemo.el = Done el1 ∧
    run_once 0%nat SelectorDemo.grow LoopDemo.run_job LoopDemo.drop_job LoopDemo.run_timer
        LoopDemo.clock 6 (λ _, from_millis 0) None (el1, []) =
      run_and_drop 0%nat LoopDemo.run_job LoopDemo.drop_job LoopDemo.run_timer LoopDemo.clock 6
        (omap (dispatch (sel_map (p_selector (el_poll LoopDemo.el)))) PollDemo.evs ++
         (report_entry <$> omap (reported (contents (el_world LoopDemo.el))) [10; 11]) ++
         [job_entry RunDemo.wrap 20 7%nat]) (with_poll pl' el1, []) ∧
    inv (p_world pl') (el_queue LoopDemo.el) x' st' d' (set_refs QueueDemo.refs2 20 2) ∧ 20 ∉ d'.
Proof.
  destruct QueueDemo.w4_inv as (x & Hi & _). exists x. split; [exact Hi|].
  destruct (enqueue_job_runs 0%nat SelectorDemo.grow LoopDemo.run_job LoopDemo.drop_job LoopDemo.run_timer
    LoopDemo.clock RunDemo.wrap 6 (λ _, from_millis 0) None LoopDemo.el [] 20 7%nat
    x SEnd [10; 11] QueueDemo.refs2 PollDemo.evs RunDemo.kernel' 0 eq_refl Hi)
    as (el1 & x1 & pl' & d' & x' & st' & Ej & _ & _ & _ & E & H);
    [by vm_compute|by vm_compute|exact RunDemo.pass_answer|lia|cbn; lia|cbn; lia| |].
  { pose proof (lk_queue _ _ _ _ (qo_linked _ _ _ _ _ (iv_queue _ _ _ _ _ _ Hi))) as Hx.
    assert (q_awakener <$> w_queues (el_world LoopDemo.el) !! el_queue LoopDemo.el = Some 0) as E by by vm_compute.
    apply (f_equal (fmap q_awakener)) in Hx. pose proof (eq_trans (eq_sym Hx) E) as [= ->].
    apply Nat.ltb_lt. by vm_compute. }
  exists el1, pl', d', x', st'. split; [exact Ej|]. split; [exact E|exact H].
Defined.
