(* ===== verification/Pool.v ===== *)
(** * Loops and threads

    [EventLoopBuilder] and [EventLoopPool] of [src/src/net/event_loop.rs]: a
    loop is shared by its [Arc], here its place in the list of loops; the
    static [CURRENT_LOOP] is a map from threads to loops.  A pool makes its
    loops one after the other, each in a thread of its own, and waits for each
    on a channel. *)
From S2P Require Import Prelude EventSet ReadinessState Duration LazyCell Awakener Selector.
From S2P Require Import ReadinessQueue Registration QueueInv QueueSpec RegistrationSpec.
From S2P Require Import HandleSpec QueueProps Interfaces Timer DList TimerInv TimerSpec.
From S2P Require Import TimerProps TimerTheorems PollReadiness Poll PollProps Evented EventedProps.
From S2P Require Import EventLoop EventLoopProps.

Section Pool.
Context {J : Type} (null_job : J).
Context {P : Type} {PO : PipeOps P}.
Context {K : Type} {KO : EpollOps K}.
Context {slab : Type → Type} {SO : SlabOps slab} {T : Type}.
#[local] Abbreviation EL := (EventLoop J P K slab T).

(** What the kernel and the allocator give to a new loop. *)
Record LoopEnv := mkLoopEnv {
  le_create1 : option (io_result (Z * K));
  le_create : io_result (Z * K);
  le_awakener : P;
  le_reader : Z;
  le_queue : qid;
  le_end : ptr;
  le_sleep : ptr;
  le_closed : ptr;
  le_now : Instant;
}.

(** The loops that exist, the current loop of each thread, and the counter of
    the selectors. *)
Record Loops := mkLoops {
  ls_loops : list EL;
  CURRENT_LOOP : gmap nat nat;
  ls_next_id : N;
}.

Record EventLoopBuilder := mkBuilder { bl_config : Config; bl_event_loop : option nat }.
Definition EventLoopBuilder_new : EventLoopBuilder := mkBuilder Config_default None.
Definition with_config (f : Config → Config) (b : EventLoopBuilder) : EventLoopBuilder :=
  mkBuilder (f (bl_config b)) (bl_event_loop b).

Definition builder_build (b : EventLoopBuilder) (env : LoopEnv) (s : Loops)
    : exec (io_result EL * Loops) :=
  configured null_job (bl_config b) (ls_next_id s) (le_create1 env) (le_create env)
    (IoOk (le_awakener env)) (le_reader env) (le_queue env) (le_end env) (le_sleep env)
    (le_closed env) (le_now env) (mkWorld ∅ ∅) ≫= λ '(r, n),
  Done (r, mkLoops (ls_loops s) (CURRENT_LOOP s) n).

(** [get_build] in the thread [t] unwraps the new loop and makes it current. *)
Definition get_build (t : nat) (b : EventLoopBuilder) (env : LoopEnv) (s : Loops)
    : exec (nat * EventLoopBuilder * Loops) :=
  builder_build b env s ≫= λ '(r, s),
  match r with
  | IoErr _ => Panic PUnwrap
  | IoOk el =>
      let l := length (ls_loops s) in
      Done (l, mkBuilder (bl_config b) (Some l),
            mkLoops (ls_loops s ++ [el]) (<[t := l]> (CURRENT_LOOP s)) (ls_next_id s))
  end.

Definition set_current_loop (t l : nat) (s : Loops) : Loops :=
  mkLoops (ls_loops s) (<[t := l]> (CURRENT_LOOP s)) (ls_next_id s).

(** A thread without a loop panics in the initializer of [CURRENT_LOOP]. *)
Definition get_current_loop (t : nat) (s : Loops) : exec nat :=
  unwrap PAssert (CURRENT_LOOP s !! t).

Record EventLoopPool := mkPool { pl_loops : list nat; pl_threads : list nat }.

(** The configuration of the loops of a pool. *)
Definition pool_config (c : Config) : Config :=
  timer_capacity (timer_wheel_size (timer_tick (messages_per_tick (notify_capacity c 1048576) 64)
    (from_millis 100)) 1024) 65536.

(** [EventLoopPool::new]: the [i]-th loop is made in the thread [first + i]. *)
Fixpoint pool_loop (envs : list LoopEnv) (t : nat) (pool : EventLoopPool) (s : Loops)
    : exec (EventLoopPool * Loops) :=
  match envs with
  | [] => Done (pool, s)
  | env :: envs =>
      get_build t (with_config pool_config EventLoopBuilder_new) env s ≫= λ '(l, _, s),
      pool_loop envs (S t) (mkPool (pl_loops pool ++ [l]) (pl_threads pool ++ [t])) s
  end.
Definition EventLoopPool_new (envs : list LoopEnv) (first : nat) (s : Loops)
    : exec (EventLoopPool * Loops) := pool_loop envs first (mkPool [] []) s.

Definition get_first_poller (p : EventLoopPool) : exec nat := unwrap PIndex (pl_loops p !! 0%nat).
Definition get_all_poller (p : EventLoopPool) : list nat := pl_loops p.

(** How a thread of a pool ends, by the [run] of its loop, whose result it
    ignores; and [wait], which joins the threads in order and does not return
    while one it has come to is running. *)
Inductive ThreadEnd : Set := Running | Ended | Panicked.
Definition thread_end {A} (r : exec A) : ThreadEnd :=
  match r with Done _ => Ended | Panic _ => Panicked | NoFuel => Running end.
Fixpoint join_all (end_of : nat → ThreadEnd) (threads : list nat) : exec unit :=
  match threads with
  | [] => Done ()
  | t :: threads =>
      match end_of t with
      | Ended => join_all end_of threads
      | Panicked => Panic PUnwrap
      | Running => NoFuel
      end
  end.
Definition pool_wait (end_of : nat → ThreadEnd) (p : EventLoopPool) : exec unit :=
  join_all end_of (pl_threads p).

(** ** Properties *)

(** [wait] returns when every thread has ended, and panics at the first one that
    panicked. *)
Lemma pool_wait_spec end_of p :
  (pool_wait end_of p = Done () ↔ Forall (λ t, end_of t = Ended) (pl_threads p)) ∧
  (∀ e, pool_wait end_of p = Panic e ↔ e = PUnwrap ∧ ∃ l1 t l2, pl_threads p = l1 ++ t :: l2 ∧
     Forall (λ t, end_of t = Ended) l1 ∧ end_of t = Panicked).
Proof.
  unfold pool_wait. induction (pl_threads p) as [|t l IH]; cbn [join_all].
  - split; [by split|]. intros e. split; [done|]. by intros (_ & [|? ?] & ? & ? & ? & _).
  - destruct IH as [IH1 IH2]. rewrite Forall_cons. destruct (end_of t) eqn:Et.
    + split; [split; [done|by intros [? _]]|]. intros e. split; [done|].
      intros (_ & [|t1 l1] & t2 & l2 & [= <- ->] & Hl & Hp); [congruence|].
      apply Forall_cons in Hl as [? _]. congruence.
    + split; [rewrite IH1; naive_solver|]. intros e. rewrite IH2. split.
      * intros (-> & l1 & t2 & l2 & -> & Hl & Hp). split; [done|]. exists (t :: l1), t2, l2. by rewrite Forall_cons.
      * intros (-> & [|t1 l1] & t2 & l2 & [= <- ->] & Hl & Hp); [congruence|]. split; [done|].
        apply Forall_cons in Hl as [_ Hl]. by exists l1, t2, l2.
    + split; [split; [done|by intros [? _]]|]. intros e. split.
      * intros [= <-]. split; [done|]. by exists [], t, l.
      * by intros (-> & _).
Qed.

Context {PL : PipeLaws P} {KL : EpollLaws K} {SL : SlabLaws slab}.

(** The kernel gives a selector, fresh, and takes the reader of the awakener. *)
Definition env_good (env : LoopEnv) : Prop :=
  le_end env ≠ le_sleep env ∧ le_end env ≠ le_closed env ∧ le_sleep env ≠ le_closed env ∧
  ∃ epfd k, default (le_create env) (le_create1 env) = IoOk (epfd, k) ∧ ep_data k = ∅ ∧
    ∀ ev, (epoll_ctl k EPOLL_CTL_ADD (le_reader env) ev).1 = IoOk ().

(** A loop of a pool before it runs, with the identity [id]. *)
Definition loop_ready (id : N) (el : EL) : Prop :=
  is_running el = false ∧ sel_id (p_selector (el_poll el)) = id ∧ poll_good (el_poll el) ∧
  timer_ok null_job el ∧ pending el = ∅ ∧ t_tick_ms (el_timer el) = 100.

Lemma get_build_ok t env s :
  env_good env → ls_next_id s < u64_max →
  ∃ b el, get_build t (with_config pool_config EventLoopBuilder_new) env s =
      Done (length (ls_loops s), b,
        mkLoops (ls_loops s ++ [el]) (<[t := length (ls_loops s)]> (CURRENT_LOOP s)) (ls_next_id s + 1)) ∧
    loop_ready (ls_next_id s + 1) el.
Proof.
  intros (H1 & H2 & H3 & epfd & k & Hc & He & Hk) Hid.
  destruct (configured_ok null_job (pool_config Config_default) (ls_next_id s) (le_create1 env)
    (le_create env) (le_awakener env) (le_reader env) (le_queue env) (le_end env) (le_sleep env)
    (le_closed env) (le_now env) (T := T)) as (r & n' & E & Hr).
  1-4: assumption.
  - intros epfd' k' Hc'. rewrite Hc in Hc'. by injection Hc' as <- <-.
  - by apply wf_from_millis, N.leb_le.
  - by apply N.leb_le.
  - by apply N.leb_le.
  - unfold get_build, builder_build. cbn [with_config EventLoopBuilder_new bl_config].
    rewrite E. cbn [mbind exec_bind]. destruct r as [el|err].
    + destruct Hr as (Hrun & -> & _ & Hs & Hg & Ht & Hp & Hms & _). eexists _, el.
      split; [reflexivity|]. split_and!; [exact Hrun|exact Hs|exact Hg|exact Ht|exact Hp|].
      assert (millis (c_timer_tick (pool_config Config_default)) = Done 100) as Hm
        by (vm_compute; reflexivity).
      congruence.
    + exfalso. destruct Hr as [[Hr _]|(epfd' & k' & ev & Hr & Hr')]; rewrite Hc in Hr; [discriminate|].
      injection Hr as <- <-. rewrite Hk in Hr'. discriminate.
Qed.

(** What a pool of [n] loops made from the thread [t] on looks like. *)
Definition pool_of (n t : nat) (s s' : Loops) : Prop :=
  ∃ els, ls_loops s' = ls_loops s ++ els ∧ length els = n ∧
    (∀ i el, els !! i = Some el → loop_ready (ls_next_id s + N.of_nat i + 1) el) ∧
    (∀ i, (i < n)%nat → get_current_loop (t + i) s' = Done (length (ls_loops s) + i)%nat) ∧
    (∀ t', (t' < t)%nat → get_current_loop t' s' = get_current_loop t' s).

Lemma pool_loop_ok envs t pool s :
  Forall env_good envs → ls_next_id s + N.of_nat (length envs) <= u64_max →
  ∃ s', pool_loop envs t pool s =
      Done (mkPool (pl_loops pool ++ seq (length (ls_loops s)) (length envs))
                   (pl_threads pool ++ seq t (length envs)), s') ∧
    pool_of (length envs) t s s'.
Proof using SL KL.
  intros Hg; revert t pool s. induction Hg as [|env envs He Hg IH]; intros t pool s Hid.
  - exists s. cbn [pool_loop length seq]. rewrite !app_nil_r. destruct pool. split; [done|].
    exists []. rewrite app_nil_r. split_and!; try done. intros i Hi. inversion Hi.
  - cbn [length] in Hid. rewrite Nat2N.inj_succ in Hid.
    destruct (get_build_ok t env s He) as (b & el & E & Hel).
    { eapply N.lt_le_trans; [|exact Hid]. lia. }
    cbn [pool_loop]. rewrite E. cbn [mbind exec_bind].
    destruct (IH (S t) (mkPool (pl_loops pool ++ [length (ls_loops s)]) (pl_threads pool ++ [t]))
      (mkLoops (ls_loops s ++ [el]) (<[t := length (ls_loops s)]> (CURRENT_LOOP s))
        (ls_next_id s + 1))) as (s' & E' & els & El & Hlen & Hr & Hc & Hold).
    { cbn [ls_next_id]. replace (ls_next_id s + 1 + N.of_nat (length envs))
        with (ls_next_id s + N.succ (N.of_nat (length envs))) by lia. exact Hid. }
    cbn [ls_loops pl_loops pl_threads ls_next_id] in *.
    rewrite length_app, Nat.add_1_r in E', Hc.
    exists s'. split; [rewrite E'; cbn [length seq]; by rewrite <- !app_assoc|].
    exists (el :: els). split_and!.
    + by rewrite El, <- app_assoc.
    + cbn [length]. by rewrite Hlen.
    + intros [|i] el' Hi.
      * injection Hi as <-. by rewrite N.add_0_r.
      * cbn in Hi. specialize (Hr _ _ Hi). rewrite Nat2N.inj_succ.
        replace (ls_next_id s + N.succ (N.of_nat i) + 1)
          with (ls_next_id s + 1 + N.of_nat i + 1) by lia. exact Hr.
    + intros [|i] Hi.
      * rewrite !Nat.add_0_r, (Hold t) by lia. unfold get_current_loop. cbn [CURRENT_LOOP].
        by rewrite lookup_insert_eq.
      * specialize (Hc i ltac:(cbn in Hi; lia)). by rewrite !Nat.add_succ_r.
    + intros t' Ht. rewrite (Hold t') by lia. unfold get_current_loop. cbn [CURRENT_LOOP].
      by rewrite lookup_insert_ne by lia.
Qed.

(** a pool made where the kernel gives every loop its selector consists of
    the new loops, in order: each is not running yet, has a poll and a timer in
    their invariants (with ticks of 100 ms), no job waiting, and a selector
    identity of its own; the [i]-th is the current loop of the [i]-th new
    thread, and the other threads keep theirs. *)
Theorem pool_new envs first s :
  Forall env_good envs → ls_next_id s + N.of_nat (length envs) <= u64_max →
  ∃ pool s', EventLoopPool_new envs first s = Done (pool, s') ∧
    get_all_poller pool = seq (length (ls_loops s)) (length envs) ∧
    pl_threads pool = seq first (length envs) ∧
    pool_of (length envs) first s s'.
Proof using SL KL.
  intros Hg Hid. destruct (pool_loop_ok envs first (mkPool [] []) s Hg Hid) as (s' & E & H).
  by eexists _, s'.
Qed.

End Pool.

Module PoolDemo.

Definition env : LoopEnv :=
  mkLoopEnv (P := N) (K := ScriptEpoll.t) None (IoOk (9%Z, ScriptEpoll.mk ∅ [])) 0 5 0 1 2 3 (mkInstant 0).
Definition none : Loops (J := nat) (P := N) (K := ScriptEpoll.t) (slab := VecSlab.t) (T := nat) :=
  mkLoops [] ∅ 0.

Lemma env_ok : env_good env.
Proof.
  unfold env_good. cbn [env le_end le_sleep le_closed]. split_and!; [lia..|].
  eexists _, _. split; [reflexivity|]. split; [reflexivity|]. intros ev. reflexivity.
Qed.
End PoolDemo.

Lemma pool_new_witness :
  ∃ pool s', EventLoopPool_new 0%nat [PoolDemo.env; PoolDemo.env] 1 PoolDemo.none = Done (pool, s') ∧
    get_all_poller pool = seq 0 2 ∧ pl_threads pool = seq 1 2 ∧
    pool_of 0%nat 2 1 PoolDemo.none s'.
Proof.
  apply (pool_new 0%nat [PoolDemo.env; PoolDemo.env] 1 PoolDemo.none).
  - constructor; [exact PoolDemo.env_ok|]. constructor; [exact PoolDemo.env_ok|constructor].
  - apply N.leb_le. vm_compute. reflexivity.
Defined.
