(* ===== verification/Server.v ===== *)
(** * TCP servers

    [src/src/net/acceptor.rs] and [TcpServer] of [src/src/net/tcp_server.rs]
    over the event loop of [EventLoop], the sockets of [Tcp] and the
    connections of [Connection].

    The closures the server hands to the loop and to its connections become
    data, [NetJob] and the sessions of a [Conn], and [run_net_job] calls them.
    A server and its acceptor are one record; a connection lies in a store, out
    of which it is taken while its mutex is locked.  The methods of a handler
    ([HandlerOps]) are calls of user code, with the lock of the session, that
    may change anything, the loop and the other connections included. *)
From Stdlib Require Import Strings.Byte.
From S2P Require Import Prelude EventSet ReadinessState Duration LazyCell Awakener Selector.
From S2P Require Import ReadinessQueue Registration Interfaces Timer PollReadiness Poll Evented.
From S2P Require Import EventLoop Sys Tcp Net Socket Connection.

(** The closures a server registers: the one of [start_internal], which calls
    the acceptor, and the one of a connection; the others are the user's. *)
Inductive NetJob (J : Type) : Type :=
  | NoJob
  | AcceptorJob
  | ConnJob (conn : N)
  | UserJob (j : J).
Arguments NoJob {J}.
Arguments AcceptorJob {J}.
Arguments ConnJob {J} conn.
Arguments UserJob {J} j.

(** The jobs of a connection replaced, in whatever world they run. *)
Definition with_all_jobs {E F B} (c : TcpConnection E B) (r : B → F → exec (B * F))
    (w : F → exec (bool * F)) (k : F → exec F) : TcpConnection F B :=
  mkConn (tcp_stream c) (read_buffer c) (write_buffer_sending c) (write_buffer_waiting c)
    r w k (read_enabled c) (write_enabled c) (read_triggered c) (write_triggered c) (closed c).

(** A connection in the store: its socket, the sessions its jobs call, none for
    the default jobs, and its other fields. *)
Record Conn (B : Type) := mkConnData {
  cn_stream : TcpStream;
  cn_read : option N;
  cn_writ : option N;
  cn_close : option N;
  cn_fields : TcpConnection () B;
}.
Arguments mkConnData {B} _ _ _ _ _.
Arguments cn_stream {B} _.
Arguments cn_read {B} _.
Arguments cn_writ {B} _.
Arguments cn_close {B} _.
Arguments cn_fields {B} _.

Definition with_read_session {B} (s : N) (c : Conn B) : Conn B :=
  mkConnData (cn_stream c) (Some s) (cn_writ c) (cn_close c) (cn_fields c).
Definition with_writ_session {B} (s : N) (c : Conn B) : Conn B :=
  mkConnData (cn_stream c) (cn_read c) (Some s) (cn_close c) (cn_fields c).
Definition with_close_session {B} (s : N) (c : Conn B) : Conn B :=
  mkConnData (cn_stream c) (cn_read c) (cn_writ c) (Some s) (cn_fields c).
Definition with_stream {B} (s : TcpStream) (c : Conn B) : Conn B :=
  mkConnData s (cn_read c) (cn_writ c) (cn_close c) (cn_fields c).
Definition with_fields {B} (f : TcpConnection () B) (c : Conn B) : Conn B :=
  mkConnData (cn_stream c) (cn_read c) (cn_writ c) (cn_close c) f.

(** [TcpConnection::new] of a socket. *)
Definition Conn_new {B} `{BytesOps B} (stream : TcpStream) : Conn B :=
  mkConnData stream None None None
    (TcpConnection_new (Z.to_N (stream_inner (stream_sys stream)))).

(** [TcpServer] and its [Acceptor]: the socket that listens, whether it does,
    whether [set_accept_job] was called, and whether [start] was; the static
    [SOCKET_TOKEN_ID]; the connections, [None] while locked; the rest of the
    world. *)
Record Server (B V : Type) := mkServer {
  tcp_listener : TcpListener;
  is_listening : bool;
  acceptor_job : bool;
  session_alloc : bool;
  SOCKET_TOKEN_ID : N;
  sv_conns : gmap N (option (Conn B));
  sv_world : V;
}.
Arguments mkServer {B V} _ _ _ _ _ _ _.
Arguments tcp_listener {B V} _.
Arguments is_listening {B V} _.
Arguments acceptor_job {B V} _.
Arguments session_alloc {B V} _.
Arguments SOCKET_TOKEN_ID {B V} _.
Arguments sv_conns {B V} _.
Arguments sv_world {B V} _.

Section ServerState.
Context {B V : Type}.
Implicit Types (s : Server B V).

Definition with_listener l b s : Server B V :=
  mkServer l b (acceptor_job s) (session_alloc s) (SOCKET_TOKEN_ID s) (sv_conns s) (sv_world s).
Definition with_acceptor_job b s : Server B V :=
  mkServer (tcp_listener s) (is_listening s) b (session_alloc s) (SOCKET_TOKEN_ID s) (sv_conns s) (sv_world s).
Definition with_session_alloc b s : Server B V :=
  mkServer (tcp_listener s) (is_listening s) (acceptor_job s) b (SOCKET_TOKEN_ID s) (sv_conns s) (sv_world s).
Definition with_token_id n s : Server B V :=
  mkServer (tcp_listener s) (is_listening s) (acceptor_job s) (session_alloc s) n (sv_conns s) (sv_world s).
Definition with_conns m s : Server B V :=
  mkServer (tcp_listener s) (is_listening s) (acceptor_job s) (session_alloc s) (SOCKET_TOKEN_ID s) m (sv_world s).
Definition with_sv_world v s : Server B V :=
  mkServer (tcp_listener s) (is_listening s) (acceptor_job s) (session_alloc s) (SOCKET_TOKEN_ID s) (sv_conns s) v.
End ServerState.

Section Server.
Context {UJ : Type}.
#[local] Abbreviation J := (NetJob UJ).
Context {P : Type} {PO : PipeOps P}.
Context {K : Type} {KO : EpollOps K}.
Context {slab : Type → Type} {T : Type}.
Context {B : Type} {BO : BytesOps B}.
Context {V : Type} {LO : LibcOps V} {NO : NetOps V} {VO : SocketOps V}.
#[local] Abbreviation EL := (EventLoop J P K slab T).
(** The world of a job: the loop and the rest. *)
#[local] Abbreviation E := (EL * Server B V)%type.
#[local] Abbreviation M := (stm E).

(** [H::new], and the methods of [Handler] for a session: [attach_connection] is
    given the connection, the others nothing but their arguments. *)
Class HandlerOps := {
  h_new : M N;
  h_attach_connection : N → N → M unit;
  h_on_accept : N → M unit;
  h_on_recv : N → B → E → exec (B * E);
  h_on_written : N → M bool;
  h_on_error : N → M unit;
}.
Context {HO : HandlerOps}.

#[local] Instance stream_evented : Evented J P K TcpStream := TcpStream_evented false.
#[local] Instance listener_evented : Evented J P K TcpListener := TcpListener_evented false.

(** A call that only concerns the rest of the world. *)
Definition on_world {A} (f : V → A * V) (e : E) : A * E :=
  let '(r, v) := f (sv_world e.2) in (r, (e.1, with_sv_world v e.2)).

(** The sockets of the connections: reads and writes are the world's,
    [EventLoop::deregister] the loop's. *)
#[global] Instance server_streams : StreamOps E := {|
  stream_read := λ e s n, on_world (sock_read (Z.of_N s) n) e;
  stream_write := λ e s bs, on_world (sock_write (Z.of_N s) bs) e;
  stream_shutdown := λ e s how, on_world (sock_shutdown (Z.of_N s) how) e;
  stream_deregister := λ e s,
    loop_deregister e.1 (mkTcpStream (mkSysStream (Z.of_N s)) SelectorId_new) ≫= λ '(r, _, el),
    Done (r, (el, e.2));
|}.

(** ** Connections and their mutexes *)

(** The closures [on_accept_connection] installs, and the default ones. *)
Definition read_closure (s : option N) : B → E → exec (B * E) :=
  match s with Some s => h_on_recv s | None => λ b e, Done (b, e) end.
Definition writ_closure (s : option N) : M bool :=
  match s with Some s => h_on_written s | None => λ e, Done (true, e) end.
Definition close_closure (s : option N) (e : E) : exec E :=
  match s with Some s => h_on_error s e ≫= λ '(_, e), Done e | None => Done e end.

Definition conn_open (c : Conn B) : TcpConnection E B :=
  with_all_jobs (cn_fields c) (read_closure (cn_read c)) (writ_closure (cn_writ c))
    (close_closure (cn_close c)).
Definition conn_shut (c : Conn B) (tc : TcpConnection E B) : Conn B :=
  with_fields (with_all_jobs tc (λ b e, Done (b, e)) (λ e, Done (true, e)) Done) c.

Definition put_conn (c : N) (o : option (Conn B)) (e : E) : E :=
  (e.1, with_conns (<[c := o]> (sv_conns e.2)) e.2).

(** [conn.lock().unwrap()], and the end of the guard. *)
Definition lock_conn (c : N) : M (Conn B) := λ e,
  match sv_conns e.2 !! c with
  | Some (Some cn) => Done (cn, put_conn c None e)
  | Some None => Panic PDeadlock
  | None => Panic PUnreachable
  end.
Definition unlock_conn (c : N) (cn : Conn B) : M unit := modify (put_conn c (Some cn)).

Definition with_conn (c : N) (f : Conn B → Conn B) : M unit :=
  lock_conn c ≫= λ cn, unlock_conn c (f cn).

(** A call on the connection while it is locked. *)
Definition conn_call {A} (c : N) (f : TcpConnection E B → E → exec (A * TcpConnection E B * E))
    : M A :=
  lock_conn c ≫= λ cn, λ e,
  f (conn_open cn) e ≫= λ '(a, tc, e),
  Done (a, put_conn c (Some (conn_shut cn tc)) e).

(** The closure of a connection: [conn.lock().unwrap().handle_event(val)]. *)
Definition conn_event (fuel : nat) (c : N) (val : Z) : M unit :=
  conn_call c (λ tc e,
    handle_event fuel tc (i64_as_usize val) e ≫= λ '(tc, e), Done (tt, tc, e)).

(** [send] and [shutdown], as a handler or a job calls them. *)
Definition conn_send (c : N) (bytes : B) : M N := conn_call c (λ tc e, send tc bytes e).
Definition conn_shutdown (c : N) (how : Shutdown) : M (io_result unit) :=
  conn_call c (λ tc e, Done (Connection.shutdown tc how e)).

(** ** [TcpServer::on_accept_connection] *)

(** [Arc::new(Mutex::new(TcpConnection::new(..)))] at a new address. *)
Definition new_conn (stream : TcpStream) : M N := λ e,
  let c := fresh (dom (sv_conns e.2)) in
  Done (c, put_conn c (Some (Conn_new stream)) e).

(** What the kernel does to the epoll of the loop when a descriptor is closed. *)
Definition kernel_forget (fd : Z) (el : EL) : EL :=
  let s := p_selector (el_poll el) in
  with_poll (with_selector (with_kernel s (epoll_forget (sel_kernel s) fd)) (el_poll el)) el.

(** Dropping a socket closes it, which the kernel's epoll notices and the loop
    does not; dropping the last reference to a connection drops its socket. *)
Definition drop_stream (stream : TcpStream) (e : E) : E :=
  let fd := stream_inner (stream_sys stream) in
  (kernel_forget fd e.1, with_sv_world (close_fd fd (sv_world e.2)) e.2).
Definition drop_conn (c : N) (cn : Conn B) (e : E) : E :=
  drop_stream (cn_stream cn) (e.1, with_conns (delete c (sv_conns e.2)) e.2).

(** [SOCKET_TOKEN_ID.fetch_add(1) + 1]. *)
Definition next_token : M N := λ e,
  let id := SOCKET_TOKEN_ID e.2 in
  add64 id 1 ≫= λ n,
  Done (n, (e.1, with_token_id ((id + 1) mod 2 ^ 64) e.2)).

(** [event_loop.register(..).unwrap()] of the socket of a locked connection. *)
Definition register_conn (c : N) (cn : Conn B) (tok : N) : M unit := λ e,
  loop_register e.1 (cn_stream cn) (mkTokenEntry SocketEvent (mkToken tok))
    (Ready.bitor Ready.readable Ready.writable) PollOpt.edge (ConnJob c) ≫= λ '(res, stream, el),
  match res with
  | IoErr _ => Panic PUnwrap
  | IoOk _ => Done (tt, put_conn c (Some (with_stream stream cn)) (el, e.2))
  end.

Definition on_accept_connection (stream : TcpStream) (addr : SocketAddr) : M unit :=
  new_conn stream ≫= λ conn,
  (λ e, if session_alloc e.2 then h_new e else Panic PUnwrap) ≫= λ session,
  h_attach_connection session conn ≫= λ _,
  h_on_accept session ≫= λ _,
  with_conn conn (with_read_session session) ≫= λ _,
  with_conn conn (with_writ_session session) ≫= λ _,
  with_conn conn (with_close_session session) ≫= λ _,
  lock_conn conn ≫= λ cn,
  next_token ≫= λ tok,
  register_conn conn cn tok.

(** ** [Acceptor] *)

(** The job of the acceptor; the default one drops the socket. *)
Definition accept_connection (stream : TcpStream) (addr : SocketAddr) : M unit := λ e,
  if acceptor_job e.2 then on_accept_connection stream addr e
  else Done (tt, drop_stream stream e).

(** The loop of [handle_read] ends with any error but [Interrupted]. *)
Fixpoint acceptor_handle_read (fuel : nat) : M unit := λ e,
  match fuel with
  | O => NoFuel
  | S fuel =>
      match on_world (accept (tcp_listener e.2)) e with
      | (IoOk (stream, addr), e) =>
          (accept_connection stream addr ≫= λ _, acceptor_handle_read fuel) e
      | (IoErr Interrupted, e) => acceptor_handle_read fuel e
      | (IoErr WouldBlock, e) => Done (tt, e)
      | (IoErr _, e) => Done (tt, e)
      end
  end.

(** [bind]: the job is registered for edge-triggered readiness. *)
Definition bind (job : J) : M unit := λ e,
  loop_register e.1 (tcp_listener e.2) (mkTokenEntry AcceptEvent (mkToken 0))
    Ready.readable PollOpt.edge job ≫= λ '(res, l, el),
  match res with
  | IoErr _ => Panic PUnwrap
  | IoOk _ => Done (tt, (el, with_listener l true e.2))
  end.

Definition set_accept_job : M unit := modify (λ e, (e.1, with_acceptor_job true e.2)).

(** ** [TcpServer] *)

Definition TcpServer_start : M unit := modify (λ e, (e.1, with_session_alloc true e.2)).

(** [start_internal]: the loop may run the job of the acceptor as soon as [bind]
    has registered it. *)
Definition start_internal : M unit :=
  bind AcceptorJob ≫= λ _, set_accept_job.

(** [Acceptor::new] and [TcpServer::new]: the address is parsed, and the
    listener bound, or they panic.  Nothing is listened to yet. *)
Context (parse : list byte → option SocketAddr).

Definition TcpServer_new (addr : list byte) (token_id : N) (v : V) : exec (Server B V) :=
  unwrap PUnwrap (parse addr) ≫= λ addr,
  TcpListener_new addr v ≫= λ '(l, v),
  Done (mkServer l false false false token_id ∅ v).

(** ** The jobs *)

Context (run_user : UJ → Z → M unit).

Definition run_net_job (fuel : nat) (j : J) (val : Z) : M unit :=
  match j with
  | NoJob => mret tt
  | AcceptorJob => acceptor_handle_read fuel
  | ConnJob c => conn_event fuel c val
  | UserJob j => run_user j val
  end.
End Server.
Arguments HandlerOps UJ P K slab T B V : clear implicits.
