(* ===== verification/ServerProps.v ===== *)
(** * TCP servers: properties

    What a server does with a connection: it is registered with its session,
    its events bring every byte of the socket to the session in order, the
    backlog of the listener is accepted to the end, and connections that come
    before [start_internal] has installed its job are dropped. *)
From Stdlib Require Import Strings.Byte.
From S2P Require Import Prelude EventSet ReadinessState Duration LazyCell Awakener Selector.
From S2P Require Import ReadinessQueue Registration Interfaces Timer PollReadiness Poll Evented.
From S2P Require Import EventLoop Sys Tcp Net Socket Layers Connection ConnectionProps Server.

Section ServerProps.
Context {UJ : Type}.
#[local] Abbreviation J := (NetJob UJ).
Context {P : Type} {PO : PipeOps P}.
Context {K : Type} {KO : EpollOps K}.
Context {slab : Type → Type} {T : Type}.
Context {B : Type} {BO : BytesOps B} {BL : BytesLaws B}.
Context {V : Type} {LO : LibcOps V} {NO : NetOps V} {VO : SocketOps V}.
Context {HO : HandlerOps UJ P K slab T B V}.
#[local] Abbreviation EL := (EventLoop J P K slab T).
#[local] Abbreviation E := (EL * Server B V)%type.
Implicit Types (e : E) (c : N) (stream : TcpStream).

Definition sel_of e : Selector := p_selector (el_poll e.1).

(** What a handler leaves alone while it is told of an accept: the descriptors
    the loop watches, and what is the server's own. *)
Record calm e e' : Prop := {
  calm_sel : sel_of e' = sel_of e;
  calm_conns : sv_conns e'.2 = sv_conns e.2;
  calm_token : SOCKET_TOKEN_ID e'.2 = SOCKET_TOKEN_ID e.2;
  calm_alloc : session_alloc e'.2 = session_alloc e.2;
}.

Class CalmHandler : Prop := {
  new_calm : ∀ e, ∃ s e', h_new e = Done (s, e') ∧ calm e e';
  attach_calm : ∀ s c e, ∃ e', h_attach_connection s c e = Done (tt, e') ∧ calm e e';
  accept_calm : ∀ s e, ∃ e', h_on_accept s e = Done (tt, e') ∧ calm e e';
}.

(** ** Accepting *)

Lemma put_conn_lookup c o e : sv_conns (put_conn c o e).2 !! c = Some o.
Proof. apply lookup_insert_eq. Qed.

Lemma put_conn_put c o o' e : put_conn c o' (put_conn c o e) = put_conn c o' e.
Proof.
  unfold put_conn, with_conns. destruct e as [el s]. cbn [fst snd sv_conns]. by rewrite insert_insert_eq.
Qed.

Lemma with_conn_ok c f e cn :
  sv_conns e.2 !! c = Some (Some cn) →
  with_conn c f e = Done (tt, put_conn c (Some (f cn)) e).
Proof.
  intros Hc. unfold with_conn, mbind, stm_bind, lock_conn. rewrite Hc.
  unfold unlock_conn, modify. by rewrite put_conn_put.
Qed.

(** The registration of a socket that no other poll watches. *)
Lemma register_conn_ok c cn tok e k :
  let fd := stream_inner (stream_sys (cn_stream cn)) in
  let sid := sid_id (stream_selector_id (cn_stream cn)) in
  sid = 0 ∨ sid = sel_id (sel_of e) →
  epoll_ctl (sel_kernel (sel_of e)) EPOLL_CTL_ADD fd
    (mkEpollEvent (ioevent_to_epoll (Ready.bitor Ready.readable Ready.writable) PollOpt.edge)
       (i32_as_u64 fd)) = (IoOk (), k) →
  ∃ e', register_conn c cn tok e = Done (tt, e') ∧
    e'.2 = (put_conn c (Some (with_stream
      (mkTcpStream (stream_sys (cn_stream cn)) (mkSelectorId (sel_id (sel_of e)))) cn)) e).2 ∧
    sel_map (sel_of e') = <[fd := mkJobEntry (mkTokenEntry SocketEvent (mkToken tok))
      (ConnJob c) Ready.empty]> (sel_map (sel_of e)) ∧
    sel_kernel (sel_of e') = k ∧ el_world e'.1 = el_world e.1 ∧ el_queue e'.1 = el_queue e.1 ∧
    p_lock (el_poll e'.1) = p_lock (el_poll e.1).
Proof.
  intros fd sid Hid Ek. destruct e as [el s]. unfold register_conn, loop_register, poll_register.
  unfold sel_of in *. cbn in *. unfold associate_selector.
  assert (negb (sid =? 0) && negb (sid =? sel_id (p_selector (el_poll el))) = false) as Ha.
  { destruct Hid as [-> | ->]; [done|]. rewrite N.eqb_refl. apply andb_false_r. }
  subst sid. rewrite Ha.
  unfold EventedFd_register, Selector.register. cbn [with_map sel_kernel] in *.
  subst fd. rewrite Ek. cbn. eexists. split; [reflexivity|]. done.
Qed.
Lemma calm_trans e1 e2 e3 : calm e1 e2 → calm e2 e3 → calm e1 e3.
Proof. intros [A1 A2 A3 A4] [B1 B2 B3 B4]. split; congruence. Qed.

(** The three jobs of a connection. *)
Definition with_session (s : N) (cn : Conn B) : Conn B :=
  with_close_session s (with_writ_session s (with_read_session s cn)).

Lemma set_sessions_ok {A} c s e cn (k : stm E A) :
  sv_conns e.2 !! c = Some (Some cn) →
  (with_conn c (with_read_session s) ≫= λ _, with_conn c (with_writ_session s) ≫= λ _,
   with_conn c (with_close_session s) ≫= λ _, k) e = k (put_conn c (Some (with_session s cn)) e).
Proof.
  intros Hc. rewrite (stm_step _ _ _ _ _ (with_conn_ok c _ e cn Hc)).
  rewrite (stm_step _ _ _ _ _ (with_conn_ok c _ _ _ (put_conn_lookup _ _ _))), put_conn_put.
  by rewrite (stm_step _ _ _ _ _ (with_conn_ok c _ _ _ (put_conn_lookup _ _ _))), put_conn_put.
Qed.

Lemma lock_conn_ok c e cn :
  sv_conns e.2 !! c = Some (Some cn) → lock_conn c e = Done (cn, put_conn c None e).
Proof. intros Hc. unfold lock_conn. by rewrite Hc. Qed.

Lemma next_token_ok e : SOCKET_TOKEN_ID e.2 < u64_max →
  next_token e = Done (SOCKET_TOKEN_ID e.2 + 1, (e.1, with_token_id (SOCKET_TOKEN_ID e.2 + 1) e.2)).
Proof.
  intros H. unfold next_token, add64.
  assert (SOCKET_TOKEN_ID e.2 + 1 <= u64_max) as H1 by (rewrite N.add_1_r; by apply N.le_succ_l).
  apply N.leb_le in H1 as ->. cbn [mbind exec_bind]. rewrite N.mod_small; [done|].
  apply (N.le_lt_trans _ u64_max); [rewrite N.add_1_r; by apply N.le_succ_l|reflexivity].
Qed.

(** A connection as [on_accept_connection] leaves it: with the methods of its
    session, and its socket bound to the loop [id]. *)
Definition in_service (session id : N) (cn : Conn B) : Conn B :=
  with_stream (mkTcpStream (stream_sys (cn_stream cn)) (mkSelectorId id)) (with_session session cn).

Lemma on_accept_ok stream addr e :
  session_alloc e.2 = true →
  let c := fresh (dom (sv_conns e.2)) in
  sv_conns e.2 !! c = None ∧
  ∀ session e1 e2 e3 cn k,
    h_new (put_conn c (Some (Conn_new stream)) e) = Done (session, e1) →
    h_attach_connection session c e1 = Done (tt, e2) → h_on_accept session e2 = Done (tt, e3) →
    sv_conns e3.2 !! c = Some (Some cn) → SOCKET_TOKEN_ID e3.2 < u64_max →
    sid_id (stream_selector_id (cn_stream cn)) = 0 ∨
      sid_id (stream_selector_id (cn_stream cn)) = sel_id (sel_of e3) →
    let fd := stream_inner (stream_sys (cn_stream cn)) in
    epoll_ctl (sel_kernel (sel_of e3)) EPOLL_CTL_ADD fd
      (mkEpollEvent (ioevent_to_epoll (Ready.bitor Ready.readable Ready.writable) PollOpt.edge)
         (i32_as_u64 fd)) = (IoOk (), k) →
    ∃ e', on_accept_connection stream addr e = Done (tt, e') ∧
      sv_conns e'.2 = <[c := Some (in_service session (sel_id (sel_of e3)) cn)]> (sv_conns e3.2) ∧
      sel_map (sel_of e') = <[fd := mkJobEntry
        (mkTokenEntry SocketEvent (mkToken (SOCKET_TOKEN_ID e3.2 + 1))) (ConnJob c) Ready.empty]>
        (sel_map (sel_of e3)) ∧
      sel_kernel (sel_of e') = k ∧ SOCKET_TOKEN_ID e'.2 = SOCKET_TOKEN_ID e3.2 + 1 ∧
      sv_world e'.2 = sv_world e3.2 ∧ el_world e'.1 = el_world e3.1.
Proof.
  intros Hs c. split; [apply not_elem_of_dom, is_fresh|].
  intros session e1 e2 e3 cn k E1 E2 E3 L3 Ht Hid fd Hk. unfold on_accept_connection.
  rewrite (stm_step _ _ e c (put_conn c (Some (Conn_new stream)) e)) by reflexivity.
  erewrite stm_step; [|change (session_alloc (put_conn c (Some (Conn_new stream)) e).2) with (session_alloc e.2);
    rewrite Hs; exact E1].
  rewrite (stm_step _ _ _ _ _ E2), (stm_step _ _ _ _ _ E3), (set_sessions_ok c session e3 cn _ L3).
  rewrite (stm_step _ _ _ _ _ (lock_conn_ok c _ _ (put_conn_lookup _ _ _))), put_conn_put.
  rewrite (stm_step _ _ _ _ _ (next_token_ok (put_conn c None e3) Ht)).
  set (e4 := (_, with_token_id _ _)).
  destruct (register_conn_ok c (with_session session cn) (SOCKET_TOKEN_ID e3.2 + 1) e4 k)
    as (e' & E' & Es & Em & Ek & Hwd & _); [exact Hid|exact Hk|].
  exists e'. split; [exact E'|]. rewrite Es. split.
  { unfold put_conn. cbn [snd fst sv_conns with_conns with_token_id].
    subst e4. unfold put_conn. cbn [snd fst sv_conns with_conns with_token_id]. by rewrite insert_insert_eq. }
  split; [exact Em|]. split; [exact Ek|]. split; [done|]. split; [done|exact Hwd].
Qed.

(** ** The events of a connection *)

Lemma i64_roundtrip n : n < 2 ^ 64 → i64_as_usize (usize_as_i64 n) = n.
Proof.
  intros H. unfold i64_as_usize, usize_as_i64. destruct (N.ltb_spec n (2 ^ 63)) as [Hn|Hn].
  - rewrite Z.mod_small by lia. lia.
  - replace (Z.of_N n - 2 ^ 64)%Z with (Z.of_N n + (-1) * 2 ^ 64)%Z by lia.
    rewrite Z.mod_add by done. rewrite Z.mod_small by lia. lia.
Qed.
End ServerProps.

(** What the sockets of the world promise, as [StreamLaws]. *)
Class SocketLaws (V : Type) `{SocketOps V} := {
  sock_rx : V → Z → list byte;
  sock_tx : V → Z → list byte;
  sock_pend : V → Z → nat;
  sock_read_law : ∀ s n v, 0 < n →
    match sock_read s n v with
    | (IoOk bs, v') =>
        N.of_nat (length bs) <= n ∧ sock_rx v' s = sock_rx v s ++ bs
        ∧ (bs ≠ [] → (sock_pend v' s < sock_pend v s)%nat)
    | (IoErr WouldBlock, v') => v' = v
    | (IoErr _, v') => sock_rx v' s = sock_rx v s
    end;
  sock_write_law : ∀ s bs v, bs ≠ [] →
    match sock_write s bs v with
    | (IoOk k, v') =>
        k <= N.of_nat (length bs) ∧ sock_tx v' s = sock_tx v s ++ take (N.to_nat k) bs
    | (IoErr _, v') => sock_tx v' s = sock_tx v s
    end;
}.

(** What a write of [bs] with the result [r] puts on the wire; and whether the
    connection goes on after it, which it does not after an error other than
    that the write would block. *)
Definition carried (r : io_result N) (bs : list byte) : list byte :=
  match r with IoOk k => take (N.to_nat k) bs | IoErr _ => [] end.
Definition goes_on (r : io_result N) : Prop :=
  match r with IoOk _ => True | IoErr err => err = WouldBlock end.

Lemma carried_all bs : carried (IoOk (N.of_nat (length bs))) bs = bs.
Proof. cbn. by rewrite Nat2N.id, firstn_all. Qed.

Lemma sent_some {V} `{SocketLaws V} s bs v r v' :
  bs ≠ [] → sock_write s bs v = (r, v') → sock_tx v' s = sock_tx v s ++ carried r bs.
Proof.
  intros Hn E. pose proof (sock_write_law s bs v Hn) as Hlaw. rewrite E in Hlaw.
  destruct r; [by destruct Hlaw|by rewrite app_nil_r].
Qed.

(** A write that takes everything. *)
Lemma sent_all {V} `{SocketLaws V} s bs v v' :
  bs ≠ [] → sock_write s bs v = (IoOk (N.of_nat (length bs)), v') → sock_tx v' s = sock_tx v s ++ bs.
Proof.
  intros Hn E. by rewrite (sent_some s bs v _ v' Hn E), carried_all.
Qed.

(** They hold of a state with the system below. *)
Definition layer_laws {W V} (l : Layer W V) `{LayerLaws W V l} `{SocketLaws V} :
    @SocketLaws W (layer_sockets l).
Proof.
  refine (@Build_SocketLaws W (layer_sockets l) (λ w, sock_rx (under l w)) (λ w, sock_tx (under l w))
            (λ w, sock_pend (under l w)) _ _).
  - intros fd n w Hn. pose proof (sock_read_law fd n (under l w) Hn) as Hs. cbn. unfold through.
    destruct (sock_read fd n (under l w)) as [[bs|[]] v]; try (by rewrite under_over). by rewrite Hs, over_under.
  - intros fd bs w Hn. pose proof (sock_write_law fd bs (under l w) Hn) as Hs. cbn. unfold through.
    destruct (sock_write fd bs (under l w)) as [[k|err] v]; by rewrite under_over.
Defined.

Section Delivery.
Context {UJ : Type}.
#[local] Abbreviation J := (NetJob UJ).
Context {P : Type} {PO : PipeOps P}.
Context {K : Type} {KO : EpollOps K}.
Context {slab : Type → Type} {T : Type}.
Context {B : Type} {BO : BytesOps B} {BL : BytesLaws B}.
Context {V : Type} {VO : SocketOps V} {VL : SocketLaws V}.
Context {HO : HandlerOps UJ P K slab T B V}.
#[local] Abbreviation EL := (EventLoop J P K slab T).
#[local] Abbreviation E := (EL * Server B V)%type.
Implicit Types (e : E) (c : N).

#[export] Instance server_stream_laws : StreamLaws E.
Proof.
  refine {| rx := λ e s, sock_rx (sv_world e.2) (Z.of_N s);
            tx := λ e s, sock_tx (sv_world e.2) (Z.of_N s);
            pend := λ e s, sock_pend (sv_world e.2) (Z.of_N s) |}.
  - intros [el sv] s n Hn. cbn. unfold on_world. cbn.
    pose proof (sock_read_law (Z.of_N s) n (sv_world sv) Hn) as H.
    destruct (sock_read _ _ _) as [[bs|[]] v']; try done. subst v'. by destruct sv.
  - intros [el sv] s bs Hn. cbn. unfold on_world. cbn.
    pose proof (sock_write_law (Z.of_N s) bs (sv_world sv) Hn) as H.
    by destruct (sock_write _ _ _) as [[k|err] v'].
Defined.

(** The bytes the session took, and whether the loop can stop watching the
    socket [fd]. *)
Context (delivered : V → list byte).
Context (delivered_read : ∀ s n v, delivered (sock_read s n v).2 = delivered v).
Definition watched (fd : Z) e : Prop := ∃ k,
  epoll_ctl (sel_kernel (sel_of e)) EPOLL_CTL_DEL fd (mkEpollEvent 0 0) = (IoOk (), k).

(** A session returns, takes a prefix of what it is shown, and neither reads
    the socket of its connection nor stops its being watched ([on_written] may
    be called when it no longer is). *)
Record session_reads (session : N) (fd : N) : Prop := {
  recv_takes : ∀ buf e, watched (Z.of_N fd) e → ∃ buf' e',
    h_on_recv session buf e = Done (buf', e') ∧ watched (Z.of_N fd) e' ∧
    delivered (sv_world e'.2) ++ bytes_data buf' = delivered (sv_world e.2) ++ bytes_data buf ∧
    rx e' fd = rx e fd ∧ (pend e' fd <= pend e fd)%nat;
  error_returns : ∀ e, watched (Z.of_N fd) e → ∃ e',
    h_on_error session e = Done (tt, e') ∧ watched (Z.of_N fd) e' ∧
    delivered (sv_world e'.2) = delivered (sv_world e.2) ∧ rx e' fd = rx e fd;
  written_returns : ∀ e, ∃ b e',
    h_on_written session e = Done (b, e') ∧
    delivered (sv_world e'.2) = delivered (sv_world e.2) ∧ rx e' fd = rx e fd ∧
    (watched (Z.of_N fd) e → watched (Z.of_N fd) e');
}.

(** Every byte the socket of a connection handed out is with its session or in
    the read buffer. *)
Definition conn_lossless (cn : Conn B) e : Prop := ∃ buf,
  read_buffer (cn_fields cn) = Some buf ∧
  delivered (sv_world e.2) ++ bytes_data buf = rx e (tcp_stream (cn_fields cn)).

Lemma watched_deregister fd e : watched (Z.of_N fd) e →
  ∃ e', stream_deregister e fd = Done (IoOk (), e') ∧ sv_world e'.2 = sv_world e.2.
Proof.
  intros [k Hk]. destruct e as [el sv]. unfold watched, sel_of in Hk. cbn [fst] in Hk.
  cbn [stream_deregister server_streams fst snd]. unfold loop_deregister, poll_deregister. cbn.
  unfold EventedFd_deregister, Selector.deregister. cbn. rewrite Hk. cbn. by eexists.
Qed.

Lemma session_closes cn session :
  cn_close cn = Some session → session_reads session (tcp_stream (cn_fields cn)) →
  closes_quietly (B:=B) (λ e, delivered (sv_world e.2)) (watched (Z.of_N (tcp_stream (cn_fields cn))))
    (conn_open cn).
Proof using.
  intros Hc Hs e1 H. cbn [close_job conn_open with_all_jobs]. rewrite Hc. cbn [close_closure].
  destruct (error_returns _ _ Hs e1 H) as (e2 & E2 & H1 & H2 & H3). rewrite E2.
  destruct (watched_deregister _ _ H1) as (e3 & E3 & H4). exists e3. cbn [mbind exec_bind].
  unfold close_stream. cbn [tcp_stream conn_open with_all_jobs].
  unfold mbind in E3 |- *. rewrite E3. cbn [mbind exec_bind]. split; [done|]. cbn. by rewrite H4.
Qed.

Lemma conn_open_reads cn session e :
  cn_read cn = Some session → cn_close cn = Some session →
  session_reads session (tcp_stream (cn_fields cn)) →
  conn_lossless cn e → watched (Z.of_N (tcp_stream (cn_fields cn))) e →
  ∀ fuel, (pend e (tcp_stream (cn_fields cn)) < fuel)%nat →
  ∃ tc e', handle_read fuel (with_triggered true (write_triggered (conn_open cn)) (conn_open cn)) e
      = Done (tc, e') ∧
    lossless (λ e, delivered (sv_world e.2)) tc e' ∧
    tcp_stream tc = tcp_stream (cn_fields cn) ∧
    (closed tc = true ∨ watched (Z.of_N (tcp_stream (cn_fields cn))) e' ∧ ∃ n, 0 < n ∧
       stream_read e' (tcp_stream (cn_fields cn)) n = (IoErr WouldBlock, e')).
Proof using BL VL delivered_read.
  intros Hr Hc Hs Hl Hw fuel Hf.
  destruct (handle_read_full (λ e, delivered (sv_world e.2)) ltac:(clear - delivered_read;
    intros [el sv] s n; cbn; unfold on_world; cbn;
    pose proof (delivered_read (Z.of_N s) n (sv_world sv)) as H;
    destruct (sock_read _ _ _); exact H)
    (watched (Z.of_N (tcp_stream (cn_fields cn))))
    ltac:(clear; intros [el sv] s n H; cbn; unfold on_world; cbn; by destruct (sock_read _ _ _))
    fuel (with_triggered true (write_triggered (conn_open cn)) (conn_open cn)) e)
    as (tc & e' & E1 & Hl' & _ & H); [|exact (session_closes cn session Hc Hs)|exact Hw|exact Hl|exact Hf|by exists tc, e'].
  intros buf e1 H. cbn. rewrite Hr. cbn.
  destruct (recv_takes _ _ Hs buf e1 H) as (buf' & e' & E' & H1 & H2 & H3 & H4).
  exists buf', e'. by split_and!.
Qed.

(** A write of the world's sockets delivers nothing and reads nothing. *)
Context (write_quiet : ∀ s bs v, delivered (sock_write s bs v).2 = delivered v ∧
  sock_rx (sock_write s bs v).2 s = sock_rx v s).

Lemma conn_event_ok fuel c cn session r e waiting :
  sv_conns e.2 !! c = Some (Some cn) →
  cn_read cn = Some session → cn_writ cn = Some session → cn_close cn = Some session →
  session_reads session (tcp_stream (cn_fields cn)) →
  conn_lossless cn e → writable_conn (cn_fields cn) waiting →
  watched (Z.of_N (tcp_stream (cn_fields cn))) e →
  (pend e (tcp_stream (cn_fields cn)) < fuel)%nat →
  ready_0 r < 2 ^ 64 → Ready.is_readable r = true →
  ∃ tc e1 e' cn',
    handle_read fuel (with_triggered true (write_triggered (conn_open cn)) (conn_open cn))
      (put_conn c None e) = Done (tc, e1) ∧
    (closed tc = true ∨ ∃ n, 0 < n ∧
       stream_read e1 (tcp_stream (cn_fields cn)) n = (IoErr WouldBlock, e1)) ∧
    conn_event fuel c (usize_as_i64 (ready_as_usize r)) e = Done (tt, e') ∧
    sv_conns e'.2 !! c = Some (Some cn') ∧ cn_read cn' = Some session ∧
    tcp_stream (cn_fields cn') = tcp_stream (cn_fields cn) ∧
    conn_lossless cn' e' ∧ rx e' (tcp_stream (cn_fields cn)) = rx e1 (tcp_stream (cn_fields cn)) ∧
    (closed tc || Ready.is_error r || Ready.is_hup r = true → closed (cn_fields cn') = true).
Proof using BL VL delivered_read write_quiet.
  intros Hcn Hr Hwr Hc Hs Hl Hw Hwt Hf H64 Hir.
  unfold conn_event, conn_call. rewrite (stm_step _ _ _ _ _ (lock_conn_ok c e cn Hcn)).
  rewrite i64_roundtrip by done. set (e0 := put_conn c None e).
  destruct (conn_open_reads cn session e0 Hr Hc Hs) with (fuel := fuel)
    as (tc & e1 & E1 & Hl1 & Hst & Hend); [exact Hl|exact Hwt|exact Hf|].
  destruct (handle_event_ok (λ e, delivered (sv_world e.2)) (watched (Z.of_N (tcp_stream (cn_fields cn))))
    ltac:(clear - write_quiet; intros [el sv] s bs; cbn; unfold on_world; cbn;
      destruct (write_quiet (Z.of_N s) bs (sv_world sv)) as [H1 H2];
      destruct (sock_write _ _ _); by split_and!)
    fuel (conn_open cn) r e0 tc e1 waiting H64 Hir E1 Hw Hst)
    as (tc' & e2 & Ee & [A1 A2 A3 A4 A5 A6] & Hcl).
  { intros e2. cbn [writ_job conn_open with_all_jobs]. rewrite Hwr. exact (written_returns _ _ Hs e2). }
  { by apply (session_closes cn session). }
  { destruct Hend as [?|[? _]]; [by left|by right]. }
  unfold mbind in Ee. rewrite Ee. cbn [mbind exec_bind].
  eexists tc, e1, _, _. split; [exact E1|]. split; [destruct Hend as [?|[_ ?]]; [by left|by right]|].
  split; [reflexivity|]. rewrite put_conn_lookup. split; [reflexivity|].
  split; [exact Hr|]. split; [exact (eq_trans A3 Hst)|].
  split; [destruct (A1 Hl1) as (buf & Hb & Hd); by exists buf|].
  split; [rewrite <- Hst; exact A2|].
  intros Ho. change (closed tc' = true). destruct (closed tc); [by apply A5|by apply Hcl].
Qed.
End Delivery.

(** ** The acceptor *)

(** accept(2) takes the first connection off the backlog, may drop one that
    failed, and would block only when there is none; each time a signal
    interrupts it, one less is to come.  The other calls leave both alone; the
    two of [set_nonblock] never fail with EAGAIN. *)
Class BacklogLaws (V : Type) `{LibcOps V} `{NetOps V} := {
  backlog : V → nat;
  signals : V → nat;
  accept_backlog : ∀ fd v,
    match net_accept fd v with
    | (IoOk _, v') => backlog v = S (backlog v') ∧ (signals v' <= signals v)%nat
    | (IoErr Interrupted, v') => backlog v' = backlog v ∧ (signals v' < signals v)%nat
    | (IoErr WouldBlock, v') => backlog v' = 0%nat ∧ (signals v' <= signals v)%nat
    | (IoErr _, v') => (backlog v' <= backlog v)%nat ∧ (signals v' <= signals v)%nat
    end;
  fcntl_backlog : ∀ fd cmd arg v, let v' := (libc_fcntl fd cmd arg v).2 in
    backlog v' = backlog v ∧ signals v' = signals v;
  close_backlog : ∀ fd v, backlog (close_fd fd v) = backlog v ∧ signals (close_fd fd v) = signals v;
  fcntl_again : ∀ fd cmd arg v, cmd = F_GETFL ∨ cmd = F_SETFL →
    let '(r, v') := libc_fcntl fd cmd arg v in
    is_minus_one r = true → last_os_error v' ≠ WouldBlock;
}.

(** What the loop of the acceptor can still be given. *)
Definition to_come {V} `{BacklogLaws V} (v : V) : nat := (backlog v + signals v)%nat.

Section Acceptor.
Context {UJ : Type}.
#[local] Abbreviation J := (NetJob UJ).
Context {P : Type} {PO : PipeOps P}.
Context {K : Type} {KO : EpollOps K}.
Context {slab : Type → Type} {T : Type}.
Context {B : Type} {BO : BytesOps B}.
Context {V : Type} {LO : LibcOps V} {NO : NetOps V} {VO : SocketOps V} {VB : BacklogLaws V}.
Context {HO : HandlerOps UJ P K slab T B V}.
#[local] Abbreviation EL := (EventLoop J P K slab T).
#[local] Abbreviation E := (EL * Server B V)%type.
Implicit Types (e : E).

Lemma set_nonblock_backlog fd v :
  let '(r, v') := set_nonblock fd v in
  backlog v' = backlog v ∧ signals v' = signals v ∧ r ≠ IoErr WouldBlock.
Proof.
  unfold set_nonblock, mbind, io_bind, sys_call, cvt.
  pose proof (fcntl_backlog fd F_GETFL 0 v) as H1. pose proof (fcntl_again fd F_GETFL 0 v (or_introl eq_refl)) as G1.
  destruct (libc_fcntl fd F_GETFL 0 v) as [f v1].
  pose proof (fcntl_backlog fd F_SETFL (Z.lor f O_NONBLOCK) v1) as H2.
  pose proof (fcntl_again fd F_SETFL (Z.lor f O_NONBLOCK) v1 (or_intror eq_refl)) as G2.
  destruct (libc_fcntl fd F_SETFL (Z.lor f O_NONBLOCK) v1) as [r v2]. cbn in *.
  destruct (is_minus_one r) eqn:Er; cbn; (split; [|split]); try (destruct H1, H2; congruence).
  injection 1 as E. by apply G2.
Qed.

Lemma accept_takes l v :
  match accept l v with
  | (IoOk _, v') => backlog v = S (backlog v') ∧ (signals v' <= signals v)%nat
  | (IoErr Interrupted, v') => (to_come v' < to_come v)%nat
  | (IoErr WouldBlock, v') => backlog v' = 0%nat
  | (IoErr _, v') => True
  end.
Proof.
  unfold accept, accept_std, SysTcpListener_accept, mbind, io_bind, to_come.
  pose proof (accept_backlog (listener_inner (listener_sys l)) v) as H.
  destruct (net_accept _ v) as [[[s a]|[]] v1]; [|lia..|done].
  unfold from_stream, mbind, io_bind, holding. pose proof (set_nonblock_backlog s v1) as Hn.
  destruct (set_nonblock s v1) as [[[]|err] v2]; cbn in *; destruct Hn as (Hb & Hg & Hne); [lia|].
  destruct (close_backlog s v2) as [Hb2 Hg2]. rewrite Hb2, Hg2. destruct err; [lia|done|done].
Qed.

(** The reference for the loop of [handle_read]: each connection goes to the
    job, in order, up to the first error that is not an interruption. *)
Inductive accepts : E → list (TcpStream * SocketAddr) → io_error → E → Prop :=
  | accepts_end e e' err :
      on_world (accept (tcp_listener e.2)) e = (IoErr err, e') → err ≠ Interrupted →
      accepts e [] err e'
  | accepts_interrupted e e1 l err e' :
      on_world (accept (tcp_listener e.2)) e = (IoErr Interrupted, e1) →
      accepts e1 l err e' → accepts e l err e'
  | accepts_one e e1 s a e2 l err e' :
      on_world (accept (tcp_listener e.2)) e = (IoOk (s, a), e1) →
      accept_connection s a e1 = Done (tt, e2) →
      accepts e2 l err e' → accepts e ((s, a) :: l) err e'.

Lemma on_world_accept e r e1 :
  on_world (accept (tcp_listener e.2)) e = (r, e1) →
  ∃ v, accept (tcp_listener e.2) (sv_world e.2) = (r, v) ∧ e1 = (e.1, with_sv_world v e.2).
Proof. unfold on_world. destruct (accept _ _) as [r' v]. intros [= -> <-]. eauto. Qed.

(** An acceptor that would block has taken every connection. *)
Lemma accepts_drained e l err e' :
  accepts e l err e' → err = WouldBlock → backlog (sv_world e'.2) = 0%nat.
Proof.
  induction 1 as [e e' err E _| |]; [|done..]. intros ->.
  destruct (on_world_accept e _ e' E) as (v & Ea & ->).
  pose proof (accept_takes (tcp_listener e.2) (sv_world e.2)) as H. by rewrite Ea in H.
Qed.

Lemma accepts_err e l err e' : accepts e l err e' → err ≠ Interrupted.
Proof. by induction 1. Qed.

(** The worlds the job of the acceptor can work in. *)
Context (good : E → Prop).

Lemma acceptor_ok e fuel :
  (∀ e err e1, good e → on_world (accept (tcp_listener e.2)) e = (IoErr err, e1) → good e1) →
  (∀ e e1 s a, good e → on_world (accept (tcp_listener e.2)) e = (IoOk (s, a), e1) →
    ∃ e2, accept_connection s a e1 = Done (tt, e2) ∧ good e2 ∧
      (to_come (sv_world e2.2) <= to_come (sv_world e1.2))%nat) →
  good e → (to_come (sv_world e.2) < fuel)%nat →
  ∃ l err e', acceptor_handle_read fuel e = Done (tt, e') ∧ accepts e l err e' ∧ good e'.
Proof.
  intros Hacc Hjob. revert e. induction fuel as [|fuel IH]; intros e Hg Hf; [lia|].
  cbn [acceptor_handle_read].
  pose proof (accept_takes (tcp_listener e.2) (sv_world e.2)) as Ht.
  destruct (on_world (accept (tcp_listener e.2)) e) as [r e1] eqn:E1.
  destruct (on_world_accept e r e1 E1) as (v1 & Ea & ->). rewrite Ea in Ht.
  destruct r as [[s a]|err].
  - destruct (Hjob e _ s a Hg E1) as (e2 & E3 & Hg2 & Hb). cbn in Hb.
    rewrite (stm_step _ _ _ _ _ E3).
    destruct (IH e2 Hg2) as (l & err & e' & E4 & H4 & Hg4); [unfold to_come in *; cbn in *; lia|].
    exists ((s, a) :: l), err, e'. split; [done|]. split; [|done]. by eapply accepts_one.
  - pose proof (Hacc e err _ Hg E1) as Hg1.
    destruct err; [|eexists [], _, _; (split; [reflexivity|]); split; [by apply accepts_end|done]..].
    destruct (IH _ Hg1) as (l & err & e' & E4 & H4 & Hg4); [cbn; lia|].
    exists l, err, e'. split; [done|]. split; [|done]. by eapply accepts_interrupted.
Qed.

End Acceptor.

Section EarlyConnections.
Context {UJ : Type}.
#[local] Abbreviation J := (NetJob UJ).
Context {P : Type} {PO : PipeOps P}.
Context {K : Type} {KO : EpollOps K}.
Context {slab : Type → Type} {T : Type}.
Context {B : Type} {BO : BytesOps B}.
Context {V : Type} {LO : LibcOps V} {LL : LibcLaws V} {NO : NetOps V} {NL : NetLaws V}.
Context {VO : SocketOps V} {VB : BacklogLaws V}.
Context {HO : HandlerOps UJ P K slab T B V}.
#[local] Abbreviation EL := (EventLoop J P K slab T).
#[local] Abbreviation E := (EL * Server B V)%type.
Implicit Types (e : E).

(** With the default job, every connection of the backlog is accepted and
    closed at once. *)
Definition dropping (t : gmap Z FdFlags) (m : gmap N (option (Conn B))) e : Prop :=
  open_fds (sv_world e.2) = t ∧ sv_conns e.2 = m ∧ acceptor_job e.2 = false.

Lemma default_job_drops e fuel :
  acceptor_job e.2 = false → (to_come (sv_world e.2) < fuel)%nat →
  ∃ l err e', acceptor_handle_read fuel e = Done (tt, e') ∧ accepts e l err e' ∧
    dropping (open_fds (sv_world e.2)) (sv_conns e.2) e'.
Proof.
  intros Hj Hf.
  apply (acceptor_ok (dropping (open_fds (sv_world e.2)) (sv_conns e.2))); [..|done|done].
  - intros e1 err e2 (Ht & Hc & Hj1) (v & Ea & ->)%on_world_accept.
    pose proof (accept_ok (tcp_listener e1.2) (sv_world e1.2)) as H. unfold wp in H.
    rewrite Ea in H. split; [|done]. by cbn; rewrite H.
  - intros e1 e2 s a (Ht & Hc & Hj1) (v & Ea & ->)%on_world_accept.
    pose proof (accept_ok (tcp_listener e1.2) (sv_world e1.2)) as H. unfold wp in H.
    rewrite Ea in H. destruct H as (_ & Hn & [c Ho]).
    unfold accept_connection, drop_stream. cbn [snd acceptor_job with_sv_world]. rewrite Hj1.
    eexists. split; [reflexivity|]. cbn [snd sv_world with_sv_world sv_conns acceptor_job fst].
    split; [|unfold to_come; by destruct (close_backlog (stream_inner (stream_sys s)) v) as [-> ->]]. split; [|done]. cbn [snd sv_world with_sv_world].
    rewrite close_law, Ho, delete_insert_id by done. exact Ht.
Qed.

(** What [bind] does. *)
Lemma bind_ok (job : J) e e1 :
  bind job e = Done (tt, e1) →
  sv_world e1.2 = sv_world e.2 ∧ sv_conns e1.2 = sv_conns e.2 ∧
  acceptor_job e1.2 = acceptor_job e.2 ∧ is_listening e1.2 = true ∧
  sel_map (sel_of e1) !! listener_inner (listener_sys (tcp_listener e.2)) =
    Some (mkJobEntry (mkTokenEntry AcceptEvent (mkToken 0)) job Ready.empty).
Proof.
  destruct e as [el s]. unfold bind, loop_register, poll_register, sel_of. cbn.
  destruct (associate_selector _ _) as [[[]|err] sid]; [|done]. cbn.
  unfold EventedFd_register, Selector.register. cbn.
  destruct (epoll_ctl _ _ _ _) as [[[]|err] k]; cbn; [|done].
  intros [= <-]. split_and!; try done. cbn. apply lookup_insert_eq.
Qed.
End EarlyConnections.
