(* ===== verification/ServerTheorems.v ===== *)
(** * TCP servers: theorems

    The properties of [ServerProps], and a world with one listener and one
    socket in which they are run. *)
From Stdlib Require Import Strings.Byte.
From S2P Require Import Prelude EventSet ReadinessState Duration LazyCell Awakener Selector.
From S2P Require Import ReadinessQueue Registration Interfaces Timer PollReadiness Poll Evented.
From S2P Require Import EventLoop Sys Tcp Net Socket Connection ConnectionProps Server ServerProps.

(** C18 a server gives an accepted socket to a connection at a new address, and
    the connection to the session that [H::new] returns, which is told of both;
    if these methods return and leave the connection unlocked, its socket is
    then registered with the loop, for edge-triggered readiness in both
    directions, under the next token, and the connection answers with the three
    methods of exactly that session.  Beyond what the methods did, the other
    connections, the other descriptors and the rest of the world stay.  (The
    token counter must not be at its end, and the kernel must take the
    descriptor; the code panics otherwise.) *)
Theorem accepted_socket_is_served {UJ P K slab T B V} `{EpollOps K} `{BytesOps B}
    `{HO : HandlerOps UJ P K slab T B V}
    (stream : TcpStream) (addr : SocketAddr)
    (e : EventLoop (NetJob UJ) P K slab T * Server B V)
    (Hs : session_alloc e.2 = true) :
  let c := fresh (dom (sv_conns e.2)) in
  sv_conns e.2 !! c = None ∧
  ∀ session e1 e2 e3 cn k,
    h_new (put_conn c (Some (Conn_new stream)) e) = Done (session, e1) →
    h_attach_connection session c e1 = Done (tt, e2) → h_on_accept session e2 = Done (tt, e3) →
    sv_conns e3.2 !! c = Some (Some cn) → SOCKET_TOKEN_ID e3.2 < u64_max →
    sid_id (stream_selector_id (cn_stream cn)) = 0 ∨
      sid_id (stream_selector_id (cn_stream cn)) = sel_id (sel_of e3) →
    let fd := stream_inner (stream_sys (cn_stream cn)) in
    epoll_ctl (sel_kernel (sel_of e3)) EPOLL_CTL_ADD fd
      (mkEpollEvent (ioevent_to_epoll (Ready.bitor Ready.readable Ready.writable) PollOpt.edge)
         (i32_as_u64 fd)) = (IoOk (), k) →
    ∃ e', on_accept_connection stream addr e = Done (tt, e') ∧
      sv_conns e'.2 = <[c := Some (mkConnData (mkTcpStream (stream_sys (cn_stream cn))
          (mkSelectorId (sel_id (sel_of e3)))) (Some session) (Some session) (Some session)
          (cn_fields cn))]> (sv_conns e3.2) ∧
      sel_map (sel_of e') = <[fd := mkJobEntry
        (mkTokenEntry SocketEvent (mkToken (SOCKET_TOKEN_ID e3.2 + 1))) (ConnJob c) Ready.empty]>
        (sel_map (sel_of e3)) ∧
      sel_kernel (sel_of e') = k ∧ SOCKET_TOKEN_ID e'.2 = SOCKET_TOKEN_ID e3.2 + 1 ∧
      sv_world e'.2 = sv_world e3.2 ∧ el_world e'.1 = el_world e3.1.
Proof. exact (on_accept_ok stream addr e Hs). Qed.

(** C16 an event of a connection brings its session everything: whatever else
    the event says (writable, error, hang-up) and whatever waits to be written,
    the job of a readable socket, as the loop calls it, first reads until the
    socket would block or the connection is closed; then it returns, every byte
    the socket handed out has been shown to [on_recv] or is in the read buffer,
    in order, nothing more has been read, the connection is closed if the reads
    closed it or the event is an error or a hang-up, and its mutex is free
    again.  The session's methods are taken to return and not to touch the
    socket of the connection. *)
Theorem event_reaches_session {UJ P K slab T B V} `{EpollOps K} `{BL : BytesLaws B}
    `{VL : SocketLaws V} `{HO : HandlerOps UJ P K slab T B V}
    (delivered : V → list byte)
    (Hread : ∀ s n v, delivered (sock_read s n v).2 = delivered v)
    (Hwrite : ∀ s bs v, delivered (sock_write s bs v).2 = delivered v ∧
      sock_rx (sock_write s bs v).2 s = sock_rx v s)
    fuel c (cn : Conn B) session r waiting
    (e : EventLoop (NetJob UJ) P K slab T * Server B V)
    (Hcn : sv_conns e.2 !! c = Some (Some cn))
    (Hr : cn_read cn = Some session) (Hw : cn_writ cn = Some session) (Hc : cn_close cn = Some session)
    (Hs : session_reads delivered session (tcp_stream (cn_fields cn)))
    (Hl : conn_lossless delivered cn e) (Hb : writable_conn (cn_fields cn) waiting)
    (Hwt : watched (Z.of_N (tcp_stream (cn_fields cn))) e)
    (Hf : (pend e (tcp_stream (cn_fields cn)) < fuel)%nat)
    (H64 : ready_0 r < 2 ^ 64) (Hir : Ready.is_readable r = true) :
  ∃ tc e1 e' cn',
    handle_read fuel (with_triggered true (write_triggered (conn_open cn)) (conn_open cn))
      (put_conn c None e) = Done (tc, e1) ∧
    (closed tc = true ∨ ∃ n, 0 < n ∧
       stream_read e1 (tcp_stream (cn_fields cn)) n = (IoErr WouldBlock, e1)) ∧
    conn_event fuel c (usize_as_i64 (ready_as_usize r)) e = Done (tt, e') ∧
    sv_conns e'.2 !! c = Some (Some cn') ∧ cn_read cn' = Some session ∧
    tcp_stream (cn_fields cn') = tcp_stream (cn_fields cn) ∧
    conn_lossless delivered cn' e' ∧
    rx e' (tcp_stream (cn_fields cn)) = rx e1 (tcp_stream (cn_fields cn)) ∧
    (closed tc || Ready.is_error r || Ready.is_hup r = true → closed (cn_fields cn') = true).
Proof. exact (conn_event_ok delivered Hread Hwrite fuel c cn session r e waiting Hcn Hr Hw Hc Hs Hl Hb Hwt Hf H64 Hir). Qed.

(** C26 an acceptor takes its backlog in order: its loop returns, has handed
    every connection that [accept] returned to its job, once and in order, and
    ends at the first error that is not an interruption; when that error says
    that accept would block, no connection is left.  (Any other error, that of
    a connection that cannot be made non-blocking included, ends the loop with
    the rest of the backlog still there.) *)
Theorem acceptor_takes_backlog {UJ P K slab T B V} `{EpollOps K} `{BytesOps B}
    `{VB : BacklogLaws V} `{SocketOps V} `{HO : HandlerOps UJ P K slab T B V}
    (good : EventLoop (NetJob UJ) P K slab T * Server B V → Prop) e fuel
    (Herr : ∀ e err e1, good e → on_world (accept (tcp_listener e.2)) e = (IoErr err, e1) → good e1)
    (Hjob : ∀ e e1 s a, good e → on_world (accept (tcp_listener e.2)) e = (IoOk (s, a), e1) →
      ∃ e2, accept_connection s a e1 = Done (tt, e2) ∧ good e2 ∧
        (to_come (sv_world e2.2) <= to_come (sv_world e1.2))%nat)
    (Hg : good e) (Hf : (to_come (sv_world e.2) < fuel)%nat) :
  ∃ l err e', acceptor_handle_read fuel e = Done (tt, e') ∧ accepts e l err e' ∧ good e' ∧
    err ≠ Interrupted ∧ (err = WouldBlock → backlog (sv_world e'.2) = 0%nat).
Proof.
  destruct (acceptor_ok good e fuel Herr Hjob Hg Hf) as (l & err & e' & E & Ha & Hg').
  exists l, err, e'. split; [exact E|]. split; [exact Ha|]. split; [exact Hg'|].
  split; [exact (accepts_err e l err e' Ha)|exact (accepts_drained e l err e' Ha)].
Qed.

(** connections that arrive while a server starts are lost: [bind] makes
    the loop call the acceptor at once, and until [set_accept_job] its default
    job takes every connection of the backlog and closes it. *)
Theorem early_connections_are_dropped {UJ P K slab T B V} `{EpollOps K} `{BytesOps B}
    `{NL : NetLaws V} `{VB : !BacklogLaws V} `{SocketOps V} `{HO : HandlerOps UJ P K slab T B V}
    (run_user : UJ → Z → stm (EventLoop (NetJob UJ) P K slab T * Server B V) unit)
    (e e1 : EventLoop (NetJob UJ) P K slab T * Server B V) fuel val
    (Hb : bind AcceptorJob e = Done (tt, e1)) (Hj : acceptor_job e.2 = false)
    (Hf : (to_come (sv_world e1.2) < fuel)%nat) :
  job <$> sel_map (sel_of e1) !! listener_inner (listener_sys (tcp_listener e.2)) =
    Some AcceptorJob ∧
  ∃ l err e2, run_net_job run_user fuel AcceptorJob val e1 = Done (tt, e2) ∧
    accepts e1 l err e2 ∧
    open_fds (sv_world e2.2) = open_fds (sv_world e1.2) ∧ sv_conns e2.2 = sv_conns e1.2.
Proof.
  destruct (bind_ok _ _ _ Hb) as (_ & _ & Ej & _ & Em). split; [by rewrite Em|].
  destruct (default_job_drops e1 fuel) as (l & err & e2 & E & Ha & Ht & Hc & _);
    [by rewrite Ej|done|]. by exists l, err, e2.
Qed.

(** ** A world with one socket *)

Module ServerDemo.
(** The descriptors, the connections that wait, and what the socket of a
    connection does and its session took. *)
Record world := mk { net : TableLibc.t; waiting : nat; sock : ScriptSocket.t }.

Definition on_net {A} (f : TableLibc.t → A * TableLibc.t) (w : world) : A * world :=
  let '(r, n) := f (net w) in (r, mk n (waiting w) (sock w)).
Definition on_sock {A} (f : ScriptSocket.t → A * ScriptSocket.t) (w : world) : A * world :=
  let '(r, s) := f (sock w) in (r, mk (net w) (waiting w) s).

#[global] Instance libc : LibcOps world := {|
  libc_fcntl := λ fd cmd arg, on_net (libc_fcntl fd cmd arg);
  libc_pipe := on_net libc_pipe;
  libc_pipe2 := λ flags, on_net (libc_pipe2 flags);
  libc_dlsym := λ name w, libc_dlsym name (net w);
  libc_readv := λ fd bufs n, on_net (libc_readv fd bufs n);
  libc_writev := λ fd bufs n, on_net (libc_writev fd bufs n);
  last_os_error := λ w, last_os_error (net w);
  close_fd := λ fd w, (on_net (λ n, (tt, close_fd fd n)) w).2;
|}.

#[global] Instance libc_laws : LibcLaws world.
Proof.
  refine {| open_fds := λ w, open_fds (net w) |}; intros; cbn; unfold on_net; cbn.
  - done.
  - done.
  - pose proof (setfl_law fd arg (net w)) as H. cbn in H.
    by destruct (TableLibc.set _ _ _) as [r n].
  - pose proof (setfd_law fd arg (net w)) as H. cbn in H.
    by destruct (TableLibc.set _ _ _) as [r n].
  - apply (TableLibc.open2_law (mkFlags false false) (net w)).
  - apply (TableLibc.open2_law (mkFlags (Z.testbit flags 19) (Z.testbit flags 11)) (net w)).
  - done.
Defined.

Definition lift_net {A} (m : io TableLibc.t A) : io world A := λ w, on_net m w.

#[global] Instance sockets : NetOps world := {|
  tcp_builder := λ v6, lift_net (tcp_builder v6);
  to_tcp_stream := λ fd, mret fd;
  reuse_address := λ _ _, mret ();
  reuse_port := λ _ _, mret ();
  net_bind := λ _ _, mret ();
  net_listen := λ fd _, mret fd;
  net_connect := λ _ _ w, (IoErr (OtherError EINPROGRESS), w);
  net_accept := λ fd w,
    match waiting w with
    | O => (IoErr WouldBlock, w)
    | S n => lift_net (net_accept fd) (mk (net w) n (sock w))
    end;
  net_try_clone := λ fd, lift_net (net_try_clone fd);
|}.

#[global] Instance sockets_laws : NetLaws world.
Proof.
  split; try done.
  - intros v6 w. exact (builder_law v6 (net w)).
  - intros fd [n [|k] s]; [done|]. exact (accept_law fd n).
Qed.

#[global] Instance backlog_laws : BacklogLaws world.
Proof.
  refine {| backlog := waiting; signals := λ _, 0%nat |}; try done.
  - by intros fd [n [|k] s].
  - intros fd cmd arg w. change (libc_fcntl fd cmd arg w) with (on_net (libc_fcntl fd cmd arg) w).
    unfold on_net. by destruct (libc_fcntl fd cmd arg (net w)).
  - intros fd cmd arg w _. change (libc_fcntl fd cmd arg w) with (on_net (libc_fcntl fd cmd arg) w).
    unfold on_net. by destruct (libc_fcntl fd cmd arg (net w)).
Defined.

#[global] Instance io_sockets : SocketOps world := {|
  sock_read := λ _ n, on_sock (λ s, ScriptSocket.read s n);
  sock_write := λ _ bs, on_sock (λ s, ScriptSocket.write s bs);
  sock_shutdown := λ _ _ w, (IoOk (), w);
|}.

#[global] Instance io_laws : SocketLaws world.
Proof.
  refine {| sock_rx := λ w _, ScriptSocket.got (sock w); sock_tx := λ w _, ScriptSocket.sent (sock w);
            sock_pend := λ w _, length (ScriptSocket.inbox (sock w)) |}.
  - intros s n [nt k sk] Hn. pose proof (read_law sk 0 n Hn) as H. cbn in *. unfold on_sock. cbn.
    destruct (ScriptSocket.read sk n) as [[bs|[]] s']; [exact H|exact H| |exact H].
    by rewrite H.
  - intros s bs [nt k sk] Hn. pose proof (write_law sk 0 bs Hn) as H. cbn in *. unfold on_sock. cbn.
    by destruct (ScriptSocket.write sk bs) as [[bs'|e'] s'].
Defined.

Abbreviation J := (NetJob Empty_set).
Abbreviation Loop := (EventLoop J N ScriptEpoll.t VecSlab.t unit).
Abbreviation env := (Loop * Server ListBytes.t world)%type.

(** One session, which takes everything it is shown. *)
Definition took (b : ListBytes.t) (w : world) : world :=
  match ScriptSocket.take_all b (sock w) with
  | Done (_, s) => mk (net w) (waiting w) s
  | _ => w
  end.
#[global] Instance handler : HandlerOps Empty_set N ScriptEpoll.t VecSlab.t unit ListBytes.t world := {|
  h_new := λ e, Done (1, e);
  h_attach_connection := λ _ _ e, Done (tt, e);
  h_on_accept := λ _ e, Done (tt, e);
  h_on_recv := λ _ b e, Done ([], (e.1, with_sv_world (took b (sv_world e.2)) e.2));
  h_on_written := λ _ e, Done (true, e);
  h_on_error := λ _ e, Done (tt, e);
|}.

#[global] Instance handler_calm : CalmHandler.
Proof.
  split; [intros e; exists 1, e|intros s c e; exists e|intros s e; exists e]; by split.
Qed.

(** A loop with identity 1, and a server that listens on descriptor 3 while two
    connections wait and the peer of the one accepted first sends two batches. *)
Definition loop : Loop :=
  mkEventLoop true (mkPoll (mkSelector 1 9 ∅ (ScriptEpoll.mk ∅ [])) 0 (mkWorld ∅ ∅) unlocked)
    (mkTimer 100 [] [] (mkInstant 0) 0 EMPTY 3 None).
Definition listener : TcpListener := mkTcpListener (mkSysListener 3) SelectorId_new.
Definition start : env :=
  (loop, mkServer listener false false true 0 ∅
    (mk (TableLibc.mk {[3%Z := mkFlags true true]} true) 2
        (ScriptSocket.mk [[x01; x02]; [x03]] [] 8 [] [] 0))).
Definition stream : TcpStream := mkTcpStream (mkSysStream 7) SelectorId_new.

Definition done {A} (r : exec (A * env)) : env := match r with Done (_, e) => e | _ => start end.
(** After [bind], and with a connection for descriptor 7. *)
Definition bound : env := done (bind AcceptorJob start).
Definition served : env := done (on_accept_connection stream (V4 0 0) start).
Definition conn : N := fresh (dom (sv_conns start.2)).
Definition conn_data : Conn ListBytes.t :=
  match sv_conns served.2 !! conn with Some (Some cn) => cn | _ => Conn_new stream end.
Definition delivered (w : world) : list byte := ScriptSocket.user (sock w).

Lemma delivered_read s n w : delivered (sock_read s n w).2 = delivered w.
Proof.
  destruct w as [nt k sk]. cbn. unfold on_sock, ScriptSocket.read. cbn.
  by destruct (ScriptSocket.inbox sk).
Qed.

Lemma session_takes fd : session_reads delivered 1 fd.
Proof.
  split.
  - intros buf [el s] Hw. eexists [], _. split; [reflexivity|]. split; [exact Hw|].
    cbn. split; [by rewrite app_nil_r|]. done.
  - intros e Hw. by eexists.
  - intros e. by eexists _, e.
Qed.

Lemma write_quiet s bs w :
  delivered (sock_write s bs w).2 = delivered w ∧ sock_rx (sock_write s bs w).2 s = sock_rx w s.
Proof.
  destruct w as [nt k sk]. cbn. unfold on_sock, ScriptSocket.write, delivered. cbn.
  by destruct (ScriptSocket.room sk =? 0).
Qed.
End ServerDemo.
Import ServerDemo.

Lemma accepted_socket_is_served_witness :
  ∃ e', on_accept_connection stream (V4 0 0) start = Done (tt, e') ∧
    sv_conns e'.2 = {[conn := Some (mkConnData (mkTcpStream (mkSysStream 7) (mkSelectorId 1))
      (Some 1) (Some 1) (Some 1) (TcpConnection_new 7))]} ∧
    sel_map (sel_of e') = {[7%Z := mkJobEntry (mkTokenEntry SocketEvent (mkToken 1)) (ConnJob conn)
      Ready.empty]} ∧
    SOCKET_TOKEN_ID e'.2 = 1.
Proof.
  destruct (accepted_socket_is_served stream (V4 0 0) start eq_refl) as [_ H].
  specialize (H 1 _ _ _ (Conn_new stream) (ScriptEpoll.mk {[7%Z := 7]} []) eq_refl eq_refl eq_refl).
  destruct H as (e' & E & Ec & Em & _ & Et & _);
    [reflexivity|reflexivity|by left|vm_compute; reflexivity|].
  exists e'. split; [exact E|]. split; [rewrite Ec; vm_compute; reflexivity|].
  split; [rewrite Em; vm_compute; reflexivity|]. rewrite Et. reflexivity.
Defined.

(** The peer has sent three bytes and hung up. *)
Definition last_words : Ready :=
  Ready.bitor (Ready.bitor Ready.readable Ready.writable) (UnixReady.into_ready UnixReady.hup).

Lemma event_reaches_session_witness :
  ∃ e', conn_event 3 conn (usize_as_i64 (ready_as_usize last_words)) served = Done (tt, e') ∧
    Ready.is_hup last_words = true ∧ delivered (sv_world e'.2) = [x01; x02; x03].
Proof.
  destruct (event_reaches_session delivered delivered_read write_quiet 3 conn conn_data 1 last_words [] served)
    as (tc & e1 & e' & cn' & _ & _ & E & _).
  - vm_compute. reflexivity.
  - vm_compute. reflexivity.
  - vm_compute. reflexivity.
  - vm_compute. reflexivity.
  - apply session_takes.
  - exists []. split; vm_compute; reflexivity.
  - exists [], []. split_and!; vm_compute; reflexivity.
  - eexists. vm_compute. reflexivity.
  - apply Nat.ltb_lt. vm_compute. reflexivity.
  - vm_compute. reflexivity.
  - vm_compute. reflexivity.
  - exists e'. split; [exact E|]. split; [vm_compute; reflexivity|].
    vm_compute in E. injection E as <-. vm_compute. reflexivity.
Defined.

Lemma acceptor_takes_backlog_witness :
  ∃ l err e', acceptor_handle_read 3 start = Done (tt, e') ∧ accepts start l err e' ∧
    acceptor_job e'.2 = false ∧ waiting (sv_world e'.2) = 0%nat.
Proof.
  destruct (acceptor_takes_backlog (λ e, acceptor_job e.2 = false) start 3) as (l & err & e' & E & Ha & Hj & _).
  - intros e err e1 Hj (v & _ & ->)%on_world_accept. exact Hj.
  - intros e e1 s a Hj (v & _ & ->)%on_world_accept. unfold accept_connection.
    cbn [snd acceptor_job with_sv_world]. rewrite Hj.
    eexists. split; [reflexivity|]. split; [exact Hj|]. apply Nat.le_refl.
  - reflexivity.
  - apply Nat.ltb_lt. vm_compute. reflexivity.
  - exists l, err, e'. split; [exact E|]. split; [exact Ha|]. split; [exact Hj|].
    vm_compute in E. injection E as <-. reflexivity.
Defined.

Lemma early_connections_are_dropped_witness :
  ∃ l err e2, run_net_job (λ (j : Empty_set) _, match j with end) 3 AcceptorJob 1 bound = Done (tt, e2) ∧
    accepts bound l err e2 ∧
    TableLibc.fds (net (sv_world e2.2)) = {[3%Z := mkFlags true true]} ∧ waiting (sv_world e2.2) = 0%nat.
Proof.
  destruct (early_connections_are_dropped (λ (j : Empty_set) _, match j with end) start bound 3 1)
    as (_ & l & err & e2 & E & Ha & Hf & _); [vm_compute; reflexivity|reflexivity| |].
  - apply Nat.ltb_lt. vm_compute. reflexivity.
  - exists l, err, e2. split; [exact E|]. split; [exact Ha|]. split; [exact Hf|].
    vm_compute in E. injection E as <-. reflexivity.
Defined.
