(* ===== verification/ConnSteps.v ===== *)
(** * The steps of a served connection

    What an event and a [send] of a connection of [Server] come to, for sockets
    that hand out one piece at a time: the lemmas the programs of
    [src/examples/] are proved with. *)
From Stdlib Require Import Strings.Byte.
From S2P Require Import Prelude EventSet ReadinessState Duration LazyCell Awakener Selector.
From S2P Require Import ReadinessQueue Registration Interfaces Timer PollReadiness Poll Evented.
From S2P Require Import EventLoop Sys Tcp Net Socket Layers Connection ConnectionProps Server ServerProps.

(** One read that finds bytes, then none. *)
Lemma handle_read_once {E B} `{StreamOps E} `{BytesOps B} fuel (tc : TcpConnection E B) e b bs e1 b2 e2 :
  read_buffer tc = Some b → bs ≠ [] →
  stream_read e (tcp_stream tc) (bytes_chunk_mut b).1 = (IoOk bs, e1) →
  read_job tc (bytes_fill (bytes_chunk_mut b).2 bs) e1 = Done (b2, e2) →
  stream_read e2 (tcp_stream tc) (bytes_chunk_mut b2).1 = (IoErr WouldBlock, e2) →
  handle_read (S (S fuel)) tc e =
    Done (with_triggered false (write_triggered tc) (with_read_buffer (Some (bytes_chunk_mut b2).2) tc), e2).
Proof.
  intros Hb Hbs H1 Hj H2. cbn [handle_read]. rewrite Hb. cbn [unwrap mbind exec_bind].
  unfold try_read_buf at 1, try_read at 1. destruct (bytes_chunk_mut b) as [n b1]. cbn [fst snd] in *.
  rewrite H1. cbn [map_non_block].
  assert ((0 <? N.of_nat (length bs)) = true) as -> by (apply N.ltb_lt; destruct bs; [done|cbn; lia]).
  rewrite Hj. cbn [mbind exec_bind read_buffer with_read_buffer unwrap tcp_stream].
  unfold try_read_buf, try_read. destruct (bytes_chunk_mut b2) as [n2 b3]. cbn [fst snd] in *.
  rewrite H2. cbn [map_non_block]. by destruct tc.
Qed.

(** ** [send] leaves the job for reading alone, and calls the other two only *)

Section ReadJob.
Context {E B : Type} {SO : StreamOps E} {BO : BytesOps B}.
Implicit Types (tc : TcpConnection E B) (e : E).
Context (r : B → E → exec (B * E)).
Definition with_read_job tc : TcpConnection E B := with_jobs r (writ_job tc) (close_job tc) tc.
Definition reading (m : exec (TcpConnection E B * E)) : exec (TcpConnection E B * E) :=
  m ≫= λ '(tc, e), Done (with_read_job tc, e).

Lemma handle_close_job tc e : handle_close (with_read_job tc) e = reading (handle_close tc e).
Proof.
  unfold handle_close, reading. change (closed (with_read_job tc)) with (closed tc). destruct (closed tc); [done|].
  change (close_job (with_closed true (set_enabled (with_read_job tc) false))) with (close_job tc).
  change (close_job (with_closed true (set_enabled tc false))) with (close_job tc).
  destruct (close_job tc e) as [e1| |]; [|done..]. cbn [mbind exec_bind]. unfold close_stream.
  change (tcp_stream (with_closed true (set_enabled (with_read_job tc) false))) with (tcp_stream tc).
  change (tcp_stream (with_closed true (set_enabled tc false))) with (tcp_stream tc).
  by destruct (stream_deregister e1 (tcp_stream tc)) as [[[] e2]| |].
Qed.

Lemma take_buffer_job tc : take_buffer (with_read_job tc) = take_buffer tc ≫= λ '(o, tc), Done (o, with_read_job tc).
Proof.
  unfold take_buffer. cbn [write_buffer_sending with_read_job with_jobs].
  destruct (write_buffer_sending tc) as [b|]; [|done]. cbn [unwrap mbind exec_bind].
  destruct (if 0 <? bytes_len b then bytes_split b else (b, bytes_with_capacity 1024)) as [b1 b2].
  destruct (bytes_len b2 =? 0); [|done]. cbn [write_buffer_waiting with_sending with_read_job with_jobs].
  destruct (write_buffer_waiting tc) as [w|]; [|done]. cbn [unwrap mbind exec_bind].
  destruct (0 <? bytes_len w); [|done]. by destruct (bytes_split w).
Qed.

Lemma write_data_job tc e : write_data (with_read_job tc) e = reading (write_data tc e).
Proof.
  unfold write_data. rewrite take_buffer_job. destruct (take_buffer tc) as [[[buf|] c]| |]; [|done..].
  cbn [mbind exec_bind]. change (tcp_stream (with_read_job c)) with (tcp_stream c).
  destruct (try_write_buf e (tcp_stream c) buf) as [[[res buf'] e1]| |]; [|done..]. cbn [mbind exec_bind].
  destruct res as [[k|]|err]; [|done|].
  - destruct (0 <? bytes_len buf'); [done|].
    change (writ_job (with_triggered (read_triggered (with_read_job c)) false (with_read_job c))) with (writ_job c).
    change (writ_job (with_triggered (read_triggered c) false c)) with (writ_job c).
    destruct (writ_job c e1) as [[[] e2]| |]; [done| |done..]. cbn [mbind exec_bind negb].
    apply (handle_close_job (with_triggered (read_triggered c) false c)).
  - apply (handle_close_job (with_triggered (read_triggered c) false c)).
Qed.

Lemma send_job tc (bytes : B) e :
  send (with_read_job tc) bytes e = send tc bytes e ≫= λ '(n, tc, e), Done (n, with_read_job tc, e).
Proof.
  unfold send. change (write_enabled (with_read_job tc)) with (write_enabled tc).
  destruct (negb (write_enabled tc)); [done|]. destruct (bytes_len bytes =? 0); [done|].
  change (write_buffer_waiting (with_read_job tc)) with (write_buffer_waiting tc).
  destruct (write_buffer_waiting tc) as [w|]; [|done]. cbn [unwrap mbind exec_bind].
  change (with_waiting (Some (bytes_put w bytes)) (with_read_job tc))
    with (with_read_job (with_waiting (Some (bytes_put w bytes)) tc)).
  rewrite write_data_job. unfold reading. by destruct (write_data _ e) as [[c e1]| |].
Qed.
End ReadJob.

(** So it does the same for two handlers that answer those two alike. *)
Lemma send_calls {UJ P K slab T B V} `{EpollOps K} `{BytesOps B} `{SocketOps V}
    (HO1 HO2 : HandlerOps UJ P K slab T B V) c (bytes : B) e :
  @h_on_written _ _ _ _ _ _ _ HO1 = @h_on_written _ _ _ _ _ _ _ HO2 →
  @h_on_error _ _ _ _ _ _ _ HO1 = @h_on_error _ _ _ _ _ _ _ HO2 →
  conn_send (HO := HO1) c bytes e = conn_send (HO := HO2) c bytes e.
Proof.
  intros Hw He. unfold conn_send, conn_call, mbind at 1 3, stm_bind.
  destruct (lock_conn c e) as [[cn e1]| |]; [|done..].
  assert (conn_open (HO := HO1) cn = with_read_job (read_closure (HO := HO1) (cn_read cn)) (conn_open (HO := HO2) cn)) as ->.
  { unfold conn_open, with_read_job, writ_closure, close_closure. cbn. by rewrite Hw, He. }
  rewrite send_job. by destruct (send _ bytes e1) as [[[n tc] e2]| |].
Qed.

Section ConnSteps.
Context {UJ : Type}.
Context {P : Type} {PO : PipeOps P}.
Context {K : Type} {KO : EpollOps K}.
Context {slab : Type → Type} {T : Type}.
Context {B : Type} {BO : BytesOps B} {BL : BytesLaws B}.
Context {V : Type} {VO : SocketOps V} {VL : SocketLaws V}.
Context {HO : HandlerOps UJ P K slab T B V}.
#[local] Abbreviation EL := (EventLoop (NetJob UJ) P K slab T).
#[local] Abbreviation SV := (Server B V).
#[local] Abbreviation E := (EL * SV)%type.
Implicit Types (e : E) (el : EL) (sv : SV) (cn : Conn B) (c s : N) (v : V).

(** An unlocked connection of the handler [s] that is open and may write, with
    nothing left to write; and its descriptor. *)
Record live c s cn sv : Prop := {
  lv_conn : sv_conns sv !! c = Some (Some cn);
  lv_stream : stream_inner (stream_sys (cn_stream cn)) = Z.of_N (tcp_stream (cn_fields cn));
  lv_read : cn_read cn = Some s;
  lv_writ : cn_writ cn = Some s;
  lv_close : cn_close cn = Some s;
  lv_open : closed (cn_fields cn) = false;
  lv_enabled : write_enabled (cn_fields cn) = true;
  lv_writable : writable_conn (cn_fields cn) [];
}.
Definition fd_of cn : Z := Z.of_N (tcp_stream (cn_fields cn)).

(** The connection after something was done with it. *)
Record same_conn cn cn' : Prop := {
  sc_stream : cn_stream cn' = cn_stream cn;
  sc_read : cn_read cn' = cn_read cn;
  sc_writ : cn_writ cn' = cn_writ cn;
  sc_close : cn_close cn' = cn_close cn;
  sc_fd : tcp_stream (cn_fields cn') = tcp_stream (cn_fields cn);
}.

Lemma live_changed c s cn sv cn' sv' :
  live c s cn sv → same_conn cn cn' → sv_conns sv' !! c = Some (Some cn') →
  closed (cn_fields cn') = false → write_enabled (cn_fields cn') = true → writable_conn (cn_fields cn') [] →
  live c s cn' sv'.
Proof.
  intros [L1 L2 L3 L4 L5 L6 L7 L8] [S1 S2 S3 S4 S5] Hc Hcl He Hw. split; try congruence.
Qed.

Lemma live_elsewhere c s cn sv sv' :
  live c s cn sv → sv_conns sv' !! c = sv_conns sv !! c → live c s cn sv'.
Proof. intros [L1 L2 L3 L4 L5 L6 L7 L8] E. split; try done. by rewrite E. Qed.

(** ** The event of a readable socket *)

Lemma readable_event fuel c s cn el sv b bs v1 b2 el2 sv2 :
  live c s cn sv → read_buffer (cn_fields cn) = Some b → bs ≠ [] →
  sock_read (fd_of cn) (bytes_chunk_mut b).1 (sv_world sv) = (IoOk bs, v1) →
  h_on_recv s (bytes_fill (bytes_chunk_mut b).2 bs)
    (el, with_sv_world v1 (with_conns (<[c := None]> (sv_conns sv)) sv)) = Done (b2, (el2, sv2)) →
  sock_read (fd_of cn) (bytes_chunk_mut b2).1 (sv_world sv2) = (IoErr WouldBlock, sv_world sv2) →
  ∃ cn', conn_event (S (S fuel)) c (usize_as_i64 (ready_as_usize Ready.readable)) (el, sv) =
      Done (tt, put_conn c (Some cn') (el2, sv2)) ∧
    same_conn cn cn' ∧ read_buffer (cn_fields cn') = Some (bytes_chunk_mut b2).2 ∧
    live c s cn' (put_conn c (Some cn') (el2, sv2)).2.
Proof.
  intros Hl Hb Hbs H1 Hr H2. pose proof Hl as [Hc _ Hrs _ _ Ho Hen Hwr].
  unfold conn_event, conn_call. rewrite (stm_step _ _ _ _ _ (lock_conn_ok c (el, sv) cn Hc)).
  set (oc := conn_open cn : TcpConnection E B). set (tc := with_triggered true (write_triggered oc) oc).
  assert (handle_read (S (S fuel)) tc (put_conn c None (el, sv)) =
    Done (with_triggered false (write_triggered tc) (with_read_buffer (Some (bytes_chunk_mut b2).2) tc), (el2, sv2)))
    as E.
  { eapply (handle_read_once fuel tc (put_conn c None (el, sv)) b bs); [exact Hb|exact Hbs|..].
    - cbn [stream_read server_streams]. unfold on_world. cbn [snd fst put_conn sv_world with_conns].
      change (Z.of_N (tcp_stream tc)) with (fd_of cn). rewrite H1. reflexivity.
    - cbn. rewrite Hrs. exact Hr.
    - cbn [stream_read server_streams]. unfold on_world. cbn [snd].
      change (Z.of_N (tcp_stream tc)) with (fd_of cn). rewrite H2. by destruct sv2. }
  rewrite i64_roundtrip by (apply N.ltb_lt; vm_compute; reflexivity). unfold handle_event.
  change (Ready.is_readable (ready_from_usize (ready_as_usize Ready.readable))) with true. cbv iota.
  fold tc. rewrite E. cbn [mbind exec_bind].
  change (Ready.is_writable (ready_from_usize (ready_as_usize Ready.readable))) with false.
  change (Ready.is_error (ready_from_usize (ready_as_usize Ready.readable))
    || Ready.is_hup (ready_from_usize (ready_as_usize Ready.readable))) with false.
  cbv iota. cbn [mbind exec_bind].
  exists (conn_shut cn (with_triggered false (write_triggered tc)
    (with_read_buffer (Some (bytes_chunk_mut b2).2) tc))).
  assert (same_conn cn (conn_shut cn (with_triggered false (write_triggered tc)
    (with_read_buffer (Some (bytes_chunk_mut b2).2) tc)))) as Hsc by done.
  split; [reflexivity|]. split; [exact Hsc|]. split; [reflexivity|].
  eapply live_changed; [exact Hl|exact Hsc|apply put_conn_lookup|exact Ho|exact Hen|exact Hwr].
Qed.

(** ** [send] *)

Definition close_conn cn e : exec (Conn B * E) :=
  handle_close (conn_open cn) e ≫= λ '(tc, e), Done (conn_shut cn tc, e).

Lemma conn_send_ok c s cn sv el (bytes : B) :
  live c s cn sv → bytes_data bytes ≠ [] →
  let locked v : E := (el, with_sv_world v (with_conns (<[c := None]> (sv_conns sv)) sv)) in
  ∃ cn0 cn1, (∀ cn', cn' = cn0 ∨ cn' = cn1 → same_conn cn cn' ∧ read_buffer (cn_fields cn') = read_buffer (cn_fields cn) ∧
      closed (cn_fields cn') = false ∧ write_enabled (cn_fields cn') = true ∧ writable_conn (cn_fields cn') []) ∧
    conn_send c bytes (el, sv) =
      (match sock_write (fd_of cn) (bytes_data bytes) (sv_world sv) with
       | (IoOk k, v) =>
           if k <? bytes_len bytes then Done (cn0, locked v)
           else h_on_written s (locked v) ≫= λ '(ret, e),
                if negb ret then close_conn cn1 e else Done (cn1, e)
       | (IoErr WouldBlock, v) => Done (cn1, locked v)
       | (IoErr _, v) => close_conn cn1 (locked v)
       end) ≫= λ '(cn', e), Done (bytes_len bytes, put_conn c (Some cn') e).
Proof using BL VL.
  intros [Hc _ _ Hw _ Ho He Hwr] Hne locked. unfold conn_send, conn_call.
  rewrite (stm_step _ _ _ _ _ (lock_conn_ok c (el, sv) cn Hc)).
  set (oc := conn_open cn : TcpConnection E B). set (e0 := put_conn c None (el, sv)).
  pose proof (send_spec oc e0 bytes []) as Es. cbv zeta in Es.
  change (write_enabled oc) with (write_enabled (cn_fields cn)) in Es. rewrite He in Es.
  rewrite bool_decide_eq_false_2 in Es by done. cbn [negb orb app] in Es.
  destruct Es as (c1 & Hd & Es); [exact Hwr|]. rewrite Es. clear Es.
  pose proof (drained_writable _ _ Hd) as Hw1. destruct Hd as (snd1 & wait1 & Ec1 & _).
  exists (conn_shut cn c1), (conn_shut cn (with_triggered (read_triggered oc) false c1)). split.
  { intros cn' [-> | ->]; rewrite Ec1 in *; (split; [done|]); (split; [done|]); (split; [exact Ho|]); by split. }
  cbn [stream_write server_streams]. unfold on_world. change (Z.of_N (tcp_stream oc)) with (fd_of cn).
  change (sv_world e0.2) with (sv_world sv). change (N.of_nat (length (bytes_data bytes))) with (bytes_len bytes).
  assert (∀ v, (e0.1, with_sv_world v e0.2) = locked v) as Hlk by done.
  assert (∀ e, writ_job oc e = h_on_written s e) as Hwj by (intros e; cbn; by rewrite Hw).
  assert (conn_open (conn_shut cn (with_triggered (read_triggered oc) false c1)) =
    with_triggered (read_triggered oc) false c1 :> TcpConnection E B) as Hop by (by rewrite Ec1).
  destruct (sock_write (fd_of cn) (bytes_data bytes) (sv_world sv)) as [[k|err] v].
  - rewrite Hlk. destruct (k <? bytes_len bytes); [done|]. rewrite Hwj.
    destruct (h_on_written s (locked v)) as [[[] e1]| |]; cbn [mbind exec_bind negb]; [done| |done..].
    unfold close_conn. rewrite Hop. by destruct (handle_close _ e1) as [[tc e2]| |].
  - rewrite Hlk. destruct err; [|done|];
      unfold close_conn; rewrite Hop; by destruct (handle_close _ (locked v)) as [[tc e2]| |].
Qed.

(** The connection goes on, whatever the socket took, unless the write fails. *)
Lemma conn_send_kept c s cn sv el (bytes : B) r v :
  let sv1 := with_sv_world v (with_conns (<[c := None]> (sv_conns sv)) sv) in
  live c s cn sv → bytes_data bytes ≠ [] →
  sock_write (fd_of cn) (bytes_data bytes) (sv_world sv) = (r, v) → goes_on r →
  h_on_written s (el, sv1) = Done (true, (el, sv1)) →
  ∃ cn', conn_send c bytes (el, sv) = Done (bytes_len bytes, put_conn c (Some cn') (el, sv1)) ∧
    same_conn cn cn' ∧ read_buffer (cn_fields cn') = read_buffer (cn_fields cn) ∧
    closed (cn_fields cn') = false ∧ write_enabled (cn_fields cn') = true ∧ writable_conn (cn_fields cn') [].
Proof using BL VL.
  intros sv1 Hl Hne Hsw Hr Hwritten. destruct (conn_send_ok c s cn sv el bytes Hl Hne) as (cn0 & cn1 & Hcn & Es).
  cbv zeta in Es. rewrite Hsw in Es. fold sv1 in Es. destruct r as [k|err].
  - destruct (k <? bytes_len bytes).
    + exists cn0. split; [exact Es|by apply Hcn; left].
    + rewrite Hwritten in Es. exists cn1. split; [exact Es|by apply Hcn; right].
  - cbn in Hr. subst err. exists cn1. split; [exact Es|by apply Hcn; right].
Qed.

(** The same for a connection that is locked already. *)
Lemma send_open_ok cn s e (bytes : B) r v (e2 := (e.1, with_sv_world v e.2)) :
  cn_writ cn = Some s → write_enabled (cn_fields cn) = true → writable_conn (cn_fields cn) [] →
  bytes_data bytes ≠ [] →
  sock_write (fd_of cn) (bytes_data bytes) (sv_world e.2) = (r, v) → goes_on r →
  h_on_written s e2 = Done (true, e2) →
  ∃ cn', send (conn_open cn) bytes e = Done (bytes_len bytes, conn_open cn', e2) ∧ same_conn cn cn' ∧
    read_buffer (cn_fields cn') = read_buffer (cn_fields cn) ∧ closed (cn_fields cn') = closed (cn_fields cn) ∧
    write_enabled (cn_fields cn') = true ∧ writable_conn (cn_fields cn') [].
Proof using BL VL.
  intros Hw He Hwr Hne Hsw Hr Hwritten. set (oc := conn_open cn : TcpConnection E B).
  pose proof (send_spec oc e bytes []) as Es. cbv zeta in Es.
  change (write_enabled oc) with (write_enabled (cn_fields cn)) in Es. rewrite He in Es.
  rewrite bool_decide_eq_false_2 in Es by done. cbn [negb orb app] in Es.
  destruct Es as (c1 & Hd & Es); [exact Hwr|].
  pose proof (drained_writable _ _ Hd) as Hw1. destruct Hd as (snd1 & wait1 & Ec1 & _).
  set (tc := with_triggered (read_triggered oc) false c1) in Es.
  assert (∀ tc', tc' = c1 ∨ tc' = tc → send oc bytes e = Done (bytes_len bytes, tc', e2) →
    ∃ cn', send oc bytes e = Done (bytes_len bytes, conn_open cn', e2) ∧ same_conn cn cn' ∧
    read_buffer (cn_fields cn') = read_buffer (cn_fields cn) ∧ closed (cn_fields cn') = closed (cn_fields cn) ∧
    write_enabled (cn_fields cn') = true ∧ writable_conn (cn_fields cn') []) as Hok.
  { intros tc' Htc E1. exists (conn_shut cn tc').
    assert (conn_open (conn_shut cn tc') = tc' :> TcpConnection E B) as Hop
      by (destruct Htc as [-> | ->]; unfold tc; by rewrite Ec1).
    rewrite Hop. split; [exact E1|].
    destruct Htc as [-> | ->]; unfold tc in *; rewrite Ec1 in *; by repeat (split; [done|]). }
  cbn [stream_write server_streams] in Es. unfold on_world in Es.
  change (Z.of_N (tcp_stream oc)) with (fd_of cn) in Es.
  change (N.of_nat (length (bytes_data bytes))) with (bytes_len bytes) in Es. rewrite Hsw in Es.
  assert (writ_job oc e2 = Done (true, e2)) as Hj by (cbn; by rewrite Hw).
  destruct r as [k|err].
  - destruct (k <? bytes_len bytes); [by apply (Hok c1); [left|]|]. fold e2 in Es.
    rewrite Hj in Es. apply (Hok tc); [by right|exact Es].
  - cbn in Hr. subst err. apply (Hok tc); [by right|exact Es].
Qed.

(** The event of a handler that panics. *)
Lemma readable_event_panics fuel c s cn el sv b bs v1 p :
  live c s cn sv → read_buffer (cn_fields cn) = Some b → bs ≠ [] →
  sock_read (fd_of cn) (bytes_chunk_mut b).1 (sv_world sv) = (IoOk bs, v1) →
  h_on_recv s (bytes_fill (bytes_chunk_mut b).2 bs)
    (el, with_sv_world v1 (with_conns (<[c := None]> (sv_conns sv)) sv)) = Panic p →
  conn_event (S fuel) c (usize_as_i64 (ready_as_usize Ready.readable)) (el, sv) = Panic p.
Proof.
  intros [Hc _ Hrs _ _ _ _ _] Hb Hbs H1 Hr.
  unfold conn_event, conn_call. rewrite (stm_step _ _ _ _ _ (lock_conn_ok c (el, sv) cn Hc)).
  rewrite i64_roundtrip by (apply N.ltb_lt; vm_compute; reflexivity). unfold handle_event.
  change (Ready.is_readable (ready_from_usize (ready_as_usize Ready.readable))) with true. cbv iota.
  cbn [handle_read]. change (read_buffer (with_triggered _ _ _)) with (read_buffer (cn_fields cn)) at 1. rewrite Hb.
  cbn [unwrap mbind exec_bind]. unfold try_read_buf at 1, try_read at 1.
  destruct (bytes_chunk_mut b) as [n b1]. cbn [fst snd] in *.
  cbn [stream_read server_streams]. unfold on_world at 1. cbn [snd fst put_conn sv_world with_conns].
  change (Z.of_N (tcp_stream (with_triggered _ _ _))) with (fd_of cn) at 1. rewrite H1. cbn [map_non_block].
  assert ((0 <? N.of_nat (length bs)) = true) as -> by (apply N.ltb_lt; destruct bs; [done|cbn; lia]).
  change (read_job (with_triggered _ _ (conn_open cn))) with (read_closure (cn_read cn)).
  rewrite Hrs. cbn [read_closure]. unfold put_conn in *. cbn [fst snd] in *. rewrite Hr. reflexivity.
Qed.

(** ** The end of a connection *)

(** The loop watches a descriptor no more. *)
Definition unwatched (fd : Z) (k : K) el el' : Prop :=
  el_world el' = el_world el ∧ el_queue el' = el_queue el ∧
  sel_map (p_selector (el_poll el')) = delete fd (sel_map (p_selector (el_poll el))) ∧
  sel_kernel (p_selector (el_poll el')) = k.

Lemma deregister_unwatched el sv fd k :
  epoll_ctl (sel_kernel (p_selector (el_poll el))) EPOLL_CTL_DEL (Z.of_N fd) (mkEpollEvent 0 0) = (IoOk (), k) →
  ∃ el', stream_deregister (el, sv) fd = Done (IoOk (), (el', sv)) ∧ unwatched (Z.of_N fd) k el el'.
Proof.
  intros Hk. cbn [stream_deregister server_streams fst snd]. unfold loop_deregister, poll_deregister. cbn.
  unfold EventedFd_deregister, Selector.deregister. cbn. rewrite Hk. cbn. eexists. split; [reflexivity|].
  unfold unwatched. by destruct el as [r pl t].
Qed.

(** Closing a connection whose handler does not touch the loop when told. *)
Lemma close_conn_ok cn el sv s sv1 k :
  closed (cn_fields cn) = false → cn_close cn = Some s → h_on_error s (el, sv) = Done (tt, (el, sv1)) →
  epoll_ctl (sel_kernel (p_selector (el_poll el))) EPOLL_CTL_DEL (fd_of cn) (mkEpollEvent 0 0) = (IoOk (), k) →
  ∃ el' cn', close_conn cn (el, sv) = Done (cn', (el', sv1)) ∧ unwatched (fd_of cn) k el el' ∧
    same_conn cn cn' ∧ closed (cn_fields cn') = true ∧ write_enabled (cn_fields cn') = false.
Proof.
  intros Hc Hs He Hk. destruct (deregister_unwatched el sv1 (tcp_stream (cn_fields cn)) k Hk) as (el' & Ed & Hu).
  set (tc := with_closed true (set_enabled (conn_open cn : TcpConnection E B) false)).
  exists el', (conn_shut cn tc). split; [|by repeat (split; [done|])].
  unfold close_conn, handle_close. change (closed (conn_open cn)) with (closed (cn_fields cn)). rewrite Hc.
  fold tc. assert (close_job tc (el, sv) = Done (el, sv1)) as ->.
  { cbn. rewrite Hs. cbn [close_closure]. by rewrite He. }
  cbn [mbind exec_bind]. unfold close_stream.
  change (tcp_stream tc) with (tcp_stream (cn_fields cn)). by rewrite Ed.
Qed.
End ConnSteps.
