(* ===== verification/Client.v ===== *)
(** * TCP clients

    [src/src/net/connector.rs] and [TcpClient] of [src/src/net/tcp_server.rs].
    Clients live in the same world as a server, whose connections they share
    ([Server], as a tunnel needs it): the rest of that world holds the
    connectors, each [None] while its mutex is locked.  The closures of
    [Connector::connect] become the job [ConnectorJob] and the timeout
    [connect_timeout], the one of [TcpClient::start_connect] the session of the
    connector. *)
From Stdlib Require Import Strings.Byte.
From S2P Require Import Prelude EventSet ReadinessState Duration LazyCell Awakener Selector.
From S2P Require Import ReadinessQueue Registration Interfaces Timer PollReadiness Poll Evented.
From S2P Require Import EventLoop Sys Tcp Net Socket Layers Connection Server.

(** The closure a connector registers, among the jobs of the user. *)
Inductive ClientJob (J : Type) : Type :=
  | ConnectorJob (connector : N)
  | OtherJob (j : J).
Arguments ConnectorJob {J} connector.
Arguments OtherJob {J} j.

(** [Connector]: its timeout, the socket that connects, and the handler its
    job tells, none for the default job. *)
Record Connector := mkConnector {
  cr_timer : option Timeout;
  cr_stream : option TcpStream;
  cr_session : option N;
}.
Definition Connector_new : Connector := mkConnector None None None.
Definition with_cr_timer t (c : Connector) : Connector := mkConnector t (cr_stream c) (cr_session c).
Definition with_cr_stream s (c : Connector) : Connector := mkConnector (cr_timer c) s (cr_session c).
(** [set_conn_job]. *)
Definition set_conn_job s (c : Connector) : Connector := mkConnector (cr_timer c) (cr_stream c) s.

(** The connectors, whether the thread has a current loop
    ([EventLoopBuilder::get_build] or [set_current_loop]), and the rest. *)
Record Dialers (V : Type) := mkDialers {
  dl_connectors : gmap N (option Connector);
  current_loop : bool;
  dl_world : V;
}.
Arguments mkDialers {V} _ _ _.
Arguments dl_connectors {V} _.
Arguments current_loop {V} _.
Arguments dl_world {V} _.

Definition dialers_layer {V} : Layer (Dialers V) V :=
  mkLayer dl_world (λ v d, mkDialers (dl_connectors d) (current_loop d) v).
#[global] Instance dialers_libc `{LibcOps V} : LibcOps (Dialers V) := layer_libc dialers_layer.
#[global] Instance dialers_net `{NetOps V} : NetOps (Dialers V) := layer_net dialers_layer.
#[global] Instance dialers_sockets `{SocketOps V} : SocketOps (Dialers V) := layer_sockets dialers_layer.
#[global] Instance dialers_lib `{SocketLib V} : SocketLib (Dialers V) := layer_lib dialers_layer.

Section Client.
Context {UJ : Type}.
#[local] Abbreviation J := (NetJob (ClientJob UJ)).
Context {P : Type} {PO : PipeOps P}.
Context {K : Type} {KO : EpollOps K}.
Context {slab : Type → Type} {SO : SlabOps slab} {T : Type} (connect_timeout : N → T).
Context {B : Type} {BO : BytesOps B}.
Context {V : Type} {LO : LibcOps V} {NO : NetOps V} {SL : SocketLib V}.
#[local] Abbreviation EL := (EventLoop J P K slab T).
#[local] Abbreviation E := (EL * Server B (Dialers V))%type.
#[local] Abbreviation M := (stm E).
Context {HO : HandlerOps (ClientJob UJ) P K slab T B (Dialers V)}.
(** [ClientHandler::on_connect]; the other methods are those of a session. *)
Context (on_connect : N → N → M unit).

#[local] Instance client_stream : Evented J P K TcpStream := TcpStream_evented false.

Definition dialers (e : E) : Dialers V := sv_world e.2.

(** The mutex of a connector, and a short use of it. *)
Definition put_connector (k : N) (o : option Connector) (e : E) : E :=
  (e.1, with_sv_world (mkDialers (<[k := o]> (dl_connectors (dialers e))) (current_loop (dialers e))
    (dl_world (dialers e))) e.2).
Definition lock_connector (k : N) : M Connector := λ e,
  match dl_connectors (dialers e) !! k with
  | Some (Some c) => Done (c, put_connector k None e)
  | Some None => Panic PDeadlock
  | None => Panic PUnreachable
  end.
Definition unlock_connector (k : N) (c : Connector) : M unit := modify (put_connector k (Some c)).
Definition with_connector (k : N) (f : Connector → Connector) : M unit :=
  lock_connector k ≫= λ c, unlock_connector k (f c).

(** ** [TcpClient::start_connect]: the closure *)

Definition deregister_stream (s : TcpStream) : M unit := λ e,
  loop_deregister e.1 s ≫= λ '(res, _, el),
  match res with
  | IoErr _ => Panic PUnwrap
  | IoOk _ => Done (tt, (el, e.2))
  end.

Definition with_conn_enabled (cn : Conn B) : Conn B :=
  with_fields (Connection.set_enabled (cn_fields cn) true) cn.

(** The socket is connected: its connection gets the handler's jobs, and the
    loop watches it for its own events. *)
Definition hand_over (session : N) (conn : N) : M bool :=
  h_attach_connection session conn ≫= λ _,
  with_conn conn (with_read_session session) ≫= λ _,
  with_conn conn (with_writ_session session) ≫= λ _,
  with_conn conn (with_close_session session) ≫= λ _,
  lock_conn conn ≫= λ cn,
  deregister_stream (cn_stream cn) ≫= λ _,
  unlock_conn conn cn ≫= λ _,
  with_conn conn with_conn_enabled ≫= λ _,
  lock_conn conn ≫= λ cn,
  register_conn conn cn (i32_as_u64 (TcpStream_as_raw_fd (cn_stream cn))) ≫= λ _,
  on_connect session conn ≫= λ _,
  mret true.

(** The connection is locked while its error is looked at; one that failed is
    dropped. *)
Definition check_connected (session conn : N) (cn : Conn B) : M bool := λ e,
  match on_world (TcpStream_take_error (cn_stream cn)) e with
  | (IoOk (Some _), e1) =>
      h_on_error session e1 ≫= λ '(_, e2), Done (false, drop_conn conn cn e2)
  | (_, e1) => (unlock_conn conn cn ≫= λ _, hand_over session conn) e1
  end.

Definition connected_job (session : N) (stream : TcpStream) : M bool :=
  new_conn stream ≫= λ conn,
  lock_conn conn ≫= check_connected session conn.

(** ** [Connector] *)

(** [handle_on_connect]: the job is given the socket; its result is ignored.
    The default job drops it. *)
Definition handle_on_connect (self : Connector) : M Connector := λ e,
  match cr_stream self with
  | None => Panic PAssert
  | Some stream =>
      let self := with_cr_stream None self in
      match cr_session self with
      | Some session => connected_job session stream e ≫= λ '(_, e), Done (self, e)
      | None => Done (self, drop_stream stream e)
      end
  end.

(** [EventLoopBuilder::get_current_loop], which panics when the thread has
    none, and [clear_timeout]. *)
Definition clear_loop_timeout (t : Timeout) : M unit := λ e,
  clear_timeout t e.1 ≫= λ '(_, el), Done (tt, (el, e.2)).
Definition clear_current_timeout (t : Timeout) : M unit := λ e,
  assert (current_loop (dialers e)) ≫= λ _, clear_loop_timeout t e.

(** [handle_event]; the [debug!] at the top unwraps the socket when the record
    is enabled. *)
Definition connector_event (verbose : bool) (event : Z) (self : Connector) : M Connector := λ e,
  let ready := ready_from_usize (i64_as_usize event) in
  (if verbose then unwrap PUnwrap (cr_stream self) ≫= λ _, Done () else Done ()) ≫= λ _,
  (match cr_timer self with
   | Some t => clear_current_timeout t e
   | None => Done (tt, e)
   end) ≫= λ '(_, e),
  if Ready.is_writable ready then handle_on_connect self e else Done (self, e).

Definition connector_close (self : Connector) : M unit := λ e,
  match cr_stream self with
  | Some stream => deregister_stream stream e
  | None => Done (tt, e)
  end.

(** The closure [connect] registers. *)
Definition connector_job (verbose : bool) (k : N) (val : Z) : M unit :=
  lock_connector k ≫= λ self, connector_event verbose val self ≫= unlock_connector k.

(** The closure of the timeout. *)
Definition connect_timed_out (k : N) : M unit :=
  lock_connector k ≫= λ self,
  lift (unwrap PUnwrap (cr_timer self)) ≫= λ t, clear_loop_timeout t ≫= λ _,
  lift (unwrap PUnwrap (cr_stream self)) ≫= λ stream, deregister_stream stream ≫= λ _,
  unlock_connector k self.

Definition ONE_TOKEN : N := 9999999.

(** [this.lock().unwrap().tcp_stream = Some(stream)] drops a socket that
    connected before. *)
Definition set_stream (k : N) (stream : TcpStream) : M unit :=
  lock_connector k ≫= λ c,
  modify (λ e, match cr_stream c with Some old => drop_stream old e | None => e end) ≫= λ _,
  unlock_connector k (with_cr_stream (Some stream) c).

Definition set_connect_timeout (k timeout_ms : N) (now : Instant) : M unit := λ e,
  if timeout_ms =? usize_max then Done (tt, e)
  else
    timeout now (from_millis timeout_ms) (connect_timeout k) e.1 ≫= λ '(t, el),
    with_connector k (with_cr_timer (Some t)) (el, e.2).

(** [event_loop.register(..).unwrap()] with the connector locked. *)
Definition register_stream (k : N) (stream : TcpStream) : M TcpStream := λ e,
  loop_register e.1 stream (mkTokenEntry SocketEvent (mkToken ONE_TOKEN))
    (Ready.bitor Ready.writable Ready.readable) (PollOpt.bitor PollOpt.edge PollOpt.oneshot)
    (UserJob (ConnectorJob k)) ≫= λ '(res, stream, el),
  match res with
  | IoErr _ => Panic PUnwrap
  | IoOk _ => Done (stream, (el, e.2))
  end.
Definition register_connector (k : N) : M unit :=
  lock_connector k ≫= λ c,
  lift (unwrap PUnwrap (cr_stream c)) ≫= λ stream, register_stream k stream ≫= λ stream,
  unlock_connector k (with_cr_stream (Some stream) c).

Context (parse : list byte → option SocketAddr).

Definition connector_connect (k : N) (addr : list byte) (timeout_ms : N) (now : Instant) : M unit := λ e,
  unwrap PUnwrap (parse addr) ≫= λ addr,
  match on_world (connect addr) e with
  | (IoErr _, _) => Panic PUnwrap
  | (IoOk stream, e) =>
      (set_stream k stream ≫= λ _,
       set_connect_timeout k timeout_ms now ≫= λ _,
       register_connector k : M unit) e
  end.

(** ** [TcpClient] *)

(** [TcpClient::new]: a connector at a new address. *)
Definition TcpClient_new : M N := λ e,
  let k := fresh (dom (dl_connectors (dialers e))) in
  Done (k, put_connector k (Some Connector_new) e).

(** [start_connect]: the job of the connector tells this handler, and there is
    no timeout. *)
Definition start_connect (k : N) (addr : list byte) (session : N) (now : Instant) : M unit :=
  with_connector k (set_conn_job (Some session)) ≫= λ _,
  connector_connect k addr usize_max now.

(** The jobs of a client. *)
Definition run_client_job (verbose : bool) (run_other : UJ → Z → M unit) (j : ClientJob UJ) (val : Z)
    : M unit :=
  match j with
  | ConnectorJob k => connector_job verbose k val
  | OtherJob j => run_other j val
  end.
End Client.
