(* ===== verification/ClientProps.v ===== *)
(** * TCP clients: properties

    A connection attempt that succeeds becomes a connection of the handler,
    watched for its own events; one that fails is reported and closed, but its
    entry in the selector stays. *)
From Stdlib Require Import Strings.Byte.
From S2P Require Import Prelude EventSet ReadinessState Duration LazyCell Awakener Selector.
From S2P Require Import ReadinessQueue Registration Interfaces Timer PollReadiness Poll Evented.
From S2P Require Import EventLoop Sys Tcp Net Socket Layers Connection ConnectionProps Server ServerProps Client.

#[export] Instance dialers_layer_laws {V} : LayerLaws (dialers_layer (V:=V)).
Proof. split; [done|by intros []|done]. Qed.
#[export] Instance dialers_laws `{SocketLaws V} : SocketLaws (Dialers V) := layer_laws dialers_layer.

Section ClientProps.
Context {UJ : Type}.
#[local] Abbreviation J := (NetJob (ClientJob UJ)).
Context {P : Type} {PO : PipeOps P}.
Context {K : Type} {KO : EpollOps K}.
Context {slab : Type → Type} {SO : SlabOps slab} {T : Type}.
Context {B : Type} {BO : BytesOps B}.
Context {V : Type} {LO : LibcOps V} {NO : NetOps V} {SL : SocketLib V}.
#[local] Abbreviation EL := (EventLoop J P K slab T).
#[local] Abbreviation E := (EL * Server B (Dialers V))%type.
Context {HO : HandlerOps (ClientJob UJ) P K slab T B (Dialers V)}.
Context (on_connect : N → N → stm E unit).
Implicit Types (e : E).

(** The loop stops watching [fd] and starts again. *)
Definition rewatched e (fd : Z) (k1 k2 : K) : Prop :=
  epoll_ctl (sel_kernel (sel_of e)) EPOLL_CTL_DEL fd (mkEpollEvent 0 0) = (IoOk (), k1) ∧
  epoll_ctl k1 EPOLL_CTL_ADD fd
    (mkEpollEvent (ioevent_to_epoll (Ready.bitor Ready.readable Ready.writable) PollOpt.edge)
       (i32_as_u64 fd)) = (IoOk (), k2).
Definition rewatches e (fd : Z) : Prop := ∃ k1 k2, rewatched e fd k1 k2.

(** A connection made of [cn] answers with the methods of the handler. *)
Record handles (cn1 : Conn B) (session : N) (cn : Conn B) : Prop := {
  hd_read : cn_read cn1 = Some session;
  hd_writ : cn_writ cn1 = Some session;
  hd_close : cn_close cn1 = Some session;
  hd_fields : cn_fields cn1 = Connection.set_enabled (cn_fields cn) true;
  hd_stream : stream_sys (cn_stream cn1) = stream_sys (cn_stream cn);
}.

(** The readiness queue and the lock of the loop's poll are the same. *)
Definition same_queue e e' : Prop :=
  el_world e'.1 = el_world e.1 ∧ el_queue e'.1 = el_queue e.1 ∧ p_lock (el_poll e'.1) = p_lock (el_poll e.1).

Lemma deregister_stream_ok (s : TcpStream) e k :
  epoll_ctl (sel_kernel (sel_of e)) EPOLL_CTL_DEL (stream_inner (stream_sys s)) (mkEpollEvent 0 0)
    = (IoOk (), k) →
  ∃ e', deregister_stream s e = Done (tt, e') ∧ e'.2 = e.2 ∧
    sel_map (sel_of e') = delete (stream_inner (stream_sys s)) (sel_map (sel_of e)) ∧
    sel_kernel (sel_of e') = k ∧ sel_id (sel_of e') = sel_id (sel_of e) ∧ same_queue e e'.
Proof.
  intros Hk. destruct e as [el sv]. unfold sel_of in *. cbn [fst] in *.
  unfold deregister_stream, loop_deregister, poll_deregister. cbn.
  unfold EventedFd_deregister, Selector.deregister. cbn. rewrite Hk. cbn. by eexists.
Qed.

(** The handler is given a connection, and leaves the loop's descriptors and the
    connections alone: [e2] is what it makes of the world. *)
Lemma hand_over_ok session conn cn e e2 k1 k2 :
  let fd := stream_inner (stream_sys (cn_stream cn)) in
  let sid := sid_id (stream_selector_id (cn_stream cn)) in
  h_attach_connection session conn e = Done (tt, e2) → calm e e2 →
  sv_conns e.2 !! conn = Some (Some cn) → rewatched e fd k1 k2 →
  sid = 0 ∨ sid = sel_id (sel_of e) →
  ∃ el1 cn1, let e1 := (el1, with_conns (<[conn := Some cn1]> (sv_conns e.2)) e2.2) : E in
    hand_over on_connect session conn e = (on_connect session conn ≫= λ _, mret true) e1 ∧
    handles cn1 session cn ∧ same_queue e2 e1 ∧ sel_kernel (sel_of e1) = k2 ∧
    sel_map (sel_of e1) = <[fd := mkJobEntry (mkTokenEntry SocketEvent (mkToken (i32_as_u64 fd)))
      (ConnJob conn) Ready.empty]> (sel_map (sel_of e)).
Proof.
  intros fd sid E2 [D1 D2 D3 D4] Hc (Hk1 & Hk2) Hid. unfold hand_over.
  rewrite (stm_step _ _ _ _ _ E2).
  rewrite (set_sessions_ok conn session e2 cn) by (by rewrite D2).
  rewrite (stm_step _ _ _ _ _ (lock_conn_ok conn _ _ (put_conn_lookup _ _ _))), put_conn_put.
  destruct (deregister_stream_ok (cn_stream cn) (put_conn conn None e2) k1) as (e3 & E3 & Es3 & Em3 & Ek3 & Ei3 & Hq3).
  { change (sel_of (put_conn conn None e2)) with (sel_of e2). by rewrite D1. }
  change (cn_stream (with_session session cn)) with (cn_stream cn).
  rewrite (stm_step _ _ _ _ _ E3).
  rewrite (stm_step _ _ e3 tt (put_conn conn (Some (with_session session cn)) e3)) by done.
  rewrite (stm_step _ _ _ _ _ (with_conn_ok conn _ _ _ (put_conn_lookup _ _ _))), put_conn_put.
  rewrite (stm_step _ _ _ _ _ (lock_conn_ok conn _ _ (put_conn_lookup _ _ _))), put_conn_put.
  set (cn1 := with_conn_enabled (with_session session cn)).
  change (cn_stream cn1) with (cn_stream cn).
  assert (sel_id (sel_of e3) = sel_id (sel_of e)) as Hsid
    by (rewrite Ei3; change (sel_of (put_conn conn None e2)) with (sel_of e2); by rewrite D1).
  destruct (register_conn_ok conn cn1 (i32_as_u64 fd) (put_conn conn None e3) k2)
    as (e4 & E4 & Es4 & Em4 & Ek4 & Hq4).
  { change (sel_of (put_conn conn None e3)) with (sel_of e3). rewrite Hsid. exact Hid. }
  { change (sel_of (put_conn conn None e3)) with (sel_of e3). rewrite Ek3. exact Hk2. }
  rewrite (stm_step _ _ _ _ _ E4). rewrite put_conn_put in Es4.
  eexists e4.1, _. cbv zeta.
  match type of Es4 with _ = (put_conn _ (Some ?c1) _).2 => set (cn2 := c1) in Es4 end.
  assert (e4 = (e4.1, with_conns (<[conn := Some cn2]> (sv_conns e.2)) e2.2)) as Ee.
  { rewrite (surjective_pairing e4), Es4. unfold put_conn. cbn [fst snd]. f_equal.
    rewrite Es3. unfold put_conn, with_conns. cbn. by rewrite insert_insert_eq, D2. }
  rewrite <- Ee. split; [reflexivity|]. split; [done|]. split.
  { destruct Hq3 as (A1 & A2 & A3), Hq4 as (B1 & B2 & B3). unfold same_queue, put_conn in *. cbn [fst] in *.
    repeat split; congruence. }
  split; [exact Ek4|]. rewrite Em4.
  change (sel_of (put_conn conn None e3)) with (sel_of e3). rewrite Em3.
  change (sel_of (put_conn conn None e2)) with (sel_of e2). rewrite D1.
  apply insert_delete_eq.
Qed.

(** The event of the connector's socket, up to its job: the connector is locked,
    and its socket taken. *)
Lemma connector_job_ok (verbose : bool) k stream session r e :
  dl_connectors (dialers e) !! k = Some (Some (mkConnector None (Some stream) (Some session))) →
  ready_0 r < 2 ^ 64 → Ready.is_writable r = true →
  connector_job on_connect verbose k (usize_as_i64 (ready_as_usize r)) e =
    connected_job on_connect session stream (put_connector k None e) ≫= λ '(_, e),
    unlock_connector k (mkConnector None None (Some session)) e.
Proof.
  intros Hk H64 Hw. unfold connector_job.
  assert (lock_connector k e = Done (mkConnector None (Some stream) (Some session), put_connector k None e)) as El
    by (unfold lock_connector; by rewrite Hk).
  rewrite (stm_step _ _ _ _ _ El). unfold connector_event. rewrite i64_roundtrip by done.
  change (ready_from_usize (ready_as_usize r)) with (mkReady (ready_0 r)).
  assert (mkReady (ready_0 r) = r) as -> by by destruct r.
  unfold mbind at 1, stm_bind. cbn [cr_stream cr_timer]. rewrite Hw.
  assert ((if verbose then unwrap PUnwrap (Some stream) ≫= λ _, Done () else Done ()) = Done ()) as ->
    by by destruct verbose.
  cbn [mbind exec_bind]. unfold handle_on_connect. cbn [cr_stream cr_session with_cr_stream].
  by destruct (connected_job on_connect session stream (put_connector k None e)) as [[[] e']| |].
Qed.

(** The new connection, locked while its error is looked at. *)
Lemma connected_job_ok stream session e :
  ∃ conn, sv_conns e.2 !! conn = None ∧
    connected_job on_connect session stream e =
      check_connected on_connect session conn (Conn_new stream) (put_conn conn None e).
Proof.
  exists (fresh (dom (sv_conns e.2))). split; [apply not_elem_of_dom, is_fresh|].
  unfold connected_job. set (conn := fresh (dom (sv_conns e.2))).
  rewrite (stm_step _ _ e conn (put_conn conn (Some (Conn_new stream)) e)) by done.
  by rewrite (stm_step _ _ _ _ _ (lock_conn_ok conn _ _ (put_conn_lookup _ _ _))), put_conn_put.
Qed.

(** The world in which the handler of a connector is given its connection. *)
Definition made (k conn : N) (stream : TcpStream) (v : V) e : E :=
  (e.1, with_conns (<[conn := Some (Conn_new stream)]> (sv_conns e.2))
    (with_sv_world (mkDialers (<[k := None]> (dl_connectors (dialers e))) (current_loop (dialers e)) v) e.2)).

Lemma client_connects_ok (verbose : bool) k stream session r e res v k1 k2 :
  let fd := stream_inner (stream_sys stream) in
  let sid := sid_id (stream_selector_id stream) in
  (∀ c, ∃ e', h_attach_connection session c (made k c stream v e) = Done (tt, e') ∧
    calm (made k c stream v e) e') →
  dl_connectors (dialers e) !! k = Some (Some (mkConnector None (Some stream) (Some session))) →
  ready_0 r < 2 ^ 64 → Ready.is_writable r = true →
  std_take_error fd (dl_world (dialers e)) = (res, v) → (∀ err, res ≠ IoOk (Some err)) →
  rewatched e fd k1 k2 → sid = 0 ∨ sid = sel_id (sel_of e) →
  ∃ conn e2 el1 cn, let e1 := (el1, with_conns (<[conn := Some cn]> (sv_conns e.2)) e2.2) : E in
    connector_job on_connect verbose k (usize_as_i64 (ready_as_usize r)) e =
      (on_connect session conn e1 ≫= λ '(_, e), unlock_connector k (mkConnector None None (Some session)) e) ∧
    sv_conns e.2 !! conn = None ∧
    h_attach_connection session conn (made k conn stream v e) = Done (tt, e2) ∧
    handles cn session (Conn_new stream) ∧ same_queue e2 e1 ∧ sel_kernel (sel_of e1) = k2 ∧
    sel_map (sel_of e1) = <[fd := mkJobEntry (mkTokenEntry SocketEvent (mkToken (i32_as_u64 fd)))
      (ConnJob conn) Ready.empty]> (sel_map (sel_of e)).
Proof.
  intros fd sid Hat Hk H64 Hw Hte Hno Hwt Hid. rewrite (connector_job_ok verbose k stream session r e) by done.
  destruct (connected_job_ok stream session (put_connector k None e)) as (conn & Hc & ->).
  unfold check_connected. change (cn_stream (Conn_new stream)) with stream.
  unfold on_world, TcpStream_take_error, SysTcpStream_take_error. cbn [std_take_error dialers_lib layer_lib].
  unfold through. change (under dialers_layer _) with (dl_world (dialers e)). fold fd. rewrite Hte.
  set (e1 := (_, with_sv_world _ _) : E).
  assert ((unlock_conn conn (Conn_new stream) ≫= λ _, hand_over on_connect session conn) e1 =
    hand_over on_connect session conn (made k conn stream v e)) as Eu.
  { unfold mbind, stm_bind, unlock_conn, modify. f_equal. unfold made, put_conn, e1, with_conns, with_sv_world.
    cbn. by rewrite insert_insert_eq. }
  destruct (Hat conn) as (e2 & E2 & Hcalm).
  destruct (hand_over_ok session conn (Conn_new stream) (made k conn stream v e) e2 k1 k2)
    as (el1 & cn & E3 & Hh & Hq & Hk2 & Hm);
    [exact E2|exact Hcalm|apply lookup_insert_eq|exact Hwt|exact Hid|].
  unfold made in E3 at 2. cbn [snd sv_conns with_conns with_sv_world] in E3. rewrite insert_insert_eq in E3.
  exists conn, e2, el1, cn. cbv zeta. split.
  { transitivity (hand_over on_connect session conn (made k conn stream v e)
      ≫= λ '(_, e), unlock_connector k (mkConnector None None (Some session)) e).
    - destruct res as [[err|]|err]; [by destruct (Hno err)|by rewrite <- Eu..].
    - rewrite E3. unfold mbind at 2, stm_bind. by destruct (on_connect session conn _) as [[[] e3]| |]. }
  split; [exact Hc|]. split; [exact E2|]. split; [exact Hh|]. split; [exact Hq|]. by split.
Qed.

(** The world in which the handler of a connector is told of its error: the
    connection was made, and is locked. *)
Definition refused (k conn : N) (v : V) e : E :=
  (e.1, with_conns (<[conn := None]> (sv_conns e.2))
    (with_sv_world (mkDialers (<[k := None]> (dl_connectors (dialers e))) (current_loop (dialers e)) v) e.2)).

Lemma failed_connect_ok `{!LibcLaws V} (verbose : bool) k stream session r e err v :
  let fd := stream_inner (stream_sys stream) in
  dl_connectors (dialers e) !! k = Some (Some (mkConnector None (Some stream) (Some session))) →
  ready_0 r < 2 ^ 64 → Ready.is_writable r = true →
  std_take_error fd (dl_world (dialers e)) = (IoOk (Some err), v) →
  ∃ conn, sv_conns e.2 !! conn = None ∧
    connector_job on_connect verbose k (usize_as_i64 (ready_as_usize r)) e =
      (h_on_error session (refused k conn v e) ≫= λ '(_, e2),
       unlock_connector k (mkConnector None None (Some session)) (drop_conn conn (Conn_new stream) e2)).
Proof.
  intros fd Hk H64 Hw Hte. rewrite (connector_job_ok verbose k stream session r e) by done.
  destruct (connected_job_ok stream session (put_connector k None e)) as (conn & Hc & ->).
  exists conn. split; [exact Hc|].
  unfold check_connected. change (cn_stream (Conn_new stream)) with stream.
  unfold on_world, TcpStream_take_error, SysTcpStream_take_error. cbn [std_take_error dialers_lib layer_lib].
  unfold through. change (under dialers_layer _) with (dl_world (dialers e)). fold fd. rewrite Hte.
  match goal with |- (h_on_error session ?e1 ≫= _) ≫= _ = _ => change e1 with (refused k conn v e) end.
  by destruct (h_on_error session (refused k conn v e)) as [[[] e2]| |].
Qed.

(** What is left of a connection that is dropped. *)
Lemma dropped_ok `{!LibcLaws V} k c conn stream e :
  let fd := stream_inner (stream_sys stream) in
  ∃ e', unlock_connector k c (drop_conn conn (Conn_new stream) e) = Done (tt, e') ∧
    dl_connectors (dialers e') = <[k := Some c]> (dl_connectors (dialers e)) ∧
    sv_conns e'.2 = delete conn (sv_conns e.2) ∧
    sel_map (sel_of e') = sel_map (sel_of e) ∧
    sel_kernel (sel_of e') = epoll_forget (sel_kernel (sel_of e)) fd ∧
    open_fds (dl_world (dialers e')) = delete fd (open_fds (dl_world (dialers e))).
Proof. intros fd. eexists. split; [reflexivity|]. split_and!; try done. apply close_law. Qed.

(** ** The attempt itself *)

Lemma put_connector_lookup k o e : dl_connectors (dialers (put_connector k o e)) !! k = Some o.
Proof. apply lookup_insert_eq. Qed.
Lemma put_connector_put k o o' e : put_connector k o' (put_connector k o e) = put_connector k o' e.
Proof. unfold put_connector, dialers, with_sv_world. cbn. by rewrite insert_insert_eq. Qed.
Lemma lock_connector_ok k e c :
  dl_connectors (dialers e) !! k = Some (Some c) → lock_connector k e = Done (c, put_connector k None e).
Proof. intros H. unfold lock_connector. by rewrite H. Qed.
Lemma with_connector_ok k f e c :
  dl_connectors (dialers e) !! k = Some (Some c) →
  with_connector k f e = Done (tt, put_connector k (Some (f c)) e).
Proof.
  intros H. unfold with_connector. rewrite (stm_step _ _ _ _ _ (lock_connector_ok k e c H)).
  unfold unlock_connector, modify. by rewrite put_connector_put.
Qed.

Lemma register_stream_ok k (stream : TcpStream) e ker :
  let fd := stream_inner (stream_sys stream) in
  sid_id (stream_selector_id stream) = 0 →
  epoll_ctl (sel_kernel (sel_of e)) EPOLL_CTL_ADD fd
    (mkEpollEvent (ioevent_to_epoll (Ready.bitor Ready.writable Ready.readable)
       (PollOpt.bitor PollOpt.edge PollOpt.oneshot)) (i32_as_u64 fd)) = (IoOk (), ker) →
  ∃ el, register_stream k stream e =
      Done (mkTcpStream (stream_sys stream) (mkSelectorId (sel_id (sel_of e))), (el, e.2)) ∧
    sel_kernel (sel_of (el, e.2)) = ker ∧
    sel_map (sel_of (el, e.2)) = <[fd := mkJobEntry (mkTokenEntry SocketEvent (mkToken ONE_TOKEN))
      (UserJob (ConnectorJob k)) Ready.empty]> (sel_map (sel_of e)).
Proof.
  intros fd Hid Hk. destruct e as [el sv]. unfold sel_of in *. cbn [fst snd] in *.
  unfold register_stream, loop_register, poll_register. cbn. unfold associate_selector. rewrite Hid.
  cbn [N.eqb negb andb]. unfold EventedFd_register, Selector.register. cbn [with_map sel_kernel].
  subst fd. cbn. rewrite Hk. cbn. by eexists.
Qed.

(** A new socket, watched once for both directions. *)
Lemma start_connect_ok (connect_timeout : N → T) parse k addr a session now e c stream v ker :
  let fd := stream_inner (stream_sys stream) in
  dl_connectors (dialers e) !! k = Some (Some c) → cr_stream c = None → parse addr = Some a →
  connect a (dl_world (dialers e)) = (IoOk stream, v) →
  sid_id (stream_selector_id stream) = 0 →
  epoll_ctl (sel_kernel (sel_of e)) EPOLL_CTL_ADD fd
    (mkEpollEvent (ioevent_to_epoll (Ready.bitor Ready.writable Ready.readable)
       (PollOpt.bitor PollOpt.edge PollOpt.oneshot)) (i32_as_u64 fd)) = (IoOk (), ker) →
  ∃ e', start_connect connect_timeout parse k addr session now e = Done (tt, e') ∧
    dialers e' = mkDialers
      (<[k := Some (mkConnector (cr_timer c)
          (Some (mkTcpStream (stream_sys stream) (mkSelectorId (sel_id (sel_of e))))) (Some session))]>
        (dl_connectors (dialers e))) (current_loop (dialers e)) v ∧
    sv_conns e'.2 = sv_conns e.2 ∧ sel_kernel (sel_of e') = ker ∧
    sel_map (sel_of e') = <[fd := mkJobEntry (mkTokenEntry SocketEvent (mkToken ONE_TOKEN))
      (UserJob (ConnectorJob k)) Ready.empty]> (sel_map (sel_of e)).
Proof.
  intros fd Hk Hn Ha Hco Hid Hker. unfold start_connect.
  rewrite (stm_step _ _ _ _ _ (with_connector_ok k _ e c Hk)).
  set (c1 := set_conn_job (Some session) c). set (e1 := put_connector k (Some c1) e).
  unfold connector_connect. rewrite Ha. cbn [unwrap mbind exec_bind].
  unfold on_world.
  assert (connect a (sv_world e1.2) = through dialers_layer (connect a) (sv_world e1.2)) as ->
    by apply (lifted_connect dialers_layer a). unfold through.
  change (under dialers_layer (sv_world e1.2)) with (dl_world (dialers e)). rewrite Hco.
  set (e2 := (e1.1, with_sv_world (over dialers_layer v (sv_world e1.2)) e1.2) : E).
  assert (dl_connectors (dialers e2) !! k = Some (Some c1)) as Hk2 by apply lookup_insert_eq.
  assert (set_stream k stream e2 = Done (tt, put_connector k (Some (with_cr_stream (Some stream) c1)) e2)) as E1.
  { unfold set_stream. rewrite (stm_step _ _ _ _ _ (lock_connector_ok k e2 c1 Hk2)).
    change (cr_stream c1) with (cr_stream c). rewrite Hn. unfold mbind, stm_bind, modify, unlock_connector, modify.
    by rewrite put_connector_put. }
  rewrite (stm_step _ _ _ _ _ E1). set (c2 := with_cr_stream (Some stream) c1). set (e3 := put_connector k (Some c2) e2).
  rewrite (stm_step _ _ e3 tt e3) by done. unfold register_connector.
  rewrite (stm_step _ _ _ _ _ (lock_connector_ok k e3 c2 (put_connector_lookup k (Some c2) e2))).
  set (e4 := put_connector k None e3). rewrite (stm_step _ _ e4 stream e4) by done.
  destruct (register_stream_ok k stream e4 ker Hid Hker) as (el & E2 & Ek & Em).
  rewrite (stm_step _ _ _ _ _ E2). eexists. split; [reflexivity|].
  split; [|split; [reflexivity|split; [exact Ek|exact Em]]].
  unfold put_connector, dialers. cbn. by rewrite !insert_insert_eq.
Qed.
End ClientProps.
