(* ===== verification/ClientTheorems.v ===== *)
(** * TCP clients: theorems

    The properties of [ClientProps], and two runs of a client. *)
From Stdlib Require Import Strings.Byte.
From S2P Require Import Prelude EventSet ReadinessState Duration LazyCell Awakener Selector.
From S2P Require Import ReadinessQueue Registration Interfaces Timer PollReadiness Poll Evented.
From S2P Require Import EventLoop Sys Tcp Net Socket Layers Connection ConnectionProps Server ServerProps.
From S2P Require Import ServerTheorems Client ClientProps.

(** C23 when the socket of a connection attempt becomes writable without an
    error, the client turns it into a connection that answers with the methods
    of its handler, and the loop watches it for the events of that connection
    instead of the connector's; then the handler is given the connection, while
    the connector, which gave its socket away, is still locked. *)
Theorem client_connects {UJ P K slab T B V} `{EpollOps K} `{SlabOps slab} `{BytesOps B}
    `{HO : HandlerOps (ClientJob UJ) P K slab T B (Dialers V)} (HC : CalmHandler)
    `{LibcOps V} {SLb : SocketLib V}
    (on_connect : N → N → stm (EventLoop (NetJob (ClientJob UJ)) P K slab T * Server B (Dialers V)) unit)
    (verbose : bool) k stream session r
    (e : EventLoop (NetJob (ClientJob UJ)) P K slab T * Server B (Dialers V)) res v
    (Hk : dl_connectors (dialers e) !! k = Some (Some (mkConnector None (Some stream) (Some session))))
    (H64 : ready_0 r < 2 ^ 64) (Hw : Ready.is_writable r = true)
    (Hte : std_take_error (stream_inner (stream_sys stream)) (dl_world (dialers e)) = (res, v))
    (Hno : ∀ err, res ≠ IoOk (Some err))
    (Hwt : rewatches e (stream_inner (stream_sys stream)))
    (Hid : sid_id (stream_selector_id stream) = 0 ∨
           sid_id (stream_selector_id stream) = sel_id (sel_of e)) :
  ∃ e1 conn cn, connector_job on_connect verbose k (usize_as_i64 (ready_as_usize r)) e =
      (on_connect session conn e1 ≫= λ '(_, e), unlock_connector k (mkConnector None None (Some session)) e) ∧
    sv_conns e.2 !! conn = None ∧ sv_conns e1.2 = <[conn := Some cn]> (sv_conns e.2) ∧
    cn_read cn = Some session ∧ cn_writ cn = Some session ∧ cn_close cn = Some session ∧
    cn_fields cn = TcpConnection_new (Z.to_N (stream_inner (stream_sys stream))) ∧
    stream_sys (cn_stream cn) = stream_sys stream ∧
    sel_map (sel_of e1) = <[stream_inner (stream_sys stream) :=
      mkJobEntry (mkTokenEntry SocketEvent (mkToken (i32_as_u64 (stream_inner (stream_sys stream)))))
        (ConnJob conn) Ready.empty]> (sel_map (sel_of e)).
Proof.
  destruct Hwt as (k1 & k2 & Hwt).
  destruct (client_connects_ok on_connect verbose k stream session r e res v k1 k2
    (λ c, attach_calm session c _) Hk H64 Hw Hte Hno Hwt Hid) as (conn & e2 & el1 & cn & E & Hc & _ & [R1 R2 R3 R4 R5] & _ & _ & Hm).
  eexists _, conn, cn. split; [exact E|]. split; [exact Hc|]. split; [reflexivity|].
  split; [exact R1|]. split; [exact R2|]. split; [exact R3|]. by rewrite R4.
Qed.

(** C38 when the socket of a connection attempt becomes writable with an error
    pending, the job of the connector calls [on_error] of the handler, with the
    new connection locked, and when that returns drops the connection and
    unlocks the connector, without a socket; no connection is left, the socket
    is closed and the kernel's epoll forgets it, but the loop is not told, and
    its selector keeps the entry of the closed descriptor. *)
Theorem failed_connect_is_reported {UJ P K slab T B V} `{EpollOps K} `{SlabOps slab} `{BytesOps B}
    `{HO : HandlerOps (ClientJob UJ) P K slab T B (Dialers V)} `{LL : LibcLaws V} {SLb : SocketLib V}
    (on_connect : N → N → stm (EventLoop (NetJob (ClientJob UJ)) P K slab T * Server B (Dialers V)) unit)
    (verbose : bool) k stream session r
    (e : EventLoop (NetJob (ClientJob UJ)) P K slab T * Server B (Dialers V)) err v
    (Hk : dl_connectors (dialers e) !! k = Some (Some (mkConnector None (Some stream) (Some session))))
    (H64 : ready_0 r < 2 ^ 64) (Hw : Ready.is_writable r = true)
    (Hte : std_take_error (stream_inner (stream_sys stream)) (dl_world (dialers e)) = (IoOk (Some err), v)) :
  let fd := stream_inner (stream_sys stream) in
  ∃ conn e1, sv_conns e.2 !! conn = None ∧ e1.1 = e.1 ∧
    sv_conns e1.2 = <[conn := None]> (sv_conns e.2) ∧
    dl_connectors (dialers e1) !! k = Some None ∧ dl_world (dialers e1) = v ∧
    match h_on_error session e1 with
    | Done (_, e2) =>
        ∃ e', connector_job on_connect verbose k (usize_as_i64 (ready_as_usize r)) e = Done (tt, e') ∧
          dl_connectors (dialers e') =
            <[k := Some (mkConnector None None (Some session))]> (dl_connectors (dialers e2)) ∧
          sv_conns e'.2 = delete conn (sv_conns e2.2) ∧
          sel_map (sel_of e') = sel_map (sel_of e2) ∧
          sel_kernel (sel_of e') = epoll_forget (sel_kernel (sel_of e2)) fd ∧
          open_fds (dl_world (dialers e')) = delete fd (open_fds (dl_world (dialers e2)))
    | Panic p =>
        connector_job on_connect verbose k (usize_as_i64 (ready_as_usize r)) e = Panic p
    | NoFuel => connector_job on_connect verbose k (usize_as_i64 (ready_as_usize r)) e = NoFuel
    end.
Proof.
  destruct (failed_connect_ok on_connect verbose k stream session r e err v Hk H64 Hw Hte) as (conn & Hc & Ej).
  exists conn, (refused k conn v e). split; [exact Hc|]. split; [done|]. split; [done|].
  split; [apply lookup_insert_eq|]. split; [done|].
  destruct (h_on_error session (refused k conn v e)) as [[[] e2]| |]; [|exact Ej..].
  destruct (dropped_ok k (mkConnector None None (Some session)) conn stream e2) as (e' & E & Hd).
  exists e'. split; [exact (eq_trans Ej E)|exact Hd].
Qed.

(** ** A client in the world of [ServerDemo] *)

Module ClientDemo.
Abbreviation J := (NetJob (ClientJob Empty_set)).
Abbreviation Loop := (EventLoop J N ScriptEpoll.t VecSlab.t unit).
Abbreviation env := (Loop * Server ListBytes.t (Dialers ServerDemo.world))%type.

#[global] Instance handler : HandlerOps (ClientJob Empty_set) N ScriptEpoll.t VecSlab.t unit
    ListBytes.t (Dialers ServerDemo.world) := {|
  h_new := λ e, Done (1, e);
  h_attach_connection := λ _ _ e, Done (tt, e);
  h_on_accept := λ _ e, Done (tt, e);
  h_on_recv := λ _ b e, Done (b, e);
  h_on_written := λ _ e, Done (true, e);
  h_on_error := λ _ e, Done (tt, e);
|}.

(** The same, with an [on_error] that leaves a mark. *)
Definition reporter : HandlerOps (ClientJob Empty_set) N ScriptEpoll.t VecSlab.t unit
    ListBytes.t (Dialers ServerDemo.world) := {|
  h_new := h_new;
  h_attach_connection := h_attach_connection;
  h_on_accept := h_on_accept;
  h_on_recv := h_on_recv;
  h_on_written := h_on_written;
  h_on_error := λ _ e, Done (tt, (e.1, with_session_alloc true e.2));
|}.

#[global] Instance handler_calm : CalmHandler.
Proof.
  split; [intros e; exists 1, e|intros s c e; exists e|intros s e; exists e]; by split.
Qed.

Definition on_connect (session conn : N) (e : env) : exec (unit * env) := Done (tt, e).

(** Sockets whose pending error is [err], and nothing else. *)
Definition lib (err : option io_error) : SocketLib ServerDemo.world := {|
  std_set := λ A _ _ _ w, (IoErr (OtherError 0), w);
  std_get := λ A _ _ w, (IoErr (OtherError 0), w);
  std_peer_addr := λ _ w, (IoErr (OtherError 0), w);
  std_local_addr := λ _ w, (IoErr (OtherError 0), w);
  std_take_error := λ _ w, (IoOk err, w);
  std_peek := λ _ _ w, (IoErr (OtherError 0), w);
  file_try_clone := λ _ w, (IoErr (OtherError 0), w);
  file_read := λ _ _ w, (IoErr (OtherError 0), w);
  file_write := λ _ _ w, (IoErr (OtherError 0), w);
  file_flush := λ _ w, (IoErr (OtherError 0), w);
|}.

(** The socket 7 is connecting for the handler 1. *)
Definition stream : TcpStream := mkTcpStream (mkSysStream 7) (mkSelectorId 1).
Definition dialing : Dialers ServerDemo.world :=
  mkDialers {[0 := Some (mkConnector None (Some stream) (Some 1))]} true
    (ServerDemo.mk (TableLibc.mk {[7%Z := mkFlags true true]} true) 0
       (ScriptSocket.mk [] [] 8 [] [] 0)).
Definition connecting : env :=
  (mkEventLoop true (mkPoll (mkSelector 1 9
     {[7%Z := mkJobEntry (mkTokenEntry SocketEvent (mkToken ONE_TOKEN)) (UserJob (ConnectorJob 0)) Ready.empty]}
     (ScriptEpoll.mk {[7%Z := 7]} [])) 0 (mkWorld ∅ ∅) unlocked)
     (mkTimer 100 [] [] (mkInstant 0) 0 EMPTY 3 None),
   mkServer ServerDemo.listener false false false 0 ∅ dialing).
End ClientDemo.
Import ClientDemo.

Lemma client_connects_witness :
  ∃ e' conn cn, connector_job (SL := lib None) on_connect true 0 (usize_as_i64 (ready_as_usize Ready.writable))
      connecting = Done (tt, e') ∧
    sv_conns e'.2 = {[conn := Some cn]} ∧ cn_read cn = Some 1 ∧
    sel_map (sel_of e') = {[7%Z := mkJobEntry (mkTokenEntry SocketEvent (mkToken 7))
      (ConnJob conn) Ready.empty]}.
Proof.
  destruct (client_connects (SLb := lib None) handler_calm on_connect true 0 stream 1 Ready.writable connecting
    (IoOk None) (dl_world dialing)) as (e1 & conn & cn & E & _ & Ec & Er & _ & _ & _ & _ & Em).
  - reflexivity.
  - reflexivity.
  - reflexivity.
  - reflexivity.
  - discriminate.
  - eexists _, _. split; vm_compute; reflexivity.
  - right. reflexivity.
  - eexists _, conn, cn. split; [exact E|]. split; [exact Ec|]. split; [exact Er|].
    change (sel_map (sel_of e1) = {[7%Z := mkJobEntry (mkTokenEntry SocketEvent (mkToken 7))
      (ConnJob conn) Ready.empty]}). rewrite Em. reflexivity.
Defined.

Lemma failed_connect_is_reported_witness :
  ∃ e', connector_job (HO := reporter) (SL := lib (Some (OtherError 111))) on_connect true 0
      (usize_as_i64 (ready_as_usize Ready.writable)) connecting = Done (tt, e') ∧
    session_alloc e'.2 = true ∧ sv_conns e'.2 = ∅ ∧
    TableLibc.fds (ServerDemo.net (dl_world (dialers e'))) = ∅ ∧
    sel_map (sel_of e') !! 7%Z = sel_map (sel_of connecting) !! 7%Z ∧
    ScriptEpoll.data (sel_kernel (sel_of e')) !! 7%Z = None.
Proof.
  destruct (failed_connect_is_reported (HO := reporter) (SLb := lib (Some (OtherError 111))) on_connect true 0
    stream 1 Ready.writable connecting (OtherError 111) (dl_world dialing))
    as (conn & e1 & Hc & E1 & Ec & _ & _ & H); [reflexivity..|].
  destruct H as (e' & E & _ & Hc' & Hm & Hk & Hf). exists e'. split; [exact E|].
  assert (connector_job (HO := reporter) (SL := lib (Some (OtherError 111))) on_connect true 0
      (usize_as_i64 (ready_as_usize Ready.writable)) connecting = Done (tt, e')) as E' by exact E.
  vm_compute in E'. injection E' as <-. vm_compute. by split_and!.
Defined.
