(* ===== verification/Handoff.v ===== *)
(** * Handing closures to a loop, and the end of connections

    [enqueue_job] of [src/src/net/event_loop.rs] as the programs of
    [src/examples/] use it: the closure it makes of a closure, what running and
    dropping it does; and the end of a connection, which lives as long as a
    closure that holds it: the one the selector keeps, and those that wait in
    the readiness queue.  A connection is looked at when a closure that holds it
    is dropped. *)
From S2P Require Import Prelude EventSet ReadinessState Duration LazyCell Awakener Selector.
From S2P Require Import ReadinessQueue Registration Interfaces Timer PollReadiness Poll Evented.
From S2P Require Import EventLoop Sys Tcp Net Socket Layers Connection Server.

(** A closure of the program, or the one [enqueue_job] makes of a closure, which
    holds the two handles of its registration. *)
Inductive Closure (C : Type) : Type :=
  | Given (c : C)
  | Handed (p : ptr) (cb : Closure C).
Arguments Given {C} c.
Arguments Handed {C} p cb.

Section Handoff.
Context {UJ C : Type} (inj : Closure C → UJ).
Context {P : Type} {PO : PipeOps P}.
Context {K : Type} {KO : EpollOps K}.
Context {slab : Type → Type} {T : Type}.
Context {B V : Type} {LO : LibcOps V}.
#[local] Abbreviation J := (NetJob UJ).
#[local] Abbreviation EL := (EventLoop J P K slab T).
#[local] Abbreviation E := (EL * Server B V)%type.
#[local] Abbreviation M := (stm E).

(** [enqueue_job]; the registration gets a fresh address. *)
Definition wrap (cb : Closure C) (p : ptr) (_ : J) : J := UserJob (inj (Handed p cb)).
Definition enqueue (cb : Closure C) : M unit := λ e,
  enqueue_job NoJob (wrap cb) (fresh (dom (w_nodes (el_world e.1)))) (UserJob (inj cb)) e.1 ≫= λ el,
  Done (tt, (el, e.2)).

(** With the loop of [EventLoopBuilder::get_current_loop], which panics in a
    thread that has none. *)
Definition enqueue_current (current_loop : V → bool) (cb : Closure C) : M unit := λ e,
  assert (current_loop (sv_world e.2)) ≫= λ _, enqueue cb e.

(** The closure of [enqueue_job] calls the one it was given with 0. *)
Fixpoint run_closure (run_given : C → Z → M unit) (j : Closure C) (val : Z) : M unit :=
  match j with
  | Given c => run_given c val
  | Handed _ cb => run_closure run_given cb 0
  end.

(** ** References to connections *)

Context (holds : C → list N) (user_conns : UJ → list N).

Fixpoint closure_conns (j : Closure C) : list N :=
  match j with Given c => holds c | Handed _ cb => closure_conns cb end.
Definition job_conns (j : J) : list N :=
  match j with
  | NoJob | AcceptorJob => []
  | ConnJob c => [c]
  | UserJob j => user_conns j
  end.

(** A closure that a loop keeps holds the connection. *)
Definition conn_held (c : N) (el : EL) : bool :=
  existsb (λ '(_, je), bool_decide (c ∈ job_conns (job je))) (map_to_list (sel_map (p_selector (el_poll el))))
  || existsb (λ '(_, n), bool_decide (c ∈ job_conns (n_job n))) (map_to_list (w_nodes (el_world el))).

(** [Weak::upgrade] of a connection. *)
Definition upgrade (c : option N) : M (option N) := λ e,
  Done (c ≫= λ c, match sv_conns e.2 !! c with Some _ => Some c | None => None end, e).

(** ** Dropping closures *)

Definition release_conn (c : N) : M unit := λ e,
  match sv_conns e.2 !! c with
  | Some (Some cn) => Done (tt, if conn_held c e.1 then e else drop_conn c cn e)
  | _ => Done (tt, e)
  end.
Fixpoint release_conns (l : list N) : M unit :=
  match l with
  | [] => mret tt
  | c :: l => release_conn c ≫= λ _, release_conns l
  end.

Definition on_loop_queue (m : stm (World (J:=J) (P:=P)) unit) : M unit := λ e,
  on_queue m (el_poll e.1) ≫= λ '(_, pl), Done (tt, (with_poll pl e.1, e.2)).

Fixpoint drop_closure (j : Closure C) : M unit :=
  match j with
  | Given c => release_conns (holds c)
  | Handed p cb =>
      on_loop_queue (registration_drop p) ≫= λ _,
      on_loop_queue (set_readiness_drop p) ≫= λ _,
      drop_closure cb
  end.

(** Dropping the reference to a job that an event holds. *)
Definition drop_net_job (drop_user : UJ → M unit) (j : J) : M unit :=
  match j with
  | ConnJob c => release_conn c
  | UserJob j => drop_user j
  | _ => mret tt
  end.
End Handoff.
