(* ===== verification/HandoffProps.v ===== *)
(** * Handing closures to a loop: properties

    A closure handed to a loop that is awake runs in its next pass, and leaves
    the readiness queue with its registration released; a connection ends when
    no closure holds it. *)
From S2P Require Import Prelude EventSet ReadinessState Duration LazyCell Awakener Selector.
From S2P Require Import ReadinessQueue Registration QueueInv QueueSpec RegistrationSpec HandleSpec QueueProps.
From S2P Require Import Interfaces Timer PollReadiness Poll PollProps Evented EventLoop EventLoopProps RunProps.
From S2P Require Import Sys Tcp Net Socket Layers Connection Server Handoff.

Section HandoffProps.
Context {UJ C : Type} (inj : Closure C → UJ) (holds : C → list N) (user_conns : UJ → list N).
Context (grow : N → N).
Context {P : Type} {PO : PipeOps P} {PL : PipeLaws P}.
Context {K : Type} {KO : EpollOps K} {KL : EpollLaws K}.
Context {slab : Type → Type} {SO : SlabOps slab} {T : Type}.
Context {B V : Type} {LO : LibcOps V}.
#[local] Abbreviation J := (NetJob UJ).
#[local] Abbreviation EL := (EventLoop J P K slab T).
#[local] Abbreviation SV := (Server B V).
#[local] Abbreviation E := (EL * SV)%type.
Implicit Types (e : E) (el : EL) (sv : SV) (cb : Closure C) (c : N).

(** A loop that is awake, not polling, with no node in its queue and room for one more, and
    what a pass of it may spend. *)
Definition awake el (fuel : nat) : Prop := p_lock (el_poll el) = unlocked ∧ ∃ x st refs,
  inv (el_world el) (el_queue el) x st [] refs ∧ asleep st [] = false ∧
  (N.to_nat (pipe_len (q_awakener x)) < fuel)%nat ∧ N.of_nat (size (w_nodes (el_world el))) < 2 ^ 63.
Definition new_node el : ptr := fresh (dom (w_nodes (el_world el))).

Lemma new_node_fresh el : contents (el_world el) !! new_node el = None.
Proof.
  rewrite contents_lookup. assert (w_nodes (el_world el) !! new_node el = None) as ->; [|done].
  apply not_elem_of_dom. unfold new_node. apply is_fresh.
Qed.

(** Handing a closure to a loop that is awake. *)
Definition handed_to el el' cb (fuel : nat) : Prop :=
  enqueue_job NoJob (wrap inj cb) (new_node el) (UserJob (inj cb)) el = Done el' ∧
  (∃ w', el' = with_poll (with_world w' (el_poll el)) el) ∧
  ∀ x1, w_queues (el_world el') !! el_queue el = Some x1 → (N.to_nat (pipe_len (q_awakener x1)) < fuel)%nat.

Lemma enqueue_awake el fuel cb : awake el fuel → ∃ el', handed_to el el' cb fuel.
Proof using PL.
  intros (_ & x & st & refs & Hi & Has & Hp & Hr).
  destruct (enqueue_job_ok NoJob (wrap inj cb) el x st [] refs (new_node el) (UserJob (inj cb)) Hi
    (new_node_fresh el) Hr) as (n & res & a & _ & Hw & Hm).
  rewrite Has in Hw. destruct Hw as [-> ->]. destruct Hm as (w' & x' & E & Hi' & Ea & _).
  eexists. split; [exact E|]. split; [by eexists|]. intros x1 Hx.
  change (w_queues w' !! el_queue el = Some x1) in Hx.
  pose proof (lk_queue _ _ _ _ (qo_linked _ _ _ _ _ (iv_queue _ _ _ _ _ _ Hi'))) as Hx'.
  rewrite Hx in Hx'. injection Hx' as ->. by rewrite Ea.
Qed.

Lemma handed_to_enqueue el el' cb fuel sv :
  handed_to el el' cb fuel → enqueue inj cb (el, sv) = Done (tt, (el', sv)).
Proof. intros (E & _). unfold enqueue. cbn [fst snd]. fold (new_node el). by rewrite E. Qed.

(** ** The pass of the loop *)

(** The node at [p] is held by the two handles of its registration only. *)
Definition holds_node el (p : ptr) : Prop := ∃ x st d refs nd,
  inv (el_world el) (el_queue el) x st d (set_refs refs p 2) ∧ contents (el_world el) !! p = Some nd ∧
  dropped nd = false ∧ n_readiness_queue nd = Some (el_queue el).

(** What a pass leaves of a loop whose kernel has no events: the node of the
    closure, what it watches, its kernel and its other jobs. *)
Record passed el el' (p : ptr) (k' : K) : Prop := {
  ps_node : holds_node el' p;
  ps_watch : registrations (sel_map (p_selector (el_poll el'))) = registrations (sel_map (p_selector (el_poll el)));
  ps_kernel : sel_kernel (p_selector (el_poll el')) = k';
  ps_queue : el_queue el' = el_queue el;
  ps_jobs : jobs_from NoJob (contents (el_world el)) (contents (el_world el'));
}.

Context (run_job : J → Z → stm E unit) (drop_job : J → stm E unit) (run_timer : T → stm E unit).
Context (clock : SV → Instant * SV).
#[local] Abbreviation pass := (run_once NoJob grow run_job drop_job run_timer clock).

Lemma handed_pass fuel elapsed t el sv el1 cb (run : stm E unit) k' n :
  awake el fuel → handed_to el el1 cb fuel → (1 < fuel)%nat →
  kernel_answer elapsed false 4096 0 zero_timeout (sel_kernel (p_selector (el_poll el))) (IoOk []) k' n →
  (n < fuel)%nat →
  (∀ v e, run_job (UserJob (inj (Handed (new_node el) cb))) v e = run e) →
  (∀ e, drop_job (UserJob (inj (Handed (new_node el) cb))) e = drop_closure holds user_conns (Handed (new_node el) cb) e) →
  ∃ el2, pass fuel elapsed t (el1, sv) =
      (run ≫= λ _, drop_closure holds user_conns (Handed (new_node el) cb) ≫= λ _, mret (IoOk ())) (el2, sv) ∧
    passed el el2 (new_node el) k'.
Proof using PL KL.
  intros (Hl & x & st & refs & Hi & Has & _ & Hroom) (Ej & _ & Hpipe) Hf Hk Hn Hrun Hdrop.
  destruct (handed_job_runs NoJob grow run_job drop_job run_timer clock (wrap inj cb)
    fuel elapsed t el sv el1 (new_node el) (UserJob (inj cb)) x st [] refs [] k' n Hl Hi
    (new_node_fresh el) Hroom Ej Hk Hn)
    as (pl' & d' & x' & st' & nd & nd' & E2 & Hi' & _ & _ & En & Hd & Hq & Er & Ek & Hpq & _ & Hj);
    [cbn; lia|cbn; lia|exact Hpipe|].
  exists (with_poll pl' el1). split.
  - rewrite E2. cbn [omap list_omap fmap list_fmap app]. unfold run_and_drop. cbn [run_entries drop_entries].
    unfold job_entry, process_entry. cbn [token_entry ttype job]. unfold wrap.
    unfold mbind, stm_bind, mret, stm_ret. rewrite Hrun.
    destruct (run (with_poll pl' el1, sv)) as [[[] e1]| |]; [|done..]. rewrite Hdrop.
    by destruct (drop_closure _ _ _ e1) as [[[] e2]| |].
  - split; [|exact Er|exact Ek|exact Hpq|exact Hj].
    exists x', st', d', refs, nd'. unfold el_queue, el_world. cbn [el_poll with_poll]. rewrite Hpq. by split_and!.
Qed.

(** Dropping the closure of a job releases its registration, and touches no other
    node. *)
Lemma drop_node_ok el sv p cb x st d refs n :
  inv (el_world el) (el_queue el) x st d refs → refs p = 2 → contents (el_world el) !! p = Some n →
  dropped n = false → n_readiness_queue n = Some (el_queue el) →
  ∃ w' x' d', let el' := with_poll (with_world w' (el_poll el)) el in
    drop_closure holds user_conns (Handed p cb) (el, sv) = drop_closure holds user_conns cb (el', sv) ∧
    inv w' (el_queue el) x' st d' (set_refs refs p 0) ∧
    (∀ y, y ≠ p → contents w' !! y = contents (el_world el) !! y) ∧
    jobs_from NoJob (contents (el_world el)) (contents w').
Proof using PL.
  intros Hi Hr En Hd Hq. destruct (iv_handles _ _ _ _ _ _ Hi p) as [Hm _]; [by rewrite Hr|].
  destruct (registration_drop_ok (el_world el) (el_queue el) x st d _ p n Hi En Hm)
    as (w1 & x1 & r & E1 & Hi1 & Ec1 & Em1 & _); [by rewrite Hr|done|by right|].
  rewrite Hr in Hi1. change (2 - 1) with 1 in Hi1.
  assert (0 < set_refs refs p 1 p) as Hr1 by (by rewrite set_refs_eq).
  destruct (iv_handles _ _ _ _ _ _ Hi1 p Hr1) as [Hm1 [n1 En1]].
  assert (n1 = with_ref (n_ref_count n - 1) (with_state (flagged (n_state n)) n)) as ->.
  { rewrite Ec1 in En1. unfold released in En1. destruct (_ =? 1); [by rewrite lookup_delete_eq in En1|].
    rewrite lookup_insert_eq in En1. by injection En1 as <-. }
  destruct (release_handle_ok w1 (el_queue el) x1 st _ _ p _ Hi1 En1 Hm1 Hr1)
    as (w2 & x2 & E2 & Hi2 & Ec2 & _).
  { left. unfold dropped. cbn. pose proof (iv_nodes _ _ _ _ _ _ Hi p n En Hm) as Hok.
    destruct (flagged_spec (n_state n) (no_word _ _ _ _ Hok) Hd) as (_ & _ & Ef).
    by apply (f_equal f_dropped) in Ef. }
  { by right. }
  exists w2, x2, (drop_queue n d p). split; [|split; [|split]].
  - cbn [drop_closure]. unfold mbind, stm_bind, on_loop_queue, on_queue at 1. cbn [fst snd].
    change (p_world (el_poll el)) with (el_world el). rewrite E1. cbn [mbind exec_bind].
    unfold on_queue at 1, set_readiness_drop, inner_drop. cbn [p_world with_world with_poll el_poll fst snd].
    rewrite E2. by cbn [mbind exec_bind].
  - eapply inv_refs_ext; [|exact Hi2]. intros y. rewrite set_refs_eq. unfold set_refs. by case_decide.
  - intros y Hne. by rewrite Ec2, released_ne, Ec1, released_ne, lookup_insert_ne.
  - rewrite Ec2. eapply jobs_from_trans; [|by apply jobs_from_released].
    rewrite Ec1. eapply jobs_from_trans; [apply (jobs_from_insert NoJob _ p n (with_state (flagged (n_state n)) n) En eq_refl)|].
    apply jobs_from_released, lookup_insert_eq.
Qed.

Lemma drop_handed_ok el sv p cb :
  holds_node el p →
  ∃ w', let el' := with_poll (with_world w' (el_poll el)) el in
    drop_closure holds user_conns (Handed p cb) (el, sv) = drop_closure holds user_conns cb (el', sv) ∧
    (∃ x st d refs, inv (el_world el') (el_queue el') x st d refs ∧ refs p = 0) ∧
    jobs_from NoJob (contents (el_world el)) (contents w').
Proof using PL.
  intros (x & st & d & refs & n & Hi & En & Hd & Hq).
  destruct (drop_node_ok el sv p cb x st d _ n Hi) as (w' & x' & d' & E & Hi' & _ & Hj);
    [by rewrite set_refs_eq|done..|].
  exists w'. split; [exact E|]. split; [|exact Hj]. by eexists x', st, d', _; split; [exact Hi'|apply set_refs_eq].
Qed.

(** ** The end of a connection *)

Lemma existsb_false {A} (f : A → bool) l : existsb f l = false ↔ ∀ a, a ∈ l → f a = false.
Proof.
  induction l as [|a l IH]; cbn; [set_solver|]. rewrite orb_false_iff, IH. set_solver.
Qed.

(** No closure but that of the descriptor [fd] holds the connection. *)
Definition sole_holder c (fd : Z) el : Prop :=
  (∀ fd' je, sel_map (p_selector (el_poll el)) !! fd' = Some je → c ∈ job_conns user_conns (job je) → fd' = fd) ∧
  (∀ y n, contents (el_world el) !! y = Some n → c ∉ job_conns user_conns (n_job n)).

Lemma not_held c el :
  (∀ fd je, sel_map (p_selector (el_poll el)) !! fd = Some je → c ∉ job_conns user_conns (job je)) →
  (∀ y n, contents (el_world el) !! y = Some n → c ∉ job_conns user_conns (n_job n)) →
  conn_held user_conns c el = false.
Proof.
  intros Hs Hq. unfold conn_held. apply orb_false_iff. split; apply existsb_false.
  - intros [fd je] Hin%elem_of_map_to_list. apply bool_decide_eq_false_2. by apply (Hs fd).
  - intros [y n] Hin%elem_of_map_to_list. apply bool_decide_eq_false_2.
    apply (Hq y (strip n)). by rewrite contents_lookup, Hin.
Qed.

Lemma watched_is_held c fd je el :
  sel_map (p_selector (el_poll el)) !! fd = Some je → c ∈ job_conns user_conns (job je) →
  conn_held user_conns c el = true.
Proof.
  intros Hs Hc. unfold conn_held. apply orb_true_iff. left. apply existsb_exists.
  exists (fd, je). split; [by apply list_elem_of_In, elem_of_map_to_list|by apply bool_decide_eq_true_2].
Qed.

(** The loop watches a descriptor for a connection, which a pass without events
    does not change. *)
Definition watches el (fd : Z) c : Prop := job <$> sel_map (p_selector (el_poll el)) !! fd = Some (ConnJob c).

Lemma watches_held el fd c : watches el fd c → conn_held user_conns c el = true.
Proof.
  unfold watches. intros Hj. destruct (sel_map (p_selector (el_poll el)) !! fd) as [je|] eqn:Ej; [|done].
  apply (watched_is_held _ fd je); [exact Ej|]. injection Hj as ->. by left.
Qed.

Lemma watches_same el el' fd c :
  registrations (sel_map (p_selector (el_poll el'))) = registrations (sel_map (p_selector (el_poll el))) →
  watches el fd c → watches el' fd c.
Proof.
  unfold watches. intros Er Hj. pose proof (registrations_lookup _ _ fd Er) as Hr.
  destruct (sel_map (p_selector (el_poll el)) !! fd) as [je|]; [|done].
  destruct (sel_map (p_selector (el_poll el')) !! fd) as [je'|]; [|done]. cbn in *. injection Hr as _ ->. done.
Qed.

Lemma watches_passed el el' p k fd c : watches el fd c → passed el el' p k → watches el' fd c.
Proof. intros Hj [_ Pw _ _ _]. by eapply watches_same. Qed.

(** A connection that the loop watches outlives the closures that hold it. *)
Lemma release_watched el sv l :
  Forall (λ c, (∃ cn, sv_conns sv !! c = Some (Some cn)) ∧ ∃ fd, watches el fd c) l →
  release_conns user_conns l (el, sv) = Done (tt, (el, sv)).
Proof.
  induction 1 as [|c l [(cn & Hc) (fd & Hw)] _ IH]; [done|]. cbn [release_conns].
  unfold mbind, stm_bind, release_conn at 1. cbn [fst snd]. by rewrite Hc, (watches_held _ _ _ Hw).
Qed.

Lemma drop_watched el sv p (j : C) :
  holds_node el p → Forall (λ c, (∃ cn, sv_conns sv !! c = Some (Some cn)) ∧ ∃ fd, watches el fd c) (holds j) →
  ∃ el', drop_closure holds user_conns (Handed p (Given j)) (el, sv) = Done (tt, (el', sv)) ∧
    sel_map (p_selector (el_poll el')) = sel_map (p_selector (el_poll el)).
Proof using PL.
  intros Hp Hh. destruct (drop_handed_ok el sv p (Given j) Hp) as (w' & E & _).
  set (el' := with_poll _ el) in E. exists el'. split; [|reflexivity]. rewrite E. exact (release_watched el' sv _ Hh).
Qed.
End HandoffProps.

(** ** A loop that is awake *)

Module HandoffDemo.
Section Loop.
Context {UJ : Type}.
Definition w0 : World (J:=NetJob UJ) (P:=N) :=
  match ReadinessQueue_new NoJob (IoOk 0) 0 1 2 3 (mkWorld ∅ ∅) with Done (_, w) => w | _ => mkWorld ∅ ∅ end.
Definition loop (m : gmap Z (JobEntry (NetJob UJ))) (k : ScriptEpoll.t)
    : EventLoop (NetJob UJ) N ScriptEpoll.t VecSlab.t unit :=
  mkEventLoop true (mkPoll (mkSelector 1 9 m k) 0 w0 unlocked) (mkTimer 100 [] [] (mkInstant 0) 0 EMPTY 3 None).

Lemma awake_world el : p_lock (el_poll el) = unlocked → el_world el = w0 → el_queue el = 0 →
  awake (P:=N) (K:=ScriptEpoll.t) (slab:=VecSlab.t) (T:=unit) el 4.
Proof.
  intros Hl Hw Hq. split; [exact Hl|]. destruct (queue_new_ok (NoJob (J:=UJ)) 0 0 1 2 3) as (w & x & Ew & Hi & Ea & _); [done|done|done|].
  exists x, SEnd, (λ _, 0). rewrite Hw, Hq.
  assert (w = w0) as -> by (unfold w0; by rewrite Ew).
  split; [exact Hi|]. split; [vm_compute; reflexivity|]. split; [|vm_compute; reflexivity].
  rewrite Ea. apply Nat.ltb_lt. vm_compute. reflexivity.
Qed.
End Loop.
End HandoffDemo.
