(* ===== verification/HandoffQueue.v ===== *)
(** * Many closures handed to a loop

    Closures handed over one after the other wait in the readiness queue; the
    next pass runs them in that order, and drops them when all of them have
    run. *)
From S2P Require Import Prelude EventSet ReadinessState Duration LazyCell Awakener Selector.
From S2P Require Import ReadinessQueue Registration QueueInv QueueSpec RegistrationSpec HandleSpec QueueProps.
From S2P Require Import Interfaces Timer PollReadiness Poll PollProps Evented EventLoop EventLoopProps RunProps.
From S2P Require Import Sys Tcp Net Socket Layers Connection Server Handoff HandoffProps.

Section HandoffQueue.
Context {UJ C : Type} (inj : Closure C → UJ) (holds : C → list N) (user_conns : UJ → list N).
Context (grow : N → N).
Context {P : Type} {PO : PipeOps P} {PL : PipeLaws P}.
Context {K : Type} {KO : EpollOps K} {KL : EpollLaws K}.
Context {slab : Type → Type} {SO : SlabOps slab} {T : Type}.
Context {B V : Type} {LO : LibcOps V}.
#[local] Abbreviation J := (NetJob UJ).
#[local] Abbreviation EL := (EventLoop J P K slab T).
#[local] Abbreviation SV := (Server B V).
#[local] Abbreviation E := (EL * SV)%type.
#[local] Abbreviation Store := (gmap ptr (ReadinessNode (J:=J))).
Implicit Types (e : E) (el : EL) (sv : SV) (cb : Closure C) (base : Store).
Implicit Types (ps : list (ptr * Closure C)) (l done : list ptr).

(** The queue of a loop that is awake holds these closures, with room for more;
    the other jobs in its store are those of [base]. *)
Definition loaded base el ps (fuel room : nat) : Prop :=
  p_lock (el_poll el) = unlocked ∧ ∃ x st refs,
  inv (el_world el) (el_queue el) x st ps.*1 refs ∧ asleep st [] = false ∧
  (N.to_nat (pipe_len (q_awakener x)) < fuel)%nat ∧
  N.of_nat (room + size (w_nodes (el_world el))) < 2 ^ 63 ∧
  (∀ p cb, (p, cb) ∈ ps → refs p = 2 ∧ ∃ n, contents (el_world el) !! p = Some n ∧
     job_node (wrap inj cb) p (UserJob (inj cb)) n) ∧
  (∀ y n, contents (el_world el) !! y = Some n →
     y ∈ ps.*1 ∨ n_job n = NoJob ∨ ∃ n0, base !! y = Some n0 ∧ n_job n = n_job n0).

Lemma loaded_awake el fuel room :
  awake el fuel → N.of_nat (room + size (w_nodes (el_world el))) < 2 ^ 63 →
  loaded (contents (el_world el)) el [] fuel room.
Proof using Type.
  intros (Hl & x & st & refs & Hi & Has & Hp & _) Hr. split; [done|]. exists x, st, refs.
  split; [done|]. split; [done|]. split; [done|]. split; [done|].
  split; [intros p cb Hin; by apply not_elem_of_nil in Hin|]. intros y n En. right. right. by exists n.
Qed.

Lemma enqueue_loaded base el ps fuel room cb :
  loaded base el ps fuel (S room) →
  ∃ el', handed_to inj el el' cb fuel ∧ loaded base el' (ps ++ [(new_node el, cb)]) fuel room.
Proof using PL.
  intros (Hl & x & st & refs & Hi & Has & Hp & Hr & Hps & Hj). set (p := new_node el).
  pose proof (new_node_fresh el) as Hfr. fold p in Hfr.
  destruct (fresh_refs _ _ _ _ _ _ _ Hi Hfr) as (_ & _ & Hpd).
  destruct (enqueue_job_ok NoJob (wrap inj cb) el x st _ refs p (UserJob (inj cb)) Hi Hfr)
    as (n & res & a & Hn & Hw & Hm); [lia|].
  assert (asleep st ps.*1 = false) as Has'.
  { unfold asleep in *. apply bool_decide_eq_false in Has. apply bool_decide_eq_false_2. by intros [-> _]; apply Has. }
  rewrite Has' in Hw. destruct Hw as [-> ->]. destruct Hm as (w' & x' & E & Hi' & Ea & Ec).
  eexists. split.
  - split; [exact E|]. split; [by eexists|]. intros x1 Hx. change (w_queues w' !! el_queue el = Some x1) in Hx.
    pose proof (lk_queue _ _ _ _ (qo_linked _ _ _ _ _ (iv_queue _ _ _ _ _ _ Hi'))) as Hx'.
    rewrite Hx in Hx'. injection Hx' as ->. by rewrite Ea.
  - split; [exact Hl|]. exists x', st, (set_refs refs p 2). change (el_world (with_poll (with_world w' (el_poll el)) el)) with w'.
    assert (size (w_nodes w') = S (size (w_nodes (el_world el)))) as Hsz.
    { rewrite <- !size_contents, Ec. by rewrite map_size_insert_None. }
    rewrite fmap_app. split; [exact Hi'|]. split; [done|]. split; [by rewrite Ea|]. split; [rewrite Hsz; lia|].
    split.
    + intros y cb' [Hy|Hy]%elem_of_app.
      * assert (y ≠ p) as Hne by (intros ->; apply Hpd; by apply (list_elem_of_fmap_2 fst) in Hy).
        rewrite set_refs_ne, Ec, lookup_insert_ne by done. by apply Hps.
      * apply list_elem_of_singleton in Hy as [= -> ->]. rewrite set_refs_eq, Ec, lookup_insert_eq. split; [done|by exists n].
    + intros y m. rewrite Ec. intros [[<- _]|[Hne Ey]]%lookup_insert_Some.
      * left. apply elem_of_app. right. by left.
      * destruct (Hj y m Ey) as [Hy|Hy]; [|by right]. left. apply elem_of_app. by left.
Qed.

(** ** The pass *)

Context (run_job : J → Z → stm E unit) (drop_job : J → stm E unit) (run_timer : T → stm E unit).
Context (clock : SV → Instant * SV).
#[local] Abbreviation pass := (run_once NoJob grow run_job drop_job run_timer clock).
#[local] Abbreviation ran := (run_and_drop NoJob run_job drop_job run_timer clock).

(** The entry of a closure that was handed over. *)
Definition handed_entry (x : ptr * Closure C) : JobEntry J :=
  job_entry (wrap inj x.2) x.1 (UserJob (inj x.2)).

(** The nodes of [l] are held by the two handles of their registrations only,
    those of [done] by none, and the jobs that are left are those of [base]. *)
Definition holding base el l done : Prop := ∃ x st d refs,
  inv (el_world el) (el_queue el) x st d refs ∧
  (∀ p, p ∈ l → refs p = 2 ∧ ∃ n, contents (el_world el) !! p = Some n ∧ dropped n = false ∧
     n_readiness_queue n = Some (el_queue el)) ∧
  (∀ p, p ∈ done → refs p = 0) ∧
  jobs_from NoJob base (contents (el_world el)).

(** A pass over a loop that is awake and has no closure waiting: the jobs of the
    kernel's events, with the loop awake. *)
Lemma events_pass fuel elapsed t el sv evs room k' n :
  awake el fuel → N.of_nat (room + size (w_nodes (el_world el))) < 2 ^ 63 →
  kernel_answer elapsed false 4096 0 t (sel_kernel (p_selector (el_poll el))) (IoOk evs) k' n → (n < fuel)%nat →
  ∃ el', pass fuel elapsed t (el, sv) = ran fuel (omap (dispatch (sel_map (p_selector (el_poll el)))) evs) (el', sv) ∧
    loaded (contents (el_world el)) el' [] fuel room ∧ el_queue el' = el_queue el ∧
    contents (el_world el') = contents (el_world el) ∧
    registrations (sel_map (p_selector (el_poll el'))) = registrations (sel_map (p_selector (el_poll el))) ∧
    sel_kernel (p_selector (el_poll el')) = k'.
Proof using KL.
  intros (Hl & x & st & refs & Hi & Has & Hp & _) Hroom Hk Hn.
  destruct (run_once_ok NoJob grow run_job drop_job run_timer clock fuel elapsed t el sv x st [] refs (IoOk evs) k' n
    Hl Hi Hk Hn)
    as (pl' & x' & st' & pld & rest & entries & Ed & -> & _ & Hi' & E & Er & Ek & Hst & Eq & Hl' & Has' & Hle);
    [cbn; lia|exact Hp|].
  symmetry in Ed. apply app_nil in Ed as [-> ->]. cbn [filter list_filter app] in Hi', Has'.
  rewrite app_nil_r in E. exists (with_poll pl' el). split; [exact E|].
  assert (contents (p_world pl') = contents (el_world el)) as Ec.
  { apply map_eq. intros y. by rewrite (Hst y). }
  split; [|by split]. split; [exact Hl'|]. exists x', st', refs. unfold el_queue, el_world. cbn [el_poll with_poll].
  rewrite Eq, Ec. split; [exact Hi'|]. split; [exact Has'|]. split; [lia|]. split.
  - by rewrite <- size_contents, Ec, size_contents.
  - split; [intros p cb Hin; by apply not_elem_of_nil in Hin|]. intros y m Ey. right. right. by exists m.
Qed.

(** A pass takes them all, in order. *)
Lemma loaded_pass fuel elapsed t base el sv ps room k' n :
  loaded base el ps fuel room → ps ≠ [] → (length ps < fuel)%nat → (length ps < 4096)%nat →
  kernel_answer elapsed false 4096 0 zero_timeout (sel_kernel (p_selector (el_poll el))) (IoOk []) k' n →
  (n < fuel)%nat →
  ∃ el', pass fuel elapsed t (el, sv) = ran fuel (handed_entry <$> ps) (el', sv) ∧
    holding base el' ps.*1 [] ∧ NoDup ps.*1 ∧
    registrations (sel_map (p_selector (el_poll el'))) = registrations (sel_map (p_selector (el_poll el))) ∧
    sel_kernel (p_selector (el_poll el')) = k'.
Proof using PL KL.
  intros (Hl & x & st & refs & Hi & _ & Hp & _ & Hps & Hj) Hne Hf H4 Hk Hn.
  assert (wait_timeout ps.*1 t = zero_timeout) as Hz.
  { unfold wait_timeout. rewrite decide_False; [done|]. by destruct ps. }
  rewrite <- Hz in Hk.
  destruct (run_once_ok NoJob grow run_job drop_job run_timer clock fuel elapsed t el sv x st _ refs _ k' n Hl Hi Hk Hn)
    as (pl' & x' & st' & pld & rest & entries & Ed & Een & Hend & Hi' & E & Er & Ek & Hst & Eq & _);
    [by rewrite length_fmap|exact Hp|].
  pose proof (omap_length (reported (contents (el_world el))) pld) as Hlen.
  assert (rest = []) as ->.
  { destruct Hend as [|Hfull]; [done|]. destruct rest as [|y rest]; [done|exfalso].
    apply (f_equal length) in Ed. rewrite Een, length_app, length_fmap in Hfull.
    rewrite length_app, length_fmap in Ed. cbn [omap list_omap length] in *. clear - Ed Hfull Hlen H4. lia. }
  rewrite app_nil_r in Ed. subst pld. rewrite app_nil_l in Hi'.
  assert (∀ p cb, (p, cb) ∈ ps → ∃ m, contents (el_world el) !! p = Some m ∧ refs p = 2 ∧
    reported (contents (el_world el)) p =
      Some (Event_new Ready.readable (mkTokenEntry OtherEvent (mkToken 0)), wrap inj cb p (UserJob (inj cb))) ∧
    still (contents (el_world el)) p = false ∧
    contents (p_world pl') !! p = Some (after_poll NoJob m) ∧ dropped (after_poll NoJob m) = false ∧
    n_readiness_queue (after_poll NoJob m) = Some (el_queue el) ∧ n_job (after_poll NoJob m) = NoJob) as Hall.
  { intros p cb Hin. destruct (Hps p cb Hin) as (Hr & m & Em & Hm). exists m. split; [done|]. split; [done|].
    assert (p ∈ ps.*1) as Hd by exact (list_elem_of_fmap_2 fst _ _ Hin).
    rewrite (Hst p), decide_True by done. by eapply polled_job; [exact Hi|..]; rewrite ?Hr. }
  exists (with_poll pl' el). split; [|split; [|split; [|by split]]].
  - rewrite E. f_equal. rewrite Een. cbn [omap list_omap]. rewrite app_nil_l. clear -Hall.
    induction ps as [|[p cb] ps IH]; [done|]. cbn [fmap list_fmap omap list_omap fst].
    destruct (Hall p cb) as (m & _ & _ & Hr & _); [by left|]. rewrite Hr. cbn [fmap list_fmap]. f_equal.
    apply IH. intros q cb' Hq. apply (Hall q cb'). by right.
  - unfold holding, el_queue, el_world. cbn [el_poll with_poll]. rewrite Eq.
    eexists x', st', _, refs. split; [exact Hi'|]. split; [|split; [intros p Hin; by apply not_elem_of_nil in Hin|]].
    + intros p Hin. apply list_elem_of_fmap in Hin as ([q cb] & -> & Hin).
      destruct (Hall q cb Hin) as (m & _ & Hr & _ & _ & Ec & Hd & Hq & _). split; [exact Hr|by eexists].
    + intros y m Ey. pose proof (Hst y) as Hy. rewrite Ey in Hy. destruct (decide (y ∈ ps.*1)) as [Hin|Hnin].
      * apply list_elem_of_fmap in Hin as ([q cb] & -> & Hin). left.
        destruct (Hall q cb Hin) as (m' & _ & _ & _ & _ & Ec & _ & _ & Hjm). cbn [fst] in *. rewrite Ey in Ec. by injection Ec as ->.
      * symmetry in Hy. destruct (Hj y m Hy) as [|Hy']; [done|exact Hy'].
  - exact (queue_data_nodup _ _ _ _ _ (iv_queue _ _ _ _ _ _ Hi)).
Qed.

(** Dropping one of the closures. *)
Lemma drop_holding base el sv p cb l done :
  holding base el (p :: l) done → p ∉ l →
  ∃ w', let el' := with_poll (with_world w' (el_poll el)) el in
    drop_closure holds user_conns (Handed p cb) (el, sv) = drop_closure holds user_conns cb (el', sv) ∧
    holding base el' l (p :: done).
Proof using PL.
  intros (x & st & d & refs & Hi & Hl & Hg & Hj) Hp. destruct (Hl p) as (Hr & n & En & Hd & Hq); [by left|].
  destruct (drop_node_ok holds user_conns el sv p cb x st d refs n Hi Hr En Hd Hq)
    as (w' & x' & d' & E & Hi' & Hne & Hj').
  exists w'. split; [exact E|]. exists x', st, d', (set_refs refs p 0). split; [exact Hi'|].
  change (el_world (with_poll (with_world w' (el_poll el)) el)) with w'. split; [|split].
  - intros y Hy. assert (y ≠ p) as Hyp by (by intros ->). rewrite set_refs_ne, Hne by done.
    apply Hl. by right.
  - intros y [->|Hy]%elem_of_cons; [apply set_refs_eq|]. unfold set_refs. case_decide; [done|by apply Hg].
  - by eapply jobs_from_trans.
Qed.
End HandoffQueue.
