(* ===== verification/ReplyServer.v ===== *)
(** * The example server

    [src/examples/tcp_server.rs]: the handler [Test], which answers what it
    receives by a job for its loop that sends a fixed response, and closes the
    connection when the response was written.  It runs over the server of
    [Server] and the loop of [EventLoop]. *)
From Stdlib Require Import Strings.Byte Strings.String.
From S2P Require Import Prelude EventSet ReadinessState Duration LazyCell Awakener Selector.
From S2P Require Import ReadinessQueue Registration Interfaces Timer PollReadiness Poll Evented.
From S2P Require Import EventLoop Sys Tcp Net Socket Layers Connection Server Handoff.

(** The closure [on_recv] hands to the loop, which holds a connection and sends
    these bytes. *)
Inductive SendJob : Type :=
  | Send (conn : N) (bytes : list byte).
Definition send_conns (j : SendJob) : list N := match j with Send c _ => [c] end.

(** [Test]: its connection, which it does not keep alive. *)
Record Test := mkTest { test_conn : option N }.

(** The world of the server: its handlers, whether the thread has a current
    loop, and the system. *)
Record Sessions (V : Type) := mkSessions {
  tests : gmap N Test;
  has_loop : bool;
  system : V;
}.
Arguments mkSessions {V} _ _ _.
Arguments tests {V} _.
Arguments has_loop {V} _.
Arguments system {V} _.

Definition RESPONSE : list byte :=
  (text "HTTP/1.1 200 OK" ++ crlf ++ text "Set-Cookie:k1=v1" ++ crlf ++ text "Content-Length: 15" ++ crlf ++
   text "Connection: Keep-Alive" ++ crlf ++ crlf ++ text "abcdefghijkldef")%list.

Section ReplyServer.
Context {P : Type} {PO : PipeOps P}.
Context {K : Type} {KO : EpollOps K}.
Context {slab : Type → Type} {T : Type}.
Context {B : Type} {BO : BytesOps B}.
Context {V : Type} {LO : LibcOps V} {NO : NetOps V} {VO : SocketOps V}.
#[local] Abbreviation J := (NetJob (Closure SendJob)).
#[local] Abbreviation EL := (EventLoop J P K slab T).
#[local] Abbreviation E := (EL * Server B (Sessions V))%type.
#[local] Abbreviation M := (stm E).

(** The system below the handlers. *)
Definition sessions_layer : Layer (Sessions V) V :=
  mkLayer system (λ v w, mkSessions (tests w) (has_loop w) v).
#[global] Instance sessions_libc : LibcOps (Sessions V) := layer_libc sessions_layer.
#[global] Instance sessions_net : NetOps (Sessions V) := layer_net sessions_layer.
#[global] Instance sessions_sockets : SocketOps (Sessions V) := layer_sockets sessions_layer.

(** The handler [s]. *)
Definition test_at (s : N) : M Test := λ e,
  unwrap PUnreachable (tests (sv_world e.2) !! s) ≫= λ t, Done (t, e).
Definition set_test (s : N) (t : Test) : M unit := modify (λ e,
  (e.1, with_sv_world (mkSessions (<[s := t]> (tests (sv_world e.2))) (has_loop (sv_world e.2))
    (system (sv_world e.2))) e.2)).

(** ** The methods of [Test] *)

Definition Test_new : M N := λ e,
  let s := fresh (dom (tests (sv_world e.2))) in
  (set_test s (mkTest None) ≫= λ _, mret s) e.
Definition Test_attach_connection (s conn : N) : M unit := set_test s (mkTest (Some conn)).
Definition Test_free_connection (s : N) : M unit := set_test s (mkTest None).
Definition Test_on_accept (s : N) : M unit := mret tt.
Definition Test_on_recv (s : N) (bytes : B) (e : E) : exec (B * E) :=
  if bytes_len bytes <=? 0 then Done (bytes, e)
  else
    bytes_advance bytes (bytes_len bytes) ≫= λ bytes,
    (test_at s ≫= λ t, upgrade (test_conn t) ≫= λ conn,
     match conn with
     | Some conn => enqueue_current id has_loop (Given (Send conn RESPONSE))
     | None => mret tt
     end) e ≫= λ '(_, e),
    Done (bytes, e).
Definition Test_on_written (s : N) : M bool := Test_free_connection s ≫= λ _, mret false.
(** It logs. *)
Definition Test_on_error (s : N) : M unit := mret tt.

#[global] Instance Test_handler : HandlerOps (Closure SendJob) P K slab T B (Sessions V) := {|
  h_new := Test_new;
  h_attach_connection := Test_attach_connection;
  h_on_accept := Test_on_accept;
  h_on_recv := Test_on_recv;
  h_on_written := Test_on_written;
  h_on_error := Test_on_error;
|}.

(** ** The jobs *)

Definition run_send (j : SendJob) (val : Z) : M unit :=
  match j with Send conn bytes => conn_send conn (bytes_from bytes) ≫= λ _, mret tt end.

Definition run_reply_job (fuel : nat) : J → Z → M unit := run_net_job (run_closure run_send) fuel.
Definition drop_reply_job : J → M unit :=
  drop_net_job (closure_conns send_conns) (drop_closure send_conns (closure_conns send_conns)).

(** [main], for one loop: the server, its handlers, its acceptor. *)
Definition main_loop (parse : list byte → option SocketAddr) (token_id : N) (el : EL) (w : Sessions V)
    : exec (unit * E) :=
  TcpServer_new parse (text "0.0.0.0:9528") token_id w ≫= λ sv,
  (TcpServer_start ≫= λ _, start_internal) (el, sv).
End ReplyServer.
