(* ===== verification/ReplyServerProps.v ===== *)
(** * The example server: properties

    A request that reaches the socket of a connection is answered: the event of
    the connection hands a job to the loop, the next pass of the loop runs it,
    and the response goes out, once; then the connection is closed, and with the
    last closure that holds it its socket. *)
From Stdlib Require Import Strings.Byte Strings.String.
From S2P Require Import Prelude EventSet ReadinessState Duration LazyCell Awakener Selector.
From S2P Require Import ReadinessQueue Registration QueueInv QueueSpec RegistrationSpec HandleSpec QueueProps.
From S2P Require Import Interfaces Timer PollReadiness Poll PollProps Evented EventLoop EventLoopProps RunProps.
From S2P Require Import Sys Tcp Net Socket Layers Connection ConnectionProps Server ServerProps ConnSteps.
From S2P Require Import Handoff HandoffProps ReplyServer.

Section ReplyServerProps.
Context (grow : N → N).
Context {P : Type} {PO : PipeOps P} {PL : PipeLaws P}.
Context {K : Type} {KO : EpollOps K} {KL : EpollLaws K}.
Context {slab : Type → Type} {SO : SlabOps slab} {T : Type}.
Context {B : Type} {BO : BytesOps B} {BL : BytesLaws B}.
Context {V : Type} {LO : LibcOps V} {NO : NetOps V} {VO : SocketOps V} {VL : SocketLaws V}.
#[local] Abbreviation J := (NetJob (Closure SendJob)).
#[local] Abbreviation EL := (EventLoop J P K slab T).
#[local] Abbreviation SV := (Server B (Sessions V)).
#[local] Abbreviation E := (EL * SV)%type.
#[local] Abbreviation conns := (closure_conns send_conns).
Implicit Types (e : E) (el : EL) (sv : SV) (cn : Conn B) (c s : N) (v : V).

#[export] Instance sessions_layer_laws : LayerLaws (sessions_layer (V:=V)).
Proof. split; [done|by intros []|done]. Qed.
#[export] Instance sessions_laws : SocketLaws (Sessions V) := layer_laws sessions_layer.

(** The handlers and the system of a world changed. *)
Definition with_sessions (ts : gmap N Test) v sv : SV :=
  with_sv_world (mkSessions ts (has_loop (sv_world sv)) v) sv.

(** A connection [c] of the handler [s], with nothing to read or write, in a
    thread with a loop. *)
Record idle c s cn sv : Prop := {
  id_live : live c s cn sv;
  id_test : tests (sv_world sv) !! s = Some (mkTest (Some c));
  id_loop : has_loop (sv_world sv) = true;
  id_buffer : ∃ b, read_buffer (cn_fields cn) = Some b ∧ bytes_data b = [];
}.

(** ** The job of a request *)

#[local] Abbreviation reply c := (Given (Send c RESPONSE)).

Lemma on_recv_ok el sv c s el' (buf : B) o fuel :
  tests (sv_world sv) !! s = Some (mkTest (Some c)) → sv_conns sv !! c = Some o →
  has_loop (sv_world sv) = true → bytes_data buf ≠ [] → handed_to id el el' (reply c) fuel →
  ∃ buf', Test_on_recv s buf (el, sv) = Done (buf', (el', sv)) ∧ bytes_data buf' = [].
Proof using BL.
  intros Ht Hc Hl Hne Hh. destruct (data_advance buf (bytes_len buf)) as (buf' & Ea & Ed); [apply N.le_refl|].
  exists buf'. split.
  - unfold Test_on_recv. destruct (N.leb_spec (bytes_len buf) 0) as [H|_].
    { pose proof (bytes_len_pos buf Hne). lia. }
    rewrite Ea. cbn [mbind exec_bind].
    assert (test_at s (el, sv) = Done (mkTest (Some c), (el, sv))) as E1 by (unfold test_at; cbn [snd]; by rewrite Ht).
    assert (upgrade (Some c) (el, sv) = Done (Some c, (el, sv))) as E2 by (unfold upgrade; cbn; by rewrite Hc).
    rewrite (stm_step _ _ _ _ _ E1). cbn [test_conn]. rewrite (stm_step _ _ _ _ _ E2).
    unfold enqueue_current. cbn [snd]. rewrite Hl. cbn [assert mbind exec_bind].
    by rewrite (handed_to_enqueue id el el' (reply c) fuel sv Hh).
  - rewrite Ed. unfold bytes_len. rewrite Nat2N.id. apply drop_all.
Qed.

(** The event of the connection: the job is with the loop, the connection is
    idle again. *)
Lemma request_event fuel n el sv el' c s cn bs v1 :
  idle c s cn sv → bs ≠ [] →
  (∀ b, read_buffer (cn_fields cn) = Some b →
     sock_read (fd_of cn) (bytes_chunk_mut b).1 (system (sv_world sv)) = (IoOk bs, v1)) →
  (∀ n, 0 < n → sock_read (fd_of cn) n v1 = (IoErr WouldBlock, v1)) →
  handed_to id el el' (reply c) n →
  ∃ cn' sv', conn_event (S (S fuel)) c (usize_as_i64 (ready_as_usize Ready.readable)) (el, sv) =
      Done (tt, (el', sv')) ∧
    idle c s cn' sv' ∧ same_conn cn cn' ∧ system (sv_world sv') = v1 ∧
    sv_conns sv' = <[c := Some cn']> (sv_conns sv) ∧ tests (sv_world sv') = tests (sv_world sv).
Proof using BL.
  intros [Hl Ht Hlo (b & Hb & Hbd)] Hbs H1 H2 Hh. destruct (data_chunk_mut b) as [Hn Hd].
  set (sv1 := with_sv_world (mkSessions (tests (sv_world sv)) (has_loop (sv_world sv)) v1)
    (with_conns (<[c := None]> (sv_conns sv)) sv)).
  destruct (on_recv_ok el sv1 c s el' (bytes_fill (bytes_chunk_mut b).2 bs) None n) as (b2 & Er & Hb2); try done.
  { apply lookup_insert_eq. }
  { by rewrite data_fill, Hd, Hbd. }
  destruct (data_chunk_mut b2) as [Hn2 Hd2].
  destruct (readable_event fuel c s cn el sv b bs (mkSessions (tests (sv_world sv)) (has_loop (sv_world sv)) v1)
    b2 el' sv1 Hl Hb Hbs) as (cn' & Ev & Hsc & Hrb & Hl').
  - cbn [sock_read sessions_sockets layer_sockets]. unfold through. cbn [under sessions_layer].
    by rewrite (H1 b Hb).
  - exact Er.
  - cbn [sock_read sessions_sockets layer_sockets]. unfold through. cbn [under sessions_layer sv1 sv_world with_sv_world system].
    by rewrite (H2 _ Hn2).
  - exists cn', (put_conn c (Some cn') (el', sv1)).2. split; [exact Ev|]. split.
    { split; [exact Hl'|exact Ht|exact Hlo|]. eexists. split; [exact Hrb|]. congruence. }
    split; [exact Hsc|]. split; [done|]. split; [|done]. cbn. by rewrite insert_insert_eq.
Qed.

(** ** The response *)

Lemma response_sent el sv c s cn v2 k :
  idle c s cn sv →
  sock_write (fd_of cn) RESPONSE (system (sv_world sv)) = (IoOk (N.of_nat (length RESPONSE)), v2) →
  epoll_ctl (sel_kernel (p_selector (el_poll el))) EPOLL_CTL_DEL (fd_of cn) (mkEpollEvent 0 0) = (IoOk (), k) →
  ∃ el' cn', run_send (Send c RESPONSE) 0 (el, sv) =
      Done (tt, (el', with_conns (<[c := Some cn']> (sv_conns sv))
        (with_sessions (<[s := mkTest None]> (tests (sv_world sv))) v2 sv))) ∧
    unwatched (fd_of cn) k el el' ∧ same_conn cn cn' ∧ closed (cn_fields cn') = true.
Proof using BL VL.
  intros [Hl Ht _ _] Hsw Hdel. set (buf := bytes_from RESPONSE : B).
  assert (bytes_data buf = RESPONSE) as Hbuf by (unfold buf; apply data_bytes_from).
  destruct (conn_send_ok c s cn sv el buf Hl) as (cn0 & cn1 & Hcn & Es); [by rewrite Hbuf|].
  cbn [sock_write sessions_sockets layer_sockets] in Es. unfold through in Es. cbn [under sessions_layer] in Es.
  rewrite Hbuf, Hsw in Es. unfold bytes_len in Es. rewrite Hbuf, N.ltb_irrefl in Es.
  destruct (Hcn cn1 (or_intror eq_refl)) as (Hsc & _ & Hop & _).
  set (w1 := over sessions_layer v2 (sv_world sv)) in Es.
  set (sv1 := with_sv_world w1 (with_conns (<[c := None]> (sv_conns sv)) sv)) in Es.
  set (sv2 := with_sv_world (mkSessions (<[s := mkTest None]> (tests (sv_world sv))) (has_loop (sv_world sv)) v2) sv1).
  assert (h_on_written s (el, sv1) = Done (false, (el, sv2))) as Ew by done. rewrite Ew in Es.
  cbn [mbind exec_bind negb] in Es.
  destruct (close_conn_ok cn1 el sv2 s sv2 k) as (el' & cn2 & Ec & Hu & Hsc2 & Hcl & _); [exact Hop| |reflexivity| |].
  { rewrite (sc_close _ _ Hsc). apply (lv_close _ _ _ _ Hl). }
  { unfold fd_of. rewrite (sc_fd _ _ Hsc). exact Hdel. }
  exists el', cn2. split; [|split; [|split; [|done]]].
  - cbn [run_send]. fold buf. rewrite Ec in Es. cbn [mbind exec_bind] in Es.
    rewrite (stm_step _ _ _ _ _ Es). unfold put_conn. cbn [fst snd]. do 3 f_equal.
    unfold with_conns, with_sessions, with_sv_world. cbn. by rewrite insert_insert_eq.
  - unfold fd_of in *. by rewrite (sc_fd _ _ Hsc) in Hu.
  - destruct Hsc, Hsc2. split; congruence.
Qed.

(** ** The pass of the loop *)

Context (run_timer : T → stm E unit) (clock : SV → Instant * SV).
#[local] Abbreviation pass fuel :=
  (run_once NoJob grow (run_reply_job fuel) drop_reply_job run_timer clock fuel).

(** The example server answers a request: when a connection of a [Test]
    handler gets an event and its socket has bytes, the event hands a job to the
    loop, and the next pass of the loop, without blocking, runs it: the whole
    response goes to the socket behind what was sent before; then the handler
    has let the connection go, the loop does not watch its socket any more, the
    registration of the job is released, and the connection, which no other
    closure holds, is gone and its socket closed. *)
Theorem request_is_answered fuel elapsed t el sv c s cn bs v1 v2 k k' n :
  (1 < fuel)%nat → awake el fuel → idle c s cn sv → sole_holder conns c (fd_of cn) el → bs ≠ [] →
  (∀ b, read_buffer (cn_fields cn) = Some b →
     sock_read (fd_of cn) (bytes_chunk_mut b).1 (system (sv_world sv)) = (IoOk bs, v1)) →
  (∀ n, 0 < n → sock_read (fd_of cn) n v1 = (IoErr WouldBlock, v1)) →
  kernel_answer elapsed false 4096 0 zero_timeout (sel_kernel (p_selector (el_poll el))) (IoOk []) k' n →
  (n < fuel)%nat →
  sock_write (fd_of cn) RESPONSE v1 = (IoOk (N.of_nat (length RESPONSE)), v2) →
  epoll_ctl k' EPOLL_CTL_DEL (fd_of cn) (mkEpollEvent 0 0) = (IoOk (), k) →
  ∃ e1 el2 sv2,
    conn_event fuel c (usize_as_i64 (ready_as_usize Ready.readable)) (el, sv) = Done (tt, e1) ∧
    pass fuel elapsed t e1 = Done (IoOk (), (el2, sv2)) ∧
    sock_tx v2 (fd_of cn) = sock_tx v1 (fd_of cn) ++ RESPONSE ∧
    system (sv_world sv2) = close_fd (fd_of cn) v2 ∧
    sv_conns sv2 = delete c (sv_conns sv) ∧
    tests (sv_world sv2) = <[s := mkTest None]> (tests (sv_world sv)) ∧
    sel_map (p_selector (el_poll el2)) !! fd_of cn = None ∧
    ∃ x st d refs, inv (el_world el2) (el_queue el2) x st d refs ∧ refs (new_node el) = 0.
Proof using PL KL BL VL.
  intros Hf Haw Hid [Hso1 Hso2] Hbs H1 H2 Hk Hn Hsw Hdel.
  destruct (enqueue_awake id el fuel (reply c) Haw) as (el1 & Hh).
  destruct fuel as [|[|f]]; [lia..|].
  destruct (request_event f (S (S f)) el sv el1 c s cn bs v1 Hid Hbs H1 H2 Hh)
    as (cn1 & sv1 & E1 & Hid1 & Hsc & Hv1 & Hcs & Hts).
  assert (fd_of cn1 = fd_of cn) as Hfd by (unfold fd_of; by rewrite (sc_fd _ _ Hsc)).
  destruct (handed_pass id send_conns conns grow (run_reply_job (S (S f))) drop_reply_job run_timer clock
    (S (S f)) elapsed t el sv1 el1 (reply c) (run_send (Send c RESPONSE) 0) k' n Haw Hh Hf Hk Hn)
    as (el2 & E2 & [Pn Pw Pk Pq Pj]); [done..|].
  destruct (response_sent el2 sv1 c s cn1 v2 k Hid1) as (el3 & cn3 & E3 & (Hw3 & Hq3 & Hm3 & _) & Hsc3 & Hcl);
    [by rewrite Hfd, Hv1|by rewrite Hfd, Pk|]. rewrite Hfd in Hm3.
  set (sv3 := with_conns _ _) in E3.
  assert (holds_node el3 (new_node el)) as Hn3 by (unfold holds_node; by rewrite Hw3, Hq3).
  destruct (drop_handed_ok send_conns conns el3 sv3 (new_node el) (reply c) Hn3)
    as (w4 & E4 & Hi4 & Hj4). set (el4 := with_poll (with_world w4 (el_poll el3)) el3) in *.
  assert (conn_held conns c el4 = false) as Hheld.
  { apply not_held.
    - intros fd' je. change (sel_map (p_selector (el_poll el4))) with (sel_map (p_selector (el_poll el3))).
      rewrite Hm3. intros [Hne Ej]%lookup_delete_Some Hin.
      pose proof (registrations_lookup _ _ fd' Pw) as Hr. rewrite Ej in Hr.
      destruct (sel_map (p_selector (el_poll el)) !! fd') as [je0|] eqn:E0; [|done].
      injection Hr as _ Hj. apply Hne. symmetry. by apply (Hso1 fd' je0); rewrite <- ?Hj.
    - change (el_world el4) with w4. intros y nd Ey. rewrite Hw3 in Hj4.
      destruct (jobs_from_trans _ _ _ _ Pj Hj4 y nd Ey) as [-> | (nd0 & E0 & ->)]; [set_solver|by apply (Hso2 y)]. }
  assert (sv_conns sv3 !! c = Some (Some cn3)) as Hc3 by apply lookup_insert_eq.
  eexists (el1, sv1), (drop_conn c cn3 (el4, sv3)).1, (drop_conn c cn3 (el4, sv3)).2. split; [exact E1|]. split.
  { rewrite E2, (stm_step _ _ _ _ _ E3). unfold mbind, stm_bind. rewrite E4.
    cbn [drop_closure send_conns release_conns]. unfold mbind, stm_bind, release_conn. cbn [fst snd].
    by rewrite Hc3, Hheld. }
  assert (stream_inner (stream_sys (cn_stream cn3)) = fd_of cn) as Hst.
  { rewrite (sc_stream _ _ Hsc3), (sc_stream _ _ Hsc). apply (lv_stream _ _ _ _ (id_live _ _ _ _ Hid)). }
  split; [by apply sent_all|].
  split; [cbn; by rewrite Hst|]. split; [cbn; by rewrite Hcs, insert_insert_eq, delete_insert_eq|].
  split; [cbn; by rewrite Hts|]. split; [|exact Hi4].
  change (sel_map (p_selector (el_poll el3)) !! fd_of cn = None). by rewrite Hm3, lookup_delete_eq.
Qed.
End ReplyServerProps.
