(* ===== verification/ReplyServerPasses.v ===== *)
(** * The example server: many requests at once

    Two passes of the loop: the first has an event for each of any number of
    connections, the second answers them all, in the order of the events, and
    frees them. *)
From Stdlib Require Import Strings.Byte Strings.String.
From S2P Require Import Prelude EventSet ReadinessState Duration LazyCell Awakener Selector.
From S2P Require Import ReadinessQueue Registration QueueInv QueueSpec RegistrationSpec HandleSpec QueueProps.
From S2P Require Import Interfaces Timer PollReadiness Poll PollProps Evented EventLoop EventLoopProps RunProps.
From S2P Require Import Sys Tcp Net Socket Layers Connection ConnectionProps Server ServerProps ConnSteps.
From S2P Require Import Handoff HandoffProps HandoffQueue ReplyServer ReplyServerProps.

(** Membership of a list by cases on its head. *)
Lemma if_in_cons {A C : Type} `{EqDecision A} (x y : A) l (a b : C) :
  (if decide (x ∈ y :: l) then a else b) = if decide (x = y) then a else if decide (x ∈ l) then a else b.
Proof. repeat case_decide; set_solver. Qed.

Section Passes.
Context (grow : N → N).
Context {P : Type} {PO : PipeOps P} {PL : PipeLaws P}.
Context {K : Type} {KO : EpollOps K} {KL : EpollLaws K}.
Context {slab : Type → Type} {SO : SlabOps slab} {T : Type}.
Context {B : Type} {BO : BytesOps B} {BL : BytesLaws B}.
Context {V : Type} {LO : LibcOps V} {NO : NetOps V} {VO : SocketOps V} {VL : SocketLaws V}.
#[local] Abbreviation J := (NetJob (Closure SendJob)).
#[local] Abbreviation EL := (EventLoop J P K slab T).
#[local] Abbreviation SV := (Server B (Sessions V)).
#[local] Abbreviation E := (EL * SV)%type.
#[local] Abbreviation conns := (closure_conns send_conns).
#[local] Abbreviation reply c := (Given (Send c RESPONSE)).
Implicit Types (e : E) (el : EL) (sv : SV) (cn : Conn B) (c s : N) (v : V) (k : K).

(** A connection with an event: its handler, its data, the token it is watched
    with, and the request its socket has. *)
Record Client := mkClient {
  cl_conn : N;
  cl_session : N;
  cl_data : Conn B;
  cl_token : Token;
  cl_request : list byte;
}.
Implicit Types (x : Client) (xs : list Client).
Definition cl_fd x : Z := fd_of (cl_data x).
Definition idle_client sv x : Prop := idle (cl_conn x) (cl_session x) (cl_data x) sv.

(** The event that a poll reports for it. *)
Definition client_entry x : JobEntry J :=
  mkJobEntry (mkTokenEntry SocketEvent (cl_token x)) (ConnJob (cl_conn x)) Ready.readable.

(** The client after something was done with its connection. *)
Definition same_client x x' : Prop :=
  cl_conn x' = cl_conn x ∧ cl_session x' = cl_session x ∧ same_conn (cl_data x) (cl_data x').

(** What the system answers when each socket is read until it would block, and
    when each gets the response and leaves the selector, in order. *)
Inductive reads : list Client → V → V → Prop :=
  | reads_none v : reads [] v v
  | reads_one x xs v v1 v2 :
      cl_request x ≠ [] →
      (∀ b, read_buffer (cn_fields (cl_data x)) = Some b →
         sock_read (cl_fd x) (bytes_chunk_mut b).1 v = (IoOk (cl_request x), v1)) →
      (∀ n, 0 < n → sock_read (cl_fd x) n v1 = (IoErr WouldBlock, v1)) →
      reads xs v1 v2 → reads (x :: xs) v v2.
Inductive answers : list Z → V → K → V → K → Prop :=
  | answers_none v k : answers [] v k v k
  | answers_one fd fds v k v1 k1 v2 k2 :
      sock_write fd RESPONSE v = (IoOk (N.of_nat (length RESPONSE)), v1) →
      epoll_ctl k EPOLL_CTL_DEL fd (mkEpollEvent 0 0) = (IoOk (), k1) →
      answers fds v1 k1 v2 k2 → answers (fd :: fds) v k v2 k2.

Lemma same_clients xs xs' :
  Forall2 same_client xs xs' →
  cl_conn <$> xs' = cl_conn <$> xs ∧ cl_session <$> xs' = cl_session <$> xs ∧ cl_fd <$> xs' = cl_fd <$> xs.
Proof.
  induction 1 as [|x x' xs xs' (Hc & Hs & Hd) _ (IHc & IHs & IHf)]; [done|]. cbn [fmap list_fmap].
  assert (cl_fd x' = cl_fd x) as Hf by (unfold cl_fd, fd_of; by rewrite (sc_fd _ _ Hd)).
  split_and!; by f_equal.
Qed.

Context (run_timer : T → stm E unit) (clock : SV → Instant * SV).
#[local] Abbreviation pass fuel :=
  (run_once NoJob grow (run_reply_job fuel) drop_reply_job run_timer clock fuel).
#[local] Abbreviation run_all fuel :=
  (run_entries NoJob (run_reply_job fuel) run_timer clock fuel).

Lemma idle_elsewhere c s cn sv sv' :
  idle c s cn sv → sv_conns sv' !! c = sv_conns sv !! c →
  tests (sv_world sv') !! s = tests (sv_world sv) !! s → has_loop (sv_world sv') = has_loop (sv_world sv) →
  idle c s cn sv'.
Proof.
  intros [Hl Ht Hlo Hb] Hc Hs Hh. split; [by eapply live_elsewhere|congruence..|exact Hb].
Qed.

(** ** The first pass: the events *)

Lemma requests_run f base el sv ps (xs : list Client) v' fuel room :
  loaded id base el ps fuel (length xs + room) → Forall (idle_client sv) xs → NoDup (cl_conn <$> xs) →
  reads xs (system (sv_world sv)) v' →
  ∃ w' sv' xs' ps', let el' := with_poll (with_world w' (el_poll el)) el in
    run_all (S (S f)) (client_entry <$> xs) (el, sv) = Done (tt, (el', sv')) ∧
    loaded id base el' (ps ++ ps') fuel room ∧ ps'.*2 = (λ x, reply (cl_conn x)) <$> xs ∧
    Forall2 same_client xs xs' ∧ Forall (idle_client sv') xs' ∧ system (sv_world sv') = v' ∧
    tests (sv_world sv') = tests (sv_world sv) ∧ has_loop (sv_world sv') = has_loop (sv_world sv) ∧
    (∀ c, c ∉ cl_conn <$> xs → sv_conns sv' !! c = sv_conns sv !! c).
Proof using PL BL.
  revert el sv ps. induction xs as [|x xs IH]; intros el sv ps Hld Hid Hnd Hr.
  - inversion Hr; subst. exists (el_world el), sv, [], []. cbv zeta.
    assert (with_poll (with_world (el_world el) (el_poll el)) el = el) as -> by (by destruct el as [? [] ?]).
    rewrite app_nil_r. split; [done|]. split; [exact Hld|]. split; [done|]. split; [constructor|].
    by split; [constructor|].
  - inversion Hr as [|? ? ? v1 ? Hne H1 H2 Hr']; subst. apply Forall_cons in Hid as [Hx Hid].
    apply NoDup_cons in Hnd as [Hnin Hnd].
    destruct (enqueue_loaded id base el ps fuel (length xs + room) (reply (cl_conn x)) Hld)
      as (el1 & Hto & Hld1).
    destruct (request_event f fuel el sv el1 _ _ _ (cl_request x) v1 Hx Hne H1 H2 Hto)
      as (cn' & sv1 & E1 & Hx1 & Hsc & Hv1 & Hcs & Hts).
    pose proof (id_loop _ _ _ _ Hx1) as Hlo.
    assert (has_loop (sv_world sv1) = has_loop (sv_world sv)) as Hl1 by (by rewrite Hlo, (id_loop _ _ _ _ Hx)).
    assert (Forall (idle_client sv1) xs) as Hid1.
    { apply Forall_forall. intros y Hy. eapply Forall_forall in Hid; [|exact Hy].
      apply (idle_elsewhere _ _ _ sv); [exact Hid| |by rewrite Hts|exact Hl1].
      rewrite Hcs, lookup_insert_ne; [done|]. intros Eq. apply Hnin. rewrite Eq. by apply list_elem_of_fmap_2. }
    rewrite <- Hv1 in Hr'. destruct (IH el1 sv1 _ Hld1 Hid1 Hnd Hr')
      as (w2 & sv2 & xs2 & ps2 & E2 & Hld2 & Hps2 & Hsm & Hid2 & Hv2 & Hts2 & Hlo2 & Hcs2).
    destruct Hto as (_ & (w1 & ->) & _).
    exists w2, sv2, (mkClient (cl_conn x) (cl_session x) cn' (cl_token x) (cl_request x) :: xs2),
      ((new_node el, reply (cl_conn x)) :: ps2). cbv zeta in *. split; [|split; [|split; [|split]]].
    + cbn [fmap list_fmap run_entries]. unfold process_entry. cbn [client_entry token_entry ttype job ready].
      cbn [run_reply_job run_net_job]. by rewrite (stm_step _ _ _ _ _ E1).
    + by rewrite <- app_assoc in Hld2.
    + cbn [fmap list_fmap snd]. by f_equal.
    + by constructor.
    + split; [|split; [exact Hv2|split; [by rewrite Hts2|split; [by rewrite Hlo2|]]]].
      * constructor; [|exact Hid2]. apply (idle_elsewhere _ _ _ sv1); [exact Hx1| |by rewrite Hts2|].
        -- apply Hcs2. exact Hnin.
        -- exact Hlo2.
      * intros c Hc. apply not_elem_of_cons in Hc as [Hc1 Hc2]. by rewrite Hcs2, Hcs, lookup_insert_ne.
Qed.

(** ** The second pass: the responses *)

(** The connections as they are stored. *)
Definition stored sv x : Prop := sv_conns sv !! cl_conn x = Some (Some (cl_data x)).

Lemma responses_run f el sv ps xs v' k' :
  ps.*2 = (λ x, reply (cl_conn x)) <$> xs → Forall (idle_client sv) xs →
  NoDup (cl_conn <$> xs) → NoDup (cl_session <$> xs) →
  answers (cl_fd <$> xs) (system (sv_world sv)) (sel_kernel (p_selector (el_poll el))) v' k' →
  ∃ el' sv' xs', run_all (S f) (handed_entry id <$> ps) (el, sv) = Done (tt, (el', sv')) ∧
    el_world el' = el_world el ∧ el_queue el' = el_queue el ∧
    (∀ fd, sel_map (p_selector (el_poll el')) !! fd =
       if decide (fd ∈ cl_fd <$> xs) then None else sel_map (p_selector (el_poll el)) !! fd) ∧
    Forall2 same_client xs xs' ∧ Forall (stored sv') xs' ∧ system (sv_world sv') = v' ∧
    (∀ c, c ∉ cl_conn <$> xs → sv_conns sv' !! c = sv_conns sv !! c) ∧
    (∀ s, tests (sv_world sv') !! s =
       if decide (s ∈ cl_session <$> xs) then Some (mkTest None) else tests (sv_world sv) !! s).
Proof using BL VL.
  revert el sv ps. induction xs as [|x xs IH]; intros el sv ps Hps Hid Hnd Hns Ha.
  - apply fmap_nil_inv in Hps as ->. inversion Ha; subst. exists el, sv, []. by split_and!.
  - destruct ps as [|[p cb] ps]; [done|]. injection Hps as -> Hps. apply Forall_cons in Hid as [Hx Hid].
    inversion Ha as [|? ? ? ? v1 k1 ? ? Hsw Hdel Ha']; subst.
    apply NoDup_cons in Hnd as [Hnin Hnd]. apply NoDup_cons in Hns as [Hsin Hns].
    destruct (response_sent el sv _ _ _ v1 k1 Hx Hsw Hdel) as (el1 & cn1 & E1 & (Hw1 & Hq1 & Hm1 & Hk1) & Hsc & _).
    set (sv1 := with_conns _ _) in E1. rewrite <- Hk1 in Ha'.
    destruct (IH el1 sv1 ps Hps) as (el2 & sv2 & xs2 & E2 & Hw2 & Hq2 & Hm2 & Hsm & Hst & Hv2 & Hc2 & Ht2);
      [|done|done|exact Ha'|].
    { apply Forall_forall. intros y Hy. eapply Forall_forall in Hid; [|exact Hy].
      apply (idle_elsewhere _ _ _ sv); [exact Hid|..|done]; cbn; apply lookup_insert_ne; intros Eq;
        [apply Hnin|apply Hsin]; rewrite Eq; by apply list_elem_of_fmap_2. }
    exists el2, sv2, (mkClient (cl_conn x) (cl_session x) cn1 (cl_token x) (cl_request x) :: xs2).
    split; [|split; [by rewrite Hw2|split; [by rewrite Hq2|split; [|split; [by constructor|]]]]].
    + cbn [fmap list_fmap run_entries]. exact (eq_trans (stm_step _ _ _ _ _ E1) E2).
    + intros fd. rewrite Hm2, Hm1. cbn [fmap list_fmap]. rewrite if_in_cons.
      by destruct (decide (fd = cl_fd x)) as [->|Hne];
        [case_decide; rewrite ?lookup_delete_eq|rewrite lookup_delete_ne].
    + split; [constructor; [|exact Hst]|split; [exact Hv2|split]].
      * unfold stored. cbn [cl_conn cl_data]. rewrite Hc2 by exact Hnin. apply lookup_insert_eq.
      * intros c Hc. apply not_elem_of_cons in Hc as [Hc1 Hc]. rewrite Hc2 by done. cbn. by rewrite lookup_insert_ne.
      * intros s. rewrite Ht2. cbn [fmap list_fmap]. rewrite if_in_cons. cbn.
        by destruct (decide (s = cl_session x)) as [->|Hne];
          [case_decide; rewrite ?lookup_insert_eq|rewrite lookup_insert_ne].
Qed.

(** ** The end of the connections *)

(** The connection whose socket is its stream's. *)
Definition own_socket x : Prop := stream_inner (stream_sys (cn_stream (cl_data x))) = cl_fd x.

(** No closure of the selector or of the store [base] holds the connection. *)
Definition unheld el (base : gmap ptr (ReadinessNode (J:=J))) c : Prop :=
  (∀ fd je, sel_map (p_selector (el_poll el)) !! fd = Some je → c ∉ job_conns conns (job je)) ∧
  (∀ y n, base !! y = Some n → c ∉ job_conns conns (n_job n)).
Definition close_all (fds : list Z) v : V := foldl (λ v fd, close_fd fd v) v fds.

Lemma held_nowhere el base l done c :
  holding base el l done → unheld el base c → conn_held conns c el = false.
Proof.
  intros (x & st & d & refs & _ & _ & _ & Hj) [Hs Hb]. apply not_held; [exact Hs|].
  intros y n Ey. destruct (Hj y n Ey) as [-> | (n0 & E0 & ->)]; [by intros ?%not_elem_of_nil|by apply (Hb y)].
Qed.

Lemma drops_run base el sv ps xs done :
  ps.*2 = (λ x, reply (cl_conn x)) <$> xs → NoDup (cl_conn <$> xs) → NoDup ps.*1 → holding base el ps.*1 done →
  Forall (stored sv) xs → Forall own_socket xs → (∀ c, c ∈ cl_conn <$> xs → unheld el base c) →
  ∃ el' sv' done', drop_entries drop_reply_job (handed_entry id <$> ps) (el, sv) = Done (tt, (el', sv')) ∧
    holding base el' [] done' ∧ (∀ p, p ∈ ps.*1 ∨ p ∈ done → p ∈ done') ∧
    sel_map (p_selector (el_poll el')) = sel_map (p_selector (el_poll el)) ∧
    system (sv_world sv') = close_all (cl_fd <$> xs) (system (sv_world sv)) ∧
    tests (sv_world sv') = tests (sv_world sv) ∧
    (∀ c, sv_conns sv' !! c = if decide (c ∈ cl_conn <$> xs) then None else sv_conns sv !! c).
Proof using PL.
  revert el sv ps done. induction xs as [|x xs IH]; intros el sv ps done Hps Hnd Hnp Hh Hst Hso Hun.
  - apply fmap_nil_inv in Hps as ->. exists el, sv, done. split; [done|]. split; [exact Hh|].
    split; [by intros p [?%not_elem_of_nil|]|]. by split_and!.
  - destruct ps as [|[p cb] ps]; [done|]. injection Hps as -> Hps.
    apply Forall_cons in Hst as [Hx Hst]. apply Forall_cons in Hso as [Hox Hso].
    apply NoDup_cons in Hnd as [Hnin Hnd]. apply NoDup_cons in Hnp as [Hpin Hnp].
    destruct (drop_holding send_conns conns base el sv p (reply (cl_conn x)) _ _ Hh Hpin) as (w1 & E1 & Hh1).
    set (el1 := with_poll (with_world w1 (el_poll el)) el) in *.
    assert (conn_held conns (cl_conn x) el1 = false) as Hheld by (eapply held_nowhere; [exact Hh1|apply Hun; by left]).
    set (sv1 := (drop_conn (cl_conn x) (cl_data x) (el1, sv)).2).
    set (el1' := (drop_conn (cl_conn x) (cl_data x) (el1, sv)).1).
    assert (drop_reply_job (job (handed_entry id (p, reply (cl_conn x)))) (el, sv) = Done (tt, (el1', sv1))) as E2.
    { refine (eq_trans E1 _). cbn [drop_closure send_conns release_conns]. unfold mbind, stm_bind, release_conn.
      cbn [fst snd]. by rewrite Hx, Hheld. }
    destruct (IH el1' sv1 ps (p :: done) Hps Hnd Hnp Hh1) as (el2 & sv2 & dn & E3 & Hh2 & Hp2 & Hm2 & Hv2 & Ht2 & Hc2);
      [|exact Hso|intros c Hc; apply (Hun c); by right|].
    { apply Forall_forall. intros y Hy. eapply Forall_forall in Hst; [|exact Hy]. unfold stored in *. cbn.
      rewrite lookup_delete_ne; [exact Hst|]. intros Eq. apply Hnin. rewrite Eq. by apply list_elem_of_fmap_2. }
    exists el2, sv2, dn. split; [|split; [exact Hh2|split; [|split; [by rewrite Hm2|split; [|split; [by rewrite Ht2|]]]]]].
    + cbn [fmap list_fmap drop_entries]. exact (eq_trans (stm_step _ _ _ _ _ E2) E3).
    + intros q [[->|Hq]%elem_of_cons|Hq]; apply Hp2; [right; by left|by left|right; by right].
    + rewrite Hv2. cbn. by rewrite Hox.
    + intros c. rewrite Hc2. cbn [fmap list_fmap]. rewrite if_in_cons. cbn.
      by destruct (decide (c = cl_conn x)) as [->|Hne];
        [case_decide; rewrite ?lookup_delete_eq|rewrite lookup_delete_ne].
Qed.

(** ** The two passes *)

Lemma same_sole el xs xs' :
  Forall2 same_client xs xs' → Forall (λ x, sole_holder conns (cl_conn x) (cl_fd x) el) xs →
  Forall (λ x, sole_holder conns (cl_conn x) (cl_fd x) el) xs'.
Proof.
  induction 1 as [|x x' xs xs' (Ec & _ & Hd) _ IH]; [done|]. intros [Hx Hxs]%Forall_cons.
  constructor; [|by apply IH]. unfold cl_fd, fd_of. by rewrite Ec, (sc_fd _ _ Hd).
Qed.

(** The events of the clients come from the closures of their connections. *)
Lemma entries_watched el (xs : list Client) evs :
  omap (dispatch (sel_map (p_selector (el_poll el)))) evs = client_entry <$> xs →
  Forall (λ x, sole_holder conns (cl_conn x) (cl_fd x) el) xs →
  Forall (λ x, watches el (cl_fd x) (cl_conn x)) xs.
Proof.
  intros He Hs. apply Forall_forall. intros x Hx. eapply Forall_forall in Hs as [Hs _]; [|exact Hx].
  assert (client_entry x ∈ omap (dispatch (sel_map (p_selector (el_poll el)))) evs) as Hin
    by (rewrite He; by apply list_elem_of_fmap_2).
  apply list_elem_of_omap in Hin as (ev & _ & Ed). unfold dispatch in Ed.
  destruct (sel_map (p_selector (el_poll el)) !! _) as [je|] eqn:Ej; [|done].
  case_bool_decide; [done|]. injection Ed as _ Ejob _.
  rewrite (Hs _ _ Ej) in Ej by (rewrite Ejob; by left). unfold watches. by rewrite Ej, <- Ejob.
Qed.

(** The descriptors of the clients differ. *)
Lemma watched_fds el (xs : list Client) :
  Forall (λ x, watches el (cl_fd x) (cl_conn x)) xs → NoDup (cl_conn <$> xs) → NoDup (cl_fd <$> xs).
Proof.
  induction 1 as [|x xs Hx Hxs IH]; [constructor|]. intros [Hnin Hnd]%NoDup_cons. constructor; [|by apply IH].
  intros (y & Ef & Hy)%list_elem_of_fmap. eapply Forall_forall in Hxs; [|exact Hy]. unfold watches in *.
  rewrite Ef, Hxs in Hx. injection Hx as Ec. apply Hnin. rewrite <- Ec. by apply list_elem_of_fmap_2.
Qed.

Lemma events_dropped el sv (xs : list Client) :
  Forall (λ x, (∃ cn, sv_conns sv !! cl_conn x = Some (Some cn)) ∧ ∃ fd, watches el fd (cl_conn x)) xs →
  drop_entries drop_reply_job (client_entry <$> xs) (el, sv) = Done (tt, (el, sv)).
Proof.
  induction 1 as [|x xs [(cn & Hc) (fd & Hw)] _ IH]; [done|].
  assert (drop_reply_job (job (client_entry x)) (el, sv) = Done (tt, (el, sv))) as E.
  { cbn [drop_reply_job drop_net_job client_entry job]. unfold release_conn. cbn [fst snd].
    by rewrite Hc, (watches_held _ _ _ _ Hw). }
  exact (eq_trans (stm_step _ _ _ _ _ E) IH).
Qed.

(** What each socket sent, when a write sends on its own descriptor only. *)
Lemma answers_sent (fds : list Z) v k v' k' :
  (∀ fd fd' bs w, fd' ≠ fd → sock_tx (sock_write fd bs w).2 fd' = sock_tx w fd') →
  answers fds v k v' k' → NoDup fds →
  ∀ fd, sock_tx v' fd = sock_tx v fd ++ if decide (fd ∈ fds) then RESPONSE else [].
Proof.
  intros Hf Ha. induction Ha as [v k|fd0 fds v k v1 k1 v2 k2 Hw _ _ IH]; intros Hnd fd.
  - by rewrite decide_False, app_nil_r by apply not_elem_of_nil.
  - apply NoDup_cons in Hnd as [Hnin Hnd]. rewrite (IH Hnd), if_in_cons. destruct (decide (fd = fd0)) as [->|Hne].
    + rewrite decide_False, app_nil_r by done. by apply sent_all.
    + f_equal. by rewrite <- (Hf _ fd RESPONSE v Hne), Hw.
Qed.

Lemma requests_pass fuel elapsed t el sv (xs : list Client) evs v1 k1 n :
  awake el fuel → N.of_nat (length xs + size (w_nodes (el_world el))) < 2 ^ 63 → (1 < fuel)%nat →
  Forall (idle_client sv) xs → NoDup (cl_conn <$> xs) → Forall (λ x, sole_holder conns (cl_conn x) (cl_fd x) el) xs →
  kernel_answer elapsed false 4096 0 t (sel_kernel (p_selector (el_poll el))) (IoOk evs) k1 n → (n < fuel)%nat →
  omap (dispatch (sel_map (p_selector (el_poll el)))) evs = client_entry <$> xs →
  reads xs (system (sv_world sv)) v1 →
  ∃ el1 sv1 ps xs1, pass fuel elapsed t (el, sv) = Done (IoOk (), (el1, sv1)) ∧
    loaded id (contents (el_world el)) el1 ps fuel 0 ∧ ps.*2 = (λ x, reply (cl_conn x)) <$> xs ∧
    Forall2 same_client xs xs1 ∧ Forall (idle_client sv1) xs1 ∧ system (sv_world sv1) = v1 ∧
    tests (sv_world sv1) = tests (sv_world sv) ∧
    (∀ c, c ∉ cl_conn <$> xs → sv_conns sv1 !! c = sv_conns sv !! c) ∧
    registrations (sel_map (p_selector (el_poll el1))) = registrations (sel_map (p_selector (el_poll el))) ∧
    sel_kernel (p_selector (el_poll el1)) = k1.
Proof using PL KL BL.
  intros Haw Hroom Hf Hid Hnd Hso Hk Hn He Hr. destruct fuel as [|[|f]]; [lia..|].
  destruct (events_pass id grow (run_reply_job (S (S f))) drop_reply_job run_timer clock (S (S f)) elapsed t el sv evs
    _ k1 n Haw Hroom Hk Hn) as (el1 & E1 & Hld & _ & _ & Er & Ek).
  rewrite He in E1. rewrite <- (Nat.add_0_r (length xs)) in Hld.
  destruct (requests_run f _ el1 sv [] xs v1 _ 0 Hld Hid Hnd Hr)
    as (w2 & sv2 & xs2 & ps & E2 & Hld2 & Hps & Hsm & Hid2 & Hv2 & Ht2 & _ & Hc2).
  set (el2 := with_poll (with_world w2 (el_poll el1)) el1) in *.
  assert (Forall (λ x, (∃ cn, sv_conns sv2 !! cl_conn x = Some (Some cn)) ∧ ∃ fd, watches el2 fd (cl_conn x)) xs) as Hst.
  { pose proof (entries_watched _ _ _ He Hso) as Hw. clear -Hsm Hid2 Hw Er. induction Hsm as [|x x' xs xs' (Ec & _) _ IH]; [done|].
    apply Forall_cons in Hw as [Hx Hw]. apply Forall_cons in Hid2 as [Hi Hid2]. constructor; [|by apply IH]. split.
    - exists (cl_data x'). rewrite <- Ec. apply (lv_conn _ _ _ _ (id_live _ _ _ _ Hi)).
    - exists (cl_fd x). exact (watches_same el el1 _ _ Er Hx). }
  exists el2, sv2, ps, xs2. split; [|by split_and!].
  rewrite E1. unfold run_and_drop. rewrite (stm_step _ _ _ _ _ E2).
  by rewrite (stm_step _ _ _ _ _ (events_dropped el2 sv2 xs Hst)).
Qed.

Lemma responses_pass base fuel elapsed t el sv ps (xs : list Client) v2 k2 k' n :
  loaded id base el ps fuel 0 → ps.*2 = (λ x, reply (cl_conn x)) <$> xs →
  xs ≠ [] → (length xs < fuel)%nat → (length xs < 4096)%nat →
  Forall (idle_client sv) xs → NoDup (cl_conn <$> xs) → NoDup (cl_session <$> xs) →
  (∀ x fd je, x ∈ xs → sel_map (p_selector (el_poll el)) !! fd = Some je → cl_conn x ∈ job_conns conns (job je) →
     fd = cl_fd x) →
  (∀ x y nd, x ∈ xs → base !! y = Some nd → cl_conn x ∉ job_conns conns (n_job nd)) →
  kernel_answer elapsed false 4096 0 zero_timeout (sel_kernel (p_selector (el_poll el))) (IoOk []) k2 n →
  (n < fuel)%nat → answers (cl_fd <$> xs) (system (sv_world sv)) k2 v2 k' →
  ∃ el' sv' done, pass fuel elapsed t (el, sv) = Done (IoOk (), (el', sv')) ∧
    holding base el' [] done ∧ (∀ p, p ∈ ps.*1 → p ∈ done) ∧
    (∀ fd, fd ∈ cl_fd <$> xs → sel_map (p_selector (el_poll el')) !! fd = None) ∧
    system (sv_world sv') = close_all (cl_fd <$> xs) v2 ∧
    (∀ c, sv_conns sv' !! c = if decide (c ∈ cl_conn <$> xs) then None else sv_conns sv !! c) ∧
    (∀ s, tests (sv_world sv') !! s =
       if decide (s ∈ cl_session <$> xs) then Some (mkTest None) else tests (sv_world sv) !! s).
Proof using PL KL BL VL.
  intros Hld Hps Hne Hf H4 Hid Hnd Hns Hs1 Hs2 Hk Hn Ha.
  assert (length ps = length xs) as Hlen by (rewrite <- (length_fmap snd ps), Hps; apply length_fmap).
  destruct (loaded_pass id grow (run_reply_job fuel) drop_reply_job run_timer clock fuel elapsed t base el sv ps 0 k2 n Hld)
    as (el1 & E1 & Hh & Hnp & Er & Ek); [by intros ->; destruct xs|lia..|exact Hk|exact Hn|].
  rewrite <- Ek in Ha. destruct fuel as [|f]; [lia|].
  destruct (responses_run f el1 sv ps xs v2 k' Hps Hid Hnd Hns Ha)
    as (el2 & sv2 & xs2 & E2 & Hw2 & Hq2 & Hm2 & Hsm & Hst & Hv2 & Hc2 & Ht2).
  destruct (same_clients _ _ Hsm) as (Ec & _ & Ef).
  destruct (drops_run base el2 sv2 ps xs2 []) as (el3 & sv3 & dn & E3 & Hh3 & Hd3 & Hm3 & Hv3 & Ht3 & Hc3).
  - rewrite Hps, !(list_fmap_compose cl_conn (λ c, reply c)). by rewrite Ec.
  - by rewrite Ec.
  - exact Hnp.
  - unfold holding. by rewrite Hw2, Hq2.
  - exact Hst.
  - clear -Hsm Hid. induction Hsm as [|x x' xs xs' (_ & _ & Hd) _ IH]; [done|].
    apply Forall_cons in Hid as [Hi Hid]. constructor; [|by apply IH].
    unfold own_socket, cl_fd, fd_of. rewrite (sc_stream _ _ Hd), (sc_fd _ _ Hd).
    apply (lv_stream _ _ _ _ (id_live _ _ _ _ Hi)).
  - rewrite Ec. intros c (x & -> & Hx)%list_elem_of_fmap. split; [|intros y nd Ey; by apply (Hs2 x y)].
    intros fd je. rewrite Hm2. case_decide as Hin; [done|]. intros Ej Hc. apply Hin.
    pose proof (registrations_lookup _ _ fd Er) as Hr. rewrite Ej in Hr.
    destruct (sel_map (p_selector (el_poll el)) !! fd) as [je0|] eqn:E0; [|done]. injection Hr as _ Hj.
    rewrite (Hs1 x fd je0 Hx E0) by (by rewrite <- Hj). by apply list_elem_of_fmap_2.
  - exists el3, sv3, dn. split.
    { rewrite E1. unfold run_and_drop. rewrite (stm_step _ _ _ _ _ E2). by rewrite (stm_step _ _ _ _ _ E3). }
    split; [exact Hh3|]. split; [intros p Hp; apply Hd3; by left|].
    split; [intros fd Hfd; rewrite Hm3, Hm2; by rewrite decide_True|].
    split; [by rewrite Hv3, Ef, Hv2|]. split; [|intros s; by rewrite Ht3, Ht2].
    intros c. rewrite Hc3, Ec. case_decide; [done|]. by apply Hc2.
Qed.

(** C17 The example server answers any number of requests at once.  Suppose the
    kernel reports an event for each of several connections of [Test] handlers,
    that of each socket one read finds bytes and the next would block, that each
    socket takes the whole response in one write and a write concerns no other
    socket, and that the kernel has nothing more when the second pass asks.  (A
    socket that takes less loses the rest and is not closed; see [send_spec].)
    Then one pass of the loop hands a job for each connection to the loop, and
    the next, without blocking, runs these jobs in the order of the events:
    every one of the sockets gets the response once, and no other socket gets
    anything; each of the connections is gone, its handler has let it go, the
    loop does not watch its socket, which is closed; the registrations of the
    jobs are released, and no job is left that was not there before. *)
Theorem requests_are_answered fuel elapsed elapsed' t t' el sv (xs : list Client) evs v1 v2 k1 k2 k' n n' :
  awake el fuel → N.of_nat (length xs + size (w_nodes (el_world el))) < 2 ^ 63 →
  xs ≠ [] → (length xs < fuel)%nat → (length xs < 4096)%nat →
  Forall (idle_client sv) xs → NoDup (cl_conn <$> xs) → NoDup (cl_session <$> xs) →
  Forall (λ x, sole_holder conns (cl_conn x) (cl_fd x) el) xs →
  kernel_answer elapsed false 4096 0 t (sel_kernel (p_selector (el_poll el))) (IoOk evs) k1 n → (n < fuel)%nat →
  omap (dispatch (sel_map (p_selector (el_poll el)))) evs = client_entry <$> xs →
  reads xs (system (sv_world sv)) v1 →
  kernel_answer elapsed' false 4096 0 zero_timeout k1 (IoOk []) k2 n' → (n' < fuel)%nat →
  answers (cl_fd <$> xs) v1 k2 v2 k' →
  (∀ fd fd' bs w, fd' ≠ fd → sock_tx (sock_write fd bs w).2 fd' = sock_tx w fd') →
  ∃ el1 sv1 el2 sv2,
    pass fuel elapsed t (el, sv) = Done (IoOk (), (el1, sv1)) ∧
    pass fuel elapsed' t' (el1, sv1) = Done (IoOk (), (el2, sv2)) ∧
    (∀ fd, sock_tx v2 fd = sock_tx v1 fd ++ if decide (fd ∈ cl_fd <$> xs) then RESPONSE else []) ∧
    system (sv_world sv2) = close_all (cl_fd <$> xs) v2 ∧
    (∀ c, sv_conns sv2 !! c = if decide (c ∈ cl_conn <$> xs) then None else sv_conns sv !! c) ∧
    (∀ s, tests (sv_world sv2) !! s =
       if decide (s ∈ cl_session <$> xs) then Some (mkTest None) else tests (sv_world sv) !! s) ∧
    (∀ fd, fd ∈ cl_fd <$> xs → sel_map (p_selector (el_poll el2)) !! fd = None) ∧
    ∃ ps done, loaded id (contents (el_world el)) el1 ps fuel 0 ∧ length ps = length xs ∧
      (∀ p, p ∈ ps.*1 → p ∈ done) ∧ holding (contents (el_world el)) el2 [] done.
Proof using PL KL BL VL.
  intros Haw Hroom Hne Hf H4 Hid Hnd Hns Hso Hk Hn He Hr Hk' Hn' Ha Hfr.
  pose proof (watched_fds _ _ (entries_watched _ _ _ He Hso) Hnd) as Hnf.
  assert (1 < fuel)%nat as Hf1 by (destruct xs; [done|cbn in Hf; lia]).
  destruct (requests_pass fuel elapsed t el sv xs evs v1 k1 n Haw Hroom Hf1 Hid Hnd Hso Hk Hn He Hr)
    as (el1 & sv1 & ps & xs1 & E1 & Hld & Hps & Hsm & Hid1 & Hv1 & Ht1 & Hc1 & Er & Ek).
  destruct (same_clients _ _ Hsm) as (Ec & Es & Ef).
  assert (length xs1 = length xs) as Hl1 by (symmetry; by eapply Forall2_length).
  pose proof (same_sole _ _ _ Hsm Hso) as Hso1. rewrite <- Hv1, <- Ef in Ha. rewrite <- Ek in Hk'.
  destruct (responses_pass (contents (el_world el)) fuel elapsed' t' el1 sv1 ps xs1 v2 k2 k' n' Hld)
    as (el2 & sv2 & dn & E2 & Hh & Hd & Hm & Hv2 & Hc2 & Ht2);
    [|by intros ->; destruct xs|lia|lia|exact Hid1|by rewrite Ec|by rewrite Es|..|exact Hk'|exact Hn'|exact Ha|].
  { rewrite Hps, !(list_fmap_compose cl_conn (λ c, reply c)). by rewrite Ec. }
  { intros x fd je Hx Ej Hc. eapply Forall_forall in Hso1 as [Hs _]; [|exact Hx].
    pose proof (registrations_lookup _ _ fd Er) as Hr1. rewrite Ej in Hr1.
    destruct (sel_map (p_selector (el_poll el)) !! fd) as [je0|] eqn:E0; [|done]. injection Hr1 as _ Hj.
    apply (Hs fd je0 E0). by rewrite <- Hj. }
  { intros x y nd Hx. eapply Forall_forall in Hso1 as [_ Hs]; [|exact Hx]. apply Hs. }
  exists el1, sv1, el2, sv2. split; [exact E1|]. split; [exact E2|].
  split; [rewrite Ef, Hv1 in Ha; by apply (answers_sent _ _ _ _ _ Hfr Ha)|]. rewrite Ec in Hc2. rewrite Es, Ht1 in Ht2. rewrite Ef in *.
  split; [exact Hv2|]. split; [|split; [exact Ht2|split; [exact Hm|]]].
  - intros c. rewrite Hc2. case_decide; [done|]. by apply Hc1.
  - exists ps, dn. split; [exact Hld|]. split; [|by split].
    by rewrite <- (length_fmap snd ps), Hps, length_fmap.
Qed.
End Passes.
