(* ===== verification/ReplyServerDemo.v ===== *)
(** * The example server: a run

    A loop with its readiness queue, the server of [ReplyServer] and one socket,
    or two, whose peers send a request: the theorems of [ReplyServerProps] and
    [ReplyServerPasses] applied. *)
From Stdlib Require Import Strings.Byte Strings.String.
From S2P Require Import Prelude EventSet ReadinessState Duration LazyCell Awakener Selector.
From S2P Require Import ReadinessQueue Registration QueueInv QueueSpec RegistrationSpec HandleSpec QueueProps.
From S2P Require Import Interfaces Timer PollReadiness Poll PollProps Evented EventLoop EventLoopProps RunProps.
From S2P Require Import Sys Tcp Net Socket Layers Connection ConnectionProps Server ServerProps ServerTheorems.
From S2P Require Import ConnSteps Handoff HandoffProps HandoffQueue ReplyServer ReplyServerProps ReplyServerPasses.

Module ReplyDemo.
Abbreviation J := (NetJob (Closure SendJob)).
Abbreviation Loop := (EventLoop J N ScriptEpoll.t VecSlab.t unit).
Abbreviation SV := (Server ListBytes.t (Sessions ServerDemo.world)).
Abbreviation env := (Loop * SV)%type.

Definition loop : Loop := HandoffDemo.loop ∅ (ScriptEpoll.mk ∅ []).
Definition request : list byte := (text "GET / HTTP/1.1" ++ crlf ++ crlf)%list.
Definition start : env :=
  (loop, mkServer ServerDemo.listener true true true 0 ∅
    (mkSessions ∅ true (ServerDemo.mk (TableLibc.mk {[3%Z := mkFlags true true]} true) 1
      (ScriptSocket.mk [request] [] 1000 [] [] 0)))).
(** A connection of descriptor 7 was accepted. *)
Definition served : env :=
  match on_accept_connection ServerDemo.stream (V4 0 0) start with Done (_, e) => e | _ => start end.
Definition conn : N := fresh (dom (sv_conns start.2)).
Definition session : N := fresh (dom (tests (sv_world start.2))).
Definition conn_data : Conn ListBytes.t :=
  match sv_conns served.2 !! conn with Some (Some cn) => cn | _ => Conn_new ServerDemo.stream end.

Definition after_read : ServerDemo.world := (sock_read 7 64 (system (sv_world served.2))).2.
Definition after_write : ServerDemo.world := (sock_write 7 RESPONSE after_read).2.
Definition kernel : ScriptEpoll.t := sel_kernel (p_selector (el_poll served.1)).
Definition kernel' : ScriptEpoll.t := (epoll_ctl kernel EPOLL_CTL_DEL 7 (mkEpollEvent 0 0)).2.

Definition run_timer (u : unit) (e : env) : exec (unit * env) := Done (tt, e).
Definition clock (s : SV) : Instant * SV := (mkInstant 0, s).

Lemma awake_served : awake served.1 4.
Proof. apply HandoffDemo.awake_world; vm_compute; reflexivity. Qed.

Lemma idle_served : idle conn session conn_data served.2.
Proof.
  split; [split; try (vm_compute; reflexivity); exists [], []; by vm_compute|by vm_compute..|].
  exists []. by vm_compute.
Qed.

(** The selector keeps the only closure of the connection. *)
Lemma sole_served : sole_holder (closure_conns send_conns) conn (fd_of conn_data) served.1.
Proof.
  assert (sel_map (p_selector (el_poll served.1)) =
    {[7%Z := mkJobEntry (mkTokenEntry SocketEvent (mkToken 1)) (ConnJob conn) Ready.empty]}) as E by by vm_compute.
  assert (map_Forall (λ _ n, n_job n = NoJob) (contents (el_world served.1))) as Hn.
  { apply map_Forall_to_list. vm_compute. repeat constructor. }
  split.
  - rewrite E. intros fd je [<- _]%lookup_singleton_Some _. by vm_compute.
  - intros y n Ey. rewrite (Hn y n Ey). cbn. apply not_elem_of_nil.
Qed.
End ReplyDemo.
Import ReplyDemo.

Lemma request_is_answered_witness :
  ∃ e1 el2 sv2, conn_event 4 conn (usize_as_i64 (ready_as_usize Ready.readable)) served = Done (tt, e1) ∧
    run_once NoJob SelectorDemo.grow (run_reply_job 4) drop_reply_job run_timer clock 4
      (λ _, from_millis 0) None e1 = Done (IoOk (), (el2, sv2)) ∧
    ScriptSocket.sent (ServerDemo.sock (system (sv_world sv2))) = RESPONSE ∧ sv_conns sv2 = ∅.
Proof.
  destruct (request_is_answered SelectorDemo.grow run_timer clock 4 (λ _, from_millis 0) None
    served.1 served.2 conn session conn_data request after_read after_write kernel' kernel 0)
    as (e1 & el2 & sv2 & E1 & E2 & _ & Hs & Hc & _).
  - lia.
  - exact awake_served.
  - exact idle_served.
  - exact sole_served.
  - vm_compute. discriminate.
  - intros b Hb. vm_compute in Hb. injection Hb as <-. vm_compute. reflexivity.
  - intros n Hn. vm_compute. reflexivity.
  - apply (answer_events _ _ _ _ _ 0); vm_compute; reflexivity.
  - lia.
  - vm_compute. reflexivity.
  - vm_compute. reflexivity.
  - rewrite <- surjective_pairing in E1. exists e1, el2, sv2. split; [exact E1|]. split; [exact E2|].
    split; [rewrite Hs; vm_compute; reflexivity|rewrite Hc; vm_compute; reflexivity].
Defined.

(** ** Two requests *)

Module TwoDemo.
(** A system with a socket of its own at each descriptor. *)
Record t := mk { base : ServerDemo.world; socks : gmap Z ScriptSocket.t }.
Definition layer : Layer t ServerDemo.world := mkLayer base (λ v w, mk v (socks w)).
#[global] Instance libc : LibcOps t := layer_libc layer.
#[global] Instance net : NetOps t := layer_net layer.
Definition at_sock {A} (fd : Z) (f : ScriptSocket.t → io_result A * ScriptSocket.t) (w : t) : io_result A * t :=
  match socks w !! fd with
  | Some s => let '(r, s) := f s in (r, mk (base w) (<[fd := s]> (socks w)))
  | None => (IoErr (OtherError 9), w)
  end.
#[global] Instance sockets : SocketOps t := {|
  sock_read := λ fd n, at_sock fd (λ s, ScriptSocket.read s n);
  sock_write := λ fd bs, at_sock fd (λ s, ScriptSocket.write s bs);
  sock_shutdown := λ fd _, at_sock fd (λ s, (IoOk (), s));
|}.
Definition of_sock {A} (f : ScriptSocket.t → A) (none : A) (w : t) (fd : Z) : A :=
  match socks w !! fd with Some s => f s | None => none end.
#[global] Instance laws : SocketLaws t.
Proof.
  refine {| sock_rx := of_sock ScriptSocket.got []; sock_tx := of_sock ScriptSocket.sent [];
            sock_pend := of_sock (λ s, length (ScriptSocket.inbox s)) 0%nat |}.
  - intros fd n [v m] Hn. cbn [sock_read sockets]. unfold at_sock, of_sock. cbn [socks base].
    destruct (m !! fd) as [s|] eqn:Es; [|cbn; by rewrite Es].
    pose proof (read_law s 0 n Hn) as H. cbn in H.
    destruct (ScriptSocket.read s n) as [[bs|[]] s'] eqn:Er; cbn; rewrite ?lookup_insert_eq; try exact H.
    subst s'. by rewrite insert_id.
  - intros fd bs [v m] Hn. cbn [sock_write sockets]. unfold at_sock, of_sock. cbn [socks base].
    destruct (m !! fd) as [s|] eqn:Es; [|cbn; by rewrite Es].
    pose proof (write_law s 0 bs Hn) as H. cbn in H.
    destruct (ScriptSocket.write s bs) as [[k|err] s'] eqn:Er; cbn; rewrite ?lookup_insert_eq; exact H.
Defined.
Lemma writes_apart fd fd' bs w : fd' ≠ fd → sock_tx (sock_write fd bs w).2 fd' = sock_tx w fd'.
Proof.
  intros Hne. destruct w as [v m]. cbn. unfold at_sock, of_sock. cbn [socks base].
  destruct (m !! fd) as [s|]; [|done]. destruct (ScriptSocket.write s bs) as [r s']. cbn. by rewrite lookup_insert_ne.
Qed.

Abbreviation SV := (Server ListBytes.t (Sessions t)).
Definition socket (inbox : list (list byte)) (got : list byte) (sent : list byte) (room : N) : ScriptSocket.t :=
  ScriptSocket.mk inbox got room sent [] 0.
Definition left_over : N := 1000 - N.of_nat (length RESPONSE).
Definition world (s7 s8 : ScriptSocket.t) : t :=
  mk (ServerDemo.mk (TableLibc.mk {[7%Z := mkFlags true true; 8%Z := mkFlags true true]} true) 0
    (ScriptSocket.mk [] [] 0 [] [] 0)) {[7%Z := s7; 8%Z := s8]}.
Definition asking : t := world (socket [request] [] [] 1000) (socket [request] [] [] 1000).
Definition asked : t := world (socket [] request [] 1000) (socket [] request [] 1000).
Definition answered : t := world (socket [] request RESPONSE left_over) (socket [] request RESPONSE left_over).

(** The connections 0 and 1 of the handlers 0 and 1. *)
Definition conn_of (fd s : N) : Conn ListBytes.t :=
  mkConnData (mkTcpStream (mkSysStream (Z.of_N fd)) (mkSelectorId 1)) (Some s) (Some s) (Some s)
    (TcpConnection_new fd).
Definition client (c fd : N) : Client := mkClient c c (conn_of fd c) (mkToken c) request.
Definition clients : list Client := [client 0 7; client 1 8].
Definition server : SV :=
  mkServer ServerDemo.listener true true true 0 {[0 := Some (conn_of 7 0); 1 := Some (conn_of 8 1)]}
    (mkSessions {[0 := mkTest (Some 0); 1 := mkTest (Some 1)]} true asking).
Definition watch (c : N) : JobEntry J := mkJobEntry (mkTokenEntry SocketEvent (mkToken c)) (ConnJob c) Ready.empty.
Definition kernel : ScriptEpoll.t := ScriptEpoll.mk {[7%Z := 7; 8%Z := 8]} [[(7%Z, EPOLLIN); (8%Z, EPOLLIN)]].
Definition quiet : ScriptEpoll.t := ScriptEpoll.mk {[7%Z := 7; 8%Z := 8]} [].
Definition events : list epoll_event := [mkEpollEvent EPOLLIN 7; mkEpollEvent EPOLLIN 8].
Definition both : Loop := HandoffDemo.loop {[7%Z := watch 0; 8%Z := watch 1]} kernel.
Definition run_timer (u : unit) (e : Loop * SV) : exec (unit * (Loop * SV)) := Done (tt, e).
Definition clock (s : SV) : Instant * SV := (mkInstant 0, s).

Lemma clients_idle : Forall (idle_client server) clients.
Proof.
  repeat constructor; try (vm_compute; reflexivity); try (exists [], []; by vm_compute); by exists [].
Qed.

Lemma clients_sole : Forall (λ x, sole_holder (closure_conns send_conns) (cl_conn x) (cl_fd x) both) clients.
Proof.
  assert (map_Forall (λ _ n, n_job n = NoJob) (contents (el_world both))) as Hn.
  { apply map_Forall_to_list. vm_compute. repeat constructor. }
  assert (∀ c, c = 0 ∨ c = 1 → sole_holder (closure_conns send_conns) c (Z.of_N (7 + c)) both) as H.
  { intros c Hc. split.
    - intros fd je Ej Hin. change (({[7%Z := watch 0; 8%Z := watch 1]} : gmap Z (JobEntry J)) !! fd = Some je) in Ej.
      apply lookup_insert_Some in Ej as [[<- <-]|[_ [<- <-]%lookup_singleton_Some]];
        apply list_elem_of_singleton in Hin as ->; reflexivity.
    - intros y n Ey. rewrite (Hn y n Ey). apply not_elem_of_nil. }
  repeat constructor; [by apply (H 0); left|by apply (H 0); left|by apply (H 1); right|by apply (H 1); right].
Qed.

Lemma clients_read : reads clients asking asked.
Proof.
  refine (reads_one _ _ _ (world (socket [] request [] 1000) (socket [request] [] [] 1000)) _ _ _ _
    (reads_one _ _ _ asked _ _ _ _ (reads_none _))).
  1, 4: by vm_compute.
  1, 3: intros b Hb; vm_compute in Hb; injection Hb as <-; by vm_compute.
  all: intros n _; by vm_compute.
Qed.
End TwoDemo.

Lemma requests_are_answered_witness :
  ∃ e1 e2,
    run_once NoJob SelectorDemo.grow (run_reply_job 4) drop_reply_job TwoDemo.run_timer TwoDemo.clock 4
      (λ _, from_millis 0) None (TwoDemo.both, TwoDemo.server) = Done (IoOk (), e1) ∧
    run_once NoJob SelectorDemo.grow (run_reply_job 4) drop_reply_job TwoDemo.run_timer TwoDemo.clock 4
      (λ _, from_millis 0) None e1 = Done (IoOk (), e2) ∧
    TwoDemo.socks (system (sv_world e2.2)) = TwoDemo.socks TwoDemo.answered ∧
    sv_conns e2.2 !! 0 = None ∧ sv_conns e2.2 !! 1 = None.
Proof.
  destruct (requests_are_answered SelectorDemo.grow TwoDemo.run_timer TwoDemo.clock 4 (λ _, from_millis 0)
    (λ _, from_millis 0) None None TwoDemo.both TwoDemo.server TwoDemo.clients TwoDemo.events TwoDemo.asked
    TwoDemo.answered TwoDemo.quiet TwoDemo.quiet (ScriptEpoll.mk ∅ []) 0 0)
    as (el1 & sv1 & el2 & sv2 & E1 & E2 & _ & Hs & Hc & _).
  - apply HandoffDemo.awake_world; vm_compute; reflexivity.
  - vm_compute. reflexivity.
  - discriminate.
  - cbn. lia.
  - cbn. lia.
  - exact TwoDemo.clients_idle.
  - repeat constructor; vm_compute; intros H; inversion H as [|? ? ? H']; inversion H'.
  - repeat constructor; vm_compute; intros H; inversion H as [|? ? ? H']; inversion H'.
  - exact TwoDemo.clients_sole.
  - apply (answer_events _ _ _ _ _ (-1)); vm_compute; reflexivity.
  - lia.
  - vm_compute. reflexivity.
  - exact TwoDemo.clients_read.
  - apply (answer_events _ _ _ _ _ 0); vm_compute; reflexivity.
  - lia.
  - eapply answers_one; [vm_compute; reflexivity..|]. eapply answers_one; [vm_compute; reflexivity..|].
    apply answers_none.
  - exact TwoDemo.writes_apart.
  - exists (el1, sv1), (el2, sv2). split; [exact E1|]. split; [exact E2|]. cbn [snd].
    split; [rewrite Hs; vm_compute; reflexivity|]. split; rewrite Hc; vm_compute; reflexivity.
Defined.
