(* ===== verification/RequestClient.v ===== *)
(** * The example client

    [src/examples/client.rs]: on each loop of a pool a job makes a [TcpClient]
    and connects it; its handler [TestClient] sends a request when the socket is
    connected, and drops what it receives.  It runs over the clients of [Client]
    and the closures of [Handoff].  The handlers have no state: one stands for
    all of them. *)
From Stdlib Require Import Strings.Byte Strings.String.
From S2P Require Import Prelude EventSet ReadinessState Duration LazyCell Awakener Selector.
From S2P Require Import ReadinessQueue Registration Interfaces Timer PollReadiness Poll Evented.
From S2P Require Import EventLoop Sys Tcp Net Socket Layers Connection Server Client Handoff.

(** The closures: the one of [main], which holds no connection, and the one
    [on_connect] hands to the loop. *)
Inductive RequestJob : Type :=
  | Connect
  | SendRequest (conn : N).
Definition request_conns (j : RequestJob) : list N :=
  match j with Connect => [] | SendRequest c => [c] end.

Definition REQUEST : list byte :=
  (text "GET /klsdjf HTTP/1.1" ++ crlf ++ text "Host: 0.0.0.0:90" ++ crlf ++
   text "User-Agent: curl/7.61.1" ++ crlf ++ text "Accept: */*" ++ crlf)%list.

Section RequestClient.
Context {P : Type} {PO : PipeOps P}.
Context {K : Type} {KO : EpollOps K}.
Context {slab : Type → Type} {SO : SlabOps slab} {T : Type} (connect_timeout : N → T).
Context {B : Type} {BO : BytesOps B}.
Context {V : Type} {LO : LibcOps V} {NO : NetOps V} {VO : SocketOps V} {SL : SocketLib V}.
#[local] Abbreviation UJ := (ClientJob (Closure RequestJob)).
#[local] Abbreviation J := (NetJob UJ).
#[local] Abbreviation EL := (EventLoop J P K slab T).
#[local] Abbreviation E := (EL * Server B (Dialers V))%type.
#[local] Abbreviation M := (stm E).

(** ** The methods of [TestClient] *)

Definition TestClient_attach_connection (s conn : N) : M unit := mret tt.
Definition TestClient_on_connect (s conn : N) : M unit :=
  enqueue_current OtherJob current_loop (Given (SendRequest conn)).
Definition TestClient_on_recv (s : N) (bytes : B) (e : E) : exec (B * E) :=
  bytes_advance bytes (bytes_len bytes) ≫= λ bytes, Done (bytes, e).
Definition TestClient_on_written (s : N) : M bool := mret true.
(** It logs. *)
Definition TestClient_on_error (s : N) : M unit := mret tt.

(** The methods of a server's handler are never called. *)
#[global] Instance TestClient_handler : HandlerOps UJ P K slab T B (Dialers V) := {|
  h_new := λ _, Panic PUnreachable;
  h_attach_connection := TestClient_attach_connection;
  h_on_accept := λ _ _, Panic PUnreachable;
  h_on_recv := TestClient_on_recv;
  h_on_written := TestClient_on_written;
  h_on_error := TestClient_on_error;
|}.

(** ** The jobs *)

Context (parse : list byte → option SocketAddr) (now : Instant).

Definition test_client : N := 0.
Definition run_request (j : RequestJob) (val : Z) : M unit :=
  match j with
  | Connect =>
      TcpClient_new ≫= λ k,
      start_connect connect_timeout parse k (text "127.0.0.1:90") test_client now
  | SendRequest conn => conn_send conn (bytes_from REQUEST) ≫= λ _, mret tt
  end.

Definition request_closure_conns : Closure RequestJob → list N := closure_conns request_conns.
Definition request_user_conns (j : UJ) : list N :=
  match j with ConnectorJob _ => [] | OtherJob j => request_closure_conns j end.
Definition drop_request_user (j : UJ) : M unit :=
  match j with ConnectorJob _ => mret tt | OtherJob j => drop_closure request_conns request_user_conns j end.

Definition run_request_job (verbose : bool) (fuel : nat) : J → Z → M unit :=
  run_net_job (run_client_job TestClient_on_connect verbose (run_closure run_request)) fuel.
Definition drop_request_job : J → M unit := drop_net_job request_user_conns drop_request_user.

(** [main], for one loop of the pool. *)
Definition client_main_loop : M unit := enqueue OtherJob (Given Connect).
End RequestClient.
