(* ===== verification/RequestClientProps.v ===== *)
(** * The example client: properties

    When the socket of the client is connected, its request goes out in the next
    pass of the loop, on a connection the loop keeps watching. *)
From Stdlib Require Import Strings.Byte Strings.String.
From S2P Require Import Prelude EventSet ReadinessState Duration LazyCell Awakener Selector.
From S2P Require Import ReadinessQueue Registration QueueInv QueueSpec RegistrationSpec HandleSpec QueueProps.
From S2P Require Import Interfaces Timer PollReadiness Poll PollProps Evented EventLoop EventLoopProps RunProps.
From S2P Require Import Sys Tcp Net Socket Layers Connection ConnectionProps Server ServerProps ServerTheorems.
From S2P Require Import ConnSteps Client ClientProps ClientTheorems Handoff HandoffProps RequestClient.

Section RequestClientProps.
Context (grow : N → N).
Context {P : Type} {PO : PipeOps P} {PL : PipeLaws P}.
Context {K : Type} {KO : EpollOps K} {KL : EpollLaws K}.
Context {slab : Type → Type} {SO : SlabOps slab} {T : Type} (connect_timeout : N → T).
Context {B : Type} {BO : BytesOps B} {BL : BytesLaws B}.
Context {V : Type} {LO : LibcOps V} {NO : NetOps V} {VO : SocketOps V} {VL : SocketLaws V} {SL : SocketLib V}.
#[local] Abbreviation UJ := (ClientJob (Closure RequestJob)).
#[local] Abbreviation EL := (EventLoop (NetJob UJ) P K slab T).
#[local] Abbreviation SV := (Server B (Dialers V)).
#[local] Abbreviation E := (EL * SV)%type.
Context (parse : list byte → option SocketAddr) (now : Instant).
Context (run_timer : T → stm E unit) (clock : SV → Instant * SV).
Implicit Types (e : E) (el : EL) (sv : SV) (cn : Conn B) (v : V).
#[local] Abbreviation run_request_job := (run_request_job connect_timeout parse now).
#[local] Abbreviation pass verbose fuel :=
  (run_once NoJob grow (run_request_job verbose fuel) drop_request_job run_timer clock fuel).

Lemma request_sent el sv c cn r v2 :
  live c test_client cn sv →
  sock_write (fd_of cn) REQUEST (dl_world (sv_world sv)) = (r, v2) → goes_on r →
  ∃ cn', run_request connect_timeout parse now (SendRequest c) 0 (el, sv) =
      Done (tt, (el, with_conns (<[c := Some cn']> (sv_conns sv))
        (with_sv_world (over dialers_layer v2 (sv_world sv)) sv))) ∧
    same_conn cn cn' ∧ closed (cn_fields cn') = false.
Proof using BL VL.
  intros Hl Hsw Hr. assert (bytes_data (bytes_from REQUEST : B) = REQUEST) as Hbuf by apply data_bytes_from.
  destruct (conn_send_kept c test_client cn sv el (bytes_from REQUEST) r (over dialers_layer v2 (sv_world sv)) Hl)
    as (cn' & Es & Hsc & _ & Hop & _); [by rewrite Hbuf| |exact Hr|done|].
  { rewrite Hbuf. cbn [sock_write dialers_sockets layer_sockets]. unfold through. cbn [under dialers_layer].
    by rewrite Hsw. }
  exists cn'. split; [|by split]. cbn [run_request].
  rewrite (stm_step _ _ _ _ _ Es). unfold put_conn, mret, stm_ret, with_conns, with_sv_world. cbn.
  by rewrite insert_insert_eq.
Qed.

(** C22 the example client sends its request: when the socket it connects
    becomes writable without an error, the event makes a connection of it and
    hands a job to the loop, and the next pass of the loop, if the kernel has
    nothing more, runs it without blocking: the request is written to the
    socket, once, the connection is open, and the loop watches the socket for
    it.  So the whole request goes out if that write takes it; what it does not
    take, or all of it when it would block, is lost, and the connection stays
    open.  (A write that fails closes the connection instead.) *)
Theorem request_is_sent verbose fuel elapsed t el sv (conr : N) stream res v r v2 (k1 k2 k' : K) n
    (fd := stream_inner (stream_sys stream)) :
  (1 < fuel)%nat → awake el fuel → (0 <= fd)%Z →
  dl_connectors (sv_world sv) !! conr = Some (Some (mkConnector None (Some stream) (Some test_client))) →
  current_loop (sv_world sv) = true →
  sid_id (stream_selector_id stream) = 0 ∨ sid_id (stream_selector_id stream) = sel_id (p_selector (el_poll el)) →
  std_take_error fd (dl_world (sv_world sv)) = (res, v) → (∀ err, res ≠ IoOk (Some err)) →
  rewatched (el, sv) fd k1 k2 →
  kernel_answer elapsed false 4096 0 zero_timeout k2 (IoOk []) k' n → (n < fuel)%nat →
  sock_write fd REQUEST v = (r, v2) → goes_on r →
  ∃ e1 el2 sv2 conn cn,
    connector_job TestClient_on_connect verbose conr (usize_as_i64 (ready_as_usize Ready.writable)) (el, sv) =
      Done (tt, e1) ∧
    pass verbose fuel elapsed t e1 = Done (IoOk (), (el2, sv2)) ∧
    dl_world (sv_world sv2) = v2 ∧ sock_tx v2 fd = sock_tx v fd ++ carried r REQUEST ∧
    (r = IoOk (N.of_nat (length REQUEST)) → sock_tx v2 fd = sock_tx v fd ++ REQUEST) ∧
    sv_conns sv !! conn = None ∧ sv_conns sv2 = <[conn := Some cn]> (sv_conns sv) ∧
    closed (cn_fields cn) = false ∧
    job <$> sel_map (p_selector (el_poll el2)) !! fd = Some (ConnJob conn).
Proof using PL KL BL VL.
  intros Hf Haw Hfd Hk Hcl Hid Hte Hno Hwt Hka Hn Hsw Hr.
  destruct (client_connects_ok TestClient_on_connect verbose conr stream test_client Ready.writable (el, sv) res v k1 k2)
    as (conn & e2 & el1 & cn & E1 & Hc & E2 & Hh & (Hq1 & Hq2 & Hq3) & Hk2 & Hm); try done.
  { intros c. eexists. by split. }
  injection E2 as <-. cbv zeta in *. cbn [fst snd] in *. unfold made in *. cbn [fst snd] in *.
  set (sv1 := with_conns (<[conn := Some cn]> (sv_conns sv)) _) in E1.
  assert (awake el1 fuel) as Haw1 by (unfold awake; by rewrite Hq1, Hq2, Hq3).
  set (cb := Given (SendRequest conn)).
  destruct (enqueue_awake OtherJob el1 fuel cb Haw1) as (el2 & Hto).
  set (sv2 := (put_connector conr (Some (mkConnector None None (Some test_client))) (el2, sv1)).2).
  destruct (handed_pass OtherJob request_conns request_user_conns grow (run_request_job verbose fuel) drop_request_job
    run_timer clock fuel elapsed t el1 sv2 el2 cb
    (run_request connect_timeout parse now (SendRequest conn) 0) k' n Haw1 Hto Hf)
    as (el3 & E3 & Hp); [by rewrite <- Hk2 in Hka|done..|]. pose proof (ps_node _ _ _ _ Hp) as Pn.
  assert (live conn test_client cn sv2) as Hl.
  { destruct Hh as [R1 R2 R3 R4 R5]. split; try done; rewrite ?R4, ?R5; try done.
    - apply lookup_insert_eq.
    - cbn. symmetry. by apply Z2N.id.
    - eexists _, _. split; [reflexivity|]. split; [apply data_with_capacity|].
      split; [reflexivity|apply data_with_capacity]. }
  assert (fd_of cn = fd) as Hfd1.
  { unfold fd_of. rewrite (hd_fields _ _ _ Hh). cbn. by apply Z2N.id. }
  destruct (request_sent el3 sv2 conn cn r v2 Hl) as (cn3 & E4 & Hsc & Hop); [by rewrite Hfd1|exact Hr|].
  set (sv3 := with_conns _ _) in E4.
  assert (watches el1 fd conn) as Hw by (unfold watches; unfold sel_of in Hm; cbn [fst] in Hm; by rewrite Hm, lookup_insert_eq).
  pose proof (watches_passed _ _ _ _ _ _ Hw Hp) as Hw3.
  destruct (drop_watched request_conns request_user_conns el3 sv3 (new_node el1) (SendRequest conn) Pn)
    as (el4 & E5 & Es).
  { repeat constructor; eexists; [apply lookup_insert_eq|exact Hw3]. }
  exists (el2, sv2), el4, sv3, conn, cn3. split.
  { rewrite E1. unfold TestClient_on_connect, enqueue_current. cbn [snd].
    change (current_loop (sv_world sv1)) with (current_loop (sv_world sv)). rewrite Hcl. cbn [assert mbind exec_bind].
    fold cb. rewrite (handed_to_enqueue OtherJob el1 el2 cb fuel sv1 Hto). reflexivity. }
  split; [by rewrite E3, (stm_step _ _ _ _ _ E4); unfold cb; rewrite (stm_step _ _ _ _ _ E5)|].
  split; [done|]. split; [by apply sent_some|]. split; [intros ->; by apply sent_all|].
  split; [exact Hc|]. split; [cbn; by rewrite insert_insert_eq|]. split; [done|]. unfold watches in Hw3. by rewrite Es.
Qed.
End RequestClientProps.
