(* ===== verification/Tunnel.v ===== *)
(** * The example tunnel

    [src/examples/tunnel.rs]: a server whose handler [TunnelServer] opens, for
    each connection it accepts, a [Tunnel] with a client of its own, whose
    handler [ServerSession] forwards what the other end sends; bytes that come
    before that client is connected wait in the read buffer of the accepted
    connection.  The handlers and the tunnels are [None] while their mutexes are
    locked.  The sessions are alive as long as the connector of their tunnel,
    whose job holds them, so that upgrading a weak reference to one succeeds;
    for a connection it does while the connection is there ([Handoff]). *)
From Stdlib Require Import Strings.Byte Strings.String.
From S2P Require Import Prelude EventSet ReadinessState Duration LazyCell Awakener Selector.
From S2P Require Import ReadinessQueue Registration Interfaces Timer PollReadiness Poll Evented.
From S2P Require Import EventLoop Sys Tcp Net Socket Layers Connection Server Client Handoff.

Record ServerSession := mkServerSession {
  ss_client_conn : option N;
  ss_server_conn : option N;
}.
Record Tunnel := mkTunnel {
  tn_addr : list byte;
  tn_client : N;
  tn_server_session : option N;
  tn_client_conn : option N;
}.
Record TunnelServer := mkTunnelServer {
  ts_client_conn : option N;
  ts_tunnel : option N;
}.

(** The trait objects of handlers. *)
Inductive Session : Type :=
  | AServerSession (x : ServerSession)
  | ATunnelServer (x : TunnelServer).

(** The handlers and tunnels, and the system. *)
Record Tunnels (V : Type) := mkTunnels {
  sessions : gmap N (option Session);
  tunnels : gmap N (option Tunnel);
  tn_system : V;
}.
Arguments mkTunnels {V} _ _ _.
Arguments sessions {V} _.
Arguments tunnels {V} _.
Arguments tn_system {V} _.

Definition tunnels_layer {V} : Layer (Tunnels V) V :=
  mkLayer tn_system (λ v t, mkTunnels (sessions t) (tunnels t) v).
#[global] Instance tunnels_libc `{LibcOps V} : LibcOps (Tunnels V) := layer_libc tunnels_layer.
#[global] Instance tunnels_net `{NetOps V} : NetOps (Tunnels V) := layer_net tunnels_layer.
#[global] Instance tunnels_sockets `{SocketOps V} : SocketOps (Tunnels V) := layer_sockets tunnels_layer.
#[global] Instance tunnels_lib `{SocketLib V} : SocketLib (Tunnels V) := layer_lib tunnels_layer.

(** The closures handed to the loop: the one of [ServerSession::on_connect],
    which holds both connections, of [ServerSession::on_error], of
    [TunnelServer::on_recv], with the bytes, and of [TunnelServer::on_error]. *)
Inductive TunnelJob (B : Type) : Type :=
  | Flush (new_conn cs : N)
  | ShutClient (cs : N)
  | Forward (ss : N) (bytes : B)
  | ShutServer (ss : N).
Arguments Flush {B} new_conn cs.
Arguments ShutClient {B} cs.
Arguments Forward {B} ss bytes.
Arguments ShutServer {B} ss.
Definition tunnel_conns {B} (j : TunnelJob B) : list N :=
  match j with
  | Flush new_conn cs => [new_conn; cs]
  | ShutClient cs => [cs]
  | Forward ss _ => [ss]
  | ShutServer ss => [ss]
  end.

Section TunnelWorld.
Context {P : Type} {PO : PipeOps P}.
Context {K : Type} {KO : EpollOps K}.
Context {slab : Type → Type} {SO : SlabOps slab} {T : Type} (connect_timeout : N → T).
Context {B : Type} {BO : BytesOps B}.
Context {V : Type} {LO : LibcOps V} {NO : NetOps V} {VO : SocketOps V} {SL : SocketLib V}.
Context (parse : list byte → option SocketAddr) (now : Instant).
#[local] Abbreviation UJ := (ClientJob (Closure (TunnelJob B))).
#[local] Abbreviation J := (NetJob UJ).
#[local] Abbreviation EL := (EventLoop J P K slab T).
#[local] Abbreviation W := (Dialers (Tunnels V)).
#[local] Abbreviation E := (EL * Server B W)%type.
#[local] Abbreviation M := (stm E).

(** ** Handlers and tunnels, and their mutexes *)

Definition tunnels_of (e : E) : Tunnels V := dl_world (sv_world e.2).
Definition with_tunnels (t : Tunnels V) (e : E) : E := (e.1, with_sv_world (over dialers_layer t (sv_world e.2)) e.2).

Definition put_session (s : N) (o : option Session) (e : E) : E :=
  with_tunnels (mkTunnels (<[s := o]> (sessions (tunnels_of e))) (tunnels (tunnels_of e))
    (tn_system (tunnels_of e))) e.
Definition lock_session (s : N) : M Session := λ e,
  match sessions (tunnels_of e) !! s with
  | Some (Some x) => Done (x, put_session s None e)
  | Some None => Panic PDeadlock
  | None => Panic PUnreachable
  end.
Definition unlock_session (s : N) (x : Session) : M unit := modify (put_session s (Some x)).
Definition new_session (x : Session) : M N := λ e,
  let s := fresh (dom (sessions (tunnels_of e))) in Done (s, put_session s (Some x) e).

Definition put_tunnel (t : N) (o : option Tunnel) (e : E) : E :=
  with_tunnels (mkTunnels (sessions (tunnels_of e)) (<[t := o]> (tunnels (tunnels_of e)))
    (tn_system (tunnels_of e))) e.
Definition lock_tunnel (t : N) : M Tunnel := λ e,
  match tunnels (tunnels_of e) !! t with
  | Some (Some x) => Done (x, put_tunnel t None e)
  | Some None => Panic PDeadlock
  | None => Panic PUnreachable
  end.
Definition unlock_tunnel (t : N) (x : Tunnel) : M unit := modify (put_tunnel t (Some x)).
Definition new_tunnel (x : Tunnel) : M N := λ e,
  let t := fresh (dom (tunnels (tunnels_of e))) in Done (t, put_tunnel t (Some x) e).

Definition hand (j : TunnelJob B) : M unit := enqueue_current OtherJob current_loop (Given j).

(** ** [ServerSession] *)

Definition ServerSession_new (conn : N) : ServerSession := mkServerSession (Some conn) None.
Definition ServerSession_get_client_conn (x : ServerSession) : M (option N) := upgrade (ss_client_conn x).
Definition ServerSession_get_server_conn (x : ServerSession) : M (option N) := upgrade (ss_server_conn x).
Definition ServerSession_attach_connection (x : ServerSession) (conn : N) : ServerSession :=
  mkServerSession (ss_client_conn x) (Some conn).

Definition pending_error (cn : Conn B) : M (io_result (option io_error)) := λ e,
  Done (on_world (TcpStream_take_error (cn_stream cn)) e).
Definition ServerSession_on_connect (x : ServerSession) (new_conn : N) : M unit :=
  lock_conn new_conn ≫= λ cn, pending_error cn ≫= λ res, unlock_conn new_conn cn ≫= λ _,
  match res with
  | IoOk (Some _) => mret tt
  | _ =>
      ServerSession_get_client_conn x ≫= λ cs,
      match cs with
      | Some cs => hand (Flush new_conn cs)
      | None => mret tt
      end
  end.
Definition ServerSession_on_written (x : ServerSession) : bool := true.
Definition ServerSession_on_error (x : ServerSession) : M unit :=
  ServerSession_get_client_conn x ≫= λ cs,
  match cs with
  | Some cs => hand (ShutClient cs)
  | None => mret tt
  end.

(** ** [Tunnel] *)

Definition Tunnel_new (addr : list byte) (client_conn : N) : M Tunnel :=
  TcpClient_new ≫= λ client, mret (mkTunnel addr client None (Some client_conn)).
Definition Tunnel_get_client_conn (x : Tunnel) : M (option N) := upgrade (tn_client_conn x).
Definition Tunnel_connect (x : Tunnel) : M Tunnel :=
  Tunnel_get_client_conn x ≫= λ cs,
  match cs with
  | Some cs =>
      new_session (AServerSession (ServerSession_new cs)) ≫= λ session,
      start_connect connect_timeout parse (tn_client x) (tn_addr x) session now ≫= λ _,
      mret (mkTunnel (tn_addr x) (tn_client x) (Some session) (tn_client_conn x))
  | None => mret x
  end.
Definition Tunnel_get_server_session (x : Tunnel) : option N := tn_server_session x.
Definition Tunnel_get_server_conn (x : Tunnel) : M (option N) :=
  match Tunnel_get_server_session x with
  | Some s =>
      lock_session s ≫= λ y,
      match y with
      | AServerSession y =>
          ServerSession_get_server_conn y ≫= λ r, unlock_session s (AServerSession y) ≫= λ _, mret r
      | ATunnelServer _ => lift (Panic PUnreachable)
      end
  | None => mret None
  end.

(** ** [TunnelServer] *)

Definition TunnelServer_new : TunnelServer := mkTunnelServer None None.
Definition TunnelServer_get_client_conn (x : TunnelServer) : M (option N) := upgrade (ts_client_conn x).
Definition TunnelServer_get_server_conn (x : TunnelServer) : M (option N) :=
  match ts_tunnel x with
  | Some t =>
      lock_tunnel t ≫= λ tn, Tunnel_get_server_conn tn ≫= λ r, unlock_tunnel t tn ≫= λ _, mret r
  | None => mret None
  end.
Definition TunnelServer_attach_connection (x : TunnelServer) (conn : N) : TunnelServer :=
  mkTunnelServer (Some conn) (ts_tunnel x).
Definition TunnelServer_free_connection (x : TunnelServer) : TunnelServer := mkTunnelServer None (ts_tunnel x).
Definition TunnelServer_on_accept (x : TunnelServer) : M TunnelServer :=
  TunnelServer_get_client_conn x ≫= λ cc,
  match cc with
  | Some cc =>
      (λ e, assert (current_loop (sv_world e.2)) ≫= λ _, Done (tt, e)) ≫= λ _,
      Tunnel_new (text "127.0.0.1:80") cc ≫= λ tn, new_tunnel tn ≫= λ t,
      lock_tunnel t ≫= λ tn, Tunnel_connect tn ≫= λ tn, unlock_tunnel t tn ≫= λ _,
      mret (mkTunnelServer (ts_client_conn x) (Some t))
  | None => mret x
  end.
Definition TunnelServer_on_recv (x : TunnelServer) (bytes : B) : M B :=
  if bytes_len bytes <=? 0 then mret bytes
  else
    TunnelServer_get_server_conn x ≫= λ ss,
    match ss with
    | Some ss =>
        (λ e, assert (current_loop (sv_world e.2)) ≫= λ _, Done (tt, e)) ≫= λ _,
        lift (bytes_advance bytes (bytes_len bytes)) ≫= λ rest,
        hand (Forward ss bytes) ≫= λ _, mret rest
    | None => mret bytes
    end.
Definition TunnelServer_on_written (x : TunnelServer) : bool := true.
Definition TunnelServer_on_error (x : TunnelServer) : M TunnelServer :=
  let x := TunnelServer_free_connection x in
  TunnelServer_get_server_conn x ≫= λ ss,
  match ss with
  | Some ss => hand (ShutServer ss) ≫= λ _, mret x
  | None => mret x
  end.

(** ** The methods of a handler, under its lock *)

Definition on_session {A} (s : N) (f : Session → M (A * Session)) : M A :=
  lock_session s ≫= λ x, f x ≫= λ '(a, x), unlock_session s x ≫= λ _, mret a.

Definition session_attach (s conn : N) : M unit := on_session s (λ x, mret (tt,
  match x with
  | AServerSession x => AServerSession (ServerSession_attach_connection x conn)
  | ATunnelServer x => ATunnelServer (TunnelServer_attach_connection x conn)
  end)).
Definition session_on_accept (s : N) : M unit := on_session s (λ x,
  match x with
  | ATunnelServer x => TunnelServer_on_accept x ≫= λ x, mret (tt, ATunnelServer x)
  | AServerSession _ => lift (Panic PUnreachable)
  end).
Definition session_on_connect (s conn : N) : M unit := on_session s (λ x,
  match x with
  | AServerSession x => ServerSession_on_connect x conn ≫= λ _, mret (tt, AServerSession x)
  | ATunnelServer _ => lift (Panic PUnreachable)
  end).
Definition session_on_written (s : N) : M bool := on_session s (λ x, mret (
  match x with
  | AServerSession x => ServerSession_on_written x
  | ATunnelServer x => TunnelServer_on_written x
  end, x)).
Definition session_on_error (s : N) : M unit := on_session s (λ x,
  match x with
  | AServerSession x => ServerSession_on_error x ≫= λ _, mret (tt, AServerSession x)
  | ATunnelServer x => TunnelServer_on_error x ≫= λ x, mret (tt, ATunnelServer x)
  end).

(** [send] calls [on_written] and [on_error] only (see [send_calls]), of handlers
    that receive nothing then; [ServerSession::on_recv] calls it. *)
Definition sending : HandlerOps UJ P K slab T B W := {|
  h_new := new_session (ATunnelServer TunnelServer_new);
  h_attach_connection := session_attach;
  h_on_accept := session_on_accept;
  h_on_recv := λ _ _ _, Panic PUnreachable;
  h_on_written := session_on_written;
  h_on_error := session_on_error;
|}.

Definition ServerSession_on_recv (x : ServerSession) (bytes : B) : M B :=
  ServerSession_get_client_conn x ≫= λ cs,
  match cs with
  | Some cs =>
      if 0 <? bytes_len bytes then
        conn_send (HO := sending) cs bytes ≫= λ _,
        lift (bytes_advance bytes (bytes_len bytes))
      else mret bytes
  | None => mret bytes
  end.

Definition session_on_recv (s : N) (bytes : B) : M B := on_session s (λ x,
  match x with
  | AServerSession x => ServerSession_on_recv x bytes ≫= λ bytes, mret (bytes, AServerSession x)
  | ATunnelServer x => TunnelServer_on_recv x bytes ≫= λ bytes, mret (bytes, ATunnelServer x)
  end).

#[global] Instance tunnel_handler : HandlerOps UJ P K slab T B W := {|
  h_new := new_session (ATunnelServer TunnelServer_new);
  h_attach_connection := session_attach;
  h_on_accept := session_on_accept;
  h_on_recv := session_on_recv;
  h_on_written := session_on_written;
  h_on_error := session_on_error;
|}.

(** ** The jobs *)

(** The job of [on_connect]: what the client sent so far, with both connections
    locked. *)
Definition flush (new_conn cs : N) : M unit :=
  conn_call new_conn (λ ss e,
    lock_conn cs e ≫= λ '(cn, e),
    unwrap PUnwrap (read_buffer (cn_fields cn)) ≫= λ bytes,
    if 0 <? bytes_len bytes then
      send ss bytes e ≫= λ '(_, ss, e),
      bytes_advance bytes (bytes_len bytes) ≫= λ rest,
      Done (tt, ss, put_conn cs (Some (with_fields (with_read_buffer (Some rest) (cn_fields cn)) cn)) e)
    else Done (tt, ss, put_conn cs (Some cn) e)).

Definition run_tunnel (j : TunnelJob B) (val : Z) : M unit :=
  match j with
  | Flush new_conn cs => flush new_conn cs
  | ShutClient cs =>
      conn_shutdown cs ShutWrite ≫= λ r,
      match r with IoOk _ => mret tt | IoErr _ => lift (Panic PUnwrap) end
  | Forward ss bytes => conn_send ss bytes ≫= λ _, mret tt
  | ShutServer ss => conn_shutdown ss ShutWrite ≫= λ _, mret tt
  end.

Definition tunnel_closure_conns : Closure (TunnelJob B) → list N := closure_conns tunnel_conns.
Definition tunnel_user_conns (j : UJ) : list N :=
  match j with ConnectorJob _ => [] | OtherJob j => tunnel_closure_conns j end.
Definition drop_tunnel_user (j : UJ) : M unit :=
  match j with ConnectorJob _ => mret tt | OtherJob j => drop_closure tunnel_conns tunnel_user_conns j end.

Definition run_tunnel_job (verbose : bool) (fuel : nat) : J → Z → M unit :=
  run_net_job (run_client_job session_on_connect verbose (run_closure run_tunnel)) fuel.
Definition drop_tunnel_job : J → M unit := drop_net_job tunnel_user_conns drop_tunnel_user.

(** [main], for one loop. *)
Definition tunnel_main_loop (token_id : N) (el : EL) (w : W) : exec (unit * E) :=
  TcpServer_new parse (text "0.0.0.0:9528") token_id w ≫= λ sv,
  (TcpServer_start ≫= λ _, start_internal) (el, sv).
End TunnelWorld.
