(* ===== verification/TunnelProps.v ===== *)
(** * The example tunnel: properties

    What either end sends reaches the other, also what the client sent before
    the tunnel was connected; but a write to the client that fails while the
    other end is being forwarded deadlocks the loop. *)
From Stdlib Require Import Strings.Byte Strings.String.
From S2P Require Import Prelude EventSet ReadinessState Duration LazyCell Awakener Selector.
From S2P Require Import ReadinessQueue Registration QueueInv QueueSpec RegistrationSpec HandleSpec QueueProps.
From S2P Require Import Interfaces Timer PollReadiness Poll PollProps Evented EventLoop EventLoopProps RunProps.
From S2P Require Import Sys Tcp Net Socket Layers Connection ConnectionProps Server ServerProps ConnSteps.
From S2P Require Import Client ClientProps Handoff HandoffProps Tunnel.

#[export] Instance tunnels_layer_laws {V} : LayerLaws (tunnels_layer (V:=V)).
Proof. split; [done|by intros []|done]. Qed.
#[export] Instance tunnels_laws `{SocketLaws V} : SocketLaws (Tunnels V) := layer_laws tunnels_layer.

Section TunnelProps.
Context (grow : N → N).
Context {P : Type} {PO : PipeOps P} {PL : PipeLaws P}.
Context {K : Type} {KO : EpollOps K} {KL : EpollLaws K}.
Context {slab : Type → Type} {SO : SlabOps slab} {T : Type} (connect_timeout : N → T).
Context {B : Type} {BO : BytesOps B} {BL : BytesLaws B}.
Context {V : Type} {LO : LibcOps V} {NO : NetOps V} {VO : SocketOps V} {VL : SocketLaws V} {SL : SocketLib V}.
Context (parse : list byte → option SocketAddr) (now : Instant).
#[local] Abbreviation UJ := (ClientJob (Closure (TunnelJob B))).
#[local] Abbreviation EL := (EventLoop (NetJob UJ) P K slab T).
#[local] Abbreviation W := (Dialers (Tunnels V)).
#[local] Abbreviation SV := (Server B W).
#[local] Abbreviation E := (EL * SV)%type.
Implicit Types (e : E) (el : EL) (sv : SV) (cn dn : Conn B) (c d s t u : N) (v : V).
#[local] Existing Instance tunnel_handler.
#[local] Instance handler : HandlerOps UJ P K slab T B W := tunnel_handler connect_timeout parse now.

(** The system of a world changed. *)
Definition with_system v sv : SV :=
  with_sv_world (over dialers_layer (over tunnels_layer v (dl_world (sv_world sv))) (sv_world sv)) sv.
Definition system sv : V := tn_system (dl_world (sv_world sv)).

Lemma sock_read_system fd n sv v r :
  sock_read fd n (system sv) = (r, v) → sock_read fd n (sv_world sv) = (r, sv_world (with_system v sv)).
Proof.
  intros H. cbn. unfold through. cbn. unfold through. cbn. unfold system in H. by rewrite H.
Qed.
Lemma sock_write_system fd bs sv v r :
  sock_write fd bs (system sv) = (r, v) → sock_write fd bs (sv_world sv) = (r, sv_world (with_system v sv)).
Proof.
  intros H. cbn. unfold through. cbn. unfold through. cbn. unfold system in H. by rewrite H.
Qed.

(** ** Handlers and their mutexes *)

Lemma put_session_lookup s o e : sessions (tunnels_of (put_session s o e)) !! s = Some o.
Proof. apply lookup_insert_eq. Qed.
Lemma put_session_lookup_ne s s' o e :
  s ≠ s' → sessions (tunnels_of (put_session s o e)) !! s' = sessions (tunnels_of e) !! s'.
Proof. apply lookup_insert_ne. Qed.
Lemma put_session_id s o e : sessions (tunnels_of e) !! s = Some o → put_session s o e = e.
Proof.
  destruct e as [el [l b1 b2 b3 id m [dm cl [ss tt v]]]]. intros H. unfold put_session, with_tunnels, tunnels_of in *.
  cbn in *. unfold with_sv_world. cbn. by rewrite insert_id.
Qed.
Lemma put_session_put s o o' e : put_session s o' (put_session s o e) = put_session s o' e.
Proof. unfold put_session, with_tunnels, with_sv_world. cbn. by rewrite insert_insert_eq. Qed.
Lemma put_tunnel_back t o e : tunnels (tunnels_of e) !! t = Some o → put_tunnel t o (put_tunnel t None e) = e.
Proof.
  destruct e as [el [l b1 b2 b3 id m [dm cl [ss tt v]]]]. intros H. unfold put_tunnel, with_tunnels, tunnels_of in *.
  cbn in *. unfold with_sv_world. cbn. by rewrite insert_insert_eq, insert_id.
Qed.
Lemma lock_session_ok s x e :
  sessions (tunnels_of e) !! s = Some (Some x) → lock_session s e = Done (x, put_session s None e).
Proof. intros H. unfold lock_session. by rewrite H. Qed.
Lemma upgrade_ok c o e : sv_conns e.2 !! c = Some o → upgrade (Some c) e = Done (Some c, e).
Proof. intros H. unfold upgrade. cbn. by rewrite H. Qed.

(** A method of a handler that leaves the handler and the others as they were. *)
Lemma on_session_ok {A} s x e (f : Session → stm E (A * Session)) a e1 :
  sessions (tunnels_of e) !! s = Some (Some x) →
  f x (put_session s None e) = Done (a, x, put_session s None e1) →
  sessions (tunnels_of e1) !! s = Some (Some x) →
  on_session s f e = Done (a, e1).
Proof.
  intros Hs Hf H1. unfold on_session. rewrite (stm_step _ _ _ _ _ (lock_session_ok s x e Hs)).
  rewrite (stm_step _ _ _ _ _ Hf). unfold mbind, stm_bind, unlock_session, modify, mret, stm_ret.
  by rewrite put_session_put, put_session_id.
Qed.

(** ** A tunnel *)

(** The connection [c] of the server [s], whose tunnel [t] has the session [u];
    and the other connection of that session, if it has one. *)
Record tunnelled c s t u (od : option N) sv : Prop := {
  tu_server : sessions (dl_world (sv_world sv)) !! s = Some (Some (ATunnelServer (mkTunnelServer (Some c) (Some t))));
  tu_tunnel : ∃ tn, tunnels (dl_world (sv_world sv)) !! t = Some (Some tn) ∧ tn_server_session tn = Some u;
  tu_session : sessions (dl_world (sv_world sv)) !! u = Some (Some (AServerSession (mkServerSession (Some c) od)));
}.

Lemma tunnelled_ne c s t u od sv : tunnelled c s t u od sv → s ≠ u.
Proof. intros [H1 _ H2] ->. congruence. Qed.

Lemma tunnelled_same c s t u od sv sv' :
  tunnelled c s t u od sv → sessions (dl_world (sv_world sv')) = sessions (dl_world (sv_world sv)) →
  tunnels (dl_world (sv_world sv')) = tunnels (dl_world (sv_world sv)) → tunnelled c s t u od sv'.
Proof. intros [H1 H2 H3] Es Et. split; by rewrite ?Es, ?Et. Qed.

(** Looking for the other connection takes and releases the locks of the tunnel
    and of its session. *)
Lemma get_server_conn_ok c s t u od sv el x :
  tunnelled c s t u od sv → ts_tunnel x = Some t →
  (∀ d, od = Some d → ∃ oc, sv_conns sv !! d = Some oc) →
  TunnelServer_get_server_conn x (put_session s None (el, sv)) = Done (od, put_session s None (el, sv)).
Proof.
  intros Ht Hx Hd. pose proof (tunnelled_ne _ _ _ _ _ _ Ht) as Hne. destruct Ht as [H1 (tn & Htn & Hu) H3].
  unfold TunnelServer_get_server_conn. rewrite Hx. set (e := put_session s None (el, sv)).
  assert (tunnels (tunnels_of e) !! t = Some (Some tn)) as He by exact Htn.
  assert (lock_tunnel t e = Done (tn, put_tunnel t None e)) as El by (unfold lock_tunnel; by rewrite He).
  rewrite (stm_step _ _ _ _ _ El). set (e1 := put_tunnel t None e).
  assert (Tunnel_get_server_conn tn e1 = Done (od, e1)) as Eg.
  { unfold Tunnel_get_server_conn, Tunnel_get_server_session. rewrite Hu.
    assert (sessions (tunnels_of e1) !! u = Some (Some (AServerSession (mkServerSession (Some c) od)))) as Hu1
      by (change (sessions (tunnels_of e1)) with (sessions (tunnels_of e)); unfold e; by rewrite put_session_lookup_ne).
    rewrite (stm_step _ _ _ _ _ (lock_session_ok u _ e1 Hu1)). unfold ServerSession_get_server_conn. cbn [ss_server_conn].
    assert (upgrade od (put_session u None e1) = Done (od, put_session u None e1)) as Eu.
    { destruct od as [d|]; [|done]. destruct (Hd d eq_refl) as (oc & Hoc). by apply (upgrade_ok d oc). }
    rewrite (stm_step _ _ _ _ _ Eu). unfold mbind, stm_bind, unlock_session, modify, mret, stm_ret.
    by rewrite put_session_put, put_session_id. }
  rewrite (stm_step _ _ _ _ _ Eg). unfold mbind, stm_bind, unlock_tunnel, modify, mret, stm_ret.
  unfold e1. by rewrite put_tunnel_back.
Qed.

(** ** What the client sends *)

Lemma hand_ok el el' sv j fuel :
  current_loop (sv_world sv) = true → handed_to OtherJob el el' (Given j) fuel →
  hand j (el, sv) = Done (tt, (el', sv)).
Proof.
  intros Hl Hh. unfold hand, enqueue_current. cbn [snd]. rewrite Hl. cbn [assert mbind exec_bind].
  by rewrite (handed_to_enqueue OtherJob el el' (Given j) fuel sv Hh).
Qed.

Lemma server_receives c s t u d sv el el' (bytes : B) o fuel :
  tunnelled c s t u (Some d) sv → sv_conns sv !! d = Some o → current_loop (sv_world sv) = true →
  bytes_data bytes ≠ [] → handed_to OtherJob el el' (Given (Forward d bytes)) fuel →
  ∃ rest, h_on_recv s bytes (el, sv) = Done (rest, (el', sv)) ∧ bytes_data rest = [].
Proof using BL.
  intros Ht Hd Hl Hne Hh. destruct (data_advance bytes (bytes_len bytes)) as (rest & Ea & Er); [apply N.le_refl|].
  exists rest. split; [|rewrite Er; unfold bytes_len; rewrite Nat2N.id; apply drop_all].
  pose proof (tu_server _ _ _ _ _ _ Ht) as Hs. set (x := mkTunnelServer (Some c) (Some t)) in Hs.
  cbn [h_on_recv handler tunnel_handler]. unfold session_on_recv.
  apply (on_session_ok s (ATunnelServer x)); [exact Hs| |exact Hs]. unfold TunnelServer_on_recv.
  destruct (N.leb_spec (bytes_len bytes) 0) as [H|_]; [pose proof (bytes_len_pos bytes Hne); lia|].
  pose proof (get_server_conn_ok c s t u (Some d) sv el x Ht eq_refl) as Eg.
  specialize (Eg ltac:(intros d0 [= <-]; by exists o)).
  assert ((TunnelServer_get_server_conn x ≫= λ ss,
    match ss with
    | Some ss => (λ e : E, assert (current_loop (sv_world e.2)) ≫= λ _, Done (tt, e)) ≫= λ _,
        lift (bytes_advance bytes (bytes_len bytes)) ≫= λ rest, hand (Forward ss bytes) ≫= λ _, mret rest
    | None => mret bytes
    end : stm E B) (put_session s None (el, sv)) = Done (rest, put_session s None (el', sv))) as Eb.
  { rewrite (stm_step _ _ _ _ _ Eg). set (sv0 := (put_session s None (el, sv)).2).
    change (put_session s None (el, sv)) with (el, sv0). change (put_session s None (el', sv)) with (el', sv0).
    assert (current_loop (sv_world sv0) = true) as Hl0 by exact Hl.
    rewrite (stm_step _ _ (el, sv0) tt (el, sv0)) by (cbn; by rewrite Hl).
    rewrite (stm_step _ _ (el, sv0) rest (el, sv0)) by (unfold lift; by rewrite Ea).
    by rewrite (stm_step _ _ _ _ _ (hand_ok el el' sv0 (Forward d bytes) fuel Hl0 Hh)). }
  by rewrite (stm_step _ _ _ _ _ Eb).
Qed.

(** Without the other connection the bytes stay where they are. *)
Lemma server_keeps c s t u sv el (bytes : B) :
  tunnelled c s t u None sv → h_on_recv s bytes (el, sv) = Done (bytes, (el, sv)).
Proof.
  intros Ht. pose proof (tu_server _ _ _ _ _ _ Ht) as Hs. set (x := mkTunnelServer (Some c) (Some t)) in Hs.
  cbn [h_on_recv handler tunnel_handler]. unfold session_on_recv.
  apply (on_session_ok s (ATunnelServer x)); [exact Hs| |exact Hs]. unfold TunnelServer_on_recv.
  destruct (bytes_len bytes <=? 0); [done|].
  pose proof (get_server_conn_ok c s t u None sv el x Ht eq_refl ltac:(done)) as Eg.
  unfold mbind at 1, stm_bind. unfold mbind at 1, stm_bind. by rewrite Eg.
Qed.

(** [on_written] of either handler. *)
Lemma written_ok s x e : sessions (tunnels_of e) !! s = Some (Some x) → h_on_written s e = Done (true, e).
Proof.
  intros Hs. cbn [h_on_written handler tunnel_handler]. unfold session_on_written.
  apply (on_session_ok s x); [exact Hs| |exact Hs]. by destruct x.
Qed.

Context (run_timer : T → stm E unit) (clock : SV → Instant * SV).
#[local] Abbreviation run_tunnel_job := (run_tunnel_job connect_timeout parse now).
#[local] Abbreviation pass verbose fuel :=
  (run_once NoJob grow (run_tunnel_job verbose fuel) drop_tunnel_job run_timer clock fuel).
(** The job of [on_recv]. *)
Lemma forward_ok el sv d u x dn (bytes : B) r v2 :
  live d u dn sv → sessions (dl_world (sv_world sv)) !! u = Some (Some x) → bytes_data bytes ≠ [] →
  sock_write (fd_of dn) (bytes_data bytes) (system sv) = (r, v2) → goes_on r →
  ∃ dn', run_tunnel connect_timeout parse now (Forward d bytes) 0 (el, sv) =
      Done (tt, (el, with_conns (<[d := Some dn']> (sv_conns sv)) (with_system v2 sv))) ∧
    same_conn dn dn' ∧ live d u dn' (with_conns (<[d := Some dn']> (sv_conns sv)) (with_system v2 sv)).
Proof using BL VL.
  intros Hl Hu Hne Hsw Hr.
  destruct (conn_send_kept d u dn sv el bytes r _ Hl Hne (sock_write_system _ _ _ _ _ Hsw) Hr)
    as (dn' & Es & Hsc & _ & Hop & Hen & Hwr); [by apply (written_ok u x)|].
  exists dn'. split; [|split; [exact Hsc|]].
  - cbn [run_tunnel]. rewrite (stm_step _ _ _ _ _ Es). unfold put_conn, mret, stm_ret, with_conns, with_system, with_sv_world.
    cbn. by rewrite insert_insert_eq.
  - eapply live_changed; [exact Hl|exact Hsc|apply lookup_insert_eq|done..].
Qed.

(** C19 a tunnel forwards what its client sends: when a read of the client's
    socket finds bytes and the next would block, its event hands a job to the
    loop; the next pass, if the kernel has nothing more, runs the job without
    blocking: what the read buffer still held and then the new bytes are written
    to the other socket, once, behind what was sent before; the buffer is empty,
    and both connections and the tunnel are as before.  So everything arrives
    if that write takes it; what it does not take, or all of it when it would
    block, is lost.  (A write that fails closes the connection instead.) *)
Theorem tunnel_forwards verbose fuel elapsed tm el sv c d s t u cn dn b bs v1 r v2 (k' : K) n :
  (1 < fuel)%nat → awake el fuel → current_loop (sv_world sv) = true → c ≠ d →
  live c s cn sv → live d u dn sv → watches el (fd_of dn) d → tunnelled c s t u (Some d) sv →
  read_buffer (cn_fields cn) = Some b → bs ≠ [] →
  sock_read (fd_of cn) (bytes_chunk_mut b).1 (system sv) = (IoOk bs, v1) →
  (∀ n, 0 < n → sock_read (fd_of cn) n v1 = (IoErr WouldBlock, v1)) →
  kernel_answer elapsed false 4096 0 zero_timeout (sel_kernel (p_selector (el_poll el))) (IoOk []) k' n →
  (n < fuel)%nat →
  sock_write (fd_of dn) (bytes_data b ++ bs) v1 = (r, v2) → goes_on r →
  ∃ e1 el2 sv2 cn2 dn2,
    conn_event fuel c (usize_as_i64 (ready_as_usize Ready.readable)) (el, sv) = Done (tt, e1) ∧
    pass verbose fuel elapsed tm e1 = Done (IoOk (), (el2, sv2)) ∧
    system sv2 = v2 ∧ sock_tx v2 (fd_of dn) = sock_tx v1 (fd_of dn) ++ carried r (bytes_data b ++ bs) ∧
    (r = IoOk (N.of_nat (length (bytes_data b ++ bs))) →
     sock_tx v2 (fd_of dn) = sock_tx v1 (fd_of dn) ++ bytes_data b ++ bs) ∧
    sv_conns sv2 = <[d := Some dn2]> (<[c := Some cn2]> (sv_conns sv)) ∧
    (∃ b2, read_buffer (cn_fields cn2) = Some b2 ∧ bytes_data b2 = []) ∧
    live c s cn2 sv2 ∧ live d u dn2 sv2 ∧ tunnelled c s t u (Some d) sv2.
Proof using PL KL BL VL.
  intros Hf Haw Hcl Hcd Hlc Hld Hwd Ht Hb Hbs H1 H2 Hk Hn Hsw Hr.
  destruct (data_chunk_mut b) as [_ Hdb]. set (bytes := bytes_fill (bytes_chunk_mut b).2 bs).
  assert (bytes_data bytes = bytes_data b ++ bs) as Hbytes by (unfold bytes; by rewrite data_fill, Hdb).
  assert (bytes_data bytes ≠ []) as Hne by (rewrite Hbytes; by intros [_ ?]%app_nil).
  destruct (enqueue_awake OtherJob el fuel (Given (Forward d bytes)) Haw) as (el1 & Hto).
  set (sv1 := with_sv_world (sv_world (with_system v1 sv)) (with_conns (<[c := None]> (sv_conns sv)) sv)).
  assert (tunnelled c s t u (Some d) sv1) as Ht1 by (by eapply tunnelled_same).
  destruct (server_receives c s t u d sv1 el el1 bytes (Some dn) fuel Ht1) as (b2 & Er & Hb2); [|done..|].
  { cbn. rewrite lookup_insert_ne by done. apply (lv_conn _ _ _ _ Hld). }
  destruct (data_chunk_mut b2) as [Hn2 Hd2]. destruct fuel as [|[|f]]; [lia..|].
  destruct (readable_event f c s cn el sv b bs _ b2 el1 sv1 Hlc Hb Hbs (sock_read_system _ _ _ _ _ H1) Er)
    as (cn2 & Ev & Hsc & Hrb & Hlc2).
  { rewrite (sock_read_system _ _ sv1 v1 (IoErr WouldBlock)); [done|]. apply (H2 _ Hn2). }
  set (sv2 := (put_conn c (Some cn2) (el1, sv1)).2) in *.
  assert (sv_conns sv2 = <[c := Some cn2]> (sv_conns sv)) as Hcs by (cbn; by rewrite insert_insert_eq).
  assert (live d u dn sv2) as Hld2.
  { apply (live_elsewhere d u dn sv); [exact Hld|]. by rewrite Hcs, lookup_insert_ne. }
  destruct (handed_pass OtherJob (tunnel_conns (B:=B)) tunnel_user_conns grow (run_tunnel_job verbose (S (S f))) drop_tunnel_job
    run_timer clock (S (S f)) elapsed tm el sv2 el1 (Given (Forward d bytes))
    (run_tunnel connect_timeout parse now (Forward d bytes) 0) k' n Haw Hto Hf Hk Hn)
    as (el3 & E3 & Hp); [done..|].
  destruct (forward_ok el3 sv2 d u _ dn bytes r v2 Hld2 (tu_session _ _ _ _ _ _ Ht1) Hne) as (dn2 & E4 & Hsc2 & Hld3);
    [rewrite Hbytes; exact Hsw|exact Hr|].
  set (sv3 := with_conns (<[d := Some dn2]> _) _) in *.
  destruct (drop_watched (tunnel_conns (B:=B)) tunnel_user_conns el3 sv3 (new_node el) (Forward d bytes) (ps_node _ _ _ _ Hp))
    as (el4 & E5 & _).
  { repeat constructor; eexists; [apply lookup_insert_eq|exact (watches_passed _ _ _ _ _ _ Hwd Hp)]. }
  exists (el1, sv2), el4, sv3, cn2, dn2. split; [exact Ev|].
  split; [by rewrite E3, (stm_step _ _ _ _ _ E4), (stm_step _ _ _ _ _ E5)|].
  assert (bytes_data b ++ bs ≠ []) as Hne' by (by rewrite <- Hbytes).
  split; [done|]. split; [by apply sent_some|]. split; [intros ->; by apply sent_all|].
  split; [cbn; by rewrite insert_insert_eq|]. split; [eexists; split; [exact Hrb|congruence]|].
  split; [|split; [exact Hld3|by eapply tunnelled_same]].
  apply (live_elsewhere c s cn2 sv2); [exact Hlc2|]. by apply lookup_insert_ne.
Qed.

(** ** What the client sent before *)

(** What waits in the read buffer of the client goes to the new connection. *)
Lemma flush_ok el sv c d s u x cn dn b r v2 :
  c ≠ d → live c s cn sv → live d u dn sv → sessions (dl_world (sv_world sv)) !! u = Some (Some x) →
  read_buffer (cn_fields cn) = Some b → bytes_data b ≠ [] →
  sock_write (fd_of dn) (bytes_data b) (system sv) = (r, v2) → goes_on r →
  ∃ cn' dn', let sv' := with_conns (<[d := Some dn']> (<[c := Some cn']> (sv_conns sv))) (with_system v2 sv) in
    run_tunnel connect_timeout parse now (Flush d c) 0 (el, sv) = Done (tt, (el, sv')) ∧
    same_conn cn cn' ∧ same_conn dn dn' ∧ live c s cn' sv' ∧ live d u dn' sv' ∧
    ∃ b', read_buffer (cn_fields cn') = Some b' ∧ bytes_data b' = [].
Proof using BL VL.
  intros Hcd Hlc Hld Hu Hb Hne Hsw Hr.
  destruct (data_advance b (bytes_len b)) as (rest & Ea & Er); [apply N.le_refl|].
  set (e0 := put_conn d None (el, sv)). set (e1 := put_conn c None e0).
  destruct (send_open_ok dn u e1 b r (sv_world (with_system v2 sv)))
    as (dn1 & Es & Hsc & _ & Hop & Hen & Hwr); [by destruct Hld..|exact Hne|exact (sock_write_system _ _ _ _ _ Hsw)|exact Hr| |].
  { by apply (written_ok u x). }
  set (cn' := with_fields (with_read_buffer (Some rest) (cn_fields cn)) cn).
  set (dn' := conn_shut dn (conn_open dn1)). exists cn', dn'. cbv zeta.
  assert (same_conn cn cn') as Hscc by done.
  assert (same_conn dn dn') as Hscd by (by destruct Hsc).
  split; [|split; [exact Hscc|split; [exact Hscd|split; [|split]]]].
  - cbn [run_tunnel]. unfold flush, conn_call.
    rewrite (stm_step _ _ _ _ _ (lock_conn_ok d (el, sv) dn (lv_conn _ _ _ _ Hld))). fold e0.
    assert (sv_conns e0.2 !! c = Some (Some cn)) as Hc0.
    { unfold e0. cbn. rewrite lookup_insert_ne by done. apply (lv_conn _ _ _ _ Hlc). }
    rewrite (lock_conn_ok c e0 cn Hc0). cbn [mbind exec_bind]. rewrite Hb. cbn [unwrap mbind exec_bind].
    destruct (N.ltb_spec 0 (bytes_len b)) as [_|H]; [|pose proof (bytes_len_pos b Hne); lia].
    fold e1. unfold handler in Es. rewrite Es. cbn [mbind exec_bind]. rewrite Ea. cbn [mbind exec_bind]. fold cn' dn'.
    unfold put_conn, e1, e0, put_conn, with_conns, with_system, with_sv_world. cbn. do 4 f_equal.
    rewrite insert_insert_eq. rewrite (insert_insert_ne _ c d) by done. by rewrite insert_insert_eq.
  - destruct Hlc as [L1 L2 L3 L4 L5 L6 L7 L8]. split; try done. cbn. rewrite lookup_insert_ne by done. apply lookup_insert_eq.
  - eapply (live_changed d u dn sv dn'); [exact Hld|exact Hscd|apply lookup_insert_eq| |exact Hen|exact Hwr].
    cbn. rewrite Hop. apply (lv_open _ _ _ _ Hld).
  - exists rest. split; [done|]. rewrite Er. unfold bytes_len. rewrite Nat2N.id. apply drop_all.
Qed.

(** The session is given its connection. *)
Lemma attach_ok c s t u d sv el :
  tunnelled c s t u None sv →
  ∃ sv', h_attach_connection u d (el, sv) = Done (tt, (el, sv')) ∧ tunnelled c s t u (Some d) sv' ∧
    calm (el, sv) (el, sv') ∧ dl_connectors (sv_world sv') = dl_connectors (sv_world sv) ∧
    current_loop (sv_world sv') = current_loop (sv_world sv) ∧ system sv' = system sv.
Proof.
  intros Ht. pose proof (tunnelled_ne _ _ _ _ _ _ Ht) as Hsu. destruct Ht as [Hs Htn Hu].
  set (x := AServerSession (mkServerSession (Some c) (Some d))).
  exists (put_session u (Some x) (el, sv)).2. split; [|split; [|by repeat split]].
  - cbn [h_attach_connection handler tunnel_handler]. unfold session_attach, on_session.
    assert (sessions (tunnels_of (el, sv)) !! u = Some (Some (AServerSession (mkServerSession (Some c) None)))) as Hu1
      by exact Hu.
    rewrite (stm_step _ _ _ _ _ (lock_session_ok u _ _ Hu1)).
    unfold mbind, stm_bind, unlock_session, modify, mret, stm_ret. by rewrite put_session_put.
  - split; [|exact Htn|apply lookup_insert_eq]. cbn. by rewrite lookup_insert_ne.
Qed.

(** It hands the job to the loop. *)
Lemma on_connect_ok c s t u d sv el el' oc dn fuel res v :
  tunnelled c s t u (Some d) sv → sv_conns sv !! c = Some oc → c ≠ d → sv_conns sv !! d = Some (Some dn) →
  current_loop (sv_world sv) = true →
  std_take_error (stream_inner (stream_sys (cn_stream dn))) (system sv) = (res, v) → (∀ err, res ≠ IoOk (Some err)) →
  handed_to OtherJob el el' (Given (Flush d c)) fuel →
  session_on_connect u d (el, sv) = Done (tt, (el', with_system v sv)).
Proof.
  intros Ht Hc Hcd Hd Hl Hte Hno Hh. destruct Ht as [_ _ Hu]. unfold session_on_connect.
  apply (on_session_ok u (AServerSession (mkServerSession (Some c) (Some d)))); [exact Hu| |exact Hu].
  set (e0 := put_session u None (el, sv)).
  assert (ServerSession_on_connect (mkServerSession (Some c) (Some d)) d e0 =
    Done (tt, put_session u None (el', with_system v sv))) as E; [|by rewrite (stm_step _ _ _ _ _ E)].
  unfold ServerSession_on_connect. rewrite (stm_step _ _ _ _ _ (lock_conn_ok d e0 dn Hd)).
  assert (pending_error dn (put_conn d None e0) = Done (res, (el, with_system v (put_conn d None e0).2))) as Ep.
  { unfold pending_error, on_world, TcpStream_take_error, SysTcpStream_take_error.
    cbn [std_take_error dialers_lib tunnels_lib layer_lib]. unfold through. cbn [std_take_error tunnels_lib layer_lib].
    unfold through. change (under tunnels_layer _) with (system sv). by rewrite Hte. }
  rewrite (stm_step _ _ _ _ _ Ep).
  rewrite (stm_step _ _ _ tt (el, with_system v e0.2)).
  2:{ unfold unlock_conn, modify, put_conn, with_conns, with_system, with_sv_world. cbn.
      rewrite insert_insert_eq, insert_id by exact Hd. done. }
  assert ((ServerSession_get_client_conn (mkServerSession (Some c) (Some d)) ≫= λ cs,
    match cs with Some cs => hand (Flush d cs) | None => mret tt end : stm E unit) (el, with_system v e0.2) =
    Done (tt, put_session u None (el', with_system v sv))) as Eh.
  { unfold ServerSession_get_client_conn. cbn [ss_client_conn].
    assert (upgrade (Some c) (el, with_system v e0.2) = Done (Some c, (el, with_system v e0.2))) as Eu
      by (apply (upgrade_ok c oc); exact Hc).
    rewrite (stm_step _ _ _ _ _ Eu). by rewrite (hand_ok el el' _ (Flush d c) fuel). }
  destruct res as [[err|]|err]; [by destruct (Hno err)|exact Eh..].
Qed.

(** An event before the tunnel is connected: the bytes join what the buffer
    holds, and the loop is not asked for anything. *)
Lemma bytes_wait fuel el sv c s t u cn b bs v1 :
  live c s cn sv → tunnelled c s t u None sv → read_buffer (cn_fields cn) = Some b → bs ≠ [] →
  sock_read (fd_of cn) (bytes_chunk_mut b).1 (system sv) = (IoOk bs, v1) →
  (∀ n, 0 < n → sock_read (fd_of cn) n v1 = (IoErr WouldBlock, v1)) →
  ∃ cn', let sv' := with_conns (<[c := Some cn']> (sv_conns sv)) (with_system v1 sv) in
    conn_event (S (S fuel)) c (usize_as_i64 (ready_as_usize Ready.readable)) (el, sv) = Done (tt, (el, sv')) ∧
    same_conn cn cn' ∧ live c s cn' sv' ∧ tunnelled c s t u None sv' ∧
    ∃ b', read_buffer (cn_fields cn') = Some b' ∧ bytes_data b' = bytes_data b ++ bs.
Proof using BL.
  intros Hl Ht Hb Hbs H1 H2. destruct (data_chunk_mut b) as [_ Hdb].
  set (bytes := bytes_fill (bytes_chunk_mut b).2 bs).
  set (sv1 := with_sv_world (sv_world (with_system v1 sv)) (with_conns (<[c := None]> (sv_conns sv)) sv)).
  assert (h_on_recv s bytes (el, sv1) = Done (bytes, (el, sv1))) as Er
    by (apply (server_keeps c s t u); by eapply tunnelled_same).
  destruct (data_chunk_mut bytes) as [Hn2 Hd2].
  destruct (readable_event fuel c s cn el sv b bs _ bytes el sv1 Hl Hb Hbs (sock_read_system _ _ _ _ _ H1) Er)
    as (cn' & Ev & Hsc & Hrb & Hl').
  { rewrite (sock_read_system _ _ sv1 v1 (IoErr WouldBlock)); [done|]. apply (H2 _ Hn2). }
  assert ((put_conn c (Some cn') (el, sv1)).2 = with_conns (<[c := Some cn']> (sv_conns sv)) (with_system v1 sv)) as Es.
  { unfold put_conn, with_conns, sv1, with_system, with_sv_world. cbn. by rewrite insert_insert_eq. }
  exists cn'. cbv zeta. rewrite <- Es. split; [exact Ev|]. split; [exact Hsc|]. split; [exact Hl'|].
  split; [by eapply tunnelled_same|]. eexists. split; [exact Hrb|]. rewrite Hd2. unfold bytes. by rewrite data_fill, Hdb.
Qed.

(** The connector of the tunnel gets its socket connected: the loop has the job
    of the new connection. *)
Lemma tunnel_connects verbose fuel el sv (conr : N) c s t u cn stream res v res' v' (k1 k2 : K)
    (fd := stream_inner (stream_sys stream)) :
  awake el fuel → (0 <= fd)%Z → current_loop (sv_world sv) = true →
  live c s cn sv → tunnelled c s t u None sv →
  dl_connectors (sv_world sv) !! conr = Some (Some (mkConnector None (Some stream) (Some u))) →
  sid_id (stream_selector_id stream) = 0 ∨ sid_id (stream_selector_id stream) = sel_id (p_selector (el_poll el)) →
  std_take_error fd (system sv) = (res, v) → (∀ err, res ≠ IoOk (Some err)) →
  std_take_error fd v = (res', v') → (∀ err, res' ≠ IoOk (Some err)) →
  rewatched (el, sv) fd k1 k2 →
  ∃ d dn el1 el2 sv2,
    connector_job session_on_connect verbose conr (usize_as_i64 (ready_as_usize Ready.writable)) (el, sv) =
      Done (tt, (el2, sv2)) ∧
    handed_to OtherJob el1 el2 (Given (Flush d c)) fuel ∧ awake el1 fuel ∧
    sv_conns sv !! d = None ∧ sv_conns sv2 = <[d := Some dn]> (sv_conns sv) ∧ system sv2 = v' ∧ fd_of dn = fd ∧
    live c s cn sv2 ∧ live d u dn sv2 ∧ tunnelled c s t u (Some d) sv2 ∧
    sel_map (p_selector (el_poll el1)) = <[fd := mkJobEntry (mkTokenEntry SocketEvent (mkToken (i32_as_u64 fd)))
      (ConnJob d) Ready.empty]> (sel_map (p_selector (el_poll el))) ∧
    sel_kernel (p_selector (el_poll el1)) = k2.
Proof using PL BL.
  intros Haw Hfd Hcl Hlc Ht Hk Hid Hte Hno Hte' Hno' Hwt.
  set (made0 d := (made conr d stream (over tunnels_layer v (dl_world (sv_world sv))) (el, sv)).2 : SV).
  assert (∀ d, tunnelled c s t u None (made0 d)) as Htm by (intros d; by eapply tunnelled_same).
  destruct (client_connects_ok session_on_connect verbose conr stream u Ready.writable (el, sv) res
    (over tunnels_layer v (dl_world (sv_world sv))) k1 k2)
    as (d & e2 & el1 & dn & E1 & Hd & E2 & Hh & (Hq1 & Hq2 & Hq3) & Hk2 & Hm); try done.
  { intros d. destruct (attach_ok c s t u d (made0 d) el (Htm d)) as (sv' & E & _ & Hc & _). by exists (el, sv'). }
  { cbn [std_take_error tunnels_lib layer_lib]. unfold through. change (under tunnels_layer _) with (system sv).
    fold fd. by rewrite Hte. }
  destruct (attach_ok c s t u d (made0 d) el (Htm d)) as (svm & E & Hta & Hcalm & Hdc & Hcla & Hsys).
  change (made conr d stream _ (el, sv)) with (el, made0 d) in E2.
  assert (Done (tt, e2) = Done (tt, (el, svm))) as Ee by (rewrite <- E2; exact E). injection Ee as ->.
  cbv zeta in *. cbn [fst snd] in *.
  set (sv1 := with_conns (<[d := Some dn]> (sv_conns sv)) svm) in *.
  assert (c ≠ d) as Hcd.
  { intros <-. rewrite (lv_conn _ _ _ _ Hlc) in Hd. discriminate. }
  assert (awake el1 fuel) as Haw1 by (unfold awake; by rewrite Hq1, Hq2, Hq3).
  destruct (enqueue_awake OtherJob el1 fuel (Given (Flush d c)) Haw1) as (el2 & Hto).
  assert (stream_inner (stream_sys (cn_stream dn)) = fd) as Hst by (by rewrite (hd_stream _ _ _ Hh)).
  assert (fd_of dn = fd) as Hfdn.
  { unfold fd_of. rewrite (hd_fields _ _ _ Hh). cbn. by apply Z2N.id. }
  assert (session_on_connect u d (el1, sv1) = Done (tt, (el2, with_system v' sv1))) as Eo.
  { apply (on_connect_ok c s t u d sv1 el1 el2 (Some cn) dn fuel res'); try done.
    - by eapply tunnelled_same.
    - cbn. rewrite lookup_insert_ne by done. apply (lv_conn _ _ _ _ Hlc).
    - apply lookup_insert_eq.
    - change (current_loop (sv_world svm) = true). by rewrite Hcla.
    - rewrite Hst. change (system sv1) with (system svm). by rewrite Hsys. }
  set (sv2 := (put_connector conr (Some (mkConnector None None (Some u))) (el2, with_system v' sv1)).2).
  exists d, dn, el1, el2, sv2. split; [by rewrite E1, Eo|]. split; [exact Hto|]. split; [exact Haw1|].
  split; [exact Hd|]. split; [done|]. split; [done|]. split; [exact Hfdn|].
  split; [|split; [|split; [by eapply tunnelled_same|by split]]].
  - apply (live_elsewhere c s cn sv); [exact Hlc|]. by apply lookup_insert_ne.
  - destruct Hh as [R1 R2 R3 R4 R5]. split; rewrite ?R4; try done.
    + apply lookup_insert_eq.
    + rewrite Hst. symmetry. by apply Z2N.id.
    + eexists _, _. split; [reflexivity|]. split; [apply data_with_capacity|].
      split; [reflexivity|apply data_with_capacity].
Qed.

(** C20 what the client sends before its tunnel is connected waits: an event of
    the client that comes first (one read finds bytes, the next would block)
    leaves the bytes in its read buffer; when the socket of the tunnel becomes
    writable without an error, the event makes a connection of it and hands a
    job to the loop, and the next pass of the loop, if the kernel has nothing
    more, runs it without blocking: everything in the buffer is written to the
    new connection, once, the buffer is emptied, and the tunnel is established.
    So nothing is lost if that write takes everything; what it does not take,
    or all of it when it would block, is.  (A write that fails closes the
    connection instead.) *)
Theorem early_bytes_forwarded verbose fuel elapsed tm el sv (conr : N) c s t u cn b bs v1 stream res v res' v' r v2
    (k1 k2 k' : K) n (fd := stream_inner (stream_sys stream)) :
  (1 < fuel)%nat → awake el fuel → (0 <= fd)%Z → fd ≠ fd_of cn → current_loop (sv_world sv) = true →
  live c s cn sv → watches el (fd_of cn) c → tunnelled c s t u None sv →
  dl_connectors (sv_world sv) !! conr = Some (Some (mkConnector None (Some stream) (Some u))) →
  sid_id (stream_selector_id stream) = 0 ∨ sid_id (stream_selector_id stream) = sel_id (p_selector (el_poll el)) →
  read_buffer (cn_fields cn) = Some b → bs ≠ [] →
  sock_read (fd_of cn) (bytes_chunk_mut b).1 (system sv) = (IoOk bs, v1) →
  (∀ n, 0 < n → sock_read (fd_of cn) n v1 = (IoErr WouldBlock, v1)) →
  std_take_error fd v1 = (res, v) → (∀ err, res ≠ IoOk (Some err)) →
  std_take_error fd v = (res', v') → (∀ err, res' ≠ IoOk (Some err)) →
  rewatched (el, sv) fd k1 k2 →
  kernel_answer elapsed false 4096 0 zero_timeout k2 (IoOk []) k' n → (n < fuel)%nat →
  sock_write fd (bytes_data b ++ bs) v' = (r, v2) → goes_on r →
  ∃ sv1 e2 el3 sv3 d cn1 cn3 dn3,
    conn_event fuel c (usize_as_i64 (ready_as_usize Ready.readable)) (el, sv) = Done (tt, (el, sv1)) ∧
    connector_job session_on_connect verbose conr (usize_as_i64 (ready_as_usize Ready.writable)) (el, sv1) =
      Done (tt, e2) ∧
    pass verbose fuel elapsed tm e2 = Done (IoOk (), (el3, sv3)) ∧
    sv_conns sv1 !! c = Some (Some cn1) ∧ (∃ b1, read_buffer (cn_fields cn1) = Some b1 ∧ bytes_data b1 = bytes_data b ++ bs) ∧
    system sv3 = v2 ∧ sock_tx v2 fd = sock_tx v' fd ++ carried r (bytes_data b ++ bs) ∧
    (r = IoOk (N.of_nat (length (bytes_data b ++ bs))) → sock_tx v2 fd = sock_tx v' fd ++ bytes_data b ++ bs) ∧
    fd_of dn3 = fd ∧
    (∃ b3, read_buffer (cn_fields cn3) = Some b3 ∧ bytes_data b3 = []) ∧
    live c s cn3 sv3 ∧ live d u dn3 sv3 ∧ tunnelled c s t u (Some d) sv3.
Proof using PL KL BL VL.
  intros Hf Haw Hfd Hfc Hcl Hlc Hwc Ht Hk Hid Hb Hbs H1 H2 Hte Hno Hte' Hno' Hwt Hka Hn Hsw Hr.
  destruct fuel as [|[|f]]; [lia..|].
  destruct (bytes_wait f el sv c s t u cn b bs v1 Hlc Ht Hb Hbs H1 H2)
    as (cn1 & Ev & Hsc & Hlc1 & Ht1 & (b1 & Hb1 & Hbd)).
  set (sv1 := with_conns (<[c := Some cn1]> (sv_conns sv)) (with_system v1 sv)) in *.
  destruct (tunnel_connects verbose (S (S f)) el sv1 conr c s t u cn1 stream res v res' v' k1 k2 Haw Hfd Hcl Hlc1 Ht1
    Hk Hid Hte Hno Hte' Hno' Hwt)
    as (d & dn & el1 & el2 & sv2 & Ec & Hto & Haw1 & Hd & Hcs & Hsys & Hfdn & Hlc2 & Hld2 & Ht2 & Hm & Hk2).
  assert (c ≠ d) as Hcd.
  { intros <-. rewrite (lv_conn _ _ _ _ Hlc1) in Hd. discriminate. }
  destruct (handed_pass OtherJob (tunnel_conns (B:=B)) tunnel_user_conns grow (run_tunnel_job verbose (S (S f))) drop_tunnel_job
    run_timer clock (S (S f)) elapsed tm el1 sv2 el2 (Given (Flush d c))
    (run_tunnel connect_timeout parse now (Flush d c) 0) k' n Haw1 Hto Hf)
    as (el3 & E3 & Hp); [by rewrite Hk2|done..|].
  assert (bytes_data b1 ≠ []) as Hne by (rewrite Hbd; by intros [_ ?]%app_nil).
  destruct (flush_ok el3 sv2 c d s u _ cn1 dn b1 r v2 Hcd Hlc2 Hld2 (tu_session _ _ _ _ _ _ Ht2) Hb1 Hne)
    as (cn3 & dn3 & E4 & Hscc & Hscd & Hlc3 & Hld3 & Hb3); [by rewrite Hfdn, Hsys, Hbd|exact Hr|].
  cbv zeta in *. set (sv3 := with_conns (<[d := Some dn3]> _) _) in *.
  destruct (drop_watched (tunnel_conns (B:=B)) tunnel_user_conns el3 sv3 (new_node el1) (Flush d c) (ps_node _ _ _ _ Hp))
    as (el4 & E5 & _).
  { assert (∀ fd x, watches el1 fd x → watches el3 fd x) as Hw by (intros ? ? H; exact (watches_passed _ _ _ _ _ _ H Hp)).
    repeat constructor; eexists.
    - apply (lv_conn _ _ _ _ Hld3).
    - apply (Hw fd). unfold watches. by rewrite Hm, lookup_insert_eq.
    - apply (lv_conn _ _ _ _ Hlc3).
    - apply (Hw (fd_of cn)). unfold watches. by rewrite Hm, lookup_insert_ne. }
  exists sv1, (el2, sv2), el4, sv3, d, cn1, cn3, dn3. split; [exact Ev|]. split; [exact Ec|].
  split; [by rewrite E3, (stm_step _ _ _ _ _ E4), (stm_step _ _ _ _ _ E5)|].
  split; [apply (lv_conn _ _ _ _ Hlc1)|]. split; [by exists b1|].
  assert (bytes_data b ++ bs ≠ []) as Hne' by (by rewrite <- Hbd).
  split; [done|]. split; [by apply sent_some|]. split; [intros ->; by apply sent_all|].
  split; [unfold fd_of in *; by rewrite (sc_fd _ _ Hscd)|]. split; [exact Hb3|]. split; [exact Hlc3|].
  split; [exact Hld3|by eapply tunnelled_same].
Qed.

(** ** What the other end sends *)

(** The call of [send] by [ServerSession::on_recv], in a world whose session [u]
    is locked. *)
Lemma reply_send c s (y : Session) cn e (bytes : B) v2 r :
  live c s cn e.2 → sessions (tunnels_of e) !! s = Some (Some y) → bytes_data bytes ≠ [] →
  sock_write (fd_of cn) (bytes_data bytes) (system e.2) = (r, v2) →
  match r with
  | IoOk k => k = bytes_len bytes → ∃ cn',
      conn_send (HO := sending connect_timeout parse now) c bytes e =
        Done (bytes_len bytes, put_conn c (Some cn') (e.1, with_system v2 e.2)) ∧
      same_conn cn cn' ∧ live c s cn' (put_conn c (Some cn') (e.1, with_system v2 e.2)).2
  | IoErr err => err ≠ WouldBlock → ∀ p,
      (∀ o, h_on_error s (put_conn c o (e.1, with_system v2 e.2)) = Panic p) →
      conn_send (HO := sending connect_timeout parse now) c bytes e = Panic p
  end.
Proof using BL VL.
  intros Hl Hs Hne Hsw. destruct e as [el sv]. cbn [fst snd] in *.
  rewrite (send_calls (sending connect_timeout parse now) handler c bytes (el, sv) eq_refl eq_refl).
  destruct (conn_send_ok c s cn sv el bytes Hl Hne) as (cn0 & cn1 & Hcn & Es).
  rewrite (sock_write_system _ _ _ _ _ Hsw) in Es.
  destruct (Hcn cn1 (or_intror eq_refl)) as (Hsc & _ & Hop & Hen & Hwr).
  destruct r as [k|err].
  - intros ->. rewrite N.ltb_irrefl, (written_ok s y) in Es by exact Hs. cbn [mbind exec_bind negb] in Es.
    exists cn1. split; [|split; [exact Hsc|]].
    + rewrite Es. unfold put_conn, with_conns, with_system, with_sv_world. cbn. by rewrite insert_insert_eq.
    + eapply live_changed; [exact Hl|exact Hsc|apply put_conn_lookup|done..].
  - intros Hwb p Hp. assert (close_conn cn1 (el, with_sv_world (sv_world (with_system v2 sv))
      (with_conns (<[c := None]> (sv_conns sv)) sv)) = Panic p) as Ec.
    { unfold close_conn, handle_close. change (closed (conn_open cn1)) with (closed (cn_fields cn1)). rewrite Hop.
      assert (∀ e, close_job (with_closed true (set_enabled (conn_open cn1) false)) e =
        h_on_error s e ≫= λ '(_, e), Done e) as Hj.
      { intros e. cbn. by rewrite (sc_close _ _ Hsc), (lv_close _ _ _ _ Hl). }
      rewrite Hj. specialize (Hp None).
      change (put_conn c None (el, with_system v2 sv)) with
        (el, with_sv_world (sv_world (with_system v2 sv)) (with_conns (<[c := None]> (sv_conns sv)) sv)) in Hp.
      by rewrite Hp. }
    rewrite Es. destruct err; [|done|]; by rewrite Ec.
Qed.

Lemma session_receives c s t u d sv el cn (bytes : B) v2 :
  tunnelled c s t u (Some d) sv → live c s cn sv → bytes_data bytes ≠ [] →
  sock_write (fd_of cn) (bytes_data bytes) (system sv) = (IoOk (bytes_len bytes), v2) →
  ∃ rest cn', h_on_recv u bytes (el, sv) = Done (rest, put_conn c (Some cn') (el, with_system v2 sv)) ∧
    bytes_data rest = [] ∧ same_conn cn cn' ∧ live c s cn' (put_conn c (Some cn') (el, with_system v2 sv)).2.
Proof using BL VL.
  intros Ht Hl Hne Hsw. destruct (data_advance bytes (bytes_len bytes)) as (rest & Ea & Er); [apply N.le_refl|].
  pose proof (tunnelled_ne _ _ _ _ _ _ Ht) as Hsu. destruct Ht as [Hs _ Hu].
  set (x := mkServerSession (Some c) (Some d)) in Hu. set (e0 := put_session u None (el, sv)).
  assert (sessions (tunnels_of e0) !! s = Some (Some (ATunnelServer (mkTunnelServer (Some c) (Some t))))) as Hs0
    by (unfold e0; by rewrite put_session_lookup_ne).
  assert (live c s cn e0.2) as Hl0 by (by destruct Hl).
  destruct (reply_send c s _ cn e0 bytes v2 _ Hl0 Hs0 Hne Hsw eq_refl) as (cn' & E & Hsc & Hl').
  exists rest, cn'. split; [|split; [rewrite Er; unfold bytes_len; rewrite Nat2N.id; apply drop_all|split; [exact Hsc|]]].
  2:{ by eapply live_elsewhere. }
  cbn [h_on_recv handler tunnel_handler]. unfold session_on_recv.
  apply (on_session_ok u (AServerSession x)); [exact Hu| |exact Hu]. fold e0.
  assert (ServerSession_on_recv connect_timeout parse now x bytes e0 =
    Done (rest, put_session u None (put_conn c (Some cn') (el, with_system v2 sv)))) as Eb.
  { unfold ServerSession_on_recv, ServerSession_get_client_conn. cbn [ss_client_conn x].
    rewrite (stm_step _ _ _ _ _ (upgrade_ok c _ e0 (lv_conn _ _ _ _ Hl0))).
    destruct (N.ltb_spec 0 (bytes_len bytes)) as [_|H]; [|pose proof (bytes_len_pos bytes Hne); lia].
    rewrite (stm_step _ _ _ _ _ E). unfold lift. by rewrite Ea. }
  by rewrite (stm_step _ _ _ _ _ Eb).
Qed.

(** The other end's bytes reach the client at once. *)
Theorem tunnel_replies fuel el sv c d s t u cn dn b bs v1 v2 :
  c ≠ d → live c s cn sv → live d u dn sv → tunnelled c s t u (Some d) sv →
  read_buffer (cn_fields dn) = Some b → bs ≠ [] →
  sock_read (fd_of dn) (bytes_chunk_mut b).1 (system sv) = (IoOk bs, v1) →
  (∀ n, 0 < n → sock_read (fd_of dn) n v2 = (IoErr WouldBlock, v2)) →
  sock_write (fd_of cn) (bytes_data b ++ bs) v1 = (IoOk (N.of_nat (length (bytes_data b ++ bs))), v2) →
  ∃ sv2 cn2 dn2,
    conn_event (S (S fuel)) d (usize_as_i64 (ready_as_usize Ready.readable)) (el, sv) = Done (tt, (el, sv2)) ∧
    system sv2 = v2 ∧ sock_tx v2 (fd_of cn) = sock_tx v1 (fd_of cn) ++ bytes_data b ++ bs ∧
    sv_conns sv2 = <[d := Some dn2]> (<[c := Some cn2]> (sv_conns sv)) ∧
    (∃ b2, read_buffer (cn_fields dn2) = Some b2 ∧ bytes_data b2 = []) ∧
    live c s cn2 sv2 ∧ live d u dn2 sv2 ∧ tunnelled c s t u (Some d) sv2.
Proof using BL VL.
  intros Hcd Hlc Hld Ht Hb Hbs H1 H2 Hsw. destruct (data_chunk_mut b) as [_ Hdb].
  set (bytes := bytes_fill (bytes_chunk_mut b).2 bs).
  assert (bytes_data bytes = bytes_data b ++ bs) as Hbytes by (unfold bytes; by rewrite data_fill, Hdb).
  assert (bytes_data bytes ≠ []) as Hne by (rewrite Hbytes; by intros [_ ?]%app_nil).
  set (sv1 := with_sv_world (sv_world (with_system v1 sv)) (with_conns (<[d := None]> (sv_conns sv)) sv)).
  assert (tunnelled c s t u (Some d) sv1) as Ht1 by (by eapply tunnelled_same).
  assert (live c s cn sv1) as Hlc1.
  { apply (live_elsewhere c s cn sv); [exact Hlc|]. by apply lookup_insert_ne. }
  destruct (session_receives c s t u d sv1 el cn bytes v2 Ht1 Hlc1 Hne) as (b2 & cn2 & Er & Hb2 & Hsc & Hlc2).
  { unfold bytes_len. rewrite Hbytes. exact Hsw. }
  destruct (data_chunk_mut b2) as [Hn2 Hd2]. set (sv2 := (put_conn c (Some cn2) (el, with_system v2 sv1)).2) in *.
  destruct (readable_event fuel d u dn el sv b bs _ b2 el sv2 Hld Hb Hbs (sock_read_system _ _ _ _ _ H1) Er)
    as (dn2 & Ev & Hscd & Hrb & Hld2).
  { rewrite (sock_read_system _ _ sv2 v2 (IoErr WouldBlock)); [done|]. apply (H2 _ Hn2). }
  exists (put_conn d (Some dn2) (el, sv2)).2, cn2, dn2. split; [exact Ev|]. split; [done|]. split.
  { apply sent_all; [by rewrite <- Hbytes|exact Hsw]. }
  split. { cbn. rewrite (insert_insert_ne _ c d) by done. by rewrite insert_insert_eq. }
  split; [eexists; split; [exact Hrb|congruence]|]. split; [|split; [exact Hld2|by eapply tunnelled_same]].
  destruct Hlc2 as [L1 L2 L3 L4 L5 L6 L7 L8]. split; try done. cbn. rewrite lookup_insert_ne by done. apply lookup_insert_eq.
Qed.

(** Telling a [TunnelServer] that its connection failed, while its session is
    locked. *)
Lemma server_error_deadlocks c s t u e tn :
  sessions (tunnels_of e) !! s = Some (Some (ATunnelServer (mkTunnelServer (Some c) (Some t)))) →
  tunnels (tunnels_of e) !! t = Some (Some tn) → tn_server_session tn = Some u → s ≠ u →
  sessions (tunnels_of e) !! u = Some None → h_on_error s e = Panic PDeadlock.
Proof.
  intros Hs Ht Htu Hsu Hu. cbn [h_on_error handler tunnel_handler]. unfold session_on_error, on_session.
  rewrite (stm_step _ _ _ _ _ (lock_session_ok s _ e Hs)). set (e1 := put_session s None e).
  assert (tunnels (tunnels_of e1) !! t = Some (Some tn)) as Ht1 by exact Ht.
  assert (sessions (tunnels_of (put_tunnel t None e1)) !! u = Some None) as Hu1.
  { change (sessions (tunnels_of e1) !! u = Some None). unfold e1. by rewrite put_session_lookup_ne. }
  assert (TunnelServer_get_server_conn (mkTunnelServer None (Some t)) e1 = Panic PDeadlock) as Eg.
  { unfold TunnelServer_get_server_conn. cbn [ts_tunnel].
    assert (lock_tunnel t e1 = Done (tn, put_tunnel t None e1)) as El by (unfold lock_tunnel; by rewrite Ht1).
    rewrite (stm_step _ _ _ _ _ El). unfold Tunnel_get_server_conn, Tunnel_get_server_session. rewrite Htu.
    unfold mbind, stm_bind, lock_session. by rewrite Hu1. }
  unfold TunnelServer_on_error, TunnelServer_free_connection. cbn [ts_tunnel].
  unfold mbind, stm_bind. by rewrite Eg.
Qed.

(** C21 a tunnel deadlocks when the client goes away while the other end is
    being forwarded: if the write to the client fails, closing its connection
    tells its handler, which locks the session of the tunnel, the one that is
    forwarding. *)
Theorem tunnel_deadlocks fuel el sv c d s t u cn dn b bs v1 err v2 :
  c ≠ d → live c s cn sv → live d u dn sv → tunnelled c s t u (Some d) sv →
  read_buffer (cn_fields dn) = Some b → bs ≠ [] →
  sock_read (fd_of dn) (bytes_chunk_mut b).1 (system sv) = (IoOk bs, v1) →
  sock_write (fd_of cn) (bytes_data b ++ bs) v1 = (IoErr err, v2) → err ≠ WouldBlock →
  conn_event (S fuel) d (usize_as_i64 (ready_as_usize Ready.readable)) (el, sv) = Panic PDeadlock.
Proof using BL VL.
  intros Hcd Hlc Hld Ht Hb Hbs H1 Hsw Herr. destruct (data_chunk_mut b) as [_ Hdb].
  set (bytes := bytes_fill (bytes_chunk_mut b).2 bs).
  assert (bytes_data bytes = bytes_data b ++ bs) as Hbytes by (unfold bytes; by rewrite data_fill, Hdb).
  assert (bytes_data bytes ≠ []) as Hne by (rewrite Hbytes; by intros [_ ?]%app_nil).
  eapply (readable_event_panics fuel d u dn el sv b bs); [exact Hld|exact Hb|exact Hbs|exact (sock_read_system _ _ _ _ _ H1)|].
  set (sv1 := with_sv_world (sv_world (with_system v1 sv)) (with_conns (<[d := None]> (sv_conns sv)) sv)).
  pose proof (tunnelled_ne _ _ _ _ _ _ Ht) as Hsu. destruct Ht as [Hs (tn & Htn & Htu) Hu].
  cbn [h_on_recv handler tunnel_handler]. unfold session_on_recv, on_session.
  assert (sessions (tunnels_of (el, sv1)) !! u = Some (Some (AServerSession (mkServerSession (Some c) (Some d))))) as Hu1 by exact Hu.
  rewrite (stm_step _ _ _ _ _ (lock_session_ok u _ (el, sv1) Hu1)). set (e0 := put_session u None (el, sv1)).
  assert (sessions (tunnels_of e0) !! s = Some (Some (ATunnelServer (mkTunnelServer (Some c) (Some t))))) as Hs0
    by (unfold e0; by rewrite put_session_lookup_ne).
  assert (sessions (tunnels_of e0) !! u = Some None) as Hu0 by apply put_session_lookup.
  assert (live c s cn e0.2) as Hl0.
  { apply (live_elsewhere c s cn sv); [exact Hlc|]. by apply lookup_insert_ne. }
  assert (sock_write (fd_of cn) (bytes_data bytes) (system e0.2) = (IoErr err, v2)) as Hsw0 by (by rewrite Hbytes).
  assert (conn_send (HO := sending connect_timeout parse now) c bytes e0 = Panic PDeadlock) as E.
  { apply (reply_send c s _ cn e0 bytes v2 _ Hl0 Hs0 Hne Hsw0 Herr PDeadlock).
    intros o. by apply (server_error_deadlocks c s t u _ tn). }
  assert (ServerSession_on_recv connect_timeout parse now (mkServerSession (Some c) (Some d)) bytes e0 =
    Panic PDeadlock) as Eb.
  { unfold ServerSession_on_recv, ServerSession_get_client_conn. cbn [ss_client_conn].
    rewrite (stm_step _ _ _ _ _ (upgrade_ok c _ e0 (lv_conn _ _ _ _ Hl0))).
    destruct (N.ltb_spec 0 (bytes_len bytes)) as [_|H]; [|pose proof (bytes_len_pos bytes Hne); lia].
    unfold mbind, stm_bind. by rewrite E. }
  unfold mbind, stm_bind. cbv beta iota. fold bytes. by rewrite Eb.
Qed.
End TunnelProps.
