(* ===== verification/TunnelDemo.v ===== *)
(** * The example client and the example tunnel: runs

    Loops with sockets whose peers answer: the theorems of
    [RequestClientProps] and [TunnelProps] applied. *)
From Stdlib Require Import Strings.Byte Strings.String.
From S2P Require Import Prelude EventSet ReadinessState Duration LazyCell Awakener Selector.
From S2P Require Import ReadinessQueue Registration QueueInv QueueSpec RegistrationSpec HandleSpec QueueProps.
From S2P Require Import Interfaces Timer PollReadiness Poll PollProps Evented EventLoop EventLoopProps RunProps.
From S2P Require Import Sys Tcp Net Socket Layers Connection ConnectionProps Server ServerProps ServerTheorems.
From S2P Require Import ConnSteps Client ClientProps ClientTheorems Handoff HandoffProps.
From S2P Require Import RequestClient RequestClientProps Tunnel TunnelProps.

(** ** A system with a peer that may be gone *)

Module PeerDemo.
(** The sockets of [ServerDemo], and the one whose peer is gone. *)
Record t := mk { base : ServerDemo.world; gone : option Z }.
Definition layer : Layer t ServerDemo.world := mkLayer base (λ v w, mk v (gone w)).
#[global] Instance layer_ok : LayerLaws layer.
Proof. split; [done|by intros []|done]. Qed.

#[global] Instance libc : LibcOps t := layer_libc layer.
#[global] Instance net : NetOps t := layer_net layer.
#[global] Instance lib : SocketLib t := @layer_lib _ _ layer (ClientDemo.lib None).
#[global] Instance sockets : SocketOps t := {|
  sock_read := λ fd n, through layer (sock_read fd n);
  sock_write := λ fd bs w,
    if bool_decide (gone w = Some fd) then (IoErr (OtherError 32), w) else through layer (sock_write fd bs) w;
  sock_shutdown := λ fd how, through layer (sock_shutdown fd how);
|}.
#[global] Instance laws : SocketLaws t.
Proof.
  pose proof (layer_laws layer) as L.
  refine {| sock_rx := λ w, sock_rx (base w); sock_tx := λ w, sock_tx (base w);
            sock_pend := λ w, sock_pend (base w) |}.
  - intros fd n w Hn. pose proof (sock_read_law fd n (base w) Hn) as H. cbn [sock_read sockets]. unfold through.
    cbn [under over layer]. destruct (sock_read fd n (base w)) as [[bs|[]] v]; try exact H.
    subst v. by destruct w.
  - intros fd bs w Hn. cbn [sock_write sockets]. destruct (bool_decide (gone w = Some fd)); [done|].
    pose proof (sock_write_law fd bs (base w) Hn) as H. unfold through. cbn [under over layer].
    by destruct (sock_write fd bs (base w)) as [[k|err] v].
Defined.

(** The peers of 7 and 8 are connected; [inbox] waits, and what was sent. *)
Definition at_peers (gone : option Z) (inbox : list (list byte)) (got sent : list byte) (room : N) : t :=
  mk (ServerDemo.mk (TableLibc.mk {[7%Z := mkFlags true true; 8%Z := mkFlags true true]} true) 0
    (ScriptSocket.mk inbox got room sent [] 0)) gone.
Definition parse (_ : list byte) : option SocketAddr := Some (V4 0 80).
Definition connect_timeout (k : N) : unit := tt.

(** The socket 8, which connects. *)
Definition stream : TcpStream := mkTcpStream (mkSysStream 8) (mkSelectorId 1).
Definition kernel : ScriptEpoll.t := ScriptEpoll.mk {[7%Z := 7; 8%Z := 8]} [].
(** The kernel while the loop stops watching 8, and when it watches it again. *)
Definition kernel1 : ScriptEpoll.t := (epoll_ctl kernel EPOLL_CTL_DEL 8 (mkEpollEvent 0 0)).2.
Definition kernel2 : ScriptEpoll.t := (epoll_ctl kernel1 EPOLL_CTL_ADD 8
  (mkEpollEvent (ioevent_to_epoll (Ready.bitor Ready.readable Ready.writable) PollOpt.edge) 8)).2.

Lemma idle_kernel k : k = kernel ∨ k = kernel2 →
  kernel_answer (λ _, from_millis 0) false 4096 0 zero_timeout k (IoOk []) k 0.
Proof. intros [-> | ->]; apply (answer_events _ _ _ _ _ 0); vm_compute; reflexivity. Qed.
Definition watch {J} (j : J) : JobEntry J := mkJobEntry (mkTokenEntry SocketEvent (mkToken 1)) j Ready.empty.
End PeerDemo.
Import PeerDemo.

(** ** The example client *)

Module RequestDemo.
Abbreviation UJ := (ClientJob (Closure RequestJob)).
Abbreviation env := (EventLoop (NetJob UJ) N ScriptEpoll.t VecSlab.t unit * Server ListBytes.t (Dialers t))%type.
Definition dialing : env :=
  (HandoffDemo.loop {[8%Z := watch (UserJob (ConnectorJob 0))]} kernel,
   mkServer ServerDemo.listener false false false 0 ∅
     (mkDialers {[0 := Some (mkConnector None (Some stream) (Some test_client))]} true (at_peers None [] [] [] 1000))).
Definition run_timer (u : unit) (e : env) : exec (unit * env) := Done (tt, e).
Definition clock (s : Server ListBytes.t (Dialers t)) : Instant * Server ListBytes.t (Dialers t) := (mkInstant 0, s).
End RequestDemo.

Lemma request_is_sent_witness :
  ∃ e1 el2 sv2,
    connector_job TestClient_on_connect true 0 (usize_as_i64 (ready_as_usize Ready.writable)) RequestDemo.dialing =
      Done (tt, e1) ∧
    run_once NoJob SelectorDemo.grow (run_request_job connect_timeout parse (mkInstant 0) true 4) drop_request_job
      RequestDemo.run_timer RequestDemo.clock 4 (λ _, from_millis 0) None e1 = Done (IoOk (), (el2, sv2)) ∧
    dl_world (sv_world sv2) = at_peers None [] [] REQUEST (1000 - N.of_nat (length REQUEST)).
Proof.
  destruct (request_is_sent SelectorDemo.grow connect_timeout parse (mkInstant 0) RequestDemo.run_timer
    RequestDemo.clock true 4 (λ _, from_millis 0) None RequestDemo.dialing.1 RequestDemo.dialing.2 0 stream (IoOk None)
    (at_peers None [] [] [] 1000) (IoOk (N.of_nat (length REQUEST)))
    (at_peers None [] [] REQUEST (1000 - N.of_nat (length REQUEST)))
    kernel1 kernel2 kernel2 0)
    as (e1 & el2 & sv2 & conn & cn & E1 & E2 & Hs & _).
  - lia.
  - apply HandoffDemo.awake_world; reflexivity.
  - done.
  - reflexivity.
  - reflexivity.
  - right. reflexivity.
  - reflexivity.
  - discriminate.
  - split; vm_compute; reflexivity.
  - apply idle_kernel. by right.
  - lia.
  - vm_compute. reflexivity.
  - exact I.
  - exists e1, el2, sv2. split; [exact E1|]. by split.
Defined.

(** ** The example tunnel *)

Module TunnelRun.
Abbreviation UJ := (ClientJob (Closure (TunnelJob ListBytes.t))).
Abbreviation Loop := (EventLoop (NetJob UJ) N ScriptEpoll.t VecSlab.t unit).
Abbreviation SV := (Server ListBytes.t (Dialers (Tunnels t))).
Abbreviation env := (Loop * SV)%type.

(** The client is connection 0 on socket 7, of the handler 0, whose tunnel 0 has
    the session 1; the other connection is 1 on socket 8. *)
Definition conn_of (fd s : N) : Conn ListBytes.t :=
  mkConnData (mkTcpStream (mkSysStream (Z.of_N fd)) (mkSelectorId 1)) (Some s) (Some s) (Some s)
    (TcpConnection_new fd).
Definition handlers (server_conn : option N) (w : t) : Tunnels t :=
  mkTunnels
    {[0 := Some (ATunnelServer (mkTunnelServer (Some 0) (Some 0)));
      1 := Some (AServerSession (mkServerSession (Some 0) server_conn))]}
    {[0 := Some (mkTunnel (text "127.0.0.1:80") 0 (Some 1) (Some 0))]} w.
Definition server (conns : gmap N (option (Conn ListBytes.t))) (stream : option TcpStream) (tn : Tunnels t) : SV :=
  mkServer ServerDemo.listener true true true 0 conns (mkDialers {[0 := Some (mkConnector None stream (Some 1))]} true tn).

Definition hello : list byte := text "hello".
Definition established (w : t) : SV :=
  server {[0 := Some (conn_of 7 0); 1 := Some (conn_of 8 1)]} None (handlers (Some 1) w).
Definition both : Loop := HandoffDemo.loop {[7%Z := watch (ConnJob 0); 8%Z := watch (ConnJob 1)]} kernel.

(** The tunnel is not connected yet. *)
Definition opening : env :=
  (HandoffDemo.loop {[7%Z := watch (ConnJob 0); 8%Z := watch (UserJob (ConnectorJob 0))]} kernel,
   server {[0 := Some (conn_of 7 0)]} (Some stream) (handlers None (at_peers None [hello] [] [] 1000))).

Definition run_timer (u : unit) (e : env) : exec (unit * env) := Done (tt, e).
Definition clock (s : SV) : Instant * SV := (mkInstant 0, s).

Lemma client_live conns s tn : conns !! 0 = Some (Some (conn_of 7 0)) → live 0 0 (conn_of 7 0) (server conns s tn).
Proof. intros H. split; try done. by exists [], []. Qed.
Lemma other_live w : live 1 1 (conn_of 8 1) (established w).
Proof. split; try done. by exists [], []. Qed.
Lemma handlers_tunnelled conns s o w : tunnelled 0 0 0 1 o (server conns s (handlers o w)).
Proof. split; [done| |done]. by eexists. Qed.
End TunnelRun.
Import TunnelRun.

Lemma tunnel_forwards_witness :
  ∃ e1 el2 sv2,
    conn_event (HO := tunnel_handler connect_timeout parse (mkInstant 0)) 4 0
      (usize_as_i64 (ready_as_usize Ready.readable)) (both, established (at_peers None [hello] [] [] 1000)) =
      Done (tt, e1) ∧
    run_once NoJob SelectorDemo.grow (run_tunnel_job connect_timeout parse (mkInstant 0) false 4) drop_tunnel_job
      TunnelRun.run_timer TunnelRun.clock 4 (λ _, from_millis 0) None e1 = Done (IoOk (), (el2, sv2)) ∧
    system sv2 = at_peers None [] hello hello 995.
Proof.
  destruct (tunnel_forwards SelectorDemo.grow connect_timeout parse (mkInstant 0) TunnelRun.run_timer TunnelRun.clock
    false 4 (λ _, from_millis 0) None both (established (at_peers None [hello] [] [] 1000)) 0 1 0 0 1
    (conn_of 7 0) (conn_of 8 1) [] hello (at_peers None [] hello [] 1000) (IoOk 5)
    (at_peers None [] hello hello 995) kernel 0)
    as (e1 & el2 & sv2 & cn2 & dn2 & E1 & E2 & Hs & _).
  - lia.
  - apply HandoffDemo.awake_world; reflexivity.
  - reflexivity.
  - done.
  - by apply client_live.
  - apply other_live.
  - reflexivity.
  - apply handlers_tunnelled.
  - reflexivity.
  - done.
  - reflexivity.
  - intros n Hn. reflexivity.
  - apply idle_kernel. by left.
  - lia.
  - vm_compute. reflexivity.
  - exact I.
  - exists e1, el2, sv2. split; [exact E1|]. by split.
Defined.

Lemma early_bytes_forwarded_witness :
  ∃ sv1 e2 el3 sv3,
    conn_event (HO := tunnel_handler connect_timeout parse (mkInstant 0)) 4 0
      (usize_as_i64 (ready_as_usize Ready.readable)) opening = Done (tt, (opening.1, sv1)) ∧
    connector_job (HO := tunnel_handler connect_timeout parse (mkInstant 0)) session_on_connect false 0
      (usize_as_i64 (ready_as_usize Ready.writable)) (opening.1, sv1) = Done (tt, e2) ∧
    run_once NoJob SelectorDemo.grow (run_tunnel_job connect_timeout parse (mkInstant 0) false 4) drop_tunnel_job
      TunnelRun.run_timer TunnelRun.clock 4 (λ _, from_millis 0) None e2 = Done (IoOk (), (el3, sv3)) ∧
    system sv3 = at_peers None [] hello hello 995.
Proof.
  destruct (early_bytes_forwarded SelectorDemo.grow connect_timeout parse (mkInstant 0) TunnelRun.run_timer
    TunnelRun.clock false 4 (λ _, from_millis 0) None opening.1 opening.2 0 0 0 0 1 (conn_of 7 0) [] hello
    (at_peers None [] hello [] 1000) stream (IoOk None) (at_peers None [] hello [] 1000) (IoOk None)
    (at_peers None [] hello [] 1000) (IoOk 5) (at_peers None [] hello hello 995) kernel1 kernel2 kernel2 0)
    as (sv1 & e2 & el3 & sv3 & d & cn1 & cn3 & dn3 & E1 & E2 & E3 & _ & _ & Hs & _).
  - lia.
  - apply HandoffDemo.awake_world; reflexivity.
  - done.
  - done.
  - reflexivity.
  - by apply client_live.
  - reflexivity.
  - apply handlers_tunnelled.
  - reflexivity.
  - right. reflexivity.
  - reflexivity.
  - done.
  - reflexivity.
  - intros n Hn. reflexivity.
  - reflexivity.
  - discriminate.
  - reflexivity.
  - discriminate.
  - split; vm_compute; reflexivity.
  - apply idle_kernel. by right.
  - lia.
  - vm_compute. reflexivity.
  - exact I.
  - exists sv1, e2, el3, sv3. split; [exact E1|]. split; [exact E2|]. by split.
Defined.

(** The peer of 7 is gone when the one of 8 sends. *)
Lemma tunnel_deadlocks_witness :
  let w := at_peers (Some 7%Z) [hello] [] [] 1000 in
  live 1 1 (conn_of 8 1) (established w) ∧
  conn_event (HO := tunnel_handler connect_timeout parse (mkInstant 0)) 4 1
    (usize_as_i64 (ready_as_usize Ready.readable)) (both, established w) = Panic PDeadlock.
Proof.
  split; [apply other_live|].
  apply (tunnel_deadlocks connect_timeout parse (mkInstant 0) 3 both
    (established (at_peers (Some 7%Z) [hello] [] [] 1000)) 0 1 0 0 1 (conn_of 7 0) (conn_of 8 1) [] hello
    (at_peers (Some 7%Z) [] hello [] 1000) (OtherError 32) (at_peers (Some 7%Z) [] hello [] 1000)).
  - done.
  - by apply client_live.
  - apply other_live.
  - apply handlers_tunnelled.
  - reflexivity.
  - done.
  - reflexivity.
  - reflexivity.
  - discriminate.
Defined.

Lemma tunnel_replies_witness :
  ∃ sv2,
    conn_event (HO := tunnel_handler connect_timeout parse (mkInstant 0)) 4 1
      (usize_as_i64 (ready_as_usize Ready.readable)) (both, established (at_peers None [hello] [] [] 1000)) =
      Done (tt, (both, sv2)) ∧
    system sv2 = at_peers None [] hello hello 995.
Proof.
  destruct (tunnel_replies connect_timeout parse (mkInstant 0) 2 both
    (established (at_peers None [hello] [] [] 1000)) 0 1 0 0 1 (conn_of 7 0) (conn_of 8 1) [] hello
    (at_peers None [] hello [] 1000) (at_peers None [] hello hello 995)) as (sv2 & cn2 & dn2 & E & Hs & _).
  - done.
  - by apply client_live.
  - apply other_live.
  - apply handlers_tunnelled.
  - reflexivity.
  - done.
  - reflexivity.
  - intros n Hn. reflexivity.
  - vm_compute. reflexivity.
  - exists sv2. by split.
Defined.
